(* ===== verification/_CoqProject ===== *)
-Q . S2P
Prelude.v
PyText.v
UnicodeText.v
RateLimiter.v
Asgi.v
HeaderPolicy.v
Sha256.v
JsonText.v
Values.v
Fingerprint.v
FingerprintFacts.v
Models.v
Database.v
Items.v
Idempotency.v
Mutation.v
MutationFacts.v
ItemRoutes.v
MutationTheorems.v
Cleanup.v
Histories.v
RequestPolicy.v
PolicyFacts.v
CorsFacts.v
Stack.v
DatabasePool.v
DatabasePoolFacts.v
Lifecycle.v
LifecycleFacts.v
RequestWork.v
Readiness.v
EnvSettings.v
EnvSettingsFacts.v
Outcome.v
Deadline.v
Router.v
Float64.v
SystemService.v
Json.v
SecurityPolicy.v
ReleaseSource.v
ReleaseOci.v
JsonDump.v
ReleaseCandidate.v
ReleasePublish.v
Logging.v
LoggingFacts.v
HttpServer.v
SecurityScan.v
Schema.v
Transport.v
JsonDumpFacts.v
FormatCode.v
FormatSpec.v
FormatFacts.v
ApiContract.v
EntryPoints.v
Effects.v
TestDatabase.v
ContainerTests.v
RollbackTest.v
ImageTest.v
