(* ===== verification/Prelude.v ===== *)
(** * QuickAPI: a verification library for the FastAPI service

    This library models the service of [src/app] and the release tooling of [src/scripts] and
    proves what makes them correct.  Every definition is translated from the source; the name
    is the source's where Rocq allows it, and each file opens with the modules it models.
    What a library or a tool outside the repository does (FastAPI, Starlette, Pydantic,
    SQLAlchemy, uvicorn, Alembic, Black, Docker, Trivy, the GitHub API, the operating system)
    is an argument of the definitions that use it, quantified over in the theorems, with the
    documented behaviour the code relies on as a named hypothesis.

    ** How the parts interact

    A request passes the layers [create_app] stacks around the router.  The outermost admit it
    and count it as work to drain, clean up after it, establish the client's address, give it a
    context, log and measure it; the policy layers limit its rate, its headers, its time, its
    type, method, origin and body; the router finds the endpoint; a mutation endpoint runs in
    one transaction with the claim of its idempotency key.  The process starts the services
    (database, cleanup of claims), serves, and on a signal drains the work and stops the
    services in reverse order under a watchdog.  The release tooling selects a source, scans
    the dependencies and the image, qualifies a candidate archive and publishes it.

    ** Files

    Foundations, used everywhere: [Prelude] (results and exceptions of Python, association
    lists, automation, the hint database [quickapi]), [PyText] and [UnicodeText] ([str] and
    [bytes]), [Values] (decimals and dynamic values), [Float64] (IEEE doubles), [JsonText]
    (which texts are JSON), [Json], [JsonDump] and [JsonDumpFacts] (decoding, writing, and the
    round trip), [Sha256].

    Requests and their layers ([app/common/middleware], [app/common/handlers]):
    - [Asgi]: the tree of effects of an ASGI program, its runs, the error envelope
      ([models/error_model.py]) and [handlers/exception_handler.py];
    - [HeaderPolicy]: [trusted_proxy.py], [request_header_sanitization.py],
      [request_header_limit.py], [config/http_policy.py];
    - [RequestPolicy] with [PolicyFacts] and [CorsFacts]: [operational_exposure.py],
      [method_whitelist.py], [content_type_enforcement.py], [cors.py], [request_body_limit.py],
      [rate_limit.py], [security_headers.py], [request_context.py], [request_error.py],
      [request_cleanup.py]; [Stack]: their order in [config/application.py];
    - [RateLimiter]: [config/rate_limiter.py], [config/rate_limit_policy.py],
      [common/store/rate_limit.py];
    - [Deadline]: [request_timeout.py]; [Outcome]: [request_outcome.py], [request_logger.py],
      [prometheus_metrics.py];
    - [Router]: [flexible_router.py], [api_routes.py] and the routes of the controllers;
    - [ApiContract]: [docs/openapi.py], the declarations of a keyed route, and
      [query_validation.py].

    Items and mutations:
    - [Models]: [common/models] and the item models; [Database]: sessions, transactions, named
      locks and [request_activity.py] over a world with schedules of faults, clock readings and
      abandonments; [Items]: entities, repository, service and controller of the items;
    - [Fingerprint] with [FingerprintFacts], [Idempotency]: [models/idempotency_model.py],
      [repositories/idempotency_repo.py], [services/idempotency_service.py];
    - [Mutation] with [MutationFacts]: [handlers/application_route.py]; [ItemRoutes]: the item
      endpoints behind the interface [EndpointContract]; [MutationTheorems]: the guarantees;
    - [Cleanup]: [services/idempotency_cleanup_service.py]; [Histories]: the composition.

    The process:
    - [EnvSettings] with [EnvSettingsFacts]: [config/environment.py]; [Logging] with
      [LoggingFacts]: [config/logging.py], [helpers/error_diagnostics.py];
    - [DatabasePool] with [DatabasePoolFacts]: [handlers/database_pool.py]; [Transport]:
      [config/database_transport.py], [config/database.py], [config/event_loop.py];
      [Readiness]: [handlers/database_readiness.py]; [Schema]: [database/migrations/versions],
      [config/migrations.py] and the entities' tables;
    - [Lifecycle] with [LifecycleFacts]: [handlers/lifecycle_handler.py]; [RequestWork]:
      [handlers/request_work.py]; [HttpServer]: [handlers/http_server.py] and the lifespan,
      around both; [EntryPoints]: [main.py] and [database/migrations/env.py];
    - [SystemService]: [api/system].

    The tooling of [scripts]: [SecurityPolicy] ([security_policy.py], [ci_gate.py]),
    [SecurityScan] ([security_scan.py]), [ReleaseSource], [ReleaseOci], [ReleaseCandidate],
    [ReleasePublish] (the scripts of those names), [FormatCode] ([format_code.py]) with
    [FormatSpec] (the rules of [docs/setup.md]) and [FormatFacts].  The scripts that drive containers are programs over an outside that may
    answer anything, which [Effects] gives with its rules: [TestDatabase]
    ([test_database_support.py], [test_db.py], [test_database_tls.py]), [ContainerTests] with
    [ImageTest] ([test_image.py]) and [RollbackTest] ([test_rollback.py]).

    ** How state is modelled

    Sequential code with errors is a function to [result]; an exception is a value of [exn].
    Code that touches the database is a function of [Database.world] and takes a fault, a clock
    reading or an abandonment from a schedule at each await, rolling back and closing the session
    included; the transaction ends even when they fail.  ASGI layers are programs
    ([Asgi.prog]) run against any server.  Code that other tasks may interrupt (the pool, the
    deadline, the lifecycle, the drain, the readiness probe, the server) is a state machine: what
    happens between two awaits is one function, what an await ends with is an event, and the
    theorems hold for every sequence of events.  The release scripts act on a map of files that
    every external tool may change; the scans of [SecurityScan] may also fail to write or to
    remove any of their own files.  An interrupt is an exception that [except Exception]
    does not catch: a script then ends without its failure record, and says so in its result.

    ** What the theorems show

    - Mutations: each is atomic under every schedule and refines its versioned specification;
      a keyed one happens at most once and is replayed, refused or left alone exactly as its
      claim says; every history keeps the tables consistent ([MutationTheorems], [Items],
      [Histories], [Cleanup]).  Fingerprints are equal exactly for inputs that mean the same
      ([FingerprintFacts]); prices are exact cents; pages partition a listing.
    - Requests: one complete response, by the first layer that refuses or by the router; never
      two, even at the deadline; forwarding headers are believed only from trusted peers; bodies
      are bounded; failures are answered once; the limiter refines a sliding-window log; an
      origin is echoed only if allowed; HEAD follows GET; the published contract tells of the
      errors there are and of exactly the keys that are accepted.
    - Process: accepted settings satisfy what the components rely on; pool permits are accounted
      for and waiting calls served; services stop in reverse order and teardown and drain end;
      status 0 only after a clean shutdown; connections are secured or closed; the migrations
      make the mapped tables; log lines are single and hold allowlisted fields only; the
      diagnostics are always within the ranges of their model.
    - Tooling: the gate allows exactly the tolerated reports and a scan leaves a result that its
      evidence supports; only a checked source is released, only a bound candidate accepted, only
      qualified evidence published, and nothing after a failure; what is written as evidence is
      read back; the test commands change no database but the disposable one, whose name, user and
      lock the server confirmed; a rollback is exercised only between retained images of one
      schema and recorded as passed only after all of it, and what was started is removed on
      every path; the formatter separates statements where its rules say, changes nothing else,
      writes only after every file was validated, and settles.

    ** Bounds and fuel

    Machine-independent integers of Python are [Z]; the 32-bit words of SHA-256 wrap around in
    [Sha256].  Times are integers: clock ticks, or microseconds where dates are compared; the
    columns of the items keep whole seconds.
    Recursion on fuel, and why the fuel is enough:
    - [JsonText] and [Json.json_loads]: the length of the text, and twice that plus two; every
      call consumes a character ([Json], "The fuel is enough");
    - [Outcome.route_template] and [Mutation]'s walk over dependencies: the size of the tree;
    - [Router.matches]: depth two, which the routes never exceed;
    - [ReleaseSource.job_pages]: any number of pages once some page is not full;
    - [ReleasePublish]: thirty attempts to reach the registry, the bound of the source;
    - [UnicodeText.uchars], [FormatCode.above_comments], [ApiContract.KeyedRoute.class_items]:
      the characters or lines that are left.

    ** Not modelled

    - The programs [test_image.py] and [test_rollback.py] run inside containers, kept as texts.
    - Declarations without behaviour: imports, type aliases, protocols, the metadata of FastAPI's
      application and the accessors of [app.state].
    - Python's limit on recursion: [JsonDump.dump] writes a value of any depth, where [json.dumps]
      raises; the values the scripts write are at most a few levels deep.
    - The JSON text of a response: [SystemService.system] ends with the validated model, so that
      an infinite load average, which is valid there, is not followed into the renderer.
    - Writing the evidence of a candidate ([ReleaseCandidate]) is assumed to succeed.
    - What a data definition that fails halfway leaves in MySQL, the float rounding of the
      monotonic clock, and what the scripts print. *)
From stdpp Require Export base tactics option list gmap sets strings.
From Stdlib Require Export ZArith Lia Sorted.

(** ** Results: a Python call returns a value or raises. *)
Inductive result (E A : Type) : Type :=
| Ok (a : A)
| Err (e : E).
Arguments Ok {E A} a.
Arguments Err {E A} e.

#[export] Instance result_ret {E} : MRet (result E) := fun A a => Ok a.
#[export] Instance result_bind {E} : MBind (result E) := fun A B f r =>
  match r with Ok a => f a | Err e => Err e end.
#[export] Instance result_fmap {E} : FMap (result E) := fun A B f r =>
  match r with Ok a => Ok (f a) | Err e => Err e end.
#[export] Instance result_eq_dec {E A} `{EqDecision E, EqDecision A} :
  EqDecision (result E A).
Proof. solve_decision. Defined.

Declare Scope quickapi_scope.
Delimit Scope quickapi_scope with qapi.
(** [check b else e ;; k]: the guard-and-raise shape of the source. *)
Notation "'raise_if' b 'with' e ;; k" := (if b then Err e else k)
  (at level 100, b at level 99, e at level 99, k at level 200, right associativity)
  : quickapi_scope.

(** ** Exceptions: the classes the source raises, catches or tests for. *)
Inductive http_class :=
| PlainHTTPException
| RequestExpired                       (* request_activity.RequestExpired *)
| DatabaseUnavailableError (code : string).

(** One entry of [RequestValidationError.errors()]. *)
Record validation_error := mkValidationError {
  ve_type : string;
  ve_loc : list string;
  ve_msg : string
}.

#[export] Instance validation_error_eq_dec : EqDecision validation_error.
Proof. solve_decision. Defined.

Inductive exn :=
| HTTPException (cls : http_class) (status_code : Z) (detail : string)
    (headers : list (string * string))
| RequestValidationError (errors : list validation_error)
| PydanticError (kind msg : string)     (* PydanticCustomError / ValidationError *)
| RuntimeError (msg : string)
| ValueError (msg : string)
| TypeError (msg : string)
| ArithmeticError                       (* decimal.InvalidOperation *)
| IndexError
| KeyError (key : string)
| AttributeError
| StopIteration
| UnicodeDecodeError
| OSError
| TimeoutError
| DBAPIError
| CancelledError.

#[export] Instance http_class_eq_dec : EqDecision http_class.
Proof. solve_decision. Defined.
#[export] Instance exn_eq_dec : EqDecision exn.
Proof. solve_decision. Defined.

(** [except Exception]: asyncio's [CancelledError] is a [BaseException] only; in the
    scripts, which run no event loop, it stands for the other ones, [KeyboardInterrupt]
    among them. *)
Definition is_Exception (e : exn) : bool :=
  match e with CancelledError => false | _ => true end.

(** [except ValueError]: [UnicodeDecodeError] is a subclass of it. *)
Definition is_ValueError (e : exn) : bool :=
  match e with ValueError _ | UnicodeDecodeError => true | _ => false end.

(** [except OSError]: [TimeoutError] is a subclass of it. *)
Definition is_OSError (e : exn) : bool :=
  match e with OSError | TimeoutError => true | _ => false end.

(** [except TimeoutError: raise] before [except OSError]: the transport failed. *)
Definition is_transport_error (e : exn) : bool :=
  match e with OSError => true | _ => false end.

Abbreviation py A := (result exn A) (only parsing).

Definition is_ok {E A} (r : result E A) : bool :=
  match r with Ok _ => true | Err _ => false end.

Lemma bind_Ok {E A B} (m : result E A) (f : A → result E B) b :
  mbind f m = Ok b ↔ ∃ a, m = Ok a ∧ f a = Ok b.
Proof. destruct m as [a|e]; simpl; naive_solver. Qed.

(** ** Automation *)
(** Every [x ← m; k] that returned a value: [m] did, and [k] of it. *)
Ltac inv_binds :=
  repeat match goal with
  | H : mbind _ _ = Ok _ |- _ =>
      let a := fresh "a" in let Ha := fresh "Ha" in apply bind_Ok in H as (a & Ha & H)
  end.

Create HintDb quickapi discriminated.

(** Case analysis on every [match]/[if] that blocks the goal or a hypothesis. *)
Ltac split_matches :=
  repeat (first [progress simplify_eq/= | case_match | case_decide]).

(** Turn boolean comparisons into propositions, then arithmetic. *)
Ltac reflect_bools :=
  repeat match goal with
  | H : _ && _ = true |- _ => apply andb_true_iff in H as [? ?]
  | H : _ && _ = false |- _ => apply andb_false_iff in H
  | H : _ || _ = false |- _ => apply orb_false_iff in H as [? ?]
  | H : _ || _ = true |- _ => apply orb_true_iff in H
  | H : negb _ = true |- _ => apply negb_true_iff in H
  | H : negb _ = false |- _ => apply negb_false_iff in H
  | H : (_ <? _)%Z = true |- _ => apply Z.ltb_lt in H
  | H : (_ <? _)%Z = false |- _ => apply Z.ltb_ge in H
  | H : (_ <=? _)%Z = true |- _ => apply Z.leb_le in H
  | H : (_ <=? _)%Z = false |- _ => apply Z.leb_gt in H
  | H : (_ =? _)%Z = true |- _ => apply Z.eqb_eq in H
  | H : (_ =? _)%Z = false |- _ => apply Z.eqb_neq in H
  | H : (_ =? _)%nat = true |- _ => apply Nat.eqb_eq in H
  | H : (_ =? _)%nat = false |- _ => apply Nat.eqb_neq in H
  | H : (_ <=? _)%nat = true |- _ => apply Nat.leb_le in H
  | H : (_ <=? _)%nat = false |- _ => apply Nat.leb_gt in H
  | H : bool_decide _ = true |- _ => apply bool_decide_eq_true in H
  | H : bool_decide _ = false |- _ => apply bool_decide_eq_false in H
  end.
Ltac zify_bools := reflect_bools; try lia.

(** ** Association lists in insertion order: a Python [dict] whose order is
    observed. *)
Section assoc.
Context {K V : Type} `{EqDecision K}.

Fixpoint assoc_get (k : K) (l : list (K * V)) : option V :=
  match l with
  | [] => None
  | (k', v) :: l' => if decide (k = k') then Some v else assoc_get k l'
  end.

(** [d[k] = v]: in place when present, appended otherwise. *)
Fixpoint assoc_set (k : K) (v : V) (l : list (K * V)) : list (K * V) :=
  match l with
  | [] => [(k, v)]
  | (k', v') :: l' =>
      if decide (k = k') then (k, v) :: l' else (k', v') :: assoc_set k v l'
  end.

Fixpoint assoc_del (k : K) (l : list (K * V)) : list (K * V) :=
  match l with
  | [] => []
  | (k', v') :: l' => if decide (k = k') then l' else (k', v') :: assoc_del k l'
  end.

Lemma assoc_get_set_eq k v l : assoc_get k (assoc_set k v l) = Some v.
Proof. induction l as [|[k' v'] l IH]; simpl; repeat case_decide; simpl;
  rewrite ?decide_True by done; try done; by rewrite decide_False. Qed.

Lemma assoc_get_set_ne k k' v l :
  k ≠ k' → assoc_get k (assoc_set k' v l) = assoc_get k l.
Proof.
  intros Hne. induction l as [|[k1 v1] l IH]; simpl; repeat case_decide; simpl;
    subst; repeat case_decide; simplify_eq; auto.
Qed.

Lemma assoc_get_elem k v l : assoc_get k l = Some v → (k, v) ∈ l.
Proof.
  induction l as [|[k' v'] l IH]; simpl; [done|].
  case_decide; intros ?; simplify_eq; set_solver.
Qed.

Lemma assoc_get_none k l : assoc_get k l = None ↔ k ∉ l.*1.
Proof.
  induction l as [|[k' v'] l IH]; simpl.
  - split; [intros _; set_solver|done].
  - case_decide; rewrite ?not_elem_of_cons; subst; [naive_solver|].
    rewrite IH. naive_solver.
Qed.

Lemma assoc_del_notin k l : k ∉ l.*1 → assoc_del k l = l.
Proof.
  induction l as [|[k' v'] l IH]; simpl; [done|].
  rewrite not_elem_of_cons. intros [??]. rewrite decide_False by done.
  f_equal; auto.
Qed.

Lemma assoc_del_subseteq k l x : x ∈ assoc_del k l → x ∈ l.
Proof.
  induction l as [|[k' v'] l IH]; simpl; [done|].
  case_decide; rewrite ?elem_of_cons; naive_solver.
Qed.

Lemma assoc_get_del_ne k k' l :
  k ≠ k' → assoc_get k (assoc_del k' l) = assoc_get k l.
Proof.
  intros Hne. induction l as [|[k1 v1] l IH]; simpl; [done|].
  repeat case_decide; simplify_eq; simpl; repeat case_decide; auto; done.
Qed.

Lemma assoc_del_NoDup k l : NoDup l.*1 → NoDup (assoc_del k l).*1 ∧ k ∉ (assoc_del k l).*1.
Proof.
  induction l as [|[k' v'] l IH]; simpl; [split; [done|set_solver]|].
  rewrite NoDup_cons. intros [Hn Hl]. destruct (IH Hl) as [IH1 IH2].
  case_decide; subst; [done|]. simpl. rewrite NoDup_cons, not_elem_of_cons.
  split_and!; auto.
  intros [[k2 v2] [-> Hin]]%list_elem_of_fmap. apply Hn, list_elem_of_fmap.
  exists (k2, v2). split; [done|]. eauto using assoc_del_subseteq.
Qed.
End assoc.

(** ** Sorted lists of times *)
Lemma StronglySorted_snoc {A} (R : A → A → Prop) l x :
  StronglySorted R l → Forall (λ y, R y x) l → StronglySorted R (l ++ [x]).
Proof.
  induction 1 as [|y l Hl IH Hy]; simpl; intros Hx.
  - repeat constructor.
  - apply Forall_cons in Hx as [? ?]. constructor; [by apply IH|].
    apply Forall_app; auto.
Qed.

Lemma StronglySorted_filter {A} (R : A → A → Prop) (P : A → Prop)
    `{∀ x, Decision (P x)} l :
  StronglySorted R l → StronglySorted R (filter P l).
Proof.
  induction 1 as [|y l Hl IH Hy]; simpl; [constructor|].
  rewrite filter_cons. case_decide; [|done].
  constructor; [done|]. apply Forall_forall. intros z Hz.
  apply list_elem_of_filter in Hz as [_ Hz]. rewrite Forall_forall in Hy. auto.
Qed.

Lemma filter_all {A} (P : A → Prop) `{∀ x, Decision (P x)} (l : list A) :
  Forall P l → filter P l = l.
Proof. induction 1; [done|]. rewrite filter_cons, decide_True by done. by f_equal. Qed.

Lemma filter_none {A} (P : A → Prop) `{∀ x, Decision (P x)} (l : list A) :
  Forall (λ x, ¬ P x) l → filter P l = [].
Proof. induction 1; [done|]. by rewrite filter_cons, decide_False by done. Qed.

Lemma filter_snoc {A} (P : A → Prop) `{∀ x, Decision (P x)} (l : list A) x :
  filter P (l ++ [x]) = filter P l ++ (if decide (P x) then [x] else []).
Proof. by rewrite filter_app. Qed.

Lemma filter_filter_sub {A} (P Q : A → Prop) `{∀ x, Decision (P x)}
    `{∀ x, Decision (Q x)} (l : list A) :
  (∀ x, Q x → P x) → filter Q (filter P l) = filter Q l.
Proof.
  intros HQP. induction l as [|x l IH]; [done|].
  rewrite filter_cons. destruct (decide (P x)) as [HP|HP].
  - rewrite !filter_cons, IH. done.
  - rewrite IH, (filter_cons Q). rewrite decide_False; naive_solver.
Qed.

Lemma StronglySorted_last (l : list Z) x :
  StronglySorted Z.le l → last l = Some x → Forall (λ y, (y ≤ x)%Z) l.
Proof.
  induction 1 as [|y l Hl IH Hy]; [done|]. intros Hlast.
  destruct l as [|z l]; simpl in Hlast; simplify_eq; [by repeat constructor|].
  specialize (IH Hlast). constructor; [|done].
  apply Forall_cons in Hy as [? _]. apply Forall_cons in IH as [? _]. lia.
Qed.

Section assoc_filter.
Context {K V : Type} `{EqDecision K}.

Lemma assoc_get_filter (P : K * V → Prop) `{∀ x, Decision (P x)} k (l : list (K * V)) :
  NoDup l.*1 →
  assoc_get k (filter P l)
  = match assoc_get k l with
    | Some v => if decide (P (k, v)) then Some v else None
    | None => None
    end.
Proof.
  induction l as [|[k' v'] l IH]; simpl; [done|].
  rewrite NoDup_cons. intros [Hn Hl]. rewrite filter_cons.
  case_decide as HP; simpl; case_decide as Hk; subst; rewrite ?decide_True by done; auto.
  - rewrite decide_False by done. rewrite IH by done.
    apply assoc_get_none in Hn. by rewrite Hn.
Qed.

Lemma assoc_set_keys (k : K) (v : V) l :
  (assoc_set k v l).*1 = if decide (k ∈ l.*1) then l.*1 else l.*1 ++ [k].
Proof.
  induction l as [|[k' v'] l IH]; simpl; [done|].
  destruct (decide (k = k')) as [->|Hk]; csimpl.
  - rewrite decide_True; [done|]. apply elem_of_cons. by left.
  - rewrite IH. destruct (decide (k ∈ l.*1)), (decide (k ∈ k' :: l.*1)) as [Hk'|Hk'];
      rewrite elem_of_cons in Hk'; naive_solver.
Qed.

Lemma assoc_del_set (k : K) (v : V) l :
  NoDup l.*1 → assoc_del k (assoc_set k v l) = assoc_del k l.
Proof.
  induction l as [|[k' v'] l IH]; simpl; [by rewrite decide_True|].
  rewrite NoDup_cons. intros [??].
  case_decide; simpl; rewrite ?decide_True by done; [done|].
  rewrite decide_False by done. f_equal; auto.
Qed.

Lemma assoc_get_in_NoDup (k : K) (v : V) l :
  NoDup l.*1 → (k, v) ∈ l → assoc_get k l = Some v.
Proof.
  induction l as [|[k' v'] l IH]; simpl; [set_solver|].
  rewrite NoDup_cons, elem_of_cons. intros [Hn ?] [?|Hin]; simplify_eq.
  - by rewrite decide_True.
  - rewrite decide_False; [auto|]. intros ->. apply Hn, list_elem_of_fmap.
    by exists (k', v).
Qed.
End assoc_filter.

(** A filtered or shortened sorted list of pairs stays sorted. *)
Lemma StronglySorted_sublist {A} (R : A → A → Prop) l k :
  sublist l k → StronglySorted R k → StronglySorted R l.
Proof.
  induction 1 as [|x l k Hs IH|x l k Hs IH]; intros Hk; [constructor| |];
    apply StronglySorted_inv in Hk as [Hk Hx]; [|by auto].
  constructor; [auto|]. rewrite Forall_forall in Hx |- *. intros y Hy.
  apply Hx. eapply elem_of_sublist; eauto.
Qed.

Lemma Forall_sublist {A} (P : A → Prop) l k : sublist l k → Forall P k → Forall P l.
Proof. rewrite !Forall_forall. eauto using elem_of_sublist. Qed.

Lemma last_filter {A} (P : A → Prop) `{∀ x, Decision (P x)} (l : list A) x :
  last l = Some x → P x → last (filter P l) = Some x.
Proof.
  intros [l' ->]%last_Some HP. rewrite filter_snoc, decide_True by done.
  apply last_snoc.
Qed.

Section assoc_more.
Context {K V : Type} `{EqDecision K}.

Lemma assoc_get_snoc (k k' : K) (v : V) l :
  assoc_get k (l ++ [(k', v)])
  = match assoc_get k l with
    | Some v' => Some v'
    | None => if decide (k = k') then Some v else None
    end.
Proof.
  induction l as [|[k1 v1] l IH]; simpl; [done|].
  by destruct (decide (k = k1)).
Qed.

Lemma assoc_del_sublist (k : K) (l : list (K * V)) : sublist (assoc_del k l) l.
Proof.
  induction l as [|[k' v'] l IH]; simpl; [done|].
  case_decide; [by constructor|by constructor].
Qed.

Lemma assoc_set_NoDup (k : K) (v : V) l : NoDup l.*1 → NoDup (assoc_set k v l).*1.
Proof.
  intros. rewrite assoc_set_keys. case_decide; [done|].
  apply NoDup_app. split_and!; [done|set_solver|apply NoDup_singleton].
Qed.

Lemma assoc_set_Forall (P : K * V → Prop) k v l :
  P (k, v) → Forall P l → Forall P (assoc_set k v l).
Proof.
  intros Hkv. induction 1 as [|[k' v'] l ? ? IH]; simpl; [by repeat constructor|].
  case_decide; constructor; auto.
Qed.

Lemma length_assoc_set_known (k : K) (v v' : V) l :
  assoc_get k l = Some v → length (assoc_set k v' l) = length l.
Proof. induction l as [|[k1 v1] l IH]; simpl; [done|]. case_decide; simpl; auto. Qed.

Lemma length_assoc_del (k : K) (v : V) l :
  assoc_get k l = Some v → S (length (assoc_del k l)) = length l.
Proof. induction l as [|[k1 v1] l IH]; simpl; [done|]. case_decide; simpl; auto. Qed.
End assoc_more.
