(* ===== verification/PyText.v ===== *)
(** * Python text and bytes

    [bytes] is a [string] of octets.  [str] is its UTF-8 encoding, as a [string] of
    octets too: concatenation, equality, prefix tests, splitting at an ASCII character
    and code point order are the same on both sides.  Case mapping and whitespace
    stripping are those of ASCII: the source applies them to header text, which the
    sanitizer has made ASCII, and to paths it compares with ASCII literals that no
    non-ASCII character lowers to. *)
From S2P Require Import Prelude.
From stdpp Require Export pretty.
From Stdlib Require Export Ascii.
Open Scope Z_scope.

Definition octet (c : ascii) : Z := Z.of_nat (Ascii.nat_of_ascii c).
Definition of_octet (z : Z) : ascii := Ascii.ascii_of_nat (Z.to_nat z).

Definition in_range (a b : Z) (c : ascii) : bool := (a <=? octet c) && (octet c <=? b).
Definition is_ascii_char (c : ascii) : bool := octet c <? 128.
Definition is_digit : ascii → bool := in_range 48 57.
Definition is_lower_alpha : ascii → bool := in_range 97 122.
Definition is_upper_alpha : ascii → bool := in_range 65 90.

(** Whitespace of [str.strip()] among the ASCII characters. *)
Definition is_space (c : ascii) : bool :=
  in_range 9 13 c || in_range 28 32 c.

Definition lower_char (c : ascii) : ascii :=
  if is_upper_alpha c then of_octet (octet c + 32) else c.
Definition upper_char (c : ascii) : ascii :=
  if is_lower_alpha c then of_octet (octet c - 32) else c.

Fixpoint str_map (f : ascii → ascii) (s : string) : string :=
  match s with
  | EmptyString => EmptyString
  | String c s' => String (f c) (str_map f s')
  end.

Fixpoint str_all (P : ascii → bool) (s : string) : bool :=
  match s with
  | EmptyString => true
  | String c s' => P c && str_all P s'
  end.

Definition str_any (P : ascii → bool) (s : string) : bool := negb (str_all (negb ∘ P) s).

Definition lower : string → string := str_map lower_char.
Definition upper : string → string := str_map upper_char.
Definition is_ascii : string → bool := str_all is_ascii_char.
Definition blen (s : string) : Z := Z.of_nat (String.length s).

(** [len(str)]: code points, that is octets that are not continuation octets. *)
Fixpoint ulen (s : string) : Z :=
  match s with
  | EmptyString => 0
  | String c s' => (if in_range 128 191 c then 0 else 1) + ulen s'
  end.

Definition starts_with (pre s : string) : bool := String.prefix pre s.

Fixpoint drop_str (n : nat) (s : string) : string :=
  match n, s with
  | S n', String _ s' => drop_str n' s'
  | _, _ => s
  end.

(** [s.split(c)] for one ASCII separator. *)
Fixpoint split_on (c : ascii) (s : string) : list string :=
  match s with
  | EmptyString => [EmptyString]
  | String d s' =>
      if Ascii.eqb d c then EmptyString :: split_on c s'
      else match split_on c s' with
           | [] => [String d EmptyString]
           | w :: ws => String d w :: ws
           end
  end.

Fixpoint join (sep : string) (l : list string) : string :=
  match l with
  | [] => EmptyString
  | [s] => s
  | s :: l' => s +:+ sep +:+ join sep l'
  end.

Fixpoint lstrip_when (P : ascii → bool) (s : string) : string :=
  match s with
  | EmptyString => EmptyString
  | String c s' => if P c then lstrip_when P s' else s
  end.

Fixpoint rstrip_when (P : ascii → bool) (s : string) : string :=
  match s with
  | EmptyString => EmptyString
  | String c s' =>
      match rstrip_when P s' with
      | EmptyString => if P c then EmptyString else String c EmptyString
      | t => String c t
      end
  end.

Definition strip (s : string) : string := rstrip_when is_space (lstrip_when is_space s).
Definition rstrip_char (c : ascii) (s : string) : string := rstrip_when (Ascii.eqb c) s.

Definition mem_char (c : ascii) (s : string) : bool := str_any (Ascii.eqb c) s.

(** [sub in s] *)
Fixpoint contains (sub s : string) : bool :=
  starts_with sub s ||
  match s with EmptyString => false | String _ s' => contains sub s' end.

(** [bytes.decode('ascii')] *)
Definition decode_ascii (s : string) : py string :=
  if is_ascii s then Ok s else Err UnicodeDecodeError.

(** [bytes.decode()]: UTF-8 validity, as the standard library checks it. *)
Fixpoint utf8_valid (s : string) : bool :=
  match s with
  | EmptyString => true
  | String a s1 =>
      if is_ascii_char a then utf8_valid s1
      else match s1 with
      | EmptyString => false
      | String b s2 =>
          if in_range 194 223 a then in_range 128 191 b && utf8_valid s2
          else match s2 with
          | EmptyString => false
          | String c s3 =>
              if in_range 224 239 a then
                (if octet a =? 224 then in_range 160 191 b
                 else if octet a =? 237 then in_range 128 159 b
                 else in_range 128 191 b)
                && in_range 128 191 c && utf8_valid s3
              else match s3 with
              | EmptyString => false
              | String d s4 =>
                  in_range 240 244 a
                  && (if octet a =? 240 then in_range 144 191 b
                      else if octet a =? 244 then in_range 128 143 b
                      else in_range 128 191 b)
                  && in_range 128 191 c && in_range 128 191 d && utf8_valid s4
              end
          end
      end
  end.

Definition decode_utf8 (s : string) : py string :=
  if utf8_valid s then Ok s else Err UnicodeDecodeError.

(** [int(s)] of an ASCII text: optional sign and decimal digits, surrounding blanks and
    single underscores between digits allowed. *)
Definition digit_value (c : ascii) : Z := octet c - 48.

Fixpoint parse_digits (acc : Z) (after_digit : bool) (s : string) : option Z :=
  match s with
  | EmptyString => if after_digit then Some acc else None
  | String c s' =>
      if is_digit c then parse_digits (10 * acc + digit_value c) true s'
      else if Ascii.eqb c "_"%char && after_digit then parse_digits acc false s'
      else None
  end.

Fixpoint digit_count (s : string) : Z :=
  match s with
  | EmptyString => 0
  | String c s' => (if is_digit c then 1 else 0) + digit_count s'
  end.

Definition parse_int (s : string) : py Z :=
  let t := strip s in
  let r := match t with
           | String "-"%char u => Z.opp <$> parse_digits 0 false u
           | String "+"%char u => parse_digits 0 false u
           | _ => parse_digits 0 false t
           end in
  match r with
  | Some z =>
      if 4300 <? digit_count t                (* sys.get_int_max_str_digits() *)
      then Err (ValueError "Exceeds the limit (4300 digits) for integer string conversion")
      else Ok z
  | None => Err (ValueError "invalid literal for int()")
  end.

(** ** Lemmas *)
Lemma octet_range c : 0 ≤ octet c < 256.
Proof. unfold octet. pose proof (Ascii.nat_ascii_bounded c). lia. Qed.

Lemma octet_inj c d : octet c = octet d → c = d.
Proof.
  unfold octet. intros H%Nat2Z.inj.
  rewrite <-(Ascii.ascii_nat_embedding c), <-(Ascii.ascii_nat_embedding d). congruence.
Qed.

Lemma octet_of_octet z : 0 ≤ z < 256 → octet (of_octet z) = z.
Proof.
  intros. unfold octet, of_octet. rewrite Ascii.nat_ascii_embedding by lia. lia.
Qed.

Lemma in_range_spec a b c : in_range a b c = true ↔ a ≤ octet c ≤ b.
Proof. unfold in_range. rewrite andb_true_iff, !Z.leb_le. done. Qed.

Lemma lower_char_idemp c : lower_char (lower_char c) = lower_char c.
Proof.
  unfold lower_char at 2 3. unfold is_upper_alpha. destruct (in_range 65 90 c) eqn:E.
  - apply in_range_spec in E. unfold lower_char, is_upper_alpha.
    destruct (in_range 65 90 _) eqn:E'; [|done].
    apply in_range_spec in E'. rewrite octet_of_octet in E' by lia. lia.
  - unfold lower_char, is_upper_alpha. by rewrite E.
Qed.

Lemma str_map_all f P s : (∀ c, P (f c) = true) → str_all P (str_map f s) = true.
Proof. intros H. induction s as [|c s IH]; simpl; [done|]. by rewrite H, IH. Qed.

Lemma str_all_impl (P Q : ascii → bool) s :
  (∀ c, P c = true → Q c = true) → str_all P s = true → str_all Q s = true.
Proof.
  intros HPQ. induction s as [|c s IH]; simpl; [done|].
  rewrite !andb_true_iff. naive_solver.
Qed.

Lemma str_all_ext P Q s : (∀ c, P c = Q c) → str_all P s = str_all Q s.
Proof. intros H. induction s as [|c s IH]; [done|]. cbn. by rewrite H, IH. Qed.

Lemma mem_char_cons c d s : mem_char c (String d s) = Ascii.eqb c d || mem_char c s.
Proof. unfold mem_char, str_any. simpl. rewrite negb_andb. unfold compose. by rewrite negb_involutive. Qed.

Lemma str_all_app P s t : str_all P (s +:+ t) = str_all P s && str_all P t.
Proof. induction s as [|c s IH]; simpl; [done|]. by rewrite IH, andb_assoc. Qed.

Lemma lower_idemp s : lower (lower s) = lower s.
Proof.
  unfold lower. induction s as [|c s IH]; simpl; [done|].
  by rewrite lower_char_idemp, IH.
Qed.

Lemma lower_char_ascii c : is_ascii_char (lower_char c) = is_ascii_char c.
Proof.
  unfold lower_char, is_upper_alpha, is_ascii_char.
  destruct (in_range 65 90 c) eqn:E; [|done]. apply in_range_spec in E.
  rewrite octet_of_octet by lia.
  rewrite (proj2 (Z.ltb_lt (octet c + 32) 128)), (proj2 (Z.ltb_lt (octet c) 128)); lia.
Qed.

Lemma is_ascii_utf8 s : is_ascii s = true → utf8_valid s = true.
Proof.
  unfold is_ascii. induction s as [|c s IH]; simpl; [done|].
  rewrite andb_true_iff. intros [-> ?]. auto.
Qed.

Lemma ulen_ascii s : is_ascii s = true → ulen s = blen s.
Proof.
  unfold is_ascii, blen. induction s as [|c s IH]; [done|]. simpl str_all.
  rewrite andb_true_iff. intros [Hc Hs]. cbn [ulen String.length]. rewrite IH by done.
  unfold is_ascii_char in Hc. apply Z.ltb_lt in Hc.
  destruct (in_range 128 191 c) eqn:E; [apply in_range_spec in E; lia|lia].
Qed.

Lemma blen_app s t : blen (s +:+ t) = blen s + blen t.
Proof.
  unfold blen. induction s as [|c s IH]; [done|].
  change (String c s +:+ t) with (String c (s +:+ t)). cbn [String.length]. lia.
Qed.

Lemma starts_with_app pre s : starts_with pre (pre +:+ s) = true.
Proof.
  unfold starts_with. induction pre as [|c pre IH]; simpl; [by destruct s|].
  by destruct (Ascii.ascii_dec c c).
Qed.

(** ** Concatenation *)
Lemma str_app_assoc (a b c : string) : (a +:+ b) +:+ c = a +:+ (b +:+ c).
Proof. induction a as [|x a IH]; [done|]. change (String x ((a +:+ b) +:+ c) = String x (a +:+ (b +:+ c))). by rewrite IH. Qed.

Lemma str_app_nil (a : string) : a +:+ "" = a.
Proof. induction a as [|x a IH]; [done|]. change (String x (a +:+ "") = String x a). by rewrite IH. Qed.

Lemma str_cons_app c (a b : string) : String c a +:+ b = String c (a +:+ b).
Proof. done. Qed.

Lemma length_str_app a b : String.length (a +:+ b) = (String.length a + String.length b)%nat.
Proof. induction a as [|c a IH]; [done|]. rewrite str_cons_app. simpl. by rewrite IH. Qed.

Lemma mem_char_app c a b : mem_char c (a +:+ b) = mem_char c a || mem_char c b.
Proof.
  induction a as [|x a IH]; [done|]. by rewrite str_cons_app, !mem_char_cons, IH, orb_assoc.
Qed.
