(* ===== verification/UnicodeText.v ===== *)
(** * Unicode text

    A [str] is the UTF-8 encoding of its code points ([PyText]); the release tooling
    ([scripts/]) applies to it the operations of [str] that look at code points beyond
    ASCII: stripping, splitting into lines, and lower casing of the names it compares
    with ASCII ones.  Lone surrogates are encoded as the three octets they would have. *)
From S2P Require Import Prelude PyText.
Open Scope Z_scope.

(** How many octets the code point that starts with [c] has. *)
Definition width (c : ascii) : nat :=
  if octet c <? 194 then 1 else if octet c <? 224 then 2 else if octet c <? 240 then 3 else 4.

Fixpoint take_octets (n : nat) (s : string) : string :=
  match n, s with
  | S n, String c s' => String c (take_octets n s')
  | _, _ => EmptyString
  end.

(** The code points of a text, each as the text of one. *)
Fixpoint uchars_go (fuel : nat) (s : string) : list string :=
  match fuel, s with
  | S fuel, String c _ => take_octets (width c) s :: uchars_go fuel (drop_str (width c) s)
  | _, _ => []
  end.
Definition uchars (s : string) : list string := uchars_go (String.length s) s.

Definition octets (l : list Z) : string := foldr (λ z s, String (of_octet z) s) EmptyString l.

(** [str.isspace()] of one code point. *)
Definition wide_spaces : list string :=
  octets <$> ([[194; 133]; [194; 160]; [225; 154; 128]; [226; 128; 168]; [226; 128; 169];
               [226; 128; 175]; [226; 129; 159]; [227; 128; 128]]
              ++ ((λ n, [226; 128; 128 + Z.of_nat n]) <$> seq 0 11)).
Definition is_uspace (c : string) : bool :=
  match c with
  | String a EmptyString => is_space a
  | _ => bool_decide (c ∈ wide_spaces)
  end.

(** The line boundaries of [str.splitlines()]; a carriage return and its line feed are
    one boundary, which an empty line more does not change for the callers here. *)
Definition is_ubreak (c : string) : bool :=
  match c with
  | String a EmptyString => in_range 10 13 a || in_range 28 30 a
  | _ => bool_decide (c ∈ octets <$> [[194; 133]; [226; 128; 168]; [226; 128; 169]])
  end.

Fixpoint drop_spaces (l : list string) : list string :=
  match l with
  | c :: l' => if is_uspace c then drop_spaces l' else l
  | [] => []
  end.
Definition concat_text (l : list string) : string := foldr (λ a b, a +:+ b) EmptyString l.

Definition ustrip (s : string) : string :=
  concat_text (rev (drop_spaces (rev (drop_spaces (uchars s))))).

(** [not value.strip()] *)
Definition is_blank (s : string) : bool := forallb is_uspace (uchars s).

Fixpoint split_lines_go (l : list string) (line : string) : list string :=
  match l with
  | [] => if String.eqb line "" then [] else [line]
  | c :: l' => if is_ubreak c then line :: split_lines_go l' EmptyString
               else split_lines_go l' (line +:+ c)
  end.
Definition usplitlines (s : string) : list string := split_lines_go (uchars s) EmptyString.

(** [str.lower()], as far as equality with an ASCII text tells: among the other code
    points only the Kelvin sign lowers to an ASCII character. *)
Definition kelvin : string := octets [226; 132; 170].
Definition ulower (s : string) : string :=
  concat_text ((λ c, if String.eqb c kelvin then "k" else lower c) <$> uchars s).

(** ** Lemmas *)
Lemma take_drop_octets n s : take_octets n s +:+ drop_str n s = s.
Proof.
  revert s. induction n as [|n IH]; intros s; [done|]. destruct s as [|c s]; [done|].
  change (String c (take_octets n s +:+ drop_str n s) = String c s). by rewrite IH.
Qed.

Lemma length_drop_str n s : String.length (drop_str n s) = (String.length s - n)%nat.
Proof.
  revert s. induction n as [|n IH]; intros s; simpl; [lia|]. destruct s as [|c s]; [done|]. apply IH.
Qed.

Lemma width_pos c : (0 < width c)%nat.
Proof. unfold width. repeat case_match; lia. Qed.

(** The code points are the text. *)
Lemma concat_uchars s : concat_text (uchars s) = s.
Proof.
  unfold uchars.
  assert (∀ n t, (String.length t ≤ n)%nat → concat_text (uchars_go n t) = t) as H; [|by apply H].
  induction n as [|n IH]; intros t Ht; destruct t as [|c t]; simpl in *; try done; [lia|].
  rewrite <-(take_drop_octets (width c) (String c t)) at 3. f_equal. apply IH.
  pose proof (length_drop_str (width c) (String c t)) as Hl. simpl in Hl. rewrite Hl.
  pose proof (width_pos c). lia.
Qed.

(** Which lists are the code points of a text: each complete, the last one perhaps cut. *)
Inductive characters : list string → Prop :=
| characters_nil : characters []
| characters_last a s : (String.length (String a s) ≤ width a)%nat → characters [String a s]
| characters_cons a s l :
    String.length (String a s) = width a → characters l → characters (String a s :: l).

Lemma take_octets_all n s : (String.length s ≤ n)%nat → take_octets n s = s ∧ drop_str n s = "".
Proof.
  revert s. induction n as [|n IH]; intros [|c s] Hn; simpl in *; try done; try lia.
  destruct (IH s) as [-> ->]; [lia|done].
Qed.

Lemma take_octets_app a b : take_octets (String.length a) (a +:+ b) = a ∧ drop_str (String.length a) (a +:+ b) = b.
Proof.
  induction a as [|c a [IH1 IH2]]; [by destruct b|].
  change (String c a +:+ b) with (String c (a +:+ b)). simpl. by rewrite IH1, IH2.
Qed.

Lemma length_take_octets n s : (n ≤ String.length s)%nat → String.length (take_octets n s) = n.
Proof. revert s. induction n as [|n IH]; intros [|c s] Hn; simpl in *; try done; try lia. by rewrite IH by lia. Qed.

Lemma uchars_characters s : characters (uchars s).
Proof.
  unfold uchars. assert (∀ n t, (String.length t ≤ n)%nat → characters (uchars_go n t)) as H; [|by apply H].
  induction n as [|n IH]; intros [|c t] Ht;
    [constructor|simpl in Ht; lia|constructor|].
  cbn [uchars_go]. pose proof (width_pos c) as Hw.
  pose proof (length_drop_str (width c) (String c t)) as Hd.
  destruct (width c) as [|w] eqn:E; [lia|]. cbn [take_octets].
  destruct (Nat.le_gt_cases (String.length t) w) as [Hle|Hgt].
  - destruct (take_octets_all w t Hle) as [-> H2]. cbn [drop_str]. rewrite H2.
    destruct n; simpl; apply characters_last; simpl; lia.
  - apply characters_cons; [simpl; rewrite length_take_octets; lia|].
    apply IH. cbn [String.length] in Hd, Ht. lia.
Qed.

Lemma uchars_concat l : characters l → uchars (concat_text l) = l.
Proof.
  intros Hl. unfold uchars.
  assert (∀ n, (String.length (concat_text l) ≤ n)%nat → uchars_go n (concat_text l) = l) as H; [|by apply H].
  induction Hl as [|a s Hw|a s l Hw Hl IH]; intros n Hn; [by destruct n| |]; simpl in Hn.
  - rewrite str_app_nil in *. destruct n as [|n]; [lia|]. cbn [uchars_go concat_text foldr].
    change (String a s +:+ "") with (String a (s +:+ "")). rewrite str_app_nil.
    destruct (take_octets_all (width a) (String a s) Hw) as [-> ->]. by destruct n.
  - change (concat_text (String a s :: l)) with (String a s +:+ concat_text l).
    destruct n as [|n]; [lia|]. change (String a s +:+ concat_text l) with (String a (s +:+ concat_text l)).
    cbn [uchars_go]. rewrite <-Hw. change (String a (s +:+ concat_text l)) with (String a s +:+ concat_text l).
    destruct (take_octets_app (String a s) (concat_text l)) as [-> ->]. f_equal. apply IH.
    rewrite length_str_app in Hn. lia.
Qed.

Lemma characters_suffix p l : characters (p ++ l) → characters l.
Proof.
  induction p as [|c p IH]; [done|]. intros H. apply IH. simpl in H.
  inversion H; [|done]. constructor.
Qed.

Lemma characters_prefix l q : characters (l ++ q) → characters l.
Proof.
  induction l as [|c l IH]; [constructor|]. intros H. simpl in H. inversion H as [|a s Hw E|a s l' Hw Hl E].
  - assert (l = []) as -> by (by destruct l). by apply characters_last.
  - apply characters_cons; [done|by apply IH].
Qed.

Lemma drop_spaces_suffix l : ∃ p, l = p ++ drop_spaces l ∧ Forall (λ c, is_uspace c = true) p.
Proof.
  induction l as [|c l (p & E & Hp)]; simpl; [by exists []|].
  destruct (is_uspace c) eqn:Ec; [|by exists []]. exists (c :: p). split; [by rewrite E at 1|by constructor].
Qed.

Lemma drop_spaces_head l :
  match drop_spaces l with [] => True | c :: _ => is_uspace c = false end.
Proof. induction l as [|c l IH]; simpl; [done|]. by destruct (is_uspace c) eqn:E. Qed.

Lemma drop_spaces_id l :
  match l with [] => True | c :: _ => is_uspace c = false end → drop_spaces l = l.
Proof. destruct l as [|c l]; simpl; [done|]. by intros ->. Qed.

(** Stripping, on the code points. *)
Definition trim (l : list string) : list string := rev (drop_spaces (rev (drop_spaces l))).

Lemma trim_prefix l : ∃ q, drop_spaces l = trim l ++ q ∧ Forall (λ c, is_uspace c = true) q.
Proof.
  unfold trim. destruct (drop_spaces_suffix (rev (drop_spaces l))) as (p & E & Hp).
  exists (rev p). split; [|by apply Forall_rev].
  rewrite <-rev_app_distr, <-E. symmetry. apply rev_involutive.
Qed.

Lemma trim_idemp l : trim (trim l) = trim l.
Proof.
  destruct (trim_prefix l) as (q & E & _).
  assert (drop_spaces (trim l) = trim l) as Hd.
  { apply drop_spaces_id. pose proof (drop_spaces_head l) as Hh. rewrite E in Hh.
    by destruct (trim l). }
  unfold trim at 1. rewrite Hd. unfold trim. rewrite rev_involutive.
  by rewrite (drop_spaces_id _ (drop_spaces_head _)).
Qed.

Lemma trim_characters s : characters (trim (uchars s)).
Proof.
  destruct (trim_prefix (uchars s)) as (q & E & _). apply (characters_prefix _ q). rewrite <-E.
  destruct (drop_spaces_suffix (uchars s)) as (p & E' & _). apply (characters_suffix p).
  rewrite <-E'. apply uchars_characters.
Qed.

Lemma ustrip_idemp s : ustrip (ustrip s) = ustrip s.
Proof.
  change (concat_text (trim (uchars (concat_text (trim (uchars s))))) = concat_text (trim (uchars s))).
  by rewrite (uchars_concat _ (trim_characters s)), trim_idemp.
Qed.

Lemma ustrip_space s : ustrip (" " +:+ s) = ustrip s.
Proof.
  assert (uchars (" " +:+ s) = " " :: uchars s) as E.
  { rewrite <-(concat_uchars s) at 1. change (" " +:+ concat_text (uchars s)) with (concat_text (" " :: uchars s)).
    apply uchars_concat. apply characters_cons; [done|apply uchars_characters]. }
  unfold ustrip. by rewrite E.
Qed.

(** A text that strips to nothing holds white space only, and so no comma. *)
Lemma ustrip_empty_no_comma s : ustrip s = "" → mem_char ","%char s = false.
Proof.
  intros Hs. change (concat_text (trim (uchars s)) = "") in Hs.
  assert (trim (uchars s) = []) as Ht.
  { pose proof (trim_characters s) as Hc. destruct (trim (uchars s)) as [|c l]; [done|].
    inversion Hc; subst; simpl in Hs; discriminate. }
  destruct (trim_prefix (uchars s)) as (q & E & Hq). rewrite Ht in E.
  destruct (drop_spaces_suffix (uchars s)) as (p & E' & Hp). rewrite E in E'.
  assert (Forall (λ c, is_uspace c = true) (uchars s)) as Hall by (rewrite E'; by apply Forall_app).
  rewrite <-(concat_uchars s). revert Hall. generalize (uchars s) as l. clear. intros l Hall.
  induction Hall as [|c l Hc Hl IH]; [done|].
  change (concat_text (c :: l)) with (c +:+ concat_text l). rewrite mem_char_app, IH, orb_false_r.
  unfold is_uspace in Hc. destruct c as [|a [|b c]]; [done| |].
  - rewrite mem_char_cons. by destruct (Ascii.eqb_spec ","%char a) as [<-|].
  - apply bool_decide_eq_true in Hc. revert Hc. generalize (String a (String b c)). clear.
    apply Forall_forall. apply (bool_decide_unpack _). by vm_compute.
Qed.

Example uchars_example :
  uchars (octets [97; 195; 169; 226; 128; 168; 98]) = ["a"; octets [195; 169]; octets [226; 128; 168]; "b"]
  ∧ ustrip (octets [32; 194; 160; 97; 32; 98; 227; 128; 128]) = "a b"
  ∧ usplitlines (octets [97; 13; 10; 98; 226; 128; 169; 99; 10]) = ["a"; ""; "b"; "c"]
  ∧ ulower (octets [80; 226; 132; 170; 71]) = "pkg".
Proof. repeat split; vm_compute; reflexivity. Qed.
