(* ===== verification/RateLimiter.v ===== *)
(** * The rolling-window rate limiter

    [app/config/rate_limit_policy.py], [app/common/store/rate_limit.py] and
    [app/config/rate_limiter.py]: the bounded policy, the per-client ring buffer
    of admission times, the ordered client store and [RateLimiter.admit_request]; then an
    abstract sliding-window specification and the proof that the ring-buffered,
    lazily expired store implements it.  Times are integers of clock ticks, a
    million to the millisecond (the float rounding of the clock is not modelled). *)
From S2P Require Import Prelude.
Open Scope Z_scope.

(** ** Policy *)
Definition MAX_TIMESTAMP_SLOTS : Z := 2000000.
Definition DEFAULT_WINDOW_MS : Z := 60000.
Definition DEFAULT_MAX_REQUESTS : Z := 200.
Definition DEFAULT_MAX_CLIENTS : Z := 10000.

Record RateLimitPolicy := mkPolicy {
  window_ms : Z;
  max_requests : Z;
  max_clients : Z
}.

Definition WindowMilliseconds (v : Z) : bool := (1 <=? v) && (v <=? 86400000).
Definition RequestCapacity (v : Z) : bool := (1 <=? v) && (v <=? 10000).
Definition ClientCapacity (v : Z) : bool := (1 <=? v) && (v <=? 100000).

Definition validate_storage (p : RateLimitPolicy) : py RateLimitPolicy :=
  if (MAX_TIMESTAMP_SLOTS <? max_requests p * max_clients p)
  then Err (ValueError "rate limiter storage must not exceed 2000000 timestamp slots")
  else Ok p.

(** Constructing the pydantic model: field bounds, then the model validator. *)
Definition new_policy (w r c : Z) : py RateLimitPolicy :=
  if WindowMilliseconds w && RequestCapacity r && ClientCapacity c
  then validate_storage (mkPolicy w r c)
  else Err (PydanticError "validation_error" "rate limit policy out of range").

(** ** Stored state *)
Record RateLimitState := mkState {
  timestamps : list Z;
  head : nat;
  count : nat;
  expires_at : Z
}.

Definition new_state (capacity : nat) : RateLimitState :=
  mkState (replicate capacity 0) 0 0 0.

Record RateLimitDecision := mkDecision {
  allowed : bool;
  status : option Z;
  retry_after_seconds : Z
}.

Record RateLimitUsage := mkUsage {
  clients_used : Z;
  stored_used : Z;
  timestamp_slots : Z
}.

Record RateLimiter := mkLimiter {
  policy : RateLimitPolicy;
  clients : list (string * RateLimitState);   (* OrderedDict *)
  stored_requests : Z
}.

Definition capacity (p : RateLimitPolicy) : nat := Z.to_nat (max_requests p).
Definition ticks_per_ms : Z := 1000000.
Definition window (p : RateLimitPolicy) : Z := window_ms p * ticks_per_ms.

Definition new_limiter (w r c : Z) : py RateLimiter :=
  p ← new_policy w r c; Ok (mkLimiter p [] 0).

Definition usage (lim : RateLimiter) : RateLimitUsage :=
  mkUsage (Z.of_nat (length (clients lim))) (stored_requests lim)
    (Z.of_nat (length (clients lim)) * max_requests (policy lim)).

(** ** Operations *)

(** [math.ceil(a / b)] *)
Definition ceil_div (a b : Z) : Z := - ((- a) / b).

Definition reject (st : Z) (available_at now : Z) : RateLimitDecision :=
  mkDecision false (Some st)
    (Z.max 1 (ceil_div (available_at - now) (1000 * ticks_per_ms))).

Fixpoint expire_clients (now : Z) (cs : list (string * RateLimitState)) (stored : Z)
  : list (string * RateLimitState) * Z :=
  match cs with
  | [] => ([], stored)
  | (key, client) :: cs' =>
      if (now <? expires_at client) then (cs, stored)
      else expire_clients now cs' (stored - Z.of_nat (count client))
  end.

(** The [while client.count and timestamps[head] <= cutoff] loop. *)
Fixpoint prune (cap : nat) (cutoff : Z) (ts : list Z) (hd cnt : nat) (stored : Z)
  : py (nat * nat * Z) :=
  match cnt with
  | O => Ok (hd, O, stored)
  | S cnt' =>
      match ts !! hd with
      | None => Err IndexError
      | Some t =>
          if (t <=? cutoff)
          then prune cap cutoff ts ((hd + 1) mod cap)%nat cnt' (stored - 1)
          else Ok (hd, cnt, stored)
      end
  end.

Definition move_to_end {V} (key : string) (d : list (string * V)) : list (string * V) :=
  match assoc_get key d with
  | Some v => assoc_del key d ++ [(key, v)]
  | None => d
  end.

(** The part of [admit_request] after the client record is known.  [known] says whether the
    record is the one stored in the dict, whose in-place updates are then visible
    there even when the request is rejected. *)
Definition admit_client (p : RateLimitPolicy) (cs : list (string * RateLimitState))
    (stored : Z) (key : string) (known : bool) (client : RateLimitState) (now : Z)
  : py (RateLimitDecision * RateLimiter) :=
  let cap := capacity p in
  let cutoff := now - window p in
  '(hd, cnt, stored) ← prune cap cutoff (timestamps client) (head client)
                         (count client) stored;
  let client := mkState (timestamps client) hd cnt (expires_at client) in
  let visible := if known then assoc_set key client cs else cs in
  if (Z.of_nat cnt =? max_requests p) then
    match timestamps client !! hd with
    | None => Err IndexError
    | Some oldest =>
        Ok (reject 429 (oldest + window p) now, mkLimiter p visible stored)
    end
  else
    let tail := ((hd + cnt) mod cap)%nat in
    if (tail <? length (timestamps client))%nat then
      let client := mkState (<[tail := now]> (timestamps client)) hd (cnt + 1)
                      (now + window p) in
      Ok (mkDecision true None 0,
          mkLimiter p (move_to_end key (assoc_set key client visible)) (stored + 1))
    else Err IndexError.

Section limiter.
(** [hashlib.sha256(identity.encode('utf-8')).digest()] *)
Variable sha256 : string → string.

Definition admit_request (lim : RateLimiter) (now : Z) (identity : string)
  : py (RateLimitDecision * RateLimiter) :=
  let p := policy lim in
  let key := sha256 identity in
  let '(cs, stored) := expire_clients now (clients lim) (stored_requests lim) in
  match assoc_get key cs with
  | None =>
      if (max_clients p <=? Z.of_nat (length cs)) then
        match cs with
        | [] => Err StopIteration
        | (_, earliest) :: _ =>
            Ok (reject 503 (expires_at earliest) now, mkLimiter p cs stored)
        end
      else admit_client p cs stored key false (new_state (capacity p)) now
  | Some client => admit_client p cs stored key true client now
  end.

(** Serving a sequence of requests (arrival time, identity). *)
Fixpoint admit_all (lim : RateLimiter) (reqs : list (Z * string))
  : py (list RateLimitDecision * RateLimiter) :=
  match reqs with
  | [] => Ok ([], lim)
  | (now, ident) :: reqs' =>
      '(d, lim') ← admit_request lim now ident;
      '(ds, lim'') ← admit_all lim' reqs';
      Ok (d :: ds, lim'')
  end.
End limiter.

(** ** Abstract specification: an unbounded log of admission times per client. *)
Module Spec.
Inductive verdict := Granted | TooMany (available_at : Z) | Full.

#[global] Instance verdict_eq_dec : EqDecision verdict.
Proof. solve_decision. Defined.

Definition recent (p : RateLimitPolicy) (now : Z) (ts : list Z) : list Z :=
  filter (λ t, now - window p < t) ts.

Definition times (h : gmap string (list Z)) (key : string) : list Z :=
  default [] (h !! key).

(** Clients with at least one admission inside the window. *)
Definition active (p : RateLimitPolicy) (now : Z) (h : gmap string (list Z)) : nat :=
  size (filter (λ kv, recent p now kv.2 ≠ []) h).

Definition admit_request (p : RateLimitPolicy) (h : gmap string (list Z)) (now : Z)
    (key : string) : verdict * gmap string (list Z) :=
  match recent p now (times h key) with
  | [] =>
      if (max_clients p <=? Z.of_nat (active p now h)) then (Full, h)
      else (Granted, <[key := times h key ++ [now]]> h)
  | (oldest :: _) as r =>
      if (Z.of_nat (length r) =? max_requests p)
      then (TooMany (oldest + window p), h)
      else (Granted, <[key := times h key ++ [now]]> h)
  end.

Fixpoint admit_all (p : RateLimitPolicy) (h : gmap string (list Z))
    (reqs : list (Z * string)) : list verdict * gmap string (list Z) :=
  match reqs with
  | [] => ([], h)
  | (now, key) :: reqs' =>
      let '(v, h') := admit_request p h now key in
      let '(vs, h'') := admit_all p h' reqs' in
      (v :: vs, h'')
  end.
End Spec.

(** What a decision says: for 429 the retry time is the one the specification gives. *)
Definition decision_matches (now : Z) (d : RateLimitDecision) (v : Spec.verdict) : Prop :=
  match v with
  | Spec.Granted => d = mkDecision true None 0
  | Spec.TooMany at_ => d = reject 429 at_ now
  | Spec.Full => allowed d = false ∧ status d = Some 503 ∧ 1 ≤ retry_after_seconds d
  end.

(** ** The ring buffer *)

(** The admission times a ring holds, oldest first. *)
Definition slots (cap : nat) (ts : list Z) (hd cnt : nat) : list Z :=
  (λ i, ts !!! ((hd + i) mod cap)%nat) <$> seq 0 cnt.

Lemma slots_length cap ts hd cnt : length (slots cap ts hd cnt) = cnt.
Proof. unfold slots. by rewrite length_fmap, length_seq. Qed.

Lemma slots_S cap ts hd cnt :
  (hd < cap)%nat →
  slots cap ts hd (S cnt) = ts !!! hd :: slots cap ts ((hd + 1) mod cap) cnt.
Proof.
  intros Hhd. unfold slots. simpl. f_equal.
  - by rewrite Nat.add_0_r, Nat.mod_small.
  - rewrite <-fmap_S_seq, <-list_fmap_compose. apply list_fmap_ext.
    intros i x _. simpl. f_equal.
    rewrite Nat.Div0.add_mod_idemp_l. f_equal. lia.
Qed.

Lemma slots_push cap ts hd cnt x :
  length ts = cap → (cnt < cap)%nat →
  slots cap (<[((hd + cnt) mod cap)%nat := x]> ts) hd (cnt + 1)
  = slots cap ts hd cnt ++ [x].
Proof.
  intros Hlen Hcnt. unfold slots. rewrite seq_app, fmap_app. f_equal.
  - apply list_fmap_ext. intros i y [-> Hi]%lookup_seq.
    rewrite list_lookup_total_insert_ne; [done|].
    intros Hm. simpl in Hm. pose proof (Nat.div_mod_eq (hd + cnt) cap).
    pose proof (Nat.div_mod_eq (hd + i) cap).
    set (q1 := ((hd + cnt) / cap)%nat) in *. set (q2 := ((hd + i) / cap)%nat) in *.
    destruct (Nat.le_gt_cases q1 q2); nia.
  - simpl. rewrite list_lookup_total_insert_eq; [done|].
    rewrite Hlen. apply Nat.mod_upper_bound. lia.
Qed.

Lemma prune_spec cap cutoff ts hd cnt stored :
  length ts = cap → (hd < cap)%nat → (cnt ≤ cap)%nat →
  StronglySorted Z.le (slots cap ts hd cnt) →
  ∃ hd' cnt', prune cap cutoff ts hd cnt stored
      = Ok (hd', cnt', stored - Z.of_nat (cnt - cnt'))
    ∧ (hd' < cap)%nat ∧ (cnt' ≤ cnt)%nat
    ∧ slots cap ts hd' cnt' = filter (λ t, cutoff < t) (slots cap ts hd cnt).
Proof.
  intros Hlen. revert hd stored.
  induction cnt as [|cnt IH]; intros hd stored Hhd Hcnt Hsort; simpl.
  { exists hd, 0%nat. split_and!; auto. f_equal. f_equal. lia. }
  rewrite slots_S in Hsort |- * by done.
  apply StronglySorted_inv in Hsort as [Hsort Hhead].
  destruct (lookup_lt_is_Some_2 ts hd) as [t Ht]; [lia|].
  rewrite Ht. rewrite (list_lookup_total_correct _ _ _ Ht) in *.
  destruct (Z.leb_spec t cutoff) as [Hle|Hgt].
  - destruct (IH ((hd + 1) mod cap)%nat (stored - 1)) as (hd' & cnt' & E & H1 & H2 & H3);
      [apply Nat.mod_upper_bound; lia|lia|done|].
    exists hd', cnt'. split_and!; [|done|lia|].
    + rewrite E. f_equal. f_equal. lia.
    + rewrite filter_cons, decide_False by lia. done.
  - exists hd, (S cnt). split_and!; [|done|lia|].
    + f_equal. f_equal. lia.
    + rewrite slots_S, (list_lookup_total_correct _ _ _ Ht) by done.
      rewrite filter_all; [done|]. constructor; [lia|].
      eapply Forall_impl; [exact Hhead|]. simpl. lia.
Qed.

(** ** The store invariant *)
Definition ring (p : RateLimitPolicy) (st : RateLimitState) : list Z :=
  slots (capacity p) (timestamps st) (head st) (count st).

Record wf_client (p : RateLimitPolicy) (now : Z) (st : RateLimitState) : Prop := {
  wf_slots : length (timestamps st) = capacity p;
  wf_head : (head st < capacity p)%nat;
  wf_count : (1 ≤ count st ≤ capacity p)%nat;
  wf_sorted : StronglySorted Z.le (ring p st);
  wf_last : last (ring p st) = Some (expires_at st - window p);
  wf_past : expires_at st - window p ≤ now
}.

Definition total_count (cs : list (string * RateLimitState)) : Z :=
  foldr (λ kv acc, Z.of_nat (count kv.2) + acc) 0 cs.

Definition expires_before (a b : string * RateLimitState) : Prop :=
  expires_at a.2 ≤ expires_at b.2.

Record store_inv (p : RateLimitPolicy) (now : Z) (lim : RateLimiter) : Prop := {
  inv_policy : policy lim = p;
  inv_keys : NoDup (clients lim).*1;
  inv_order : StronglySorted expires_before (clients lim);
  inv_clients : Forall (λ kv, wf_client p now kv.2) (clients lim);
  inv_stored : stored_requests lim = total_count (clients lim);
  inv_size : Z.of_nat (length (clients lim)) ≤ max_clients p
}.

(** The refinement relation between the store and the log of admissions. *)
Definition logged (p : RateLimitPolicy) (now : Z) (cs : list (string * RateLimitState))
    (h : gmap string (list Z)) : Prop :=
  ∀ key, Spec.recent p now (Spec.times h key)
         = default [] ((λ c, Spec.recent p now (ring p c)) <$> assoc_get key cs).

Definition refines (p : RateLimitPolicy) (now : Z) (lim : RateLimiter)
    (h : gmap string (list Z)) : Prop :=
  store_inv p now lim ∧ logged p now (clients lim) h.

Definition live (now : Z) (cs : list (string * RateLimitState)) : Prop :=
  Forall (λ kv, now < expires_at kv.2) cs.

Definition valid_policy (p : RateLimitPolicy) : Prop :=
  1 ≤ window_ms p ≤ 86400000 ∧ 1 ≤ max_requests p ≤ 10000 ∧ 1 ≤ max_clients p ≤ 100000
  ∧ max_requests p * max_clients p ≤ MAX_TIMESTAMP_SLOTS.

Lemma new_policy_valid w r c p : new_policy w r c = Ok p → valid_policy p.
Proof.
  unfold new_policy, validate_storage, valid_policy, WindowMilliseconds,
    RequestCapacity, ClientCapacity.
  intros. split_matches; reflect_bools; simpl in *; lia.
Qed.

Section invariant.
Context (p : RateLimitPolicy) (Hp : valid_policy p).

Lemma recent_mono now0 now l :
  now0 ≤ now → Spec.recent p now (Spec.recent p now0 l) = Spec.recent p now l.
Proof. intros. apply filter_filter_sub. intros; lia. Qed.

Lemma wf_client_mono now0 now st : now0 ≤ now → wf_client p now0 st → wf_client p now st.
Proof. intros ? []. split; auto; lia. Qed.

(** A client is expired exactly when nothing it stores is recent. *)
Lemma recent_ring_nil now0 now st :
  wf_client p now0 st →
  Spec.recent p now (ring p st) = [] ↔ expires_at st ≤ now.
Proof.
  intros [? ? ? Hs Hl ?]. split.
  - intros Hnil. apply last_Some in Hl as [l Hl]. rewrite Hl in Hnil.
    unfold Spec.recent in Hnil. rewrite filter_snoc in Hnil.
    apply app_eq_nil in Hnil as [_ Hnil]. case_decide; [done|lia].
  - intros He. apply filter_none. eapply Forall_impl; [by eapply StronglySorted_last|].
    simpl. lia.
Qed.

Lemma expire_clients_filter now cs stored :
  StronglySorted expires_before cs → stored = total_count cs →
  expire_clients now cs stored
  = (filter (λ kv, now < expires_at kv.2) cs,
     total_count (filter (λ kv, now < expires_at kv.2) cs)).
Proof.
  intros Hs. revert stored.
  induction Hs as [|[k c] cs Hs IH Hle]; intros stored Hst; simpl in *; [by subst|].
  destruct (Z.ltb_spec now (expires_at c)) as [Hlt|Hge].
  - rewrite filter_cons, decide_True by done. rewrite filter_all; [by subst|].
    eapply Forall_impl; [exact Hle|]. unfold expires_before. simpl. lia.
  - rewrite filter_cons, decide_False by (simpl; lia). apply IH. lia.
Qed.

Lemma expire_refines now0 now lim h :
  refines p now0 lim h → now0 ≤ now →
  ∃ cs, expire_clients now (clients lim) (stored_requests lim) = (cs, total_count cs)
    ∧ refines p now (mkLimiter p cs (total_count cs)) h ∧ live now cs.
Proof.
  intros [[Hpol Hk Ho Hc Hst Hsz] Hlog] Hnow.
  exists (filter (λ kv, now < expires_at kv.2) (clients lim)).
  rewrite expire_clients_filter by done. split_and!; [done| |].
  - split; [split; simpl; auto|].
    + eapply sublist_NoDup; [exact Hk|apply fmap_sublist, sublist_filter].
    + by apply StronglySorted_filter.
    + eapply Forall_sublist; [apply sublist_filter|]. eapply Forall_impl; [exact Hc|].
      intros ?. by apply wf_client_mono.
    + pose proof (length_filter (λ kv : string * RateLimitState, now < expires_at kv.2) (clients lim)). lia.
    + intros key. simpl. rewrite assoc_get_filter by done.
      rewrite <-(recent_mono now0 now) by done. rewrite Hlog.
      destruct (assoc_get key (clients lim)) as [c|] eqn:Hget; simpl; [|done].
      rewrite recent_mono by done. case_decide as Hd; simpl in *; [done|].
      apply assoc_get_elem in Hget. rewrite Forall_forall in Hc.
      apply (recent_ring_nil now0); [by apply (Hc (key, c))|lia].
  - apply Forall_forall. intros kv Hkv. by apply list_elem_of_filter in Hkv as [? _].
Qed.

Lemma active_count now lim h :
  refines p now lim h → live now (clients lim) →
  Spec.active p now h = length (clients lim).
Proof.
  intros [[Hpol Hk Ho Hc Hst Hsz] Hlog] Hlive. unfold Spec.active.
  rewrite <-size_dom.
  assert (dom (filter (λ kv : string * list Z, Spec.recent p now kv.2 ≠ []) h)
          = (list_to_set (clients lim).*1 : gset string)) as ->.
  { apply set_eq. intros key. rewrite elem_of_list_to_set, elem_of_dom.
    specialize (Hlog key). unfold Spec.times in Hlog. unfold is_Some.
    setoid_rewrite map_lookup_filter_Some. simpl.
    destruct (assoc_get key (clients lim)) as [c|] eqn:Hget; simpl in Hlog.
    - assert (Spec.recent p now (ring p c) ≠ []) as Hne.
      { apply assoc_get_elem in Hget. unfold live in Hlive.
        rewrite Forall_forall in Hc, Hlive.
        specialize (Hc _ Hget). specialize (Hlive _ Hget). simpl in *.
        rewrite (recent_ring_nil now) by done. lia. }
      destruct (h !! key) as [ts|]; simpl in Hlog; [|by rewrite <-Hlog in Hne].
      split; [intros _|intros _; exists ts; split; congruence].
      apply assoc_get_elem in Hget. apply list_elem_of_fmap. by exists (key, c).
    - apply assoc_get_none in Hget.
      split; [|done]. intros (ts & Hts & Hne). by rewrite Hts in Hlog. }
  rewrite size_list_to_set by done. by rewrite length_fmap.
Qed.
End invariant.

(** ** How one admission changes the store *)
Lemma total_count_set key c c' cs :
  assoc_get key cs = Some c →
  total_count (assoc_set key c' cs)
  = total_count cs - Z.of_nat (count c) + Z.of_nat (count c').
Proof.
  induction cs as [|[k d] cs IH]; simpl; [done|].
  case_decide; intros ?; simplify_eq; simpl; [lia|]. rewrite IH by done. lia.
Qed.

Lemma total_count_del key c cs :
  assoc_get key cs = Some c →
  total_count (assoc_del key cs) = total_count cs - Z.of_nat (count c).
Proof.
  induction cs as [|[k d] cs IH]; simpl; [done|].
  case_decide; intros ?; simplify_eq; simpl; [lia|]. rewrite IH by done. lia.
Qed.

Lemma total_count_app cs cs' : total_count (cs ++ cs') = total_count cs + total_count cs'.
Proof. induction cs as [|kv cs IH]; simpl; [done|]. rewrite IH. lia. Qed.

Lemma move_set key (c : RateLimitState) cs :
  NoDup cs.*1 →
  move_to_end key (assoc_set key c cs) = assoc_del key cs ++ [(key, c)].
Proof. intros. unfold move_to_end. rewrite assoc_get_set_eq. by rewrite assoc_del_set. Qed.

Lemma expires_before_set key c c' cs :
  assoc_get key cs = Some c → expires_at c' = expires_at c →
  StronglySorted expires_before cs → StronglySorted expires_before (assoc_set key c' cs).
Proof.
  intros Hget He. induction 1 as [|[k d] cs Hs IH Hle]; simpl in *; [done|].
  case_decide; simplify_eq.
  - constructor; [done|]. eapply Forall_impl; [exact Hle|].
    unfold expires_before. simpl. lia.
  - constructor; [auto|]. apply assoc_set_Forall; [|done].
    apply assoc_get_elem in Hget. rewrite Forall_forall in Hle.
    specialize (Hle _ Hget). unfold expires_before in *. simpl in *. lia.
Qed.

Section admission.
Context (p : RateLimitPolicy) (Hp : valid_policy p).

Local Lemma capacity_pos : (0 < capacity p)%nat ∧ Z.of_nat (capacity p) = max_requests p.
Proof. unfold capacity. destruct Hp as (_ & ? & _). lia. Qed.

Local Lemma window_pos : 0 < window p.
Proof. unfold window, ticks_per_ms. destruct Hp as (? & _). lia. Qed.

Lemma pruned_wf now c hd cnt :
  wf_client p now c → now < expires_at c →
  (hd < capacity p)%nat → (cnt ≤ count c)%nat →
  slots (capacity p) (timestamps c) hd cnt = Spec.recent p now (ring p c) →
  wf_client p now (mkState (timestamps c) hd cnt (expires_at c)).
Proof.
  intros Hwf Hlive Hhd Hcnt Hslots.
  assert (Spec.recent p now (ring p c) ≠ []) as Hne
    by (rewrite (recent_ring_nil p now) by done; lia).
  destruct Hwf as [? ? ? ? Hl ?]. unfold ring in *. split; simpl in *; auto.
  - rewrite <-Hslots in Hne. destruct cnt; [done|lia].
  - unfold ring. simpl. rewrite Hslots. by apply StronglySorted_filter.
  - unfold ring. simpl. rewrite Hslots. apply last_filter; [done|lia].
Qed.

Lemma pushed_wf now ts hd cnt :
  length ts = capacity p → (hd < capacity p)%nat → (cnt < capacity p)%nat →
  StronglySorted Z.le (slots (capacity p) ts hd cnt) →
  Forall (λ t, t ≤ now) (slots (capacity p) ts hd cnt) →
  wf_client p now (mkState (<[((hd + cnt) mod capacity p)%nat := now]> ts) hd
                     (cnt + 1) (now + window p)).
Proof.
  intros Hlen Hhd Hcnt Hs Hle. split; unfold ring; simpl; rewrite ?slots_push by done.
  - by rewrite length_insert.
  - done.
  - lia.
  - by apply StronglySorted_snoc.
  - rewrite last_snoc. f_equal. lia.
  - lia.
Qed.

Lemma ring_past now c : wf_client p now c → Forall (λ t, t ≤ now) (ring p c).
Proof.
  intros [? ? ? Hs Hl ?]. eapply Forall_impl; [by eapply StronglySorted_last|].
  simpl. lia.
Qed.

(** Rejection prunes the stored record in place. *)
Lemma pruned_refines now cs key c hd cnt h :
  refines p now (mkLimiter p cs (total_count cs)) h →
  assoc_get key cs = Some c → now < expires_at c →
  (hd < capacity p)%nat → (cnt ≤ count c)%nat →
  slots (capacity p) (timestamps c) hd cnt = Spec.recent p now (ring p c) →
  refines p now
    (mkLimiter p (assoc_set key (mkState (timestamps c) hd cnt (expires_at c)) cs)
       (total_count cs - Z.of_nat (count c - cnt))) h.
Proof.
  intros [[? Hk Ho Hc _ Hsz] Hlog] Hget Hlive Hhd Hcnt Hslots. simpl in *.
  assert (wf_client p now c) as Hwf.
  { rewrite Forall_forall in Hc. apply (Hc (key, c)). by apply assoc_get_elem. }
  split; [split|]; simpl.
  - done.
  - by apply assoc_set_NoDup.
  - by eapply expires_before_set.
  - apply assoc_set_Forall; [|done]. by apply pruned_wf.
  - rewrite (total_count_set _ c) by done. simpl. lia.
  - by rewrite (length_assoc_set_known _ c).
  - intros key'. rewrite Hlog. destruct (decide (key' = key)) as [->|Hne].
    + rewrite Hget, assoc_get_set_eq. simpl. unfold ring at 2. simpl.
      rewrite Hslots. symmetry. apply recent_mono. lia.
    + by rewrite assoc_get_set_ne.
Qed.

(** Admission appends the time and moves the client to the end. *)
Lemma pushed_refines now cs key c stored h :
  refines p now (mkLimiter p cs (total_count cs)) h →
  wf_client p now c → expires_at c = now + window p →
  ring p c = Spec.recent p now (Spec.times h key) ++ [now] →
  stored = total_count (assoc_del key cs) + Z.of_nat (count c) →
  (assoc_get key cs = None → Z.of_nat (length cs) < max_clients p) →
  refines p now (mkLimiter p (assoc_del key cs ++ [(key, c)]) stored)
    (<[key := Spec.times h key ++ [now]]> h).
Proof.
  intros [[? Hk Ho Hc _ Hsz] Hlog] Hwf He Hring Hstored Hroom. simpl in *.
  pose proof window_pos.
  destruct (assoc_del_NoDup key cs Hk) as [Hk' Hnew].
  split; [split|]; simpl.
  - done.
  - rewrite fmap_app. apply NoDup_app. split_and!; [done| |apply NoDup_singleton].
    intros k Hin Hk1. apply list_elem_of_singleton in Hk1 as ->. by simpl in *.
  - apply StronglySorted_snoc;
      [by eapply StronglySorted_sublist; [apply assoc_del_sublist|]|].
    eapply Forall_sublist; [apply assoc_del_sublist|].
    eapply Forall_impl; [exact Hc|]. intros kv [? ? ? ? ? ?]. unfold expires_before.
    simpl. lia.
  - apply Forall_app. split; [by eapply Forall_sublist; [apply assoc_del_sublist|]|].
    by apply Forall_singleton.
  - rewrite total_count_app, Hstored. simpl. lia.
  - rewrite length_app. simpl. destruct (assoc_get key cs) as [d|] eqn:Hget.
    + apply length_assoc_del in Hget. lia.
    + specialize (Hroom eq_refl). apply assoc_get_none in Hget.
      rewrite assoc_del_notin by done. lia.
  - intros key'. rewrite assoc_get_snoc. unfold Spec.times.
    destruct (decide (key' = key)) as [->|Hne].
    + rewrite lookup_insert_eq. apply assoc_get_none in Hnew. rewrite Hnew. simpl.
      rewrite Hring. unfold Spec.recent at 1 2. rewrite !filter_snoc.
      f_equal. symmetry. apply (recent_mono p now now). lia.
    + rewrite lookup_insert_ne, assoc_get_del_ne by done.
      specialize (Hlog key'). unfold Spec.times in Hlog. rewrite Hlog.
      by destruct (assoc_get key' cs).
Qed.
End admission.

Section step.
Context (p : RateLimitPolicy) (Hp : valid_policy p).

(** [admit_client] on a store that is live and logged: it never raises, and its
    answer and new store are those of the specification. *)
Lemma admit_client_spec now cs key known c h :
  refines p now (mkLimiter p cs (total_count cs)) h →
  (known = true ∧ assoc_get key cs = Some c ∧ now < expires_at c
   ∨ known = false ∧ assoc_get key cs = None ∧ c = new_state (capacity p)
     ∧ Z.of_nat (length cs) < max_clients p) →
  ∃ d lim', admit_client p cs (total_count cs) key known c now = Ok (d, lim') ∧
    let r := Spec.recent p now (Spec.times h key) in
    if (Z.of_nat (length r) =? max_requests p)
    then d = reject 429 (hd 0 r + window p) now ∧ refines p now lim' h
    else d = mkDecision true None 0
         ∧ refines p now lim' (<[key := Spec.times h key ++ [now]]> h).
Proof.
  intros Href Hcase. pose proof (capacity_pos p Hp) as [Hcap HcapZ].
  assert (length (timestamps c) = capacity p ∧ (head c < capacity p)%nat
          ∧ (count c ≤ capacity p)%nat ∧ StronglySorted Z.le (ring p c)
          ∧ Forall (λ t, t ≤ now) (ring p c)
          ∧ Spec.recent p now (Spec.times h key) = Spec.recent p now (ring p c)
          ∧ (known = true → wf_client p now c)) as (Hlen & Hhd & Hcnt & Hs & Hpast & Hr & Hwf).
  { destruct Href as [[_ _ _ Hc _ _] Hlog]. simpl in *. rewrite (Hlog key).
    destruct Hcase as [(-> & Hget & _)|(-> & Hget & -> & _)]; rewrite Hget; simpl.
    - assert (wf_client p now c) as Hwf.
      { rewrite Forall_forall in Hc. apply (Hc (key, c)). by apply assoc_get_elem. }
      pose proof (ring_past p now c Hwf). pose proof Hwf as [? ? [? ?] ? ? ?].
      by split_and!.
    - split_and!; auto; try lia; try done; try constructor. apply length_replicate. }
  cbv zeta. rewrite Hr. unfold admit_client.
  destruct (prune_spec (capacity p) (now - window p) (timestamps c) (head c) (count c)
              (total_count cs)) as (hd' & cnt' & -> & Hhd' & Hcnt' & Hslots); auto.
  change (mbind ?f (Ok ?x)) with (f x). cbv beta iota zeta.
  fold (ring p c) in Hslots. fold (Spec.recent p now (ring p c)) in Hslots.
  rewrite <-Hslots. rewrite slots_length.
  destruct (Z.eqb_spec (Z.of_nat cnt') (max_requests p)) as [Hfull|Hroom].
  - assert (cnt' = capacity p) as -> by lia.
    destruct (lookup_lt_is_Some_2 (timestamps c) hd') as [t Ht]; [lia|].
    simpl. rewrite Ht. eexists _, _. split; [done|]. split.
    + destruct (capacity p) eqn:E; [lia|]. rewrite slots_S by lia. simpl.
      by rewrite (list_lookup_total_correct _ _ _ Ht).
    + destruct Hcase as [(-> & Hget & ?)|(-> & Hget & -> & ?)]; [|simpl in *; lia].
      apply pruned_refines; auto.
  - simpl. rewrite (proj2 (Nat.ltb_lt _ _)) by (rewrite Hlen; apply Nat.mod_upper_bound; lia).
    eexists _, _. split; [done|]. split; [done|].
    assert (NoDup cs.*1) as Hk by apply Href.
    assert (move_to_end key (assoc_set key
        (mkState (<[((hd' + cnt') mod capacity p)%nat:=now]> (timestamps c)) hd' (cnt' + 1)
           (now + window p))
        (if known then assoc_set key (mkState (timestamps c) hd' cnt' (expires_at c)) cs
         else cs)) = assoc_del key cs ++ [(key, mkState
          (<[((hd' + cnt') mod capacity p)%nat:=now]> (timestamps c)) hd' (cnt' + 1)
           (now + window p))]) as ->.
    { destruct known; rewrite move_set; auto using assoc_set_NoDup.
      by rewrite assoc_del_set. }
    assert (Forall (λ t, t ≤ now) (slots (capacity p) (timestamps c) hd' cnt')) as Hpast'.
    { rewrite Hslots. eapply Forall_sublist; [apply sublist_filter|done]. }
    apply pushed_refines; auto.
    + apply pushed_wf; auto; [lia|]. rewrite Hslots. by apply StronglySorted_filter.
    + unfold ring at 1. simpl. rewrite slots_push by (auto; lia). by rewrite Hr, <-Hslots.
    + simpl. destruct Hcase as [(-> & Hget & ?)|(-> & Hget & -> & ?)].
      * rewrite (total_count_del _ c) by done. lia.
      * apply assoc_get_none in Hget. rewrite assoc_del_notin by done. simpl in *. lia.
    + intros Hnone. destruct Hcase as [(_ & Hget & _)|(_ & _ & _ & ?)]; congruence.
Qed.
End step.

Section refinement.
Variable sha256 : string → string.
Context (p : RateLimitPolicy) (Hp : valid_policy p).

Lemma admit_refines now0 now lim h ident :
  refines p now0 lim h → now0 ≤ now →
  ∃ d lim', admit_request sha256 lim now ident = Ok (d, lim') ∧
    decision_matches now d (Spec.admit_request p h now (sha256 ident)).1 ∧
    refines p now lim' (Spec.admit_request p h now (sha256 ident)).2.
Proof.
  intros Href Hnow. unfold admit_request.
  assert (policy lim = p) as -> by apply Href.
  destruct (expire_refines p now0 now lim h Href Hnow) as (cs & -> & Href' & Hlive).
  pose proof (active_count p now _ h Href' Hlive) as Hactive. simpl in Hactive.
  pose proof (proj2 Href' (sha256 ident)) as Hlog. simpl in Hlog.
  assert (max_requests p ≠ 0) as Hmax by (destruct Hp as (_ & ? & _); lia).
  unfold Spec.admit_request. destruct (assoc_get (sha256 ident) cs) as [c|] eqn:Hget; simpl in Hlog.
  - assert (now < expires_at c) as He.
    { apply assoc_get_elem in Hget. unfold live in Hlive. rewrite Forall_forall in Hlive.
      by apply (Hlive (sha256 ident, c)). }
    destruct (admit_client_spec p Hp now cs (sha256 ident) true c h) as (d & lim' & -> & Hres);
      [done|auto|].
    exists d, lim'. split; [done|]. cbv zeta in Hres.
    assert (Spec.recent p now (Spec.times h (sha256 ident)) ≠ []) as Hne.
    { rewrite Hlog. rewrite (recent_ring_nil p now); [lia|].
      destruct Href' as [[_ _ _ Hc _ _] _]. rewrite Forall_forall in Hc.
      apply (Hc (sha256 ident, c)). by apply assoc_get_elem. }
    destruct (Spec.recent p now (Spec.times h (sha256 ident))) as [|t ts]; [done|].
    case_match; destruct Hres as [-> ?]; done.
  - rewrite Hlog, Hactive. destruct (Z.leb_spec (max_clients p) (Z.of_nat (length cs))).
    + destruct cs as [|[k c] cs]; [destruct Hp; simpl in *; lia|].
      eexists _, _. split; [done|]. split; [|done].
      unfold decision_matches, reject. simpl. split_and!; auto. lia.
    + destruct (admit_client_spec p Hp now cs (sha256 ident) false (new_state (capacity p)) h)
        as (d & lim' & -> & Hres); [done|auto 10|].
      exists d, lim'. split; [done|]. cbv zeta in Hres. rewrite Hlog in Hres.
      rewrite (proj2 (Z.eqb_neq _ _)) in Hres by (simpl; lia). done.
Qed.

Definition keyed (reqs : list (Z * string)) : list (Z * string) :=
  prod_map id sha256 <$> reqs.

Lemma admit_all_refines reqs now0 lim h :
  refines p now0 lim h → Forall (λ t, now0 ≤ t) reqs.*1 → StronglySorted Z.le reqs.*1 →
  ∃ ds lim' now1, admit_all sha256 lim reqs = Ok (ds, lim')
    ∧ (∀ now, now0 ≤ now → Forall (λ t, t ≤ now) reqs.*1 → now1 ≤ now)
    ∧ Forall3 decision_matches reqs.*1 ds (Spec.admit_all p h (keyed reqs)).1
    ∧ refines p now1 lim' (Spec.admit_all p h (keyed reqs)).2.
Proof.
  revert now0 lim h. induction reqs as [|[now ident] reqs IH]; intros now0 lim h Href Hge Hs.
  { exists [], lim, now0. split_and!; [done|done|constructor|done]. }
  apply Forall_cons in Hge as [Hnow _]. apply StronglySorted_inv in Hs as [Hs Hle].
  destruct (admit_refines now0 now lim h ident Href Hnow) as (d & lim1 & E & Hd & Href1).
  destruct (IH now lim1 _ Href1 Hle Hs) as (ds & lim2 & now1 & E2 & Hlast & Hds & Href2).
  exists (d :: ds), lim2, now1. simpl in *. rewrite E. simpl. rewrite E2.
  unfold prod_map. simpl.
  destruct (Spec.admit_request p h now (sha256 ident)) as [v h1]. simpl in *.
  destruct (Spec.admit_all p h1 (keyed reqs)) as [vs h2]. simpl in *.
  split_and!; [done| |by constructor|done].
  intros now2 _ Hall. apply Forall_cons in Hall as [? ?]. auto.
Qed.

Lemma initial_refines now : refines p now (mkLimiter p [] 0) ∅.
Proof.
  split; [split|done]; simpl; auto; try constructor; destruct Hp as (_&_&?&_); lia.
Qed.
End refinement.

(** ** Sliding-window bound, on the specification *)
Section window_bound.
Context (p : RateLimitPolicy) (Hp : valid_policy p).

(** Admissions of [ts] in the window that ends at [T]. *)
Definition in_window (T : Z) (ts : list Z) : list Z :=
  filter (λ t, T - window p < t ∧ t ≤ T) ts.

Definition log_ok (now : Z) (h : gmap string (list Z)) : Prop :=
  ∀ key, Forall (λ t, t ≤ now) (Spec.times h key) ∧
    ∀ T, Z.of_nat (length (in_window T (Spec.times h key))) ≤ max_requests p.

Lemma in_window_recent T ts now :
  now ≤ T → (length (in_window T ts) ≤ length (Spec.recent p now ts))%nat.
Proof.
  intros HT. unfold Spec.recent, in_window. induction ts as [|t ts IH]; [done|].
  rewrite !filter_cons. repeat case_decide; simpl; lia.
Qed.

Lemma recent_in_window ts now :
  Forall (λ t, t ≤ now) ts → Spec.recent p now ts = in_window now ts.
Proof.
  unfold Spec.recent, in_window. induction 1 as [|t ts Ht _ IH]; [done|].
  rewrite !filter_cons, IH. repeat case_decide; auto; lia.
Qed.

Lemma in_window_snoc T ts now :
  Z.of_nat (length (in_window T ts)) ≤ max_requests p →
  Z.of_nat (length (Spec.recent p now ts)) < max_requests p →
  Z.of_nat (length (in_window T (ts ++ [now]))) ≤ max_requests p.
Proof.
  intros Hold Hrecent. pose proof (in_window_recent T ts now).
  unfold in_window in *. rewrite filter_snoc, length_app.
  case_decide as Hin; simpl; lia.
Qed.

Lemma spec_admit_ok now0 now h key :
  log_ok now0 h → now0 ≤ now → log_ok now (Spec.admit_request p h now key).2.
Proof.
  intros Hok Hnow.
  assert (log_ok now h) as Hok'.
  { intros k. destruct (Hok k) as [? ?]. split; [|done].
    eapply Forall_impl; [done|]. simpl. lia. }
  assert (Z.of_nat (length (Spec.recent p now (Spec.times h key))) < max_requests p →
          log_ok now (<[key := Spec.times h key ++ [now]]> h)) as Hpush.
  { intros Hlt k. unfold Spec.times. destruct (decide (k = key)) as [->|Hne].
    - rewrite lookup_insert_eq. simpl. destruct (Hok' key) as [Hle Hw].
      split; [apply Forall_app; split; [done|]; by apply Forall_singleton|].
      intros T. by apply in_window_snoc.
    - rewrite lookup_insert_ne by done. apply Hok'. }
  assert (Z.of_nat (length (Spec.recent p now (Spec.times h key))) ≤ max_requests p) as Hmax.
  { destruct (Hok' key) as [Hle Hw]. by rewrite recent_in_window. }
  unfold Spec.admit_request. destruct (Spec.recent p now (Spec.times h key)) as [|t ts] eqn:E.
  - case_match; simpl; [done|]. apply Hpush. simpl. destruct Hp as (_ & ? & _). lia.
  - destruct (Z.eqb_spec (Z.of_nat (length (t :: ts))) (max_requests p)); simpl; [done|].
    apply Hpush. lia.
Qed.

Lemma spec_admit_all_ok reqs now0 h :
  log_ok now0 h → Forall (λ t, now0 ≤ t) reqs.*1 → StronglySorted Z.le reqs.*1 →
  ∃ now1, log_ok now1 (Spec.admit_all p h reqs).2.
Proof.
  revert now0 h. induction reqs as [|[now key] reqs IH]; intros now0 h Hok Hge Hs; [eauto|].
  apply Forall_cons in Hge as [Hnow _]. apply StronglySorted_inv in Hs as [Hs Hle].
  simpl. pose proof (spec_admit_ok now0 now h key Hok Hnow) as Hok1.
  destruct (Spec.admit_request p h now key) as [v h1].
  destruct (IH now h1) as [now1 Hok2]; auto.
  destruct (Spec.admit_all p h1 reqs) as [vs h2]. eauto.
Qed.
End window_bound.

(** The times at which requests of [key] were let through. *)
Fixpoint admitted_times (key : string) (reqs : list (Z * string))
    (ds : list RateLimitDecision) : list Z :=
  match reqs, ds with
  | (now, k) :: reqs', d :: ds' =>
      (if allowed d && bool_decide (k = key) then [now] else [])
      ++ admitted_times key reqs' ds'
  | _, _ => []
  end.

Lemma spec_admit_times p h now k key :
  Spec.times (Spec.admit_request p h now k).2 key
  = Spec.times h key ++
    match (Spec.admit_request p h now k).1 with
    | Spec.Granted => if bool_decide (k = key) then [now] else []
    | _ => []
    end.
Proof.
  assert (Spec.times (<[k := Spec.times h k ++ [now]]> h) key
          = Spec.times h key ++ (if bool_decide (k = key) then [now] else [])) as Hpush.
  { unfold Spec.times. case_bool_decide as Hk; subst.
    - by rewrite lookup_insert_eq.
    - by rewrite lookup_insert_ne, app_nil_r. }
  unfold Spec.admit_request.
  destruct (Spec.recent p now (Spec.times h k));
    match goal with |- context [if ?b then _ else _] => destruct b end;
    simpl; rewrite ?app_nil_r; auto.
Qed.

Lemma decision_allowed now d v :
  decision_matches now d v → allowed d = bool_decide (v = Spec.Granted).
Proof. destruct v; simpl; intros; destruct_and?; subst; done. Qed.

Lemma decision_429 now d v :
  decision_matches now d v → status d = Some 429 → ∃ at_, v = Spec.TooMany at_.
Proof.
  destruct v as [|a|]; simpl; [intros ->; done|eauto|].
  intros (_ & Hd & _). rewrite Hd. done.
Qed.

Lemma spec_too_many p h now k at_ :
  (Spec.admit_request p h now k).1 = Spec.TooMany at_ →
  ∃ t ts, Spec.recent p now (Spec.times h k) = t :: ts ∧ at_ = t + window p
    ∧ Z.of_nat (S (length ts)) = max_requests p ∧ (Spec.admit_request p h now k).2 = h.
Proof.
  unfold Spec.admit_request. destruct (Spec.recent p now (Spec.times h k)) as [|t ts].
  - case_match; done.
  - simpl length. case_match eqn:E; [|done]. simpl. intros [= <-].
    apply Z.eqb_eq in E. eauto 10.
Qed.

Lemma admitted_times_logged p key reqs ds h :
  Forall3 decision_matches reqs.*1 ds (Spec.admit_all p h reqs).1 →
  Spec.times (Spec.admit_all p h reqs).2 key
  = Spec.times h key ++ admitted_times key reqs ds.
Proof.
  revert ds h. induction reqs as [|[now k] reqs IH]; intros ds h; simpl.
  { intros Hall. inversion Hall; subst. simpl. by rewrite app_nil_r. }
  pose proof (spec_admit_times p h now k key) as Ht.
  destruct (Spec.admit_request p h now k) as [v h1].
  destruct (Spec.admit_all p h1 reqs) as [vs h2] eqn:E2. simpl in *.
  intros Hall. inversion Hall as [|? ? ? d ds' ? ? Hd Hds]; subst.
  specialize (IH ds' h1). rewrite E2 in IH. simpl in IH. rewrite IH by done.
  rewrite Ht, <-app_assoc. do 2 f_equal. simpl.
  match goal with H : decision_matches _ _ _ |- _ => rewrite (decision_allowed _ _ _ H) end.
  destruct v; done.
Qed.

(** A limiter reached from a fresh one by requests no later than [now]. *)
Definition reached (sha256 : string → string) (p : RateLimitPolicy) (now : Z)
    (lim : RateLimiter) : Prop :=
  ∃ reqs ds, admit_all sha256 (mkLimiter p [] 0) reqs = Ok (ds, lim)
    ∧ StronglySorted Z.le reqs.*1 ∧ Forall (λ t, t ≤ now) reqs.*1.

Lemma sorted_ge_hd (l : list Z) d :
  StronglySorted Z.le l → Forall (λ t, hd d l ≤ t) l.
Proof. destruct 1 as [|x l Hs Hx]; simpl; constructor; auto with lia. Qed.

Lemma reached_refines sha256 p now lim :
  valid_policy p → reached sha256 p now lim → ∃ h, refines p now lim h.
Proof.
  intros Hp (reqs & ds & E & Hs & Hle).
  destruct (admit_all_refines sha256 p Hp reqs (hd now reqs.*1) (mkLimiter p [] 0) ∅)
    as (ds' & lim1 & now1 & E' & Hlast & _ & Href); auto using initial_refines, sorted_ge_hd.
  rewrite E in E'. simplify_eq. eexists.
  assert (now1 ≤ now) as Hnow.
  { apply Hlast; [|done]. destruct reqs as [|? ?]; [simpl; lia|].
    by apply Forall_cons in Hle as [? _]. }
  destruct Href as [[? ? ? Hc ? ?] Hlog]. split; [split; eauto|].
  - eapply Forall_impl; [exact Hc|]. intros ?. by apply wf_client_mono.
  - intros key. specialize (Hlog key).
    rewrite <-(recent_mono p now1 now), Hlog by done.
    destruct (assoc_get key (clients lim1)); simpl; [by apply recent_mono|done].
Qed.

Lemma total_count_bounds p now cs :
  Forall (λ kv, wf_client p now kv.2) cs →
  0 ≤ total_count cs ≤ Z.of_nat (length cs) * Z.of_nat (capacity p).
Proof.
  induction 1 as [|kv cs [? ? ? ? ? ?] _ IH]; [done|].
  simpl total_count. simpl length. nia.
Qed.

(** ** Properties *)

(** [C2] Whatever requests arrive, with a monotone clock, the ring-buffered store with
    lazy expiry never raises and answers every request exactly as the unbounded
    sliding-window log does: admitted, refused with 429 and the time until the oldest
    admission leaves the window, or refused with 503 when every client slot is in use. *)
Theorem limiter_refines_sliding_window sha256 w r c lim reqs :
  new_limiter w r c = Ok lim → StronglySorted Z.le reqs.*1 →
  ∃ ds lim', admit_all sha256 lim reqs = Ok (ds, lim') ∧
    Forall3 decision_matches reqs.*1 ds
      (Spec.admit_all (policy lim) ∅ (keyed sha256 reqs)).1.
Proof.
  unfold new_limiter. destruct (new_policy w r c) as [p|] eqn:Hnew; simpl; [|done].
  intros [= <-] Hs. apply new_policy_valid in Hnew as Hp.
  destruct (admit_all_refines sha256 p Hp reqs (hd 0 reqs.*1) (mkLimiter p [] 0) ∅)
    as (ds & lim' & _ & E & _ & Hd & _); eauto using initial_refines.
  by apply sorted_ge_hd.
Qed.

Lemma limiter_refines_sliding_window_witness :
  ∃ ds lim', admit_all (λ s, s) (mkLimiter (mkPolicy 1000 1 1) [] 0)
      [(5, "a"); (6, "a"); (7, "b"); (2000000000, "b")] = Ok (ds, lim') ∧
    Forall3 decision_matches [5; 6; 7; 2000000000] ds
      [Spec.Granted; Spec.TooMany 1000000005; Spec.Full; Spec.Granted].
Proof.
  apply (limiter_refines_sliding_window (λ s, s) 1000 1 1 (mkLimiter (mkPolicy 1000 1 1) [] 0)
    [(5, "a"); (6, "a"); (7, "b"); (2000000000, "b")]); [reflexivity|].
  repeat (constructor; [|repeat (constructor; [simpl; lia|]); constructor]). constructor.
Defined.

(** In any window of the configured length, ending at any time [T], at most
    [max_requests] requests of one client are let through. *)
Theorem limiter_window_bound sha256 w r c lim reqs ds lim' key T :
  new_limiter w r c = Ok lim → StronglySorted Z.le reqs.*1 →
  admit_all sha256 lim reqs = Ok (ds, lim') →
  Z.of_nat (length (in_window (policy lim) T (admitted_times key (keyed sha256 reqs) ds)))
  ≤ max_requests (policy lim).
Proof.
  unfold new_limiter. destruct (new_policy w r c) as [p|] eqn:Hnew; simpl; [|done].
  intros [= <-] Hs E. apply new_policy_valid in Hnew as Hp. simpl.
  set (now0 := hd 0 reqs.*1).
  assert (Forall (λ t, now0 ≤ t) reqs.*1) as Hge.
  { unfold now0. by apply sorted_ge_hd. }
  destruct (admit_all_refines sha256 p Hp reqs now0 (mkLimiter p [] 0) ∅)
    as (ds' & lim1 & _ & E' & _ & Hd & _); auto using initial_refines.
  rewrite E in E'. simplify_eq.
  assert ((keyed sha256 reqs).*1 = reqs.*1) as Hkeyed.
  { unfold keyed. rewrite <-list_fmap_compose. by apply list_fmap_ext. }
  destruct (spec_admit_all_ok p Hp (keyed sha256 reqs) now0 ∅) as [now1 Hok];
    rewrite ?Hkeyed; auto.
  { intros k. unfold Spec.times. rewrite lookup_empty. split; [constructor|].
    intros ?. simpl. destruct Hp as (_ & ? & _). lia. }
  destruct (Hok key) as [_ Hw]. specialize (Hw T).
  rewrite (admitted_times_logged p key (keyed sha256 reqs) ds') in Hw by (by rewrite Hkeyed).
  done.
Qed.

Lemma limiter_window_bound_witness :
  Z.of_nat (length (in_window (mkPolicy 1 1 1) 6 [5])) ≤ 1.
Proof.
  apply (limiter_window_bound (λ s, s) 1 1 1 (mkLimiter (mkPolicy 1 1 1) [] 0)
    [(5, "a"); (6, "a")]
    [mkDecision true None 0; mkDecision false (Some 429) 1]
    (mkLimiter (mkPolicy 1 1 1) [("a", mkState [5] 0 1 1000005)] 1) "a" 6);
    [reflexivity| |reflexivity].
  repeat constructor. simpl. lia.
Defined.

(** A client refused with 429 that waits the advertised [Retry-After] seconds is
    not refused with 429 again: its oldest counted admission has left the window. *)
Theorem limiter_retry_after_suffices sha256 w r c lim0 now lim ident d lim1 now' d' lim2 :
  new_limiter w r c = Ok lim0 →
  reached sha256 (policy lim0) now lim →
  admit_request sha256 lim now ident = Ok (d, lim1) → status d = Some 429 →
  now + retry_after_seconds d * 1000 * ticks_per_ms ≤ now' →
  admit_request sha256 lim1 now' ident = Ok (d', lim2) →
  status d' ≠ Some 429.
Proof.
  unfold new_limiter. destruct (new_policy w r c) as [p|] eqn:Hnew; simpl; [|done].
  intros [= <-] Hreach E Hst Hwait E'. simpl in *. apply new_policy_valid in Hnew as Hp.
  apply (reached_refines sha256 p now lim Hp) in Hreach as [h Href].
  destruct (admit_refines sha256 p Hp now now lim h ident Href) as (d1 & lim3 & E1 & Hd & Href1);
    [lia|]. rewrite E in E1. simplify_eq.
  destruct (admit_refines sha256 p Hp now now' lim3 _ ident Href1)
    as (d2 & lim4 & E2 & Hd2 & _).
  { destruct (decision_429 _ _ _ Hd Hst) as [a Ha]. rewrite Ha in Hd. simpl in Hd.
    subst d1. simpl in Hwait. unfold ticks_per_ms in Hwait. lia. }
  rewrite E' in E2. simplify_eq. intros Hst2.
  destruct (decision_429 _ _ _ Hd Hst) as [a Ha].
  destruct (decision_429 _ _ _ Hd2 Hst2) as [a' Ha'].
  rewrite Ha in Hd. simpl in Hd. subst d1. simpl in Hwait.
  apply spec_too_many in Ha as (t & ts & Hr & -> & Hlen & Hh). rewrite Hh in Ha'.
  apply spec_too_many in Ha' as (t' & ts' & Hr' & _ & Hlen' & _).
  unfold ceil_div, ticks_per_ms in Hwait.
  pose proof (Z.mul_div_le (- (t + window p - now)) (1000 * 1000000)).
  unfold Spec.recent in Hr, Hr'.
  rewrite <-(filter_filter_sub (λ t, now - window p < t) (λ t, now' - window p < t)) in Hr'
    by (intros; lia).
  rewrite Hr, filter_cons, decide_False in Hr' by lia.
  apply (f_equal length) in Hr'. simpl in Hr'.
  pose proof (length_filter (λ t, now' - window p < t) ts). lia.
Qed.

Lemma limiter_retry_after_suffices_witness :
  status (mkDecision true None 0) ≠ Some 429.
Proof.
  apply (limiter_retry_after_suffices (λ s, s) 1500 1 1 (mkLimiter (mkPolicy 1500 1 1) [] 0) 5
    (mkLimiter (mkPolicy 1500 1 1) [("a", mkState [5] 0 1 1500000005)] 1) "a"
    (mkDecision false (Some 429) 2)
    (mkLimiter (mkPolicy 1500 1 1) [("a", mkState [5] 0 1 1500000005)] 1)
    2000000005 (mkDecision true None 0)
    (mkLimiter (mkPolicy 1500 1 1) [("a", mkState [2000000005] 0 1 3500000005)] 1));
    try reflexivity.
  exists [(5, "a")], [mkDecision true None 0]. split; [reflexivity|].
  split; [repeat constructor|]. repeat constructor. simpl. lia.
Defined.

(** The store stays inside its bounds: at most [max_clients] clients, the count of
    stored requests is never negative nor above the slots allocated, and the slots never
    exceed two million. *)
Theorem limiter_storage_bounded sha256 w r c lim0 now lim :
  new_limiter w r c = Ok lim0 → reached sha256 (policy lim0) now lim →
  clients_used (usage lim) ≤ max_clients (policy lim0) ∧
  0 ≤ stored_used (usage lim) ≤ timestamp_slots (usage lim) ∧
  timestamp_slots (usage lim) ≤ MAX_TIMESTAMP_SLOTS.
Proof.
  unfold new_limiter. destruct (new_policy w r c) as [p|] eqn:Hnew; simpl; [|done].
  intros [= <-] Hreach. simpl in *. apply new_policy_valid in Hnew as Hp.
  apply (reached_refines sha256 p now lim Hp) in Hreach as [h [[-> _ _ Hc -> Hsz] _]].
  apply total_count_bounds in Hc as Hb. pose proof (capacity_pos p Hp) as [_ HcapZ].
  destruct Hp as (_ & ? & ? & ?). rewrite HcapZ in Hb. split_and!; nia.
Qed.

Lemma limiter_storage_bounded_witness :
  1 ≤ 1 ∧ 0 ≤ 1 ≤ 1 ∧ 1 ≤ MAX_TIMESTAMP_SLOTS.
Proof.
  apply (limiter_storage_bounded (λ s, s) 1 1 1 (mkLimiter (mkPolicy 1 1 1) [] 0) 5
    (mkLimiter (mkPolicy 1 1 1) [("a", mkState [5] 0 1 1000005)] 1)); [reflexivity|].
  exists [(5, "a")], [mkDecision true None 0]. split; [reflexivity|].
  split; repeat constructor. simpl. lia.
Defined.
