(* ===== verification/Asgi.v ===== *)
(** * ASGI programs

    The messages, the request scope and the programs an ASGI application runs:
    [prog A] is the tree of the effects of a coroutine — awaiting [receive] and
    [send], reading and replacing the scope (a mutable dict every layer shares), the
    log, the clock, a fresh identifier, the shared rate limiter and the request
    context.  [wrap] runs an inner application behind a middleware's own [receive] and
    [send] closures and their [nonlocal] state; [run] executes a program against a
    server.  Also the shared error envelope ([app/common/models/error_model.py]) and
    the exception handlers ([app/common/handlers/exception_handler.py]). *)
From S2P Require Import Prelude PyText.
From S2P Require RateLimiter.
Open Scope Z_scope.

Abbreviation header := (string * string)%type (only parsing).

(** [app/common/store/request_context.py] *)
Record RequestContextData := mkContext {
  request_id : string;
  ctx_method : string;
  ctx_path : string;
  ctx_ip : string
}.

Record scope := mkScope {
  sc_type : string;
  sc_method : string;
  sc_path : string;
  sc_root : string;
  sc_headers : list header;
  sc_client : option (string * Z);
  sc_scheme : string;
  sc_cors : option (list header);          (* scope['quickapi.cors_response_headers'] *)
  sc_ctx : option RequestContextData       (* scope['ctx'] *)
}.

Definition set_headers (hs : list header) (s : scope) : scope :=
  mkScope (sc_type s) (sc_method s) (sc_path s) (sc_root s) hs (sc_client s)
    (sc_scheme s) (sc_cors s) (sc_ctx s).
Definition set_client (c : option (string * Z)) (s : scope) : scope :=
  mkScope (sc_type s) (sc_method s) (sc_path s) (sc_root s) (sc_headers s) c
    (sc_scheme s) (sc_cors s) (sc_ctx s).
Definition set_scheme (x : string) (s : scope) : scope :=
  mkScope (sc_type s) (sc_method s) (sc_path s) (sc_root s) (sc_headers s) (sc_client s)
    x (sc_cors s) (sc_ctx s).
Definition set_cors (c : option (list header)) (s : scope) : scope :=
  mkScope (sc_type s) (sc_method s) (sc_path s) (sc_root s) (sc_headers s) (sc_client s)
    (sc_scheme s) c (sc_ctx s).
Definition set_ctx (c : option RequestContextData) (s : scope) : scope :=
  mkScope (sc_type s) (sc_method s) (sc_path s) (sc_root s) (sc_headers s) (sc_client s)
    (sc_scheme s) (sc_cors s) c.

Inductive message :=
| RequestBody (body : string) (more_body : bool)
| RequestDisconnect
| ResponseStart (status : Z) (headers : list header)
| ResponseBody (body : string) (more_body : bool)
| OtherMessage (type : string).

Inductive log_level := LDebug | LInfo | LWarning | LError | LCritical.

(** A log call: its level, its event text and the [status] field, if any. *)
Record log_record := mkLog {
  log_level_of : log_level;
  log_event : string;
  log_status : option Z
}.

Inductive prog (A : Type) : Type :=
| Ret (a : A)
| Raise (e : exn)
| Recv (k : py message → prog A)                    (* await receive() *)
| Send (m : message) (k : py unit → prog A)         (* await send(m) *)
| GetScope (k : scope → prog A)
| PutScope (s : scope) (k : prog A)
| Log (r : log_record) (k : prog A)
| Now (k : Z → prog A)                              (* datetime.now(UTC), ms *)
| Uuid (k : string → prog A)                        (* uuid.uuid4().hex *)
| Limit (identity : string) (k : py RateLimiter.RateLimitDecision → prog A)
| SetContext (c : option RequestContextData) (k : prog A)
| GetContext (k : option RequestContextData → prog A).
Arguments Ret {A} a.
Arguments Raise {A} e.
Arguments Recv {A} k.
Arguments Send {A} m k.
Arguments GetScope {A} k.
Arguments PutScope {A} s k.
Arguments Log {A} r k.
Arguments Now {A} k.
Arguments Uuid {A} k.
Arguments Limit {A} identity k.
Arguments SetContext {A} c k.
Arguments GetContext {A} k.

Fixpoint pbind {A B} (p : prog A) (f : A → prog B) : prog B :=
  match p with
  | Ret a => f a
  | Raise e => Raise e
  | Recv k => Recv (λ r, pbind (k r) f)
  | Send m k => Send m (λ r, pbind (k r) f)
  | GetScope k => GetScope (λ s, pbind (k s) f)
  | PutScope s k => PutScope s (pbind k f)
  | Log r k => Log r (pbind k f)
  | Now k => Now (λ t, pbind (k t) f)
  | Uuid k => Uuid (λ u, pbind (k u) f)
  | Limit i k => Limit i (λ d, pbind (k d) f)
  | SetContext c k => SetContext c (pbind k f)
  | GetContext k => GetContext (λ c, pbind (k c) f)
  end.

#[export] Instance prog_ret : MRet prog := @Ret.
#[export] Instance prog_bind : MBind prog := λ A B f p, pbind p f.

Definition of_result {A} (r : py A) : prog A :=
  match r with Ok a => Ret a | Err e => Raise e end.

(** [await send(m)]: an exception of the channel propagates. *)
Definition send (m : message) : prog unit := Send m of_result.
Definition receive : prog message := Recv of_result.

(** Behind a middleware: [on_recv] and [on_send] are its closures, [s] their shared
    local state; the outcome of the inner program is returned with that state, so that
    [try]/[except]/[finally] around it can look at both. *)
Fixpoint wrap {S A} (on_recv : S → prog (S * py message))
    (on_send : S → message → prog (S * py unit)) (p : prog A) (s : S) : prog (S * py A) :=
  match p with
  | Ret a => Ret (s, Ok a)
  | Raise e => Ret (s, Err e)
  | Recv k => pbind (on_recv s) (λ '(s', r), wrap on_recv on_send (k r) s')
  | Send m k => pbind (on_send s m) (λ '(s', r), wrap on_recv on_send (k r) s')
  | GetScope k => GetScope (λ sc, wrap on_recv on_send (k sc) s)
  | PutScope sc k => PutScope sc (wrap on_recv on_send k s)
  | Log r k => Log r (wrap on_recv on_send k s)
  | Now k => Now (λ t, wrap on_recv on_send (k t) s)
  | Uuid k => Uuid (λ u, wrap on_recv on_send (k u) s)
  | Limit i k => Limit i (λ d, wrap on_recv on_send (k d) s)
  | SetContext c k => SetContext c (wrap on_recv on_send k s)
  | GetContext k => GetContext (λ c, wrap on_recv on_send (k c) s)
  end.

(** The channels passed through unchanged. *)
Definition recv_through {S} (s : S) : prog (S * py message) := Recv (λ r, Ret (s, r)).
Definition send_through {S} (s : S) (m : message) : prog (S * py unit) :=
  Send m (λ r, Ret (s, r)).

(** [try: p except C: h], for the exceptions [catches] selects. *)
Definition try_except {A} (p : prog A) (catches : exn → bool) (h : exn → prog A) : prog A :=
  pbind (wrap recv_through send_through p tt) (λ '(_, r),
    match r with
    | Ok a => Ret a
    | Err e => if catches e then h e else Raise e
    end).

(** A [send] closure that only rewrites messages. *)
Definition map_send {A} (f : message → message) (p : prog A) : prog A :=
  pbind (wrap recv_through (λ s m, Send (f m) (λ r, Ret (s, r))) p tt)
    (λ '(_, r), of_result r).

Definition is_HTTPException (e : exn) : bool :=
  match e with HTTPException _ _ _ _ => true | _ => false end.

(** An ASGI application; a middleware turns one into another. *)
Definition app : Type := prog unit.

(** ** The error envelope and the exception handlers *)

(** Starlette's rendering of a JSON response: the body of the error model and the raw
    header list a response starts with.  Starlette is not part of the repository. *)
Class Starlette := {
  json_error : Z → string → Z → string;              (* status, message, timestamp *)
  raw_headers : list header → string → list header;  (* response headers, body *)
  plain_headers : Z → list header                    (* of [Response(status_code=...)] *)
}.

Section handlers.
Context `{Starlette}.

(** [await response(scope, receive, send)] for a buffered response. *)
Definition respond (status : Z) (headers : list header) (body : string) : app :=
  _ ← send (ResponseStart status (raw_headers headers body));
  send (ResponseBody body false).

Record response := mkResponse {
  rsp_status : Z;
  rsp_headers : list header;
  rsp_body : string
}.

Definition send_response (r : response) : app :=
  respond (rsp_status r) (rsp_headers r) (rsp_body r).

Definition error_response (status : Z) (msg : string) (headers : list header)
  : prog response :=
  Now (λ ts_ms, Ret (mkResponse status headers (json_error status msg ts_ms))).

Definition http_exception_handler (status : Z) (detail : string) (headers : list header)
  : prog response :=
  if (status <? 500)
  then Log (mkLog LWarning "HTTP request rejected." (Some status))
         (error_response status detail headers)
  else Log (mkLog LError "HTTP request failed." (Some status))
         (error_response status detail headers).

Definition validation_part (e : validation_error) : string :=
  let field_path := join "." (ve_loc e) in
  if String.eqb field_path "" then ve_msg e
  else field_path +:+ " → " +:+ ve_msg e.

Definition validation_message (errors : list validation_error) : string :=
  "Validation failed: " +:+ join "; " (validation_part <$> errors) +:+ ".".

Definition validation_exception_handler (errors : list validation_error) : prog response :=
  if existsb (λ e, String.eqb (ve_type e) "json_invalid") errors
  then Log (mkLog LWarning "HTTP request rejected." (Some 400))
         (error_response 400 "Malformed JSON request body." [])
  else
    let message := validation_message errors in
    Log (mkLog LWarning "HTTP request rejected." (Some 422))
      (error_response 422 message []).

Definition unhandled_exception_handler : prog response :=
  Log (mkLog LError "HTTP request failed." (Some 500))
    (error_response 500 "Internal Server Error" []).

(** The [except HTTPException as exc] clause the policy middlewares share: render the
    rejection and send it. *)
Definition render_rejection (e : exn) : app :=
  match e with
  | HTTPException _ status detail headers =>
      r ← http_exception_handler status detail headers; send_response r
  | _ => Raise e
  end.

Definition rejecting (p : app) : app := try_except p is_HTTPException render_rejection.

Definition http_error (status : Z) (detail : string) : exn :=
  HTTPException PlainHTTPException status detail [].
End handlers.

(** ** Running a program against a server *)
Record server := mkServer {
  sv_inbox : list (py message);            (* what receive will return *)
  sv_accept : message → py unit;           (* what send returns *)
  sv_wire : list message;                  (* what was sent, in order *)
  sv_scope : scope;
  sv_logs : list log_record;
  sv_clock : Z;
  sv_uuid : string;
  sv_limit : string → py RateLimiter.RateLimitDecision;
  sv_context : option RequestContextData
}.

Definition push_wire (m : message) (v : server) : server :=
  mkServer (sv_inbox v) (sv_accept v) (sv_wire v ++ [m]) (sv_scope v) (sv_logs v)
    (sv_clock v) (sv_uuid v) (sv_limit v) (sv_context v).
Definition pop_inbox (v : server) : py message * server :=
  match sv_inbox v with
  | [] => (Ok RequestDisconnect, v)
  | r :: rs => (r, mkServer rs (sv_accept v) (sv_wire v) (sv_scope v) (sv_logs v)
                     (sv_clock v) (sv_uuid v) (sv_limit v) (sv_context v))
  end.
Definition with_scope (s : scope) (v : server) : server :=
  mkServer (sv_inbox v) (sv_accept v) (sv_wire v) s (sv_logs v)
    (sv_clock v) (sv_uuid v) (sv_limit v) (sv_context v).
Definition push_log (r : log_record) (v : server) : server :=
  mkServer (sv_inbox v) (sv_accept v) (sv_wire v) (sv_scope v) (sv_logs v ++ [r])
    (sv_clock v) (sv_uuid v) (sv_limit v) (sv_context v).
Definition with_context (c : option RequestContextData) (v : server) : server :=
  mkServer (sv_inbox v) (sv_accept v) (sv_wire v) (sv_scope v) (sv_logs v)
    (sv_clock v) (sv_uuid v) (sv_limit v) c.

Fixpoint run {A} (p : prog A) (v : server) : py A * server :=
  match p with
  | Ret a => (Ok a, v)
  | Raise e => (Err e, v)
  | Recv k => let '(r, v') := pop_inbox v in run (k r) v'
  | Send m k =>
      match sv_accept v m with
      | Ok tt => run (k (Ok tt)) (push_wire m v)
      | Err e => run (k (Err e)) v
      end
  | GetScope k => run (k (sv_scope v)) v
  | PutScope s k => run k (with_scope s v)
  | Log r k => run k (push_log r v)
  | Now k => run (k (sv_clock v)) v
  | Uuid k => run (k (sv_uuid v)) v
  | Limit i k => run (k (sv_limit v i)) v
  | SetContext c k => run k (with_context c v)
  | GetContext k => run (k (sv_context v)) v
  end.

(** ** Lemmas on execution *)
Lemma run_bind {A B} (p : prog A) (f : A → prog B) v :
  run (pbind p f) v
  = match run p v with (Ok a, v') => run (f a) v' | (Err e, v') => (Err e, v') end.
Proof.
  revert v. induction p as [| |k IH|m k IH|k IH|s p IH|r p IH|k IH|k IH|i k IH|c p IH|k IH];
    intros v; simpl; auto.
  - destruct (pop_inbox v) as [r v']. apply IH.
  - destruct (sv_accept v m) as [[]|e]; apply IH.
Qed.

Lemma run_of_result {A} (r : py A) v : run (of_result r) v = (r, v).
Proof. by destruct r. Qed.

(** Channels passed through unchanged do not change an execution. *)
Lemma run_wrap_through {S A} (p : prog A) (s : S) v :
  run (wrap recv_through send_through p s) v
  = (Ok (s, (run p v).1), (run p v).2).
Proof.
  revert v. induction p as [| |k IH|m k IH|k IH|sc p IH|r p IH|k IH|k IH|i k IH|c p IH|k IH];
    intros v; simpl; auto.
  - destruct (pop_inbox v) as [r v']. apply IH.
  - destruct (sv_accept v m) as [[]|e]; apply IH.
Qed.

Lemma run_try_except {A} (p : prog A) catches h v :
  run (try_except p catches h) v
  = match run p v with
    | (Ok a, v') => (Ok a, v')
    | (Err e, v') => if catches e then run (h e) v' else (Err e, v')
    end.
Proof.
  unfold try_except. rewrite run_bind, run_wrap_through.
  destruct (run p v) as [[a|e] v']; simpl; [done|]. by destruct (catches e).
Qed.

(** What a predicate on messages says of the wire after a run: nothing that violates it
    is sent. *)
Definition sends {A} (P : message → Prop) (p : prog A) : Prop :=
  ∀ v, Forall P (sv_wire v) → Forall P (sv_wire (run p v).2).

Lemma sv_wire_pop v : sv_wire (pop_inbox v).2 = sv_wire v.
Proof. unfold pop_inbox. by destruct (sv_inbox v). Qed.

Lemma sends_map {A} (P : message → Prop) f (p : prog A) :
  (∀ m, P (f m)) → sends P (map_send f p).
Proof.
  intros Hf v. unfold map_send. rewrite run_bind.
  set (q := wrap _ _ p tt). assert (sends P q) as Hq.
  { subst q. clear v. intros v. revert v.
    induction p as [| |k IH|m k IH|k IH|sc p IH|r p IH|k IH|k IH|i k IH|c p IH|k IH];
      intros v Hv; simpl; auto.
    - destruct (pop_inbox v) as [r v'] eqn:E. apply IH.
      pose proof (sv_wire_pop v) as Hw. rewrite E in Hw. simpl in Hw. by rewrite Hw.
    - destruct (sv_accept v (f m)) as [[]|e]; apply IH; [|done].
      simpl. apply Forall_app. split; [done|]. by apply Forall_singleton. }
  intros Hv. specialize (Hq v Hv). destruct (run q v) as [[[s r]|e] v']; [|done].
  by rewrite run_of_result.
Qed.
