(* ===== verification/HeaderPolicy.v ===== *)
(** * Request header policy

    [app/common/middleware/trusted_proxy.py], [request_header_sanitization.py] and
    [request_header_limit.py], with the header names of [app/config/http_policy.py]:
    which peer's forwarding headers are believed, which headers reach the application,
    and how many octets of them. *)
From S2P Require Import Prelude PyText Asgi.
Open Scope Z_scope.

Definition FORBIDDEN_HEADERS : list string :=
  ["keep-alive"; "proxy-authenticate"; "proxy-authorization"; "te"; "trailer";
   "transfer-encoding"; "upgrade"; "proxy-connection"; "x-forwarded-for";
   "x-forwarded-host"; "x-forwarded-proto"; "forwarded"; "via"; "client-ip";
   "true-client-ip"].

Definition mem (x : string) (l : list string) : bool := bool_decide (x ∈ l).

(** ** Trusted proxies *)

(** [ipaddress]: addresses, networks and their text. *)
Class IpAddress := {
  ip : Type;
  network : Type;
  ip_address : string → option ip;            (* None: ValueError *)
  ip_text : ip → string;                      (* str(address) *)
  ip_network : string → option network;       (* strict=False *)
  prefixlen : network → Z;
  in_network : ip → network → bool
}.

Section trusted_proxy.
Context `{IpAddress}.

(** [value.split('/', 1)[1]] *)
Fixpoint after_slash (s : string) : option string :=
  match s with
  | EmptyString => None
  | String c s' => if Ascii.eqb c "/"%char then Some s' else after_slash s'
  end.

Definition is_decimal (s : string) : bool :=
  negb (String.eqb s "") && str_all is_digit s.

Definition proxy_network (value : string) : py network :=
  if mem_char "%"%char value
  then Err (ValueError "Scoped proxy addresses are not supported")
  else if match after_slash value with Some p => negb (is_ascii p) | None => false end
  then Err (ValueError "Use a numeric CIDR prefix")
  else if match after_slash value with Some p => negb (is_decimal p) | None => false end
  then Err (ValueError "Use a numeric CIDR prefix")
  else match ip_network value with
  | None => Err (ValueError "invalid network")
  | Some n =>
      if prefixlen n =? 0 then Err (ValueError "Blanket proxy trust is not supported")
      else Ok n
  end.

Record TrustedProxy := mkTrustedProxy {
  networks : list network;
  tp_max_header_bytes : Z;
  tp_max_header_count : Z;
  tp_max_total_header_bytes : Z
}.

Definition trusted (mw : TrustedProxy) (host : string) : bool :=
  match ip_address host with
  | Some a => existsb (in_network a) (networks mw)
  | None => false
  end.

Definition header_size (h : header) : Z := blen h.1 + blen h.2.

Definition sum_sizes (hs : list header) : Z := foldr (λ h acc, header_size h + acc) 0 hs.

Definition is_control (c : ascii) : bool := (octet c <? 32) || (octet c =? 127).

Definition forwarding_names : list string := ["x-forwarded-for"; "x-forwarded-proto"].

(** The loop that collects the two consumed headers; [None] is an early [return]. *)
Fixpoint select_forwarding (hs : list header) (selected : list (string * string))
  : option (list (string * string)) :=
  match hs with
  | [] => Some selected
  | (name, value) :: hs' =>
      let key := lower name in
      if negb (mem key forwarding_names) then select_forwarding hs' selected
      else if bool_decide (key ∈ selected.*1) then None
      else match decode_ascii value with
      | Err _ => None
      | Ok decoded =>
          if str_any is_control decoded then None
          else select_forwarding hs' (assoc_set key (strip decoded) selected)
      end
  end.

Fixpoint parse_hosts (raw : list string) : option (list string) :=
  match raw with
  | [] => Some []
  | h :: raw' =>
      a ← ip_address (strip h);
      hosts ← parse_hosts raw';
      Some (ip_text a :: hosts)
  end.

(** The nearest hop that is not one of ours, or the first address of the list. *)
Definition pick_client (mw : TrustedProxy) (hosts : list string) (first : string) : string :=
  default first (head (filter (λ h, trusted mw h = false) (reverse hosts))).

Definition forwarded_client (mw : TrustedProxy) (selected : list (string * string))
  : option (option string) :=
  match assoc_get "x-forwarded-for" selected with
  | None => Some None
  | Some value =>
      let raw_hosts := split_on ","%char value in
      if existsb (mem_char "%"%char) raw_hosts then None
      else match parse_hosts raw_hosts with
      | Some (first :: hosts) => Some (Some (pick_client mw (first :: hosts) first))
      | _ => None
      end
  end.

Definition apply_forwarding (mw : TrustedProxy) (s : scope) : scope :=
  let raw_headers := sc_headers s in
  if (tp_max_header_count mw <? Z.of_nat (length raw_headers))
     || (tp_max_total_header_bytes mw <? sum_sizes raw_headers)
     || existsb (λ h, tp_max_header_bytes mw <? header_size h) raw_headers
  then s
  else match select_forwarding raw_headers [] with
  | None => s
  | Some selected =>
      match forwarded_client mw selected with
      | None => s
      | Some fwd =>
          let scheme := assoc_get "x-forwarded-proto" selected in
          if match scheme with Some x => negb (mem x ["http"; "https"]) | None => false end
          then s
          else
            let s := match fwd with Some c => set_client (Some (c, 0)) s | None => s end in
            let s := match scheme with Some x => set_scheme x s | None => s end in
            set_headers
              (filter (λ h, lower h.1 ∉ selected.*1) (sc_headers s)) s
      end
  end.

(** The scope after [TrustedProxyASGIMiddleware.__call__]'s check. *)
Definition resolve_proxy (mw : TrustedProxy) (s : scope) : scope :=
  match sc_client s with
  | Some (host, _) =>
      if String.eqb (sc_type s) "http" && trusted mw host
      then apply_forwarding mw s else s
  | None => s
  end.

Definition TrustedProxyASGIMiddleware (mw : TrustedProxy) (inner : app) : app :=
  GetScope (λ s, PutScope (resolve_proxy mw s) inner).
End trusted_proxy.

(** ** Header sanitization *)
Definition BLOCKLIST : list string := FORBIDDEN_HEADERS.

Definition ALLOWLIST : list string :=
  ["host"; "connection"; "content-type"; "content-length"; "accept"; "accept-language";
   "accept-encoding"; "user-agent"; "referer"; "origin"; "access-control-request-method";
   "access-control-request-headers"; "cookie"; "sec-fetch-site"; "sec-fetch-mode";
   "sec-fetch-dest"; "sec-ch-ua"; "sec-ch-ua-mobile"; "sec-ch-ua-platform";
   "authorization"; "x-csrf-token"; "x-request-id"; "x-api-key"; "idempotency-key"].

Definition KEY_ERROR : string :=
  "Idempotency-Key must be one opaque 1–128 character printable ASCII value without whitespace or commas.".

Definition name_char (c : ascii) : bool :=
  is_upper_alpha c || is_lower_alpha c || is_digit c || Ascii.eqb c "-"%char.

(** [re.match(r'^[A-Za-z0-9-]+$', name)]: [$] also matches before a final newline. *)
Fixpoint valid_name_tail (s : string) : bool :=
  match s with
  | EmptyString => true
  | String c s' =>
      (name_char c && valid_name_tail s')
      || (Ascii.eqb c "010"%char && String.eqb s' "")
  end.
Definition VALID_NAME_RE (name : string) : bool :=
  match name with
  | EmptyString => false
  | String c s' => name_char c && valid_name_tail s'
  end.

Definition INVALID_VALUE_CHARS (c : ascii) : bool :=
  Ascii.eqb c "013"%char || Ascii.eqb c "010"%char.

Definition allowed_headers (extra_allowed : list string) : list string :=
  ALLOWLIST ++ extra_allowed.

Section sanitization.
Context `{Starlette}.

Fixpoint sanitize (allowed : list string) (hs : list header) (cleaned : list header)
    (seen : list string) : py (list header) :=
  match hs with
  | [] => Ok cleaned
  | (raw_name, raw_value) :: hs' =>
      match decode_ascii raw_name, decode_ascii raw_value with
      | Ok n, Ok value =>
          let name := lower n in
          if mem name BLOCKLIST then
            Err (http_error 400 ("Header '" +:+ name +:+ "' is not allowed."))
          else if mem name seen then
            Err (http_error 400
                  (if String.eqb name "idempotency-key" then KEY_ERROR
                   else "Duplicate header '" +:+ name +:+ "' is not permitted."))
          else
          let seen := name :: seen in
          if negb (VALID_NAME_RE name) then
            Err (http_error 400
                   ("Header name '" +:+ name +:+ "' contains invalid characters."))
          else if str_any INVALID_VALUE_CHARS value then
            Err (http_error 400 "Header value contains prohibited control characters.")
          else if negb (mem name allowed) then sanitize allowed hs' cleaned seen
          else sanitize allowed hs' (cleaned ++ [(raw_name, raw_value)]) seen
      | _, _ => Err (http_error 400 "Header contains non-ASCII bytes.")
      end
  end.

Definition HeaderSanitizationASGIMiddleware (extra_allowed : list string) (inner : app)
  : app :=
  GetScope (λ s,
    if negb (String.eqb (sc_type s) "http") then inner
    else rejecting (
      cleaned ← of_result (sanitize (allowed_headers extra_allowed) (sc_headers s) [] []);
      PutScope (set_headers cleaned s) inner)).

(** ** Header budgets *)
Record HeaderLimits := mkHeaderLimits {
  max_header_count : Z;
  max_single_header_bytes : Z;
  max_total_header_bytes : Z;
  allow_chunked : bool
}.

Definition default_header_limits : HeaderLimits := mkHeaderLimits 100 4096 8192 false.

Fixpoint check_sizes (l : HeaderLimits) (hs : list header) (total_bytes : Z) : py Z :=
  match hs with
  | [] => Ok total_bytes
  | h :: hs' =>
      if (max_single_header_bytes l <? header_size h)
      then Err (http_error 431
                  ("Header exceeds per-header size limit ("
                   +:+ pretty (max_single_header_bytes l) +:+ " bytes)."))
      else check_sizes l hs' (total_bytes + header_size h)
  end.

Fixpoint drop_non_ascii (s : string) : string :=
  match s with
  | EmptyString => EmptyString
  | String c s' => if is_ascii_char c then String c (drop_non_ascii s') else drop_non_ascii s'
  end.

(** [next((value.decode('ascii', errors='ignore') ...), None)] *)
Fixpoint transfer_encoding (hs : list header) : option string :=
  match hs with
  | [] => None
  | (key, value) :: hs' =>
      if String.eqb (lower key) "transfer-encoding" then Some (drop_non_ascii value)
      else transfer_encoding hs'
  end.

Definition check_limits (l : HeaderLimits) (hs : list header) : py unit :=
  if (max_header_count l <? Z.of_nat (length hs))
  then Err (http_error 431
              ("Too many headers (limit = " +:+ pretty (max_header_count l) +:+ ")."))
  else
  total_bytes ← check_sizes l hs 0;
  if (max_total_header_bytes l <? total_bytes)
  then Err (http_error 431
              ("Total header size exceeds limit ("
               +:+ pretty (max_total_header_bytes l) +:+ " bytes)."))
  else
  let transfer := default "" (transfer_encoding hs) in
  if negb (allow_chunked l) && negb (String.eqb transfer "")
     && contains "chunked" (lower transfer)
  then Err (http_error 501 "Chunked request bodies are not allowed.")
  else Ok tt.

Definition RequestHeaderLimitASGIMiddleware (l : HeaderLimits) (inner : app) : app :=
  GetScope (λ s,
    if negb (String.eqb (sc_type s) "http") then inner
    else rejecting (_ ← of_result (check_limits l (sc_headers s)); inner)).
End sanitization.

(** ** What the sanitizer accepts *)
Definition header_name (h : header) : string := lower h.1.

Definition acceptable_header (h : header) : bool :=
  is_ascii h.1 && is_ascii h.2 && negb (mem (header_name h) BLOCKLIST)
  && VALID_NAME_RE (header_name h) && negb (str_any INVALID_VALUE_CHARS h.2).

(** The header list a request must have to pass. *)
Definition acceptable (hs : list header) : Prop :=
  Forall (λ h, acceptable_header h = true) hs ∧ NoDup (header_name <$> hs).

Definition keep_allowed (allowed : list string) (hs : list header) : list header :=
  filter (λ h, header_name h ∈ allowed) hs.

Section sanitization_facts.
Context `{Starlette}.

Lemma sanitize_spec allowed hs cleaned seen :
  (Forall (λ h, acceptable_header h = true) hs ∧ NoDup (header_name <$> hs)
   ∧ (∀ h, h ∈ hs → header_name h ∉ seen)
   ∧ sanitize allowed hs cleaned seen = Ok (cleaned ++ keep_allowed allowed hs))
  ∨ (¬ (acceptable hs ∧ ∀ h, h ∈ hs → header_name h ∉ seen)
     ∧ ∃ detail, sanitize allowed hs cleaned seen = Err (http_error 400 detail)).
Proof.
  revert cleaned seen. induction hs as [|[n w] hs IH]; intros cleaned seen.
  { left. split_and!; [constructor|constructor|set_solver|]. simpl. by rewrite app_nil_r. }
  unfold acceptable. rewrite Forall_cons, fmap_cons, NoDup_cons.
  simpl sanitize. unfold decode_ascii. unfold acceptable_header at 1 3.
  change (header_name (n, w)) with (lower n). simpl.
  destruct (is_ascii n); [|right; split; [by intros [[[? _] _] _]|by eauto]].
  destruct (is_ascii w); [|right; split; [by intros [[[? _] _] _]|by eauto]]. simpl.
  destruct (mem (lower n) BLOCKLIST); [right; split; [by intros [[[? _] _] _]|by eauto]|]. simpl.
  destruct (mem (lower n) seen) eqn:Hseen; unfold mem in Hseen; reflect_bools.
  { right. split; [|eauto]. intros [_ Hs].
    apply (Hs (n, w)); [constructor|exact Hseen]. }
  destruct (VALID_NAME_RE (lower n)); [|right; split; [by intros [[[? _] _] _]|by eauto]].
  destruct (str_any INVALID_VALUE_CHARS w); [right; split; [by intros [[[? _] _] _]|by eauto]|]. simpl.
  set (cleaned' := if mem (lower n) allowed then cleaned ++ [(n, w)] else cleaned).
  assert ((if negb (mem (lower n) allowed) then sanitize allowed hs cleaned (lower n :: seen)
           else sanitize allowed hs (cleaned ++ [(n, w)]) (lower n :: seen))
          = sanitize allowed hs cleaned' (lower n :: seen)) as ->
    by (subst cleaned'; by destruct (mem (lower n) allowed)).
  assert (cleaned' ++ keep_allowed allowed hs
          = cleaned ++ keep_allowed allowed ((n, w) :: hs)) as Hc.
  { subst cleaned'. unfold keep_allowed, mem. rewrite filter_cons.
    change (header_name (n, w)) with (lower n).
    destruct (decide (lower n ∈ allowed)) as [Hin|Hin].
    - rewrite bool_decide_true by done. by rewrite <-app_assoc.
    - by rewrite bool_decide_false. }
  rewrite <-Hc. clearbody cleaned'.
  destruct (IH cleaned' (lower n :: seen)) as [(Hall & Hnd & Hs & E)|(Hbad & d & E)].
  - left. split_and!; [done|done| |done| |done].
    + intros Hin. apply list_elem_of_fmap in Hin as (h & Hh & Hin).
      apply (Hs h Hin). rewrite <-Hh. constructor.
    + intros h [->|Hin]%elem_of_cons; [done|]. specialize (Hs h Hin).
      rewrite not_elem_of_cons in Hs. tauto.
  - right. split; [|by exists d].
    intros [[[_ Hall] [Hn Hnd]] Hs]. apply Hbad. split; [by split|].
    intros h Hin. rewrite not_elem_of_cons. split.
    + intros Heq'. apply Hn. apply list_elem_of_fmap. by exists h.
    + apply Hs. by constructor.
Qed.

Lemma sanitize_ok allowed hs :
  acceptable hs → sanitize allowed hs [] [] = Ok (keep_allowed allowed hs).
Proof.
  intros Hok. destruct (sanitize_spec allowed hs [] []) as [(_ & _ & _ & E)|[Hbad _]]; [done|].
  exfalso. apply Hbad. split; [done|]. intros h _. apply not_elem_of_nil.
Qed.

Lemma sanitize_rejects allowed hs :
  ¬ acceptable hs → ∃ detail, sanitize allowed hs [] [] = Err (http_error 400 detail).
Proof.
  intros Hbad. destruct (sanitize_spec allowed hs [] []) as [(H1 & H2 & _)|[_ E]]; [|done].
  by destruct Hbad.
Qed.

(** The header budget as one condition. *)
Definition within_limits (l : HeaderLimits) (hs : list header) : Prop :=
  Z.of_nat (length hs) ≤ max_header_count l
  ∧ Forall (λ h, header_size h ≤ max_single_header_bytes l) hs
  ∧ sum_sizes hs ≤ max_total_header_bytes l.

Lemma check_sizes_spec l hs total :
  check_sizes l hs total = Ok (total + sum_sizes hs)
    ∧ Forall (λ h, header_size h ≤ max_single_header_bytes l) hs
  ∨ (∃ d, check_sizes l hs total = Err (http_error 431 d))
    ∧ ¬ Forall (λ h, header_size h ≤ max_single_header_bytes l) hs.
Proof.
  revert total. induction hs as [|h hs IH]; intros total; simpl.
  - left. split; [f_equal; lia|constructor].
  - rewrite Forall_cons. destruct (Z.ltb_spec (max_single_header_bytes l) (header_size h)).
    + right. split; [by eexists|]. intros [? _]. lia.
    + destruct (IH (total + header_size h)) as [[-> ?]|[? ?]]; [left|right].
      * split; [f_equal; lia|by split].
      * split; [done|]. by intros [_ ?].
Qed.

Lemma transfer_encoding_none hs :
  Forall (λ h, header_name h ≠ "transfer-encoding") hs → transfer_encoding hs = None.
Proof.
  induction 1 as [|[k w] hs Hk _ IH]; simpl; [done|].
  destruct (String.eqb_spec (lower k) "transfer-encoding"); [done|exact IH].
Qed.

Lemma within_limits_check l hs :
  Forall (λ h, header_name h ≠ "transfer-encoding") hs →
  (within_limits l hs ∧ check_limits l hs = Ok tt)
  ∨ (¬ within_limits l hs ∧ ∃ d, check_limits l hs = Err (http_error 431 d)).
Proof.
  intros Hte. unfold check_limits, within_limits. rewrite (transfer_encoding_none hs Hte).
  destruct (Z.ltb_spec (max_header_count l) (Z.of_nat (length hs))).
  { right. split; [lia|by eexists]. }
  destruct (check_sizes_spec l hs 0) as [[-> ?]|[[d ->] Hno]]; simpl.
  - rewrite andb_false_r, Z.add_0_l.
    destruct (Z.ltb_spec (max_total_header_bytes l) (sum_sizes hs)) as [Hlt|Hge].
    + right. split; [intros (_ & _ & ?); lia|by eexists].
    + left. auto.
  - right. split; [tauto|by eexists].
Qed.
End sanitization_facts.

(** ** Properties of the header layers *)

(** The sanitizer: a header list whose names are unique, well formed, ASCII and not
    forbidden, with no line breaks in the values, reaches the inner application with
    exactly its allowed headers in order; any other list is answered with a 400 rejection
    whatever the inner application is, which never runs. *)
Theorem sanitizer_filters_or_rejects `{Starlette} extra v :
  sc_type (sv_scope v) = "http" →
  (acceptable (sc_headers (sv_scope v)) →
   ∀ inner, run (HeaderSanitizationASGIMiddleware extra inner) v
     = run (rejecting inner)
         (with_scope (set_headers (keep_allowed (allowed_headers extra)
                                     (sc_headers (sv_scope v))) (sv_scope v)) v)) ∧
  (¬ acceptable (sc_headers (sv_scope v)) →
   ∃ detail, ∀ inner, run (HeaderSanitizationASGIMiddleware extra inner) v
     = run (render_rejection (http_error 400 detail)) v).
Proof.
  intros Ht. unfold HeaderSanitizationASGIMiddleware. simpl. rewrite Ht. simpl.
  split.
  - intros Hok inner. unfold rejecting. rewrite !run_try_except, sanitize_ok by done. done.
  - intros Hbad. destruct (sanitize_rejects (allowed_headers extra) _ Hbad) as [d Hd].
    exists d. intros inner. unfold rejecting. by rewrite run_try_except, Hd.
Qed.

#[local] Instance demo_starlette : Starlette := {
  json_error st msg ts := msg;
  raw_headers hs body := hs;
  plain_headers st := []
}.

Definition demo_scope (hs : list header) : scope :=
  mkScope "http" "GET" "/" "" hs (Some ("10.0.0.9", 4000)) "http" None None.

Definition demo_server (hs : list header) : server :=
  mkServer [] (λ _, Ok tt) [] (demo_scope hs) [] 7 "0123456789abcdef"
    (λ _, Ok (RateLimiter.mkDecision true None 0)) None.

Lemma sanitizer_filters_or_rejects_witness :
  sv_scope (run (HeaderSanitizationASGIMiddleware [] (Ret tt))
              (demo_server [("Host", "x"); ("X-Odd", "1")])).2
    = demo_scope [("Host", "x")] ∧
  ∃ detail, sv_wire (run (HeaderSanitizationASGIMiddleware [] (Ret tt))
              (demo_server [("Via", "x")])).2
    = [ResponseStart 400 []; ResponseBody detail false].
Proof.
  split.
  - rewrite (proj1 (sanitizer_filters_or_rejects []
      (demo_server [("Host", "x"); ("X-Odd", "1")]) eq_refl)); [reflexivity|].
    split; [repeat constructor|]. vm_compute. repeat constructor; set_solver.
  - destruct (proj2 (sanitizer_filters_or_rejects [] (demo_server [("Via", "x")]) eq_refl))
      as [d Hd].
    + intros [Hall _]. apply Forall_cons in Hall as [Hx _]. vm_compute in Hx. discriminate.
    + exists d. rewrite Hd. reflexivity.
Defined.

(** Header budgets, on the headers the sanitizer lets through: the inner application
    runs exactly when the count, each size and the total are within the limits; otherwise
    the answer is a 431 rejection and nothing inside runs.  (Chunked transfer cannot be
    seen here: the sanitizer has already refused it.) *)
Theorem header_limits_exact `{Starlette} l v raw allowed :
  sc_type (sv_scope v) = "http" → acceptable raw →
  sc_headers (sv_scope v) = keep_allowed allowed raw →
  (within_limits l (sc_headers (sv_scope v)) →
   ∀ inner, run (RequestHeaderLimitASGIMiddleware l inner) v = run (rejecting inner) v) ∧
  (¬ within_limits l (sc_headers (sv_scope v)) →
   ∃ d, ∀ inner, run (RequestHeaderLimitASGIMiddleware l inner) v
     = run (render_rejection (http_error 431 d)) v).
Proof.
  intros Ht [Hraw _] Hs. unfold RequestHeaderLimitASGIMiddleware. simpl. rewrite Ht. simpl.
  destruct (within_limits_check l (sc_headers (sv_scope v))) as [[Hin E]|[Hout [d E]]].
  { rewrite Hs. unfold keep_allowed. eapply Forall_sublist; [apply sublist_filter|].
    eapply Forall_impl; [exact Hraw|]. intros h Hh Heq.
    unfold acceptable_header in Hh. rewrite Heq in Hh.
    change (mem "transfer-encoding" BLOCKLIST) with true in Hh.
    rewrite andb_false_r in Hh. done. }
  - split; [|done]. intros _ inner. unfold rejecting. by rewrite !run_try_except, E.
  - split; [done|]. intros _. exists d. intros inner.
    unfold rejecting. by rewrite run_try_except, E.
Qed.

Lemma header_limits_exact_witness :
  ∃ d, sv_wire (run (RequestHeaderLimitASGIMiddleware (mkHeaderLimits 1 10 20 false) (Ret tt))
              (demo_server [("Host", "x"); ("Accept", "y")])).2
    = [ResponseStart 431 []; ResponseBody d false].
Proof.
  destruct (proj2 (header_limits_exact (mkHeaderLimits 1 10 20 false)
    (demo_server [("Host", "x"); ("Accept", "y")])
    [("Host", "x"); ("Accept", "y")] ["host"; "accept"] eq_refl
    ltac:(split; [repeat constructor|vm_compute; repeat constructor; set_solver]) eq_refl))
    as [d Hd].
  - intros [Hc _]. simpl in Hc. lia.
  - exists d. rewrite Hd. reflexivity.
Defined.

(** ** Which client address is believed *)
Section proxy_facts.
Context `{IpAddress}.

(** The hop a list of forwarded addresses (client first) resolves to: the last one that
    is not a trusted proxy, or the first when all are. *)
Definition resolves_to (mw : TrustedProxy) (hosts : list string) (c : string) : Prop :=
  ∃ pre suf, hosts = pre ++ c :: suf ∧ Forall (λ h, trusted mw h = true) suf
    ∧ (trusted mw c = false ∨ pre = []).

Lemma pick_client_spec mw h0 hosts :
  resolves_to mw (h0 :: hosts) (pick_client mw (h0 :: hosts) h0).
Proof.
  unfold pick_client.
  assert (∀ l, (∃ pre c suf, l = pre ++ c :: suf ∧ Forall (λ h, trusted mw h = true) suf
                  ∧ trusted mw c = false
                  ∧ head (filter (λ h, trusted mw h = false) (reverse l)) = Some c)
               ∨ Forall (λ h, trusted mw h = true) l
                 ∧ head (filter (λ h, trusted mw h = false) (reverse l)) = None) as Hl.
  { induction l as [|x l IH] using rev_ind; [by right|].
    rewrite reverse_snoc, filter_cons. destruct (trusted mw x) eqn:Hx.
    - rewrite decide_False by done.
      destruct IH as [(pre & c & suf & -> & Hs & Hc & E)|[Hall E]].
      + left. exists pre, c, (suf ++ [x]). rewrite <-app_assoc. split_and!; auto.
        apply Forall_app. split; [done|]. by apply Forall_singleton.
      + right. split; [|done]. apply Forall_app. split; [done|]. by apply Forall_singleton.
    - left. rewrite decide_True by done. by exists l, x, []. }
  destruct (Hl (h0 :: hosts)) as [(pre & c & suf & -> & Hs & Hc & ->)|[Hall ->]]; simpl.
  - exists pre, suf. auto.
  - exists [], hosts. apply Forall_cons in Hall as [_ ?]. auto.
Qed.

(** When the forwarding headers are consumed. *)
Lemma apply_forwarding_spec mw s :
  apply_forwarding mw s = s ∨
  ∃ selected fwd scheme,
    select_forwarding (sc_headers s) [] = Some selected
    ∧ forwarded_client mw selected = Some fwd
    ∧ scheme = assoc_get "x-forwarded-proto" selected
    ∧ (∀ x, scheme = Some x → x = "http" ∨ x = "https")
    ∧ sc_client (apply_forwarding mw s)
      = (match fwd with Some c => Some (c, 0) | None => sc_client s end)
    ∧ sc_scheme (apply_forwarding mw s) = default (sc_scheme s) scheme
    ∧ sc_headers (apply_forwarding mw s)
      = filter (λ h, header_name h ∉ selected.*1) (sc_headers s).
Proof.
  unfold apply_forwarding. destruct (_ || _ || _); [by left|].
  destruct (select_forwarding _ _) as [selected|] eqn:E1; [|by left].
  destruct (forwarded_client mw selected) as [fwd|] eqn:E2; [|by left].
  set (scheme := assoc_get "x-forwarded-proto" selected).
  destruct (match scheme with Some x => negb (mem x ["http"; "https"]) | None => false end)
    eqn:E3; [by left|].
  right. exists selected, fwd, scheme. split_and!; auto.
  - intros x Hx. rewrite Hx in E3. unfold mem in E3. reflect_bools.
    rewrite !elem_of_cons in E3. set_solver.
  - by destruct fwd, scheme.
  - by destruct fwd, scheme.
  - by destruct fwd, scheme.
Qed.

Lemma select_forwarding_sound hs selected sel k w :
  select_forwarding hs selected = Some sel → (k, w) ∈ sel →
  (k, w) ∈ selected ∨ ∃ h, h ∈ hs ∧ header_name h = k ∧ w = strip h.2.
Proof.
  revert selected. induction hs as [|[n x] hs IH]; intros selected; simpl.
  { intros [= ->]. by left. }
  destruct (mem (lower n) forwarding_names); simpl.
  2:{ intros E Hin. destruct (IH _ E Hin) as [?|(h & ? & ? & ?)]; [by left|].
      right. exists h. split_and!; [by constructor|done..]. }
  destruct (bool_decide _) eqn:Hnew; [done|]. unfold decode_ascii.
  destruct (is_ascii x); [|done]. destruct (str_any is_control x); [done|].
  intros E Hin. destruct (IH _ E Hin) as [Hs|(h & ? & ? & ?)].
  - reflect_bools. assert (∀ l, (k, w) ∈ assoc_set (lower n) (strip x) l →
      (k, w) = (lower n, strip x) ∨ (k, w) ∈ l) as Hset.
    { induction l as [|[k1 w1] l IHl]; simpl; [by intros ?%list_elem_of_singleton; left|].
      destruct (decide (lower n = k1)); rewrite !elem_of_cons; tauto. }
    destruct (Hset _ Hs) as [[= -> ->]|?]; [right|by left].
    exists (n, x). split_and!; [constructor|done..].
  - right. exists h. split_and!; [by constructor|done..].
Qed.

(** The address a forwarded client comes from: the one list a trusted peer sent. *)
Definition forwarded_by (mw : TrustedProxy) (hs : list header) (c : string) : Prop :=
  ∃ h hosts, h ∈ hs ∧ header_name h = "x-forwarded-for"
    ∧ parse_hosts (split_on ","%char (strip h.2)) = Some hosts
    ∧ resolves_to mw hosts c.

Lemma forwarded_client_sound mw hs selected c :
  select_forwarding hs [] = Some selected →
  forwarded_client mw selected = Some (Some c) → forwarded_by mw hs c.
Proof.
  intros Hsel. unfold forwarded_client.
  destruct (assoc_get "x-forwarded-for" selected) as [w|] eqn:Hw; [|done].
  apply assoc_get_elem in Hw.
  destruct (select_forwarding_sound _ _ _ _ _ Hsel Hw) as [[]%elem_of_nil|(h & Hh & Hn & ->)].
  destruct (existsb _ _); [done|].
  destruct (parse_hosts _) as [[|h0 hosts]|] eqn:Hp; [done| |done]. intros [= <-].
  exists h, (h0 :: hosts). split_and!; auto using pick_client_spec.
Qed.

Definition peer_trusted (mw : TrustedProxy) (s : scope) : Prop :=
  ∃ host port, sc_client s = Some (host, port) ∧ trusted mw host = true.

Lemma resolve_proxy_untrusted mw s : ¬ peer_trusted mw s → resolve_proxy mw s = s.
Proof.
  intros Hno. unfold resolve_proxy. destruct (sc_client s) as [[host port]|] eqn:E; [|done].
  destruct (String.eqb _ _ && trusted mw host) eqn:Et; [|done].
  apply andb_true_iff in Et as [_ Et]. destruct Hno. by exists host, port.
Qed.

Lemma resolve_proxy_client mw s :
  sc_client (resolve_proxy mw s) = sc_client s
  ∨ peer_trusted mw s ∧ ∃ c, sc_client (resolve_proxy mw s) = Some (c, 0)
      ∧ forwarded_by mw (sc_headers s) c.
Proof.
  unfold resolve_proxy. destruct (sc_client s) as [[host port]|] eqn:E; [|by left].
  destruct (String.eqb _ _ && trusted mw host) eqn:Et; [|by left].
  apply andb_true_iff in Et as [_ Et].
  destruct (apply_forwarding_spec mw s) as [->|(sel & fwd & sch & H1 & H2 & _ & _ & Hc & _)];
    [by left|].
  destruct fwd as [c|]; [right|by left; rewrite Hc].
  split; [by exists host, port|]. exists c. split; [done|]. by eapply forwarded_client_sound.
Qed.
End proxy_facts.

Lemma forwarding_names_blocked k : k ∈ forwarding_names → mem k BLOCKLIST = true.
Proof.
  intros [->|[->|[]%elem_of_nil]%elem_of_cons]%elem_of_cons; vm_compute; reflexivity.
Qed.

Lemma with_scope_id v : with_scope (sv_scope v) v = v.
Proof. by destruct v. Qed.

(** [C8] Forged forwarding: behind the proxy and sanitizer layers, a request whose peer is
    not a trusted proxy and that carries a forwarding header is rejected with a 400
    whatever the application is; and the application's client address is the peer itself
    unless the peer is a trusted proxy, in which case it may be the last untrusted hop
    (or the first, when all are trusted) of the one forwarded list that peer sent.  The
    application never sees a forwarding header. *)
Theorem forwarding_believed_only_from_proxies `{IpAddress} `{Starlette} mw extra v :
  sc_type (sv_scope v) = "http" →
  (¬ peer_trusted mw (sv_scope v) →
   (∃ h, h ∈ sc_headers (sv_scope v) ∧ header_name h ∈ forwarding_names) →
   ∃ d, ∀ inner,
     run (TrustedProxyASGIMiddleware mw (HeaderSanitizationASGIMiddleware extra inner)) v
     = run (render_rejection (http_error 400 d)) v) ∧
  (acceptable (sc_headers (resolve_proxy mw (sv_scope v))) →
   ∃ s, (∀ inner,
     run (TrustedProxyASGIMiddleware mw (HeaderSanitizationASGIMiddleware extra inner)) v
       = run (rejecting inner) (with_scope s v)) ∧
     (∀ h, h ∈ sc_headers s → header_name h ∉ forwarding_names) ∧
     (sc_client s = sc_client (sv_scope v)
      ∨ peer_trusted mw (sv_scope v) ∧ ∃ c, sc_client s = Some (c, 0)
          ∧ forwarded_by mw (sc_headers (sv_scope v)) c)).
Proof.
  intros Ht. unfold TrustedProxyASGIMiddleware. cbn [run].
  assert (sc_type (resolve_proxy mw (sv_scope v)) = "http") as Ht'.
  { unfold resolve_proxy, apply_forwarding. rewrite <-Ht. by split_matches. }
  unfold HeaderSanitizationASGIMiddleware, rejecting. cbn [run sv_scope with_scope].
  rewrite Ht'. simpl. split.
  - intros Hp (h & Hh & Hn). rewrite (resolve_proxy_untrusted mw _ Hp).
    rewrite with_scope_id.
    destruct (sanitize_rejects (allowed_headers extra) (sc_headers (sv_scope v))) as [d Hd].
    { intros [Hall _]. rewrite Forall_forall in Hall. specialize (Hall h Hh).
      unfold acceptable_header in Hall. rewrite (forwarding_names_blocked _ Hn) in Hall.
      by rewrite andb_false_r in Hall. }
    exists d. intros inner. by rewrite run_try_except, Hd.
  - intros Hok. eexists. split; [|split].
    + intros inner. rewrite run_try_except, sanitize_ok by done. simpl.
      by rewrite run_try_except.
    + intros h Hh Hn. destruct Hok as [Hall _]. rewrite Forall_forall in Hall.
      simpl in Hh. unfold keep_allowed in Hh. apply list_elem_of_filter in Hh as [_ Hh].
      specialize (Hall h Hh). unfold acceptable_header in Hall.
      rewrite (forwarding_names_blocked _ Hn) in Hall. by rewrite andb_false_r in Hall.
    + simpl. apply resolve_proxy_client.
Qed.

(** Addresses by their text, networks of one address. *)
#[local] Instance demo_ip : IpAddress := {
  ip := string; network := string;
  ip_address s := if str_all (λ c, is_digit c || Ascii.eqb c "."%char) s
                     && negb (String.eqb s "") then Some s else None;
  ip_text a := a; ip_network s := Some s; prefixlen _ := 32;
  in_network a n := String.eqb a n
}.

Lemma forwarding_believed_only_from_proxies_witness :
  (∃ d, ∀ inner,
    run (TrustedProxyASGIMiddleware (mkTrustedProxy ["10.0.0.1"] 4096 100 8192)
           (HeaderSanitizationASGIMiddleware [] inner))
        (demo_server [("X-Forwarded-For", "1.2.3.4")])
    = run (render_rejection (http_error 400 d)) (demo_server [("X-Forwarded-For", "1.2.3.4")]))
  ∧ sc_client (sv_scope (run
      (TrustedProxyASGIMiddleware (mkTrustedProxy ["10.0.0.9"; "10.0.0.2"] 4096 100 8192)
        (HeaderSanitizationASGIMiddleware [] (Ret tt)))
      (demo_server [("Host", "x"); ("X-Forwarded-For", "6.6.6.6, 1.2.3.4, 10.0.0.2")])).2)
    = Some ("1.2.3.4", 0).
Proof.
  split.
  - apply (forwarding_believed_only_from_proxies _ [] (demo_server _) eq_refl).
    + intros (host & port & Hc & Ht). vm_compute in Hc. simplify_eq.
    + exists ("X-Forwarded-For", "1.2.3.4"). split; vm_compute; constructor.
  - reflexivity.
Defined.
