(* ===== verification/Sha256.v ===== *)
(** * SHA-256

    [hashlib.sha256(data).hexdigest()] as FIPS 180-4 defines it: 32-bit words as [Z] with
    their wrap-around written out.  The development only evaluates it on the repository's
    frozen fingerprint vectors; no theorem assumes anything of it beyond the absence of a
    collision between the two texts at hand. *)
From S2P Require Import Prelude PyText.
Open Scope Z_scope.

Definition word (z : Z) : Z := Z.land z 4294967295.
Definition add32 (a b : Z) : Z := word (a + b).
Definition rotr (n x : Z) : Z := word (Z.lor (Z.shiftr x n) (Z.shiftl x (32 - n))).

Definition ch (x y z : Z) : Z := Z.lxor (Z.land x y) (Z.land (Z.lxor x 4294967295) z).
Definition maj (x y z : Z) : Z := Z.lxor (Z.land x y) (Z.lxor (Z.land x z) (Z.land y z)).
Definition big_sigma0 (x : Z) : Z := Z.lxor (rotr 2 x) (Z.lxor (rotr 13 x) (rotr 22 x)).
Definition big_sigma1 (x : Z) : Z := Z.lxor (rotr 6 x) (Z.lxor (rotr 11 x) (rotr 25 x)).
Definition small_sigma0 (x : Z) : Z :=
  Z.lxor (rotr 7 x) (Z.lxor (rotr 18 x) (Z.shiftr x 3)).
Definition small_sigma1 (x : Z) : Z :=
  Z.lxor (rotr 17 x) (Z.lxor (rotr 19 x) (Z.shiftr x 10)).

(** The constants are the first 32 fractional bits of roots of the first primes: of the
    cube roots for the rounds, of the square roots for the initial state. *)
Definition is_prime (n : nat) : bool :=
  forallb (λ d, negb (Nat.eqb (n mod d) 0)) (seq 2 (n - 2)).
Definition primes_below (n : nat) : list Z := Z.of_nat <$> filter (λ p, is_prime p = true) (seq 2 (n - 2)).

(** The integer [k]-th root of [n], by bisection from bit [bits] down. *)
Fixpoint root_from (bits : nat) (k n r : Z) : Z :=
  match bits with
  | O => r
  | S bits' =>
      let r' := r + Z.shiftl 1 (Z.of_nat bits') in
      root_from bits' k n (if r' ^ k <=? n then r' else r)
  end.
Definition fractional_root (k p : Z) : Z := word (root_from 40 k (Z.shiftl p (32 * k)) 0).

Definition round_constants : list Z :=
  Eval vm_compute in fractional_root 3 <$> take 64 (primes_below 312).

Definition initial_hash : list Z :=
  Eval vm_compute in fractional_root 2 <$> take 8 (primes_below 312).

Fixpoint octets (s : string) : list Z :=
  match s with EmptyString => [] | String c s' => octet c :: octets s' end.

(** The [n] big-endian octets of [z]. *)
Fixpoint big_endian (n : nat) (z : Z) : list Z :=
  match n with
  | O => []
  | S n' => Z.land (Z.shiftr z (8 * Z.of_nat n')) 255 :: big_endian n' z
  end.

Definition pad (bytes : list Z) : list Z :=
  let len := Z.of_nat (length bytes) in
  bytes ++ 128 :: replicate (Z.to_nat ((55 - len) mod 64)) 0 ++ big_endian 8 (8 * len).

Fixpoint words (bytes : list Z) : list Z :=
  match bytes with
  | a :: b :: c :: d :: rest =>
      (Z.shiftl a 24 + Z.shiftl b 16 + Z.shiftl c 8 + d) :: words rest
  | _ => []
  end.

(** The message schedule, kept reversed: the newest word first. *)
Definition next_word (w : list Z) : Z :=
  add32 (add32 (small_sigma1 (nth 1 w 0)) (nth 6 w 0))
        (add32 (small_sigma0 (nth 14 w 0)) (nth 15 w 0)).
Fixpoint extend (n : nat) (w : list Z) : list Z :=
  match n with O => w | S n' => extend n' (next_word w :: w) end.
Definition schedule (block : list Z) : list Z := rev (extend 48 (rev block)).

Definition round (h : list Z) (kw : Z * Z) : list Z :=
  match h with
  | [a; b; c; d; e; f; g; i] =>
      let t1 := word (i + big_sigma1 e + ch e f g + kw.1 + kw.2) in
      let t2 := add32 (big_sigma0 a) (maj a b c) in
      [add32 t1 t2; a; b; c; add32 d t1; e; f; g]
  | _ => h
  end.

Definition compress (h block : list Z) : list Z :=
  zip_with add32 h (fold_left round (zip round_constants (schedule block)) h).

Fixpoint blocks (n : nat) (ws h : list Z) : list Z :=
  match n with
  | O => h
  | S n' => blocks n' (drop 16 ws) (compress h (take 16 ws))
  end.

Definition hex_digit (z : Z) : ascii := of_octet (if z <? 10 then 48 + z else 87 + z).

Fixpoint hex (n : nat) (z : Z) : string :=
  match n with
  | O => EmptyString
  | S n' => String (hex_digit (Z.land (Z.shiftr z (4 * Z.of_nat n')) 15)) (hex n' z)
  end.

Definition sha256_hexdigest (data : string) : string :=
  let ws := words (pad (octets data)) in
  join "" (hex 8 <$> blocks (length ws / 16) ws initial_hash).

Example sha256_abc :
  sha256_hexdigest "abc"
  = "ba7816bf8f01cfea414140de5dae2223b00361a396177a9cb410ff61f20015ad".
Proof. vm_compute. reflexivity. Qed.
