(* ===== verification/JsonText.v ===== *)
(** * JSON texts

    What [json.loads(text, parse_constant=...)] accepts when the constant callback raises:
    the grammar of Python's scanner, without [NaN] and the infinities.  Used to check
    prepared responses before they are stored and again before they are replayed. *)
From S2P Require Import Prelude PyText.
Open Scope Z_scope.

Definition quote_char : ascii := "034"%char.
Definition backslash_char : ascii := "092"%char.

(** [WHITESPACE]: blank, tab, line feed, carriage return. *)
Definition json_space (c : ascii) : bool :=
  (octet c =? 32) || (octet c =? 9) || (octet c =? 10) || (octet c =? 13).

Definition skip_ws : string → string := lstrip_when json_space.

Definition is_hex (c : ascii) : bool := is_digit c || in_range 97 102 c || in_range 65 70 c.

Definition simple_escape (c : ascii) : bool :=
  Ascii.eqb c quote_char || Ascii.eqb c backslash_char || Ascii.eqb c "/"%char
  || Ascii.eqb c "b"%char || Ascii.eqb c "f"%char || Ascii.eqb c "n"%char
  || Ascii.eqb c "r"%char || Ascii.eqb c "t"%char.

(** After the opening quote: what follows the closing one. *)
Fixpoint scan_string (s : string) : option string :=
  match s with
  | EmptyString => None
  | String c r =>
      if Ascii.eqb c quote_char then Some r
      else if Ascii.eqb c backslash_char then
        match r with
        | String e r1 =>
            if simple_escape e then scan_string r1
            else if Ascii.eqb e "u"%char then
              match r1 with
              | String a (String b (String x (String y r2))) =>
                  if is_hex a && is_hex b && is_hex x && is_hex y then scan_string r2 else None
              | _ => None
              end
            else None
        | EmptyString => None
        end
      else if octet c <? 32 then None
      else scan_string r
  end.

(** A run of digits: how many, and what follows. *)
Fixpoint scan_digits (s : string) : Z * string :=
  match s with
  | String c r => if is_digit c then let '(n, t) := scan_digits r in (n + 1, t) else (0, s)
  | EmptyString => (0, s)
  end.

Definition scan_fraction (s : string) : option string :=
  match s with
  | String "."%char r => let '(n, t) := scan_digits r in if n =? 0 then None else Some t
  | _ => None
  end.

Definition scan_exponent (s : string) : option string :=
  match s with
  | String c r =>
      if Ascii.eqb c "e"%char || Ascii.eqb c "E"%char then
        let r := match r with
                 | String "+"%char r' | String "-"%char r' => r'
                 | _ => r
                 end in
        let '(n, t) := scan_digits r in if n =? 0 then None else Some t
      else None
  | EmptyString => None
  end.

(** [NUMBER_RE], and the limit on the digits of an integer. *)
Definition scan_number (s : string) : option string :=
  let s := match s with String "-"%char r => r | _ => s end in
  let '(n, t) := match s with
                 | String "0"%char r => (1, r)
                 | _ => scan_digits s
                 end in
  if n =? 0 then None
  else match scan_fraction t, scan_exponent (default t (scan_fraction t)) with
  | None, None => if 4300 <? n then None else Some t
  | Some t, None => Some t
  | _, Some t => Some t
  end.

Definition scan_word (w s : string) : option string :=
  if starts_with w s then Some (drop_str (String.length w) s) else None.

(** One value; [fuel] bounds the nesting and the number of members. *)
Fixpoint scan_value (fuel : nat) (s : string) : option string :=
  match fuel with
  | O => None
  | S fuel =>
      match s with
      | EmptyString => None
      | String c r =>
          if Ascii.eqb c quote_char then scan_string r
          else if Ascii.eqb c "{"%char then
            match skip_ws r with
            | String "}"%char t => Some t
            | t => scan_members fuel t
            end
          else if Ascii.eqb c "["%char then
            match skip_ws r with
            | String "]"%char t => Some t
            | t => scan_items fuel t
            end
          else if Ascii.eqb c "n"%char then scan_word "null" s
          else if Ascii.eqb c "t"%char then scan_word "true" s
          else if Ascii.eqb c "f"%char then scan_word "false" s
          else scan_number s
      end
  end
with scan_members (fuel : nat) (s : string) : option string :=
  match fuel with
  | O => None
  | S fuel =>
      match s with
      | String c r =>
          if Ascii.eqb c quote_char then
            t ← scan_string r;
            match skip_ws t with
            | String ":"%char t =>
                t ← scan_value fuel (skip_ws t);
                match skip_ws t with
                | String ","%char t => scan_members fuel (skip_ws t)
                | String "}"%char t => Some t
                | _ => None
                end
            | _ => None
            end
          else None
      | EmptyString => None
      end
  end
with scan_items (fuel : nat) (s : string) : option string :=
  match fuel with
  | O => None
  | S fuel =>
      t ← scan_value fuel s;
      match skip_ws t with
      | String ","%char t => scan_items fuel (skip_ws t)
      | String "]"%char t => Some t
      | _ => None
      end
  end.

(** Every recursive call has consumed a character, so the length is fuel enough. *)
Definition json_loads (s : string) : py unit :=
  match scan_value (2 * String.length s + 2) (skip_ws s) with
  | Some t => if String.eqb (skip_ws t) "" then Ok tt else Err (ValueError "Extra data")
  | None => Err (ValueError "Prepared response must contain valid JSON.")
  end.

(** Quotes a text for the examples: ['] stands for the double quote. *)
Definition q (s : string) : string := str_map (λ c, if Ascii.eqb c "'"%char then quote_char else c) s.

Example json_accepted :
  forallb (λ s, is_ok (json_loads (q s)))
    ["{}"; "[]"; " { 'a' : [1, -2.5e+3, true, null], 'b':{'c':'\u00e9\n'} } "; "0"; "'x'";
     "[1,2,3]"; "{'value': 1, 'unicode': '\u00e9'}"; "-0.0"] = true ∧
  existsb (λ s, is_ok (json_loads (q s)))
    [""; "not JSON"; "{'value':NaN}"; "Infinity"; "-Infinity"; "01"; "1."; "[1,]"; "{'a':1,}";
     "{a:1}"; "'x"; "'\x'"; "[1 2]"; "{}{}"; "nul"; "-"; "1e"] = false.
Proof. split; vm_compute; reflexivity. Qed.
