(* ===== verification/Values.v ===== *)
(** * Python values

    The data the application validates, fingerprints and stores: exact decimals
    ([decimal.Decimal]) and the dynamic values a request body or a model holds.

    A [float] is identified with the decimal its shortest round-trip text ([str(x)])
    denotes: the source only ever looks at that text, or asks whether the number is
    integral, which the text answers too (a double that is not integral lies below 2^53,
    where integral texts denote integral doubles). *)
From S2P Require Import Prelude PyText.
Open Scope Z_scope.

(** ** Exact decimals *)
Inductive decimal :=
| DFinite (neg : bool) (coef : N) (exp : Z)       (* (-1)^neg * coef * 10^exp *)
| DInfinity (neg : bool)
| DNaN.

#[export] Instance decimal_eq_dec : EqDecision decimal.
Proof. solve_decision. Defined.

Definition is_finite (d : decimal) : bool :=
  match d with DFinite _ _ _ => true | _ => false end.

Definition is_zero (d : decimal) : bool :=
  match d with DFinite _ c _ => N.eqb c 0 | _ => false end.

Definition signed (neg : bool) (z : Z) : Z := if neg then - z else z.

(** The value in units of [10^e], for an [e] not above the exponent. *)
Definition scaled (neg : bool) (c : N) (x e : Z) : Z := signed neg (Z.of_N c) * 10 ^ (x - e).

Definition decimal_compare (cmp : Z → Z → bool) (a b : decimal) : bool :=
  match a, b with
  | DFinite na ca xa, DFinite nb cb xb =>
      let e := Z.min xa xb in cmp (scaled na ca xa e) (scaled nb cb xb e)
  | _, _ => false
  end.

(** Comparisons of finite decimals: exact, whatever the context. *)
Definition decimal_le : decimal → decimal → bool := decimal_compare Z.leb.
Definition decimal_eq : decimal → decimal → bool := decimal_compare Z.eqb.

Arguments decimal_le : simpl never.
Arguments decimal_eq : simpl never.

(** Rounding to the nearest integer, ties to even, of [n / d]. *)
Definition div_half_even (n d : Z) : Z :=
  let q := n / d in
  let r := n mod d in
  if 2 * r <? d then q
  else if d <? 2 * r then q + 1
  else if Z.even q then q else q + 1.

(** [d.quantize(exp)] of a finite decimal in a context of [prec] digits, with the
    default rounding ROUND_HALF_EVEN; [InvalidOperation] when the result needs more
    digits. *)
Definition quantize (prec : Z) (d : decimal) (e : Z) : py decimal :=
  match d with
  | DFinite neg c x =>
      let n := if e <=? x then Z.of_N c * 10 ^ (x - e)
               else div_half_even (Z.of_N c) (10 ^ (e - x)) in
      if 10 ^ prec <=? n then Err ArithmeticError
      else Ok (DFinite neg (Z.to_N n) e)
  | _ => Err ArithmeticError
  end.

Arguments quantize : simpl never.

(** [x.is_integer()] and [int(x)] of a finite decimal. *)
Definition dec_is_integer (d : decimal) : bool :=
  match d with
  | DFinite _ c x => (0 <=? x) || (Z.of_N c mod 10 ^ (- x) =? 0)
  | _ => false
  end.

Definition dec_to_int (d : decimal) : Z :=
  match d with
  | DFinite neg c x =>
      signed neg (if 0 <=? x then Z.of_N c * 10 ^ x else Z.of_N c / 10 ^ (- x))
  | _ => 0
  end.

Definition dec_of_int (z : Z) : decimal := DFinite (z <? 0) (Z.to_N (Z.abs z)) 0.

(** ** Dynamic values *)
Inductive value :=
| VNone
| VBool (b : bool)
| VInt (z : Z)
| VFloat (text : decimal)
| VDecimal (d : decimal)
| VStr (s : string)
| VBytes (s : string)
| VTime (isoformat : string)                     (* datetime, date, time *)
| VUuid (text : string)
| VSecret (v : value)                            (* SecretStr, SecretBytes *)
| VEnum (v : value)
| VModel (fields : list (string * string * bool * value)) (extra : list (string * value))
    (* name, alias or name, in model_fields_set, attribute value; model_extra *)
| VDict (entries : list (value * value))
| VList (l : list value)
| VTuple (l : list value)
| VObject (type : string).                       (* anything else *)

Definition is_none (v : value) : bool := match v with VNone => true | _ => false end.

(** The [isinstance(value, str)] test. *)
Definition is_str (v : value) : bool := match v with VStr _ => true | _ => false end.

(** [str(int)] refuses more than [sys.get_int_max_str_digits()] digits. *)
Definition int_str_limit : Z := 10 ^ 4300.

Definition int_to_decimal (z : Z) : py decimal :=
  if int_str_limit <=? Z.abs z
  then Err (ValueError "Exceeds the limit (4300 digits) for integer string conversion")
  else Ok (dec_of_int z).

(** ** Lemmas *)
Lemma div_half_even_exact q d : 0 < d → div_half_even (q * d) d = q.
Proof.
  intros Hd. unfold div_half_even. rewrite Z.div_mul, Z.mod_mul by lia.
  by rewrite (proj2 (Z.ltb_lt (2 * 0) d)) by lia.
Qed.

Lemma div_half_even_bounds n d lo hi :
  0 < d → lo * d ≤ n ≤ hi * d → lo ≤ div_half_even n d ≤ hi.
Proof.
  intros Hd Hn. unfold div_half_even.
  pose proof (Z.div_mod n d ltac:(lia)) as E. pose proof (Z.mod_pos_bound n d Hd) as Hr.
  set (q := n / d) in *. set (r := n mod d) in *. clearbody q r. subst n.
  assert (lo ≤ q) by nia. assert (q ≤ hi) by nia.
  assert (q = hi → r = 0) by nia.
  destruct (Z.ltb_spec (2 * r) d); [lia|].
  assert (q < hi) by lia.
  destruct (Z.ltb_spec d (2 * r)); [lia|]. destruct (Z.even q); lia.
Qed.

Lemma dec_eq_spec na ca xa nb cb xb :
  decimal_eq (DFinite na ca xa) (DFinite nb cb xb) = true
  ↔ ∀ e, e ≤ xa → e ≤ xb → scaled na ca xa e = scaled nb cb xb e.
Proof.
  unfold decimal_eq, decimal_compare. rewrite Z.eqb_eq. split; [|intros H; apply H; lia].
  intros Heq e Ha Hb. set (m := Z.min xa xb) in *.
  assert (∀ n c x, m ≤ x → e ≤ m → scaled n c x e = scaled n c x m * 10 ^ (m - e)) as Hs.
  { intros n c x Hx He. unfold scaled. rewrite <-Z.mul_assoc, <-Z.pow_add_r by lia.
    do 2 f_equal. lia. }
  rewrite (Hs na), (Hs nb) by lia. by rewrite Heq.
Qed.
