(* ===== verification/Fingerprint.v ===== *)
(** * Request fingerprints

    [normalized], [_encode] and [digest] of [app/common/models/idempotency_model.py]: the
    frozen [quickapi-json-v1] encoding that identifies a mutation's validated input. *)
From stdpp Require Import sorting.
From S2P Require Import Prelude PyText Values Sha256.
Open Scope Z_scope.

(** ** Normalization *)

(** [result[key] = ...] for a string key. *)
Definition put (k : string) (v : value) (d : list (value * value)) : list (value * value) :=
  (fix go d :=
     match d with
     | [] => [(VStr k, v)]
     | (VStr k', v') :: d' =>
         if String.eqb k k' then (VStr k, v) :: d' else (VStr k', v') :: go d'
     | x :: d' => x :: go d'
     end) d.

Fixpoint normalized (v : value) : py value :=
  match v with
  | VModel fields extra =>
      result ←
        (fix go fields acc :=
           match fields with
           | [] => Ok acc
           | (_, key, is_set, x) :: fields' =>
               if is_set || negb (is_none x)
               then x' ← normalized x; go fields' (put key x' acc)
               else go fields' acc
           end) fields [];
      result ←
        (fix go extra acc :=
           match extra with
           | [] => Ok acc
           | (key, x) :: extra' => x' ← normalized x; go extra' (put key x' acc)
           end) extra result;
      Ok (VDict result)
  | VSecret x => normalized x
  | VEnum x => normalized x
  | VTime s => Ok (VStr s)
  | VUuid s => Ok (VStr s)
  | VBytes s => t ← decode_utf8 s; Ok (VStr t)
  | VDict entries =>
      d ← (fix go entries :=
             match entries with
             | [] => Ok []
             | (key, x) :: entries' => x' ← normalized x; d ← go entries'; Ok ((key, x') :: d)
             end) entries;
      Ok (VDict d)
  | VList l | VTuple l =>
      r ← (fix go l :=
             match l with
             | [] => Ok []
             | x :: l' => x' ← normalized x; r ← go l'; Ok (x' :: r)
             end) l;
      Ok (VList r)
  | _ => Ok v
  end.

(** ** Encoding *)
Definition quote : ascii := "034"%char.
Definition backslash : ascii := "092"%char.

(** [json.dumps]'s escapes with [ensure_ascii=False]. *)
Definition escape_char (c : ascii) (rest : string) : string :=
  if Ascii.eqb c quote then String backslash (String quote rest)
  else if Ascii.eqb c backslash then String backslash (String backslash rest)
  else if octet c =? 10 then String backslash (String "n" rest)
  else if octet c =? 13 then String backslash (String "r" rest)
  else if octet c =? 9 then String backslash (String "t" rest)
  else if octet c =? 12 then String backslash (String "f" rest)
  else if octet c =? 8 then String backslash (String "b" rest)
  else if octet c <? 32 then String backslash ("u00" +:+ hex 2 (octet c) +:+ rest)
  else String c rest.

Fixpoint escaped (s : string) (rest : string) : string :=
  match s with
  | EmptyString => rest
  | String c s' => escape_char c (escaped s' rest)
  end.

Definition json_string (s : string) : string :=
  String quote (escaped s (String quote EmptyString)).

(** [json.dumps] of what is neither a number, a dict nor a list. *)
Definition json_dumps (v : value) : py string :=
  match v with
  | VNone => Ok "null"
  | VBool true => Ok "true"
  | VBool false => Ok "false"
  | VStr s => Ok (json_string s)
  | _ => Err (TypeError "Object is not JSON serializable")
  end.

(** The trailing zeros of a coefficient, removed and counted. *)
Fixpoint strip_zeros (fuel : nat) (c : N) (exp : Z) : N * Z :=
  match fuel with
  | O => (c, exp)
  | S fuel' =>
      if N.eqb (c mod 10) 0 then strip_zeros fuel' (c / 10) (exp + 1) else (c, exp)
  end.

(** As many steps as the coefficient has bits: more than it has digits. *)
Definition significant (c : N) (exp : Z) : N * Z := strip_zeros (N.size_nat c) c exp.

Definition encode_number (number : decimal) : py string :=
  match number with
  | DFinite sign c exponent =>
      if N.eqb c 0 then Ok "0"
      else
        let '(digits, exponent) := significant c exponent in
        Ok ((if sign then "-" else "") +:+ pretty digits
            +:+ (if exponent =? 0 then "" else "e" +:+ pretty exponent))
  | _ => Err (ValueError "Fingerprint numbers must be finite.")
  end.

(** The number a value is, if it is one. *)
Definition number_of (v : value) : option (py decimal) :=
  match v with
  | VInt z => Some (int_to_decimal z)
  | VFloat d | VDecimal d => Some (Ok d)
  | _ => None
  end.

(** Code point order is the order of UTF-8 octets. *)
Fixpoint str_le (a b : string) : bool :=
  match a, b with
  | EmptyString, _ => true
  | String _ _, EmptyString => false
  | String c a', String d b' =>
      (octet c <? octet d) || ((octet c =? octet d) && str_le a' b')
  end.

Definition key_le {A} (a b : string * A) : Prop := str_le a.1 b.1 = true.

#[export] Instance key_le_dec {A} (a b : string * A) : Decision (key_le a b).
Proof. unfold key_le. apply _. Defined.

(** [TypeError] unless every key is a string. *)
Fixpoint string_keys {A} (entries : list (value * A)) : py (list (string * A)) :=
  match entries with
  | [] => Ok []
  | (VStr k, x) :: entries' => r ← string_keys entries'; Ok ((k, x) :: r)
  | _ => Err (TypeError "Fingerprint object keys must be strings.")
  end.

(** [','.join(...)] of an object's members. *)
Definition member_text (kv : string * string) : string := json_string kv.1 +:+ ":" +:+ kv.2.

(** All texts, or the first error. *)
Fixpoint sequence {A} (l : list (string * py A)) : py (list (string * A)) :=
  match l with
  | [] => Ok []
  | (k, r) :: l' => a ← r; rest ← sequence l'; Ok ((k, a) :: rest)
  end.

Fixpoint _encode (v : value) : py string :=
  match number_of v with
  | Some r => number ← r; encode_number number
  | None =>
      match v with
      | VDict entries =>
          (* the key check comes first, then the members in key order *)
          mapping ← string_keys
            ((fix go (entries : list (value * value)) : list (value * py string) :=
                match entries with
                | [] => []
                | (k, x) :: entries' => (k, _encode x) :: go entries'
                end) entries);
          members ← sequence (merge_sort key_le mapping);
          Ok ("{" +:+ join "," (member_text <$> members) +:+ "}")
      | VList l =>
          items ← (fix go (l : list value) : py (list string) :=
                     match l with
                     | [] => Ok []
                     | x :: l' => s ← _encode x; r ← go l'; Ok (s :: r)
                     end) l;
          Ok ("[" +:+ join "," items +:+ "]")
      | _ => json_dumps v
      end
  end.

Definition canonical (v : value) : py string := n ← normalized v; _encode n.

Definition digest (v : value) : py string :=
  encoded ← canonical v; Ok (sha256_hexdigest encoded).

(** ** The repository's frozen reference vectors *)
Definition price_1234 : value := VFloat (DFinite false 1234 (-2)).

Definition envelope (params body query : value) : value :=
  VDict [(VStr "query", query); (VStr "params", params); (VStr "body", body)].

Definition vectors : list (value * string) :=
  [(envelope VNone VNone VNone,
    "e2557c87554de04e856af54d24a9b69643a88301037c4360abd80af611b32b68");
   (envelope (VDict [(VStr "id", VStr "A1b2C3d4E5f6G7h8")])
      (VDict [(VStr "price", price_1234);
              (VStr "name", VStr ("caf" +:+ String "195"%char (String "169"%char "")));
              (VStr "active", VBool true)]) VNone,
    "362d4ae7c96583248a07cadcc00b399134f6b6c1cfa4c717c22dbe99854af20f");
   (envelope VNone
      (VDict [(VStr "b", VDict [(VStr "z", VStr ("line" +:+ String "010"%char "next"));
                                (VStr "a", VStr "x")]);
              (VStr "a", VList [VNone; VBool false; VFloat (DFinite true 0 (-1)); VInt 100;
                                VFloat (DFinite false 10 (-1))])])
      (VDict [(VStr "page", VInt 1)]),
    "f2f92072bdc5c43c0ac5752bc0cce06bba3f0479500ecd91bb6a995e9f7c8221");
   (envelope VNone (VDict [(VStr "name", VStr "Item"); (VStr "price", price_1234)]) VNone,
    "9448f1f49eaace0d914eb0a35fe0bc5c3632b4b29eda57dfeb51b4fc84bc0f88");
   (envelope VNone (VDict [(VStr "description", VNone); (VStr "name", VStr "Item");
                           (VStr "price", price_1234)]) VNone,
    "461302f232825afd31c0ac15540bed4a7d2022648b082bbd832a0e13912644bb");
   (envelope VNone
      (VModel [("password", "password", true, VSecret (VStr "test-first"));
               ("private_input", "private_input", true, VStr "one")] []) VNone,
    "ca26f6ea4ae60c50046eced1f809143e7a423be8305762d767e6e4768bf3af75");
   (envelope VNone
      (VDict [(VStr "amount", VDecimal (DFinite false 123456789123456789 (-18)))]) VNone,
    "feaee315d5b5c062c75a1bf5beedd2e0c26f2385228c4f3b56ee3fa3d30efa30")].

Example frozen_v1_vectors :
  forallb (λ '(v, hash), bool_decide (digest v = Ok hash)) vectors = true.
Proof. vm_compute. reflexivity. Qed.
