(* ===== verification/FingerprintFacts.v ===== *)
(** * Fingerprints identify inputs

    The encoding of [Fingerprint.v] is uniquely readable: two normalized inputs have the
    same text exactly when they are the same input up to the order of object members and
    the notation of numbers. *)
From stdpp Require Import sorting.
From S2P Require Import Prelude PyText Values Sha256 Fingerprint.
Open Scope Z_scope.

(** ** Texts *)
Definition head_in (P : ascii → bool) (s : string) : bool :=
  match s with EmptyString => false | String c _ => P c end.

(** Maximal munch: a run of [P] characters is determined by what follows it. *)
Lemma munch P a b s t :
  str_all P a = true → str_all P b = true → head_in P s = false → head_in P t = false →
  a +:+ s = b +:+ t → a = b ∧ s = t.
Proof.
  revert b. induction a as [|c a IH]; intros [|d b]; cbn [str_all]; rewrite ?andb_true_iff.
  - done.
  - intros _ [Hd _] Hs _ E. change (s = String d (b +:+ t)) in E. subst s.
    simpl in Hs. congruence.
  - intros [Hc _] _ _ Ht E. change (String c (a +:+ s) = t) in E. subst t.
    simpl in Ht. congruence.
  - intros [Hc Ha] [Hd Hb] Hs Ht E.
    change (String c (a +:+ s) = String d (b +:+ t)) in E. injection E as -> E.
    destruct (IH b Ha Hb Hs Ht E) as [-> ->]. done.
Qed.

(** ** Strings *)
Definition hex_value (c : ascii) : Z :=
  if is_digit c then octet c - 48 else octet c - 87.

(** Reads one escaped character back. *)
Definition unescape_char (s : string) : option (ascii * string) :=
  match s with
  | EmptyString => None
  | String c s1 =>
      if Ascii.eqb c backslash then
        match s1 with
        | EmptyString => None
        | String d s2 =>
            if Ascii.eqb d "n" then Some (of_octet 10, s2)
            else if Ascii.eqb d "r" then Some (of_octet 13, s2)
            else if Ascii.eqb d "t" then Some (of_octet 9, s2)
            else if Ascii.eqb d "f" then Some (of_octet 12, s2)
            else if Ascii.eqb d "b" then Some (of_octet 8, s2)
            else if Ascii.eqb d "u" then
              match s2 with
              | String _ (String _ (String x (String y s3))) =>
                  Some (of_octet (16 * hex_value x + hex_value y), s3)
              | _ => None
              end
            else Some (d, s2)
        end
      else Some (c, s1)
  end.

Lemma unescape_escape c r : unescape_char (escape_char c r) = Some (c, r).
Proof. destruct c as [[] [] [] [] [] [] [] []]; reflexivity. Qed.

Lemma escape_char_inj c d r r' : escape_char c r = escape_char d r' → c = d ∧ r = r'.
Proof.
  intros E. pose proof (unescape_escape c r) as H1.
  rewrite E, unescape_escape in H1. by injection H1 as -> ->.
Qed.

Lemma escape_char_head c r s : escape_char c r ≠ String quote s.
Proof. destruct c as [[] [] [] [] [] [] [] []]; discriminate. Qed.

Lemma escape_char_app c r s : escape_char c r +:+ s = escape_char c (r +:+ s).
Proof. destruct c as [[] [] [] [] [] [] [] []]; reflexivity. Qed.

Lemma escaped_app s r t : escaped s r +:+ t = escaped s (r +:+ t).
Proof. induction s as [|c s IH]; simpl; [done|]. by rewrite escape_char_app, IH. Qed.

Lemma escaped_inj a b s t :
  escaped a (String quote s) = escaped b (String quote t) → a = b ∧ s = t.
Proof.
  revert b. induction a as [|c a IH]; intros [|d b]; simpl.
  - by intros [= ->].
  - intros E. symmetry in E. by apply escape_char_head in E.
  - intros E. by apply escape_char_head in E.
  - intros [-> E]%escape_char_inj. by destruct (IH b E) as [-> ->].
Qed.

Lemma json_string_app s t : json_string s +:+ t = String quote (escaped s (String quote t)).
Proof. unfold json_string. rewrite str_cons_app, escaped_app. done. Qed.

Lemma json_string_inj a b s t :
  json_string a +:+ s = json_string b +:+ t → a = b ∧ s = t.
Proof. rewrite !json_string_app. intros [= E]. by apply escaped_inj. Qed.

(** ** Numbers *)
Lemma strip_zeros_spec fuel c exp :
  let '(d, y) := strip_zeros fuel c exp in
  exp ≤ y ∧ Z.of_N c = Z.of_N d * 10 ^ (y - exp).
Proof.
  revert c exp. induction fuel as [|fuel IH]; intros c exp; cbn [strip_zeros].
  - rewrite Z.sub_diag. lia.
  - destruct (N.eqb_spec (c mod 10) 0) as [Hm|_]; [|rewrite Z.sub_diag; lia].
    specialize (IH (c / 10)%N (exp + 1)). destruct (strip_zeros fuel _ _) as [d y].
    destruct IH as [Hy Hd]. split; [lia|].
    replace (y - exp) with (Z.succ (y - (exp + 1))) by lia.
    rewrite Z.pow_succ_r by lia.
    assert (Z.of_N c = 10 * Z.of_N (c / 10)) by (pose proof (N.div_mod c 10); lia). nia.
Qed.

Lemma strip_zeros_done fuel c exp :
  (c < 2 ^ N.of_nat fuel)%N → c ≠ 0%N → ((strip_zeros fuel c exp).1 mod 10 ≠ 0)%N.
Proof.
  revert c exp. induction fuel as [|fuel IH]; intros c exp Hc Hc0; cbn [strip_zeros].
  - simpl in Hc. lia.
  - destruct (N.eqb_spec (c mod 10) 0) as [Hm|Hm]; [|done].
    pose proof (N.div_mod c 10 ltac:(lia)) as Hdm. apply IH; [|lia].
    rewrite Nat2N.inj_succ, N.pow_succ_r' in Hc. lia.
Qed.

Lemma N_size_nat_bound c : (c < 2 ^ N.of_nat (N.size_nat c))%N.
Proof.
  destruct c as [|p]; [done|]. simpl N.size_nat. induction p as [p IH|p IH|]; simpl Pos.size_nat.
  - rewrite Nat2N.inj_succ, N.pow_succ_r'. lia.
  - rewrite Nat2N.inj_succ, N.pow_succ_r'. lia.
  - done.
Qed.

(** The canonical coefficient and exponent: no trailing zero. *)
Lemma significant_spec c x :
  c ≠ 0%N →
  let '(d, y) := significant c x in
  x ≤ y ∧ Z.of_N c = Z.of_N d * 10 ^ (y - x) ∧ Z.of_N d mod 10 ≠ 0.
Proof.
  intros Hc. unfold significant.
  pose proof (strip_zeros_spec (N.size_nat c) c x) as H1.
  pose proof (strip_zeros_done (N.size_nat c) c x (N_size_nat_bound c) Hc) as H2.
  destruct (strip_zeros _ c x) as [d y]. destruct H1. split_and!; [done..|].
  simpl in H2. intros H3. apply H2. apply N2Z.inj. rewrite N2Z.inj_mod. done.
Qed.

Lemma no_trailing_zero_unique d d' y y' :
  d mod 10 ≠ 0 → d' mod 10 ≠ 0 → y ≤ y' → d = d' * 10 ^ (y' - y) → y = y' ∧ d = d'.
Proof.
  intros Hd Hd' Hy E. destruct (decide (y = y')) as [->|Hne].
  - rewrite Z.sub_diag in E. lia.
  - exfalso. apply Hd. rewrite E. replace (y' - y) with (Z.succ (y' - y - 1)) by lia.
    rewrite Z.pow_succ_r by lia.
    replace (d' * (10 * 10 ^ (y' - y - 1))) with (d' * 10 ^ (y' - y - 1) * 10) by lia.
    apply Z.mod_mul. lia.
Qed.

Definition num_text (n : bool * N * Z) : string :=
  let '(sign, d, y) := n in
  (if sign then "-" else "") +:+ pretty d +:+ (if y =? 0 then "" else "e" +:+ pretty y).

(** Sign, significant digits and exponent of a finite decimal. *)
Definition canon_number (neg : bool) (c : N) (x : Z) : bool * N * Z :=
  if N.eqb c 0 then (false, 0%N, 0)
  else let '(d, y) := significant c x in (neg, d, y).

Lemma encode_number_text d a :
  encode_number d = Ok a →
  ∃ neg c x, d = DFinite neg c x ∧ a = num_text (canon_number neg c x).
Proof.
  destruct d as [neg c x| |]; [|done..]. unfold encode_number, canon_number.
  intros E. exists neg, c, x. split; [done|].
  destruct (N.eqb c 0); [by injection E as <-|].
  destruct (significant c x). by injection E as <-.
Qed.

Lemma pretty_N_char_digit n : is_digit (pretty_N_char n) = true.
Proof. unfold pretty_N_char. repeat case_match; reflexivity. Qed.

Lemma pretty_N_digits (n : N) : str_all is_digit (pretty n) = true ∧ head_in is_digit (pretty n) = true.
Proof.
  assert (∀ x s, str_all is_digit s = true → (s ≠ "" ∨ x ≠ 0%N) →
    str_all is_digit (pretty_N_go x s) = true ∧ pretty_N_go x s ≠ "") as Hgo.
  { intros x. induction (N.lt_wf_0 x) as [x _ IH]. intros s Hs Hx.
    destruct (decide (x = 0%N)) as [->|Hne].
    - rewrite pretty_N_go_0. split; [done|]. by destruct Hx.
    - rewrite pretty_N_go_step by lia. apply IH; [by apply N.div_lt; lia| |by left].
      cbn [str_all]. by rewrite pretty_N_char_digit. }
  unfold pretty, pretty_N. case_decide as Hn; [done|].
  destruct (Hgo n "" eq_refl (or_intror Hn)) as [H1 H2]. split; [done|].
  destruct (pretty_N_go n ""); [done|]. cbn [str_all] in H1. by apply andb_true_iff in H1 as [? _].
Qed.

Definition exponent_char (c : ascii) : bool := is_digit c || Ascii.eqb c "-"%char.

Lemma pretty_Z_chars (z : Z) : str_all exponent_char (pretty z) = true.
Proof.
  assert (∀ n : N, str_all exponent_char (pretty n) = true) as Hn.
  { intros n. eapply str_all_impl; [|apply pretty_N_digits]. unfold exponent_char.
    intros c ->. done. }
  destruct z as [|p|p]; [done|apply (Hn (Npos p))|].
  change (pretty (Z.neg p)) with (String "-"%char (pretty (Npos p))). cbn [str_all].
  rewrite Hn. done.
Qed.

(** What can follow a value: the end, a comma or a closing bracket. *)
Definition number_char (c : ascii) : bool := exponent_char c || Ascii.eqb c "e"%char.
Definition stop (s : string) : Prop := head_in number_char s = false.

Lemma stop_not_exponent s : stop s → head_in exponent_char s = false.
Proof.
  unfold stop. destruct s as [|c s]; [done|]. cbn [head_in]. unfold number_char.
  intros [? _]%orb_false_iff. done.
Qed.

Lemma head_digit_of_stop s y :
  stop s → head_in is_digit ((if y =? 0 then "" else "e" +:+ pretty y) +:+ s) = false.
Proof.
  intros Hs. destruct (y =? 0); [|done]. cbn. apply stop_not_exponent in Hs.
  destruct s as [|c s]; [done|]. cbn [head_in] in *. unfold exponent_char in Hs.
  by apply orb_false_iff in Hs as [? _].
Qed.

Lemma exponent_text_inj y y' s t :
  stop s → stop t →
  (if y =? 0 then "" else "e" +:+ pretty y) +:+ s
  = (if y' =? 0 then "" else "e" +:+ pretty y') +:+ t → y = y' ∧ s = t.
Proof.
  intros Hs Ht. destruct (Z.eqb_spec y 0) as [->|Hy], (Z.eqb_spec y' 0) as [->|Hy'].
  - intros E. by cbn in E.
  - intros E. change (s = String "e" (pretty y' +:+ t)) in E. by subst s.
  - intros E. change (String "e" (pretty y +:+ s) = t) in E. by subst t.
  - intros E. change (String "e" (pretty y +:+ s) = String "e" (pretty y' +:+ t)) in E.
    injection E as E.
    apply (munch exponent_char) in E as [E ->]; auto using pretty_Z_chars, stop_not_exponent.
    by apply (inj pretty) in E.
Qed.

Lemma num_text_inj n m s t :
  stop s → stop t → num_text n +:+ s = num_text m +:+ t → n = m ∧ s = t.
Proof.
  destruct n as [[sn d] y], m as [[sm d'] y']. intros Hs Ht. unfold num_text.
  rewrite !str_app_assoc.
  assert (∀ (b : N) r, head_in is_digit (pretty b +:+ r) = true) as Hhead.
  { intros b r. destruct (pretty_N_digits b) as [_ Hb]. by destruct (pretty b). }
  assert (∀ r r' : string, pretty d +:+ (if y =? 0 then "" else "e" +:+ pretty y) +:+ s
      = pretty d' +:+ (if y' =? 0 then "" else "e" +:+ pretty y') +:+ t → d = d' ∧ y = y' ∧ s = t)
    as Hrest.
  { intros _ _ E. apply (munch is_digit) in E as [Ed E];
      [|apply pretty_N_digits|apply pretty_N_digits|by apply head_digit_of_stop..].
    apply (inj pretty) in Ed as ->. by apply exponent_text_inj in E as [-> ->]. }
  destruct sn, sm; intros E.
  - injection E as E. by destruct (Hrest "" "" E) as (-> & -> & ->).
  - exfalso. pose proof (Hhead d' ((if y' =? 0 then "" else "e" +:+ pretty y') +:+ t)) as Hh.
    change (String "-" (pretty d +:+ (if y =? 0 then "" else "e" +:+ pretty y) +:+ s)
      = pretty d' +:+ (if y' =? 0 then "" else "e" +:+ pretty y') +:+ t) in E.
    by rewrite <-E in Hh.
  - exfalso. pose proof (Hhead d ((if y =? 0 then "" else "e" +:+ pretty y) +:+ s)) as Hh.
    change (pretty d +:+ (if y =? 0 then "" else "e" +:+ pretty y) +:+ s
      = String "-" (pretty d' +:+ (if y' =? 0 then "" else "e" +:+ pretty y') +:+ t)) in E.
    by rewrite E in Hh.
  - by destruct (Hrest "" "" E) as (-> & -> & ->).
Qed.

Lemma num_text_head n s : head_in exponent_char (num_text n +:+ s) = true.
Proof.
  destruct n as [[[] d] y]; [done|]. unfold num_text.
  destruct (pretty_N_digits d) as [_ Hd]. destruct (pretty d) as [|c r]; [done|].
  change (is_digit c = true) in Hd. change (exponent_char c = true).
  unfold exponent_char. by rewrite Hd.
Qed.

Lemma scaled_nonzero neg c x e : c ≠ 0%N → e ≤ x → scaled neg c x e ≠ 0.
Proof.
  intros Hc He. unfold scaled. assert (0 < 10 ^ (x - e)) by (apply Z.pow_pos_nonneg; lia).
  destruct neg; simpl; nia.
Qed.

(** Numerically equal decimals have the same canonical form, and conversely. *)
Lemma canon_number_eq n c x n' c' x' :
  canon_number n c x = canon_number n' c' x'
  ↔ decimal_eq (DFinite n c x) (DFinite n' c' x') = true.
Proof.
  rewrite dec_eq_spec. unfold canon_number.
  destruct (N.eqb_spec c 0) as [->|Hc], (N.eqb_spec c' 0) as [->|Hc'].
  - split; [|done]. intros _ e _ _. unfold scaled. by destruct n, n'.
  - pose proof (significant_spec c' x' Hc') as H. destruct (significant c' x') as [d' y'].
    destruct H as (Hy & Hd & Hm). split; [intros [= <- <- <-]; by destruct Hm|].
    intros E. exfalso. specialize (E (Z.min x x') ltac:(lia) ltac:(lia)).
    apply (scaled_nonzero n' c' x' (Z.min x x')); [done|lia|]. rewrite <-E.
    unfold scaled. by destruct n.
  - pose proof (significant_spec c x Hc) as H. destruct (significant c x) as [d y].
    destruct H as (Hy & Hd & Hm). split; [intros [= -> -> ->]; by destruct Hm|].
    intros E. exfalso. specialize (E (Z.min x x') ltac:(lia) ltac:(lia)).
    apply (scaled_nonzero n c x (Z.min x x')); [done|lia|]. rewrite E.
    unfold scaled. by destruct n'.
  - pose proof (significant_spec c x Hc) as H. destruct (significant c x) as [d y].
    pose proof (significant_spec c' x' Hc') as H'. destruct (significant c' x') as [d' y'].
    destruct H as (Hy & Hd & Hm), H' as (Hy' & Hd' & Hm').
    assert (∀ e, e ≤ x → scaled n c x e = signed n (Z.of_N d) * 10 ^ (y - e)) as Hs.
    { intros e He. unfold scaled. rewrite Hd.
      replace (y - e) with ((y - x) + (x - e)) by lia. rewrite Z.pow_add_r by lia.
      destruct n; simpl; lia. }
    assert (∀ e, e ≤ x' → scaled n' c' x' e = signed n' (Z.of_N d') * 10 ^ (y' - e)) as Hs'.
    { intros e He. unfold scaled. rewrite Hd'.
      replace (y' - e) with ((y' - x') + (x' - e)) by lia. rewrite Z.pow_add_r by lia.
      destruct n'; simpl; lia. }
    split.
    + intros [= <- <- <-] e He He'. by rewrite Hs, Hs' by done.
    + intros E. set (e := Z.min x x'). specialize (E e ltac:(lia) ltac:(lia)).
      rewrite Hs, Hs' in E by lia.
      assert (0 < 10 ^ (y - e)) by (apply Z.pow_pos_nonneg; lia).
      assert (0 < 10 ^ (y' - e)) by (apply Z.pow_pos_nonneg; lia).
      assert (Z.of_N d ≠ 0) by (intros E0; rewrite E0 in Hm; by destruct Hm).
      assert (Z.of_N d' ≠ 0) by (intros E0; rewrite E0 in Hm'; by destruct Hm').
      assert (n = n') as <- by (destruct n, n'; simpl in E; try done; nia).
      assert (Z.of_N d * 10 ^ (y - e) = Z.of_N d' * 10 ^ (y' - e)) as E'
        by (destruct n; simpl in E; lia).
      clear E Hs Hs' Hd Hd'.
      destruct (Z.le_ge_cases y y') as [Hle|Hle].
      * replace (y' - e) with ((y' - y) + (y - e)) in E' by lia.
        rewrite Z.pow_add_r in E' by lia.
        destruct (no_trailing_zero_unique (Z.of_N d) (Z.of_N d') y y') as [-> Hdd]; [done..|nia|].
        by apply N2Z.inj in Hdd as ->.
      * replace (y - e) with ((y - y') + (y' - e)) in E' by lia.
        rewrite Z.pow_add_r in E' by lia.
        destruct (no_trailing_zero_unique (Z.of_N d') (Z.of_N d) y' y) as [-> Hdd]; [done..|nia|].
        by apply N2Z.inj in Hdd as ->.
Qed.

(** ** Key order *)
Lemma str_le_total a b : str_le a b = true ∨ str_le b a = true.
Proof.
  revert b. induction a as [|c a IH]; intros [|d b]; simpl; auto.
  destruct (Z.lt_trichotomy (octet c) (octet d)) as [Hl|[Hl|Hl]].
  - left. by rewrite (proj2 (Z.ltb_lt _ _) Hl).
  - rewrite Hl, Z.eqb_refl, Z.ltb_irrefl. simpl. apply IH.
  - right. by rewrite (proj2 (Z.ltb_lt _ _) Hl).
Qed.

Lemma str_le_cons c a d b :
  str_le (String c a) (String d b) = true ↔
  octet c < octet d ∨ (octet c = octet d ∧ str_le a b = true).
Proof. simpl. rewrite orb_true_iff, andb_true_iff, Z.ltb_lt, Z.eqb_eq. done. Qed.

Lemma str_le_trans a b c : str_le a b = true → str_le b c = true → str_le a c = true.
Proof.
  revert b c. induction a as [|x a IH]; intros [|y b] [|z c]; try done.
  rewrite !str_le_cons. intros [H1|[H1 H1']] [H2|[H2 H2']]; [lia..|].
  right. split; [lia|]. eauto.
Qed.

Lemma str_le_antisymm a b : str_le a b = true → str_le b a = true → a = b.
Proof.
  revert b. induction a as [|x a IH]; intros [|y b]; try done.
  rewrite !str_le_cons. intros [H1|[H1 H1']] [H2|[H2 H2']]; [lia..|].
  apply octet_inj in H1 as ->. f_equal. auto.
Qed.

#[export] Instance key_le_total A : Total (key_le (A := A)).
Proof. intros x y. apply str_le_total. Qed.
#[export] Instance key_le_trans A : Transitive (key_le (A := A)).
Proof. intros x y z. apply str_le_trans. Qed.

(** ** Values *)

(** The same input: numbers by value, object members in any order. *)
Inductive same : value → value → Prop :=
| same_scalar v : same v v
| same_number v w d d' :
    number_of v = Some (Ok d) → number_of w = Some (Ok d') → decimal_eq d d' = true → same v w
| same_list l l' : Forall2 same l l' → same (VList l) (VList l')
| same_dict e e' r r' p :
    string_keys e = Ok r → string_keys e' = Ok r' → p ≡ₚ r' →
    Forall2 (λ a b : string * value, a.1 = b.1 ∧ same a.2 b.2) r p →
    same (VDict e) (VDict e').

Fixpoint encode_all (l : list value) : py (list string) :=
  match l with
  | [] => Ok []
  | x :: l' => s ← _encode x; r ← encode_all l'; Ok (s :: r)
  end.

Definition encode_member {A} (f : value → A) (kx : string * value) : string * A :=
  (kx.1, f kx.2).

Lemma encode_list_eq l :
  _encode (VList l) = items ← encode_all l; Ok ("[" +:+ join "," items +:+ "]").
Proof. simpl. f_equal. Qed.

Lemma string_keys_encode e :
  string_keys
    ((fix go (entries : list (value * value)) : list (value * py string) :=
        match entries with [] => [] | (k, x) :: entries' => (k, _encode x) :: go entries' end) e)
  = match string_keys e with Ok r => Ok (map (encode_member _encode) r) | Err x => Err x end.
Proof.
  induction e as [|[k x] e IH]; [done|]. simpl.
  destruct k; try done. rewrite IH. by destruct (string_keys e).
Qed.

Lemma encode_all_ok l ts :
  encode_all l = Ok ts → Forall2 (λ x t, _encode x = Ok t) l ts.
Proof.
  revert ts. induction l as [|x l IH]; intros ts; simpl; [by intros [= <-]|].
  destruct (_encode x) eqn:E; simpl; [|done].
  destruct (encode_all l); simpl; [|done]. intros [= <-]. constructor; auto.
Qed.

Lemma sequence_ok {A} (l : list (string * py A)) r :
  sequence l = Ok r ↔ Forall2 (λ x y, x.1 = y.1 ∧ x.2 = Ok y.2) l r.
Proof.
  revert r. induction l as [|[k x] l IH]; intros r; simpl.
  - split; [intros [= <-]; constructor|]. intros H. inversion H. done.
  - split.
    + destruct x as [a|]; simpl; [|done]. destruct (sequence l) as [rs|] eqn:E; simpl; [|done].
      intros [= <-]. constructor; [done|]. by apply IH.
    + intros H. inversion H as [|? [k' a] ? rs [Hk Hx] Hl]; subst. simpl in *. subst.
      apply IH in Hl. by rewrite Hl.
Qed.

Lemma encode_dict_ok e a :
  _encode (VDict e) = Ok a →
  ∃ r r1 ms, string_keys e = Ok r ∧ r1 ≡ₚ r ∧ StronglySorted key_le r1
    ∧ Forall2 (λ (kx : string * value) (m : string * string),
                 kx.1 = m.1 ∧ _encode kx.2 = Ok m.2) r1 ms
    ∧ a = "{" +:+ join "," (member_text <$> ms) +:+ "}".
Proof.
  simpl. rewrite string_keys_encode.
  destruct (string_keys e) as [r|] eqn:Hr; simpl; [|done].
  destruct (sequence _) as [ms|] eqn:Hs; simpl; [|done]. intros [= <-].
  set (sorted := merge_sort key_le (encode_member _encode <$> r)) in *.
  assert (sorted ≡ₚ map (encode_member _encode) r) as Hp by apply merge_sort_Permutation.
  apply Permutation_map_inv in Hp as (r1 & E1 & Hr1).
  assert (StronglySorted key_le sorted) as Hsort by (apply StronglySorted_merge_sort; apply _).
  exists r, r1, ms. split_and!; [done|by symmetry| | |done].
  - rewrite E1 in Hsort. clear -Hsort. induction r1 as [|x r1 IH]; [constructor|].
    apply StronglySorted_inv in Hsort as [H1 H2]. constructor; [auto|].
    apply (Forall_fmap (encode_member _encode)) in H2.
    eapply Forall_impl; [exact H2|]. intros y Hy. exact Hy.
  - change (sequence sorted = Ok ms) in Hs. rewrite E1 in Hs. apply sequence_ok in Hs.
    apply (Forall2_fmap_l (encode_member _encode)) in Hs. exact Hs.
Qed.

(** What a value's text starts with. *)
Inductive kind := KNumber | KNull | KTrue | KFalse | KString | KList | KDict.

Definition kind_of_char (c : ascii) : option kind :=
  if exponent_char c then Some KNumber
  else if Ascii.eqb c "n" then Some KNull
  else if Ascii.eqb c "t" then Some KTrue
  else if Ascii.eqb c "f" then Some KFalse
  else if Ascii.eqb c quote then Some KString
  else if Ascii.eqb c "[" then Some KList
  else if Ascii.eqb c "{" then Some KDict
  else None.

Definition head_kind (s : string) : option kind :=
  match s with EmptyString => None | String c _ => kind_of_char c end.

Definition kind_of (v : value) : option kind :=
  match number_of v with
  | Some _ => Some KNumber
  | None =>
      match v with
      | VNone => Some KNull
      | VBool b => Some (if b then KTrue else KFalse)
      | VStr _ => Some KString
      | VList _ => Some KList
      | VDict _ => Some KDict
      | _ => None
      end
  end.

(** A successful encoding, read by the kind of value. *)
Inductive encoded : value → string → Prop :=
| encoded_number v neg c x :
    number_of v = Some (Ok (DFinite neg c x)) → encoded v (num_text (canon_number neg c x))
| encoded_null : encoded VNone "null"
| encoded_true : encoded (VBool true) "true"
| encoded_false : encoded (VBool false) "false"
| encoded_string s : encoded (VStr s) (json_string s)
| encoded_list l ts :
    Forall2 (λ x t, _encode x = Ok t) l ts → encoded (VList l) ("[" +:+ join "," ts +:+ "]")
| encoded_dict e r r1 ms :
    string_keys e = Ok r → r1 ≡ₚ r → StronglySorted key_le r1 →
    Forall2 (λ (kx : string * value) (m : string * string),
               kx.1 = m.1 ∧ _encode kx.2 = Ok m.2) r1 ms →
    encoded (VDict e) ("{" +:+ join "," (member_text <$> ms) +:+ "}").

Lemma encode_encoded v a : _encode v = Ok a → encoded v a.
Proof.
  intros E. destruct (number_of v) as [r|] eqn:Hn.
  { assert (_encode v = number ← r; encode_number number) as E'
      by (destruct v; simpl in Hn; simplify_eq; done).
    rewrite E' in E. destruct r as [d|]; simpl in E; [|done].
    apply encode_number_text in E as (neg & c & x & -> & ->). by constructor. }
  destruct v; try done.
  - injection E as <-. constructor.
  - destruct b; injection E as <-; constructor.
  - injection E as <-. constructor.
  - apply encode_dict_ok in E as (r & r1 & ms & ? & ? & ? & ? & ->).
    eapply encoded_dict; eauto.
  - rewrite encode_list_eq in E. destruct (encode_all l) as [ts|] eqn:Ht; simpl in E; [|done].
    injection E as <-. constructor. by apply encode_all_ok.
Qed.

Lemma encoded_head v a s : encoded v a → head_kind (a +:+ s) = kind_of v.
Proof.
  intros []; try done. 
  - unfold kind_of. rewrite H. pose proof (num_text_head (canon_number neg c x) s) as Hh.
    destruct (num_text (canon_number neg c x) +:+ s) as [|c' r]; [done|].
    change (exponent_char c' = true) in Hh. simpl. unfold kind_of_char. by rewrite Hh.
Qed.

Lemma encode_head v a s : _encode v = Ok a → head_kind (a +:+ s) = kind_of v ∧ kind_of v ≠ None.
Proof.
  intros E%encode_encoded. split; [by apply encoded_head|].
  destruct E; try done. unfold kind_of. by rewrite H.
Qed.

(** *** Sequences of texts *)
Definition tail_text (ts : list string) : string :=
  match ts with [] => "" | _ => "," +:+ join "," ts end.

Lemma join_cons t ts : join "," (t :: ts) = t +:+ tail_text ts.
Proof. destruct ts; simpl; [by rewrite str_app_nil|done]. Qed.

Lemma tail_text_stop ts close s :
  number_char close = false → stop (tail_text ts +:+ String close s).
Proof. intros Hc. unfold stop. by destruct ts. Qed.

Section sequences.
Context {X : Type} (enc : X → string → Prop) (R : X → X → Prop) (close : ascii).
Hypothesis (Hclose : number_char close = false) (Hcomma : Ascii.eqb close "," = false).

Lemma tails_inj l l' ts ts' s t :
  Forall2 enc l ts → Forall2 enc l' ts' →
  (∀ x y a b s t, x ∈ l → y ∈ l' → enc x a → enc y b → stop s → stop t →
     a +:+ s = b +:+ t → R x y ∧ s = t) →
  tail_text ts +:+ String close s = tail_text ts' +:+ String close t →
  Forall2 R l l' ∧ s = t.
Proof.
  intros Hl. revert l' ts'. induction Hl as [|x a l ts Hx Hl IH]; intros l' ts' Hl' Hinj E.
  - destruct Hl' as [|y b l' ts' Hy Hl'].
    + simpl in E. injection E as E. change (s = t) in E.
    split; [constructor|done].
    + exfalso. unfold tail_text in E. injection E as E _. by rewrite E in Hcomma.
  - destruct Hl' as [|y b l' ts' Hy Hl'].
    { exfalso. unfold tail_text in E. injection E as E _. by rewrite <-E in Hcomma. }
    unfold tail_text in E. rewrite !str_app_assoc, !join_cons, !str_app_assoc in E.
    injection E as E.
    change (a +:+ (tail_text ts +:+ String close s)
            = b +:+ (tail_text ts' +:+ String close t)) in E.
    destruct (Hinj x y _ _ _ _ ltac:(constructor) ltac:(constructor) Hx Hy
      (tail_text_stop ts close s Hclose) (tail_text_stop ts' close t Hclose) E) as [Hxy E'].
    destruct (IH l' ts') as [? ->]; [done| |done|].
    + intros. eapply Hinj; eauto; by constructor.
    + split; [by constructor|done].
Qed.

Lemma sequences_inj l l' ts ts' s t :
  Forall2 enc l ts → Forall2 enc l' ts' →
  (∀ x y a b s t, x ∈ l → y ∈ l' → enc x a → enc y b → stop s → stop t →
     a +:+ s = b +:+ t → R x y ∧ s = t) →
  (∀ x a s, enc x a → a +:+ s ≠ "" ∧ ∀ r, a +:+ s ≠ String close r) →
  join "," ts +:+ String close s = join "," ts' +:+ String close t →
  Forall2 R l l' ∧ s = t.
Proof.
  intros Hl Hl' Hinj Hhead E.
  destruct Hl as [|x a l ts Hx Hl], Hl' as [|y b l' ts' Hy Hl'].
  - injection E as E. change (s = t) in E.
    split; [constructor|done].
  - exfalso. rewrite join_cons, str_app_assoc in E.
    eapply (proj2 (Hhead y b _ Hy)). symmetry. exact E.
  - exfalso. rewrite join_cons, str_app_assoc in E. eapply (proj2 (Hhead x a _ Hx)). exact E.
  - rewrite !join_cons, !str_app_assoc in E.
    destruct (Hinj x y _ _ _ _ ltac:(constructor) ltac:(constructor) Hx Hy
      (tail_text_stop ts close s Hclose) (tail_text_stop ts' close t Hclose) E) as [Hxy E'].
    destruct (tails_inj l l' ts ts' s t Hl Hl') as [? ->]; [|done|by split; [constructor|]].
    intros. eapply Hinj; eauto; by constructor.
Qed.
End sequences.

(** *** Unique readability *)
Fixpoint vsize (v : value) : nat :=
  match v with
  | VList l => S (list_sum (map vsize l))
  | VDict e => S (list_sum (map (λ kx, vsize kx.2) e))
  | _ => O
  end.

Lemma list_sum_elem {A} (f : A → nat) x l : x ∈ l → (f x ≤ list_sum (map f l))%nat.
Proof. induction 1; simpl; lia. Qed.

Lemma string_keys_elem {A} (e : list (value * A)) r k x :
  string_keys e = Ok r → (k, x) ∈ r → (VStr k, x) ∈ e.
Proof.
  revert r. induction e as [|[k' y] e IH]; intros r; simpl.
  - intros [= <-] []%elem_of_nil.
  - destruct k'; try done. destruct (string_keys e) as [r'|]; simpl; [|done].
    intros [= <-] [[= -> ->]|Hin]%elem_of_cons; [constructor|]. constructor. eauto.
Qed.

Lemma same_kind_char {v w a b s t} :
  _encode v = Ok a → _encode w = Ok b → a +:+ s = b +:+ t → kind_of v = kind_of w.
Proof.
  intros Ha Hb E. destruct (encode_head v a s Ha) as [<- _], (encode_head w b t Hb) as [<- _].
  by rewrite E.
Qed.

Lemma text_not_close v a s close :
  _encode v = Ok a → kind_of_char close = None →
  a +:+ s ≠ "" ∧ ∀ r, a +:+ s ≠ String close r.
Proof.
  intros Ha Hc. destruct (encode_head v a s Ha) as [Hk Hn].
  split; [intros E|intros r E]; rewrite E in Hk; simpl in Hk; congruence.
Qed.

(** The member relation a dict comparison uses. *)
Definition same_member (a b : string * value) : Prop := a.1 = b.1 ∧ same a.2 b.2.

Lemma member_text_inj k k' x x' s t :
  member_text (k, x) +:+ s = member_text (k', x') +:+ t →
  k = k' ∧ x +:+ s = x' +:+ t.
Proof.
  unfold member_text. simpl. rewrite !str_app_assoc. intros [-> E]%json_string_inj.
  by injection E.
Qed.

Lemma same_dict_sorted e e' r r' r1 r1' :
  string_keys e = Ok r → string_keys e' = Ok r' → r1 ≡ₚ r → r1' ≡ₚ r' →
  Forall2 same_member r1 r1' → same (VDict e) (VDict e').
Proof.
  intros Hr Hr' H1 H1' HF. destruct (Permutation_Forall2 H1 HF) as (p & Hp & Hpp).
  apply (same_dict e e' r r' p Hr Hr'); [by rewrite <-Hp|exact Hpp].
Qed.

Lemma encode_inj_n n v w a b s t :
  (vsize v < n)%nat → _encode v = Ok a → _encode w = Ok b → stop s → stop t →
  a +:+ s = b +:+ t → same v w ∧ s = t.
Proof.
  revert v w a b s t. induction n as [|n IH]; intros v w a b s t Hn Ha Hb Hs Ht E; [lia|].
  pose proof (same_kind_char Ha Hb E) as Hk.
  apply encode_encoded in Ha, Hb. destruct Ha as [v neg c x Hv| | | |s0|l ts Hl|e r r1 ms Hr Hp Hsort Hms].
  - destruct Hb as [w neg' c' x' Hw| | | | | |]; unfold kind_of in Hk; rewrite Hv in Hk; try done.
    apply num_text_inj in E as [E ->]; [|done..]. split; [|done].
    eapply same_number; [done..|]. by apply canon_number_eq.
  - destruct Hb as [w neg' c' x' Hw| | | | | |]; try done;
      [by unfold kind_of in Hk; rewrite Hw in Hk|]. injection E as E. change (s = t) in E.
    split; [constructor|done].
  - destruct Hb as [w neg' c' x' Hw| | | | | |]; try done;
      [by unfold kind_of in Hk; rewrite Hw in Hk|]. injection E as E. change (s = t) in E.
    split; [constructor|done].
  - destruct Hb as [w neg' c' x' Hw| | | | | |]; try done;
      [by unfold kind_of in Hk; rewrite Hw in Hk|]. injection E as E. change (s = t) in E.
    split; [constructor|done].
  - destruct Hb as [w neg' c' x' Hw| | | |s1| |]; try done;
      [by unfold kind_of in Hk; rewrite Hw in Hk|].
    apply json_string_inj in E as [-> ->]. split; [constructor|done].
  - destruct Hb as [w neg' c' x' Hw| | | | |l' ts' Hl'|]; try done;
      [by unfold kind_of in Hk; rewrite Hw in Hk|].
    rewrite !str_app_assoc in E. injection E as E.
    apply (sequences_inj (λ x t, _encode x = Ok t) same "]"%char eq_refl eq_refl l l' ts ts')
      in E as [HF ->]; [by split; [constructor|]|done..| |].
    + intros x y a b s1 t1 Hx _ Hxa Hyb Hs1 Ht1 E1. eapply IH; eauto.
      simpl in Hn. pose proof (list_sum_elem vsize x l Hx). lia.
    + intros x a s1 Hx. by eapply text_not_close.
  - destruct Hb as [w neg' c' x' Hw| | | | | |e' r' r1' ms' Hr' Hp' Hsort' Hms']; try done;
      [by unfold kind_of in Hk; rewrite Hw in Hk|].
    rewrite !str_app_assoc in E. injection E as E.
    apply (sequences_inj
      (λ (kx : string * value) t, ∃ x, _encode kx.2 = Ok x ∧ t = member_text (kx.1, x))
      same_member "}"%char eq_refl eq_refl r1 r1') in E as [HF ->].
    + split; [|done]. by eapply same_dict_sorted.
    + apply Forall2_fmap_r. eapply Forall2_impl; [exact Hms|].
      intros [k x] [k' x'] [Hkk Hx]. simpl in *. subst. eauto.
    + apply Forall2_fmap_r. eapply Forall2_impl; [exact Hms'|].
      intros [k x] [k' x'] [Hkk Hx]. simpl in *. subst. eauto.
    + intros [k x] [k' x'] a b s1 t1 Hx _ (xa & Hxa & ->) (yb & Hyb & ->) Hs1 Ht1 E1. simpl in *.
      apply member_text_inj in E1 as [-> E1]. unfold same_member. simpl.
      rewrite Hp in Hx. eapply string_keys_elem in Hx; [|done].
      pose proof (list_sum_elem (λ kx : value * value, vsize kx.2) _ _ Hx) as Hsz.
      destruct (IH x x' xa yb s1 t1) as [? ->]; auto. simpl in *. lia.
    + intros [k x] a s1 (xa & _ & ->). unfold member_text. simpl.
      rewrite str_app_assoc, json_string_app. split; [done|intros r0 E0; discriminate E0].
Qed.

(** *** Equal inputs have equal texts *)

(** Python dicts have unique keys. *)
Fixpoint wf (v : value) : Prop :=
  match v with
  | VSecret x | VEnum x => wf x
  | VModel fields extra =>
      (fix go (l : list (string * string * bool * value)) :=
         match l with [] => True | (_, _, _, x) :: l' => wf x ∧ go l' end) fields
      ∧ (fix go (l : list (string * value)) :=
           match l with [] => True | (_, x) :: l' => wf x ∧ go l' end) extra
  | VDict e =>
      NoDup e.*1
      ∧ (fix go (l : list (value * value)) :=
           match l with [] => True | (_, x) :: l' => wf x ∧ go l' end) e
  | VList l | VTuple l =>
      (fix go (l : list value) := match l with [] => True | x :: l' => wf x ∧ go l' end) l
  | _ => True
  end.

Lemma wf_list l : wf (VList l) ↔ Forall wf l.
Proof.
  induction l as [|x l IH]; [split; [constructor|done]|].
  rewrite Forall_cons, <-IH. done.
Qed.

Lemma wf_dict e : wf (VDict e) ↔ NoDup e.*1 ∧ Forall (λ kx : value * value, wf kx.2) e.
Proof.
  simpl. apply and_iff_compat_l. induction e as [|[k x] e IH]; [split; [constructor|done]|].
  rewrite Forall_cons, <-IH. done.
Qed.

Lemma encode_number_of v r :
  number_of v = Some r → _encode v = number ← r; encode_number number.
Proof. destruct v; simpl; intros; simplify_eq; done. Qed.

Lemma encode_number_finite neg c x :
  encode_number (DFinite neg c x) = Ok (num_text (canon_number neg c x)).
Proof.
  unfold encode_number, canon_number. destruct (N.eqb c 0); [done|].
  by destruct (significant c x).
Qed.

Lemma encode_number_eq d d' : decimal_eq d d' = true → encode_number d = encode_number d'.
Proof.
  destruct d as [n c x| |], d' as [n' c' x'| |]; try done.
  intros E%canon_number_eq. by rewrite !encode_number_finite, E.
Qed.

Lemma string_keys_fst {A} (e : list (value * A)) r :
  string_keys e = Ok r → e.*1 = VStr <$> r.*1.
Proof.
  revert r. induction e as [|[k x] e IH]; intros r; simpl; [by intros [= <-]|].
  destruct k; try done. destruct (string_keys e) as [r'|]; simpl; [|done].
  intros [= <-]. csimpl. f_equal. auto.
Qed.

Lemma string_keys_NoDup {A} (e : list (value * A)) r :
  string_keys e = Ok r → NoDup e.*1 → NoDup r.*1.
Proof. intros ->%string_keys_fst. apply NoDup_fmap_1. Qed.

(** Sorting by unique keys forgets the order. *)
Lemma sort_by_key {A} (l l' : list (string * A)) :
  NoDup l'.*1 → l ≡ₚ l' → merge_sort key_le l = merge_sort key_le l'.
Proof.
  intros Hnd Hp. apply (StronglySorted_unique_strong key_le).
  - intros [k x] [k' x'] Hx Hx' H1 H2. rewrite merge_sort_Permutation in Hx, Hx'.
    rewrite Hp in Hx. unfold key_le in *. simpl in *.
    pose proof (str_le_antisymm _ _ H1 H2). subst k'. f_equal.
    assert (assoc_get k l' = Some x) by by apply assoc_get_in_NoDup.
    assert (assoc_get k l' = Some x') by by apply assoc_get_in_NoDup.
    congruence.
  - apply StronglySorted_merge_sort; apply _.
  - apply StronglySorted_merge_sort; apply _.
  - by rewrite !merge_sort_Permutation.
Qed.

Lemma encode_dict_eq e :
  _encode (VDict e)
  = match string_keys e with
    | Ok r =>
        members ← sequence (merge_sort key_le (map (encode_member _encode) r));
        Ok ("{" +:+ join "," (member_text <$> members) +:+ "}")
    | Err x => Err x
    end.
Proof. simpl. rewrite string_keys_encode. by destruct (string_keys e). Qed.

Lemma same_encode_n n v w a :
  (vsize v < n)%nat → wf v → wf w → same v w → _encode v = Ok a → _encode w = Ok a.
Proof.
  revert v w a. induction n as [|n IH]; intros v w a Hn Hv Hw Hs Ha; [lia|].
  destruct Hs as [v|v w d d' Hd Hd' E|l l' HF|e e' r r' p Hr Hr' Hp HF]; [done| | |].
  - rewrite (encode_number_of v _ Hd) in Ha. rewrite (encode_number_of w _ Hd').
    rewrite <-Ha. simpl. symmetry. by apply encode_number_eq.
  - rewrite wf_list in Hv, Hw. rewrite encode_list_eq in *.
    assert (∀ ts, encode_all l = Ok ts → encode_all l' = Ok ts) as Hall.
    { simpl in Hn. clear Ha. revert Hn. induction HF as [|x y l l' Hxy HF IHF]; [done|].
      intros Hn ts. simpl in *. apply Forall_cons in Hv as [Hx Hv], Hw as [Hy Hw].
      destruct (_encode x) as [t|] eqn:Ex; simpl; [|done].
      rewrite (IH x y t) by (auto; lia). simpl.
      destruct (encode_all l) as [ts'|]; simpl; [|done]. intros [= <-].
      by rewrite (IHF Hv Hw ltac:(lia) ts'). }
    destruct (encode_all l) as [ts|]; simpl in Ha; [|done]. by rewrite (Hall ts).
  - rewrite wf_dict in Hv, Hw. destruct Hv as [Hnd Hv], Hw as [Hnd' Hw].
    rewrite encode_dict_eq in *. rewrite Hr in Ha. rewrite Hr'.
    destruct (sequence _) as [ms|] eqn:Hseq; simpl in Ha; [|done].
    enough (map (encode_member _encode) r = map (encode_member _encode) p) as Erp.
    { rewrite <-(sort_by_key (map (encode_member _encode) r)), Hseq; [done| |].
      - change (NoDup (encode_member _encode <$> r').*1). rewrite <-list_fmap_compose.
        change (NoDup (r'.*1)). by eapply string_keys_NoDup.
      - rewrite Erp. by apply Permutation_map. }
    assert (∀ k x, (k, x) ∈ r → ∃ t, _encode x = Ok t) as Hok.
    { intros k x Hin. apply sequence_ok in Hseq.
      assert ((k, _encode x) ∈ merge_sort key_le (map (encode_member _encode) r)) as Hin'.
      { rewrite merge_sort_Permutation. apply list_elem_of_fmap. by exists (k, x). }
      apply list_elem_of_lookup in Hin' as [i Hi].
      destruct (Forall2_lookup_l _ _ _ _ _ Hseq Hi) as ([k' t] & _ & _ & Ht). eauto. }
    assert (∀ k x, (k, x) ∈ r → wf x ∧ (vsize x < n)%nat) as Hwf.
    { intros k x Hin. eapply string_keys_elem in Hin; [|done]. split.
      - rewrite Forall_forall in Hv. by apply (Hv (VStr k, x)).
      - pose proof (list_sum_elem (λ kx : value * value, vsize kx.2) _ _ Hin).
        simpl in *. lia. }
    assert (∀ k x, (k, x) ∈ p → wf x) as Hwf'.
    { intros k x Hin. rewrite Hp in Hin. eapply string_keys_elem in Hin; [|done].
      rewrite Forall_forall in Hw. by apply (Hw (VStr k, x)). }
    clear -HF IH Hok Hwf Hwf'. induction HF as [|[k x] [k' y] r p [Hk Hxy] HF IHF]; [done|].
    simpl in *. subst k'. f_equal.
    + unfold encode_member. simpl. f_equal.
      destruct (Hok k x) as [t Ht]; [constructor|]. destruct (Hwf k x) as [??]; [constructor|].
      rewrite Ht. symmetry. apply (IH x y t); auto. apply (Hwf' k y). constructor.
    + apply IHF; intros; [eapply Hok|eapply Hwf|eapply Hwf']; by constructor.
Qed.

(** *** Normalization keeps dictionaries well formed *)
Definition str_dict (d : list (value * value)) : Prop :=
  NoDup d.*1 ∧ Forall (λ kx : value * value, wf kx.2) d ∧ ∃ ks, d.*1 = VStr <$> ks.

Lemma put_elem k v d kx :
  kx ∈ put k v d → kx = (VStr k, v) ∨ kx ∈ d.
Proof.
  induction d as [|[k' v'] d IH]; simpl.
  - intros ->%list_elem_of_singleton. by left.
  - destruct k'; try (rewrite !elem_of_cons; tauto).
    destruct (String.eqb k s); rewrite !elem_of_cons; tauto.
Qed.

Lemma put_keys k v d :
  str_dict d → (put k v d).*1 = d.*1 ∨ (VStr k ∉ d.*1 ∧ (put k v d).*1 = d.*1 ++ [VStr k]).
Proof.
  intros (_ & _ & ks & Hks). revert ks Hks. induction d as [|[k' v'] d IH]; intros ks Hks.
  - right. split; [apply not_elem_of_nil|done].
  - destruct ks as [|k0 ks]; [done|]. csimpl in Hks. injection Hks as -> Hks. simpl.
    destruct (String.eqb_spec k k0) as [->|Hk]; [by left|].
    destruct (IH ks Hks) as [E|[Hn E]]; csimpl.
    + left. by rewrite E.
    + right. rewrite E. split; [|done]. rewrite not_elem_of_cons. split; [congruence|done].
Qed.

Lemma put_str_dict k v d : wf v → str_dict d → str_dict (put k v d).
Proof.
  intros Hv Hd. pose proof (put_keys k v d Hd) as Hk. destruct Hd as (Hnd & Hwf & ks & Hks).
  split_and!.
  - destruct Hk as [->|[Hn ->]]; [done|]. apply NoDup_app. split_and!; [done| |apply NoDup_singleton].
    intros x Hx ->%list_elem_of_singleton. done.
  - rewrite Forall_forall in Hwf |- *. intros kx [->|Hin]%put_elem; [done|auto].
  - destruct Hk as [->|[Hn ->]]; [by exists ks|]. exists (ks ++ [k]). by rewrite fmap_app, Hks.
Qed.

Lemma str_dict_nil : str_dict [].
Proof. split_and!; [constructor|constructor|by exists []]. Qed.

Lemma str_dict_wf d : str_dict d → wf (VDict d).
Proof. intros (? & ? & _). by apply wf_dict. Qed.

(** The attributes, then the extra members, of a model. *)
Fixpoint put_fields (fields : list (string * string * bool * value)) (acc : list (value * value))
  : py (list (value * value)) :=
  match fields with
  | [] => Ok acc
  | (_, key, is_set, x) :: fields' =>
      if is_set || negb (is_none x)
      then x' ← normalized x; put_fields fields' (put key x' acc)
      else put_fields fields' acc
  end.

Fixpoint put_extra (extra : list (string * value)) (acc : list (value * value))
  : py (list (value * value)) :=
  match extra with
  | [] => Ok acc
  | (key, x) :: extra' => x' ← normalized x; put_extra extra' (put key x' acc)
  end.

Lemma normalized_model fields extra :
  normalized (VModel fields extra)
  = d ← put_fields fields []; d ← put_extra extra d; Ok (VDict d).
Proof. reflexivity. Qed.

Fixpoint value_depth (v : value) : nat :=
  match v with
  | VSecret x | VEnum x => S (value_depth x)
  | VModel fields extra =>
      S (list_sum (map (λ f, value_depth f.2) fields)
         + list_sum (map (λ f, value_depth f.2) extra))
  | VDict e => S (list_sum (map (λ f, value_depth f.2) e))
  | VList l | VTuple l => S (list_sum (map value_depth l))
  | _ => O
  end.

Definition normalizes_wf (v : value) : Prop := wf v → ∀ n, normalized v = Ok n → wf n.

Lemma put_fields_wf fields acc d :
  Forall (λ f : string * string * bool * value, normalizes_wf f.2 ∧ wf f.2) fields →
  str_dict acc → put_fields fields acc = Ok d → str_dict d.
Proof.
  intros Hf. revert acc. induction Hf as [|[[[n k] b] x] fields [Hx Hwx] Hf IH]; intros acc Hacc; simpl.
  - by intros [= <-].
  - destruct (b || _); [|by apply IH]. destruct (normalized x) as [x'|] eqn:E; simpl; [|done].
    apply IH, put_str_dict; [|done]. by apply (Hx Hwx).
Qed.

Lemma put_extra_wf extra acc d :
  Forall (λ f : string * value, normalizes_wf f.2 ∧ wf f.2) extra →
  str_dict acc → put_extra extra acc = Ok d → str_dict d.
Proof.
  intros Hf. revert acc. induction Hf as [|[k x] extra [Hx Hwx] Hf IH]; intros acc Hacc; simpl.
  - by intros [= <-].
  - destruct (normalized x) as [x'|] eqn:E; simpl; [|done].
    apply IH, put_str_dict; [|done]. by apply (Hx Hwx).
Qed.

Lemma wf_model fields extra :
  wf (VModel fields extra) ↔
  Forall (λ f : string * string * bool * value, wf f.2) fields
  ∧ Forall (λ f : string * value, wf f.2) extra.
Proof.
  simpl. f_equiv.
  - induction fields as [|[[[? ?] ?] x] l IH]; [split; [constructor|done]|].
    rewrite Forall_cons, <-IH. done.
  - induction extra as [|[? x] l IH]; [split; [constructor|done]|].
    rewrite Forall_cons, <-IH. done.
Qed.

Lemma normalized_wf_n n v : (value_depth v < n)%nat → normalizes_wf v.
Proof.
  revert v. induction n as [|n IH]; intros v Hn; [lia|]. intros Hv m.
  assert (∀ A (f : A → value) (l : list A), (list_sum (map (λ x, value_depth (f x)) l) < n)%nat →
    Forall (λ x, wf (f x)) l → Forall (λ x, normalizes_wf (f x) ∧ wf (f x)) l) as Hall.
  { intros A f l Hl. rewrite !Forall_forall. intros Hwf x Hx. split; [|auto].
    apply IH. pose proof (list_sum_elem (λ x, value_depth (f x)) x l Hx). simpl in *. lia. }
  assert (∀ l r, (list_sum (map value_depth l) < n)%nat → Forall wf l →
    (fix go (l : list value) : py (list value) :=
       match l with [] => Ok [] | x :: l' => x' ← normalized x; r ← go l'; Ok (x' :: r) end) l
    = Ok r → Forall wf r) as Hlist.
  { intros l. induction l as [|x l IHl]; intros r Hl Hwf; simpl; [by intros [= <-]|].
    apply Forall_cons in Hwf as [Hx Hwf]. simpl in Hl.
    destruct (normalized x) as [x'|] eqn:Ex; simpl; [|done].
    match goal with |- context [?g l] => destruct (g l) as [r'|] eqn:Er end; simpl; [|done].
    intros [= <-]. constructor; [|apply IHl; [lia|done..]].
    by apply (IH x ltac:(lia) Hx). }
  destruct v; try (intros [= <-]; done).
  - simpl. destruct (decode_utf8 s); simpl; [|done]. by intros [= <-].
  - apply (IH v). simpl in Hn. lia. done.
  - apply (IH v). simpl in Hn. lia. done.
  - rewrite normalized_model. apply wf_model in Hv as [Hf He]. simpl in Hn.
    destruct (put_fields fields []) as [d|] eqn:Ed; simpl; [|done].
    destruct (put_extra extra d) as [d'|] eqn:Ed'; simpl; [|done]. intros [= <-].
    apply str_dict_wf. eapply put_extra_wf; [|eapply put_fields_wf; [|apply str_dict_nil|done]|done].
    + apply (Hall _ snd); [lia|done].
    + apply (Hall _ snd); [lia|done].
  - apply wf_dict in Hv as [Hnd Hwf]. simpl in Hn. simpl.
    match goal with |- context [?g entries] => set (go := g) end.
    assert (∀ e d, (list_sum (map (λ f : value * value, value_depth f.2) e) < n)%nat →
      Forall (λ kx : value * value, wf kx.2) e → go e = Ok d →
      d.*1 = e.*1 ∧ Forall (λ kx : value * value, wf kx.2) d) as Hgo.
    { intros e. induction e as [|[k x] e IHe]; intros d He Hwe; simpl; [by intros [= <-]|].
      apply Forall_cons in Hwe as [Hx Hwe]. simpl in He, Hx.
      destruct (normalized x) as [x'|] eqn:Ex; simpl; [|done].
      destruct (go e) as [d'|] eqn:Ed; simpl; [|done]. intros [= <-].
      destruct (IHe d' ltac:(lia) Hwe eq_refl) as [E1 E2]. csimpl. rewrite E1.
      split; [done|]. constructor; [|done]. by apply (IH x ltac:(lia) Hx). }
    destruct (go entries) as [d|] eqn:Ed; simpl; [|done]. intros [= <-].
    destruct (Hgo entries d ltac:(lia) Hwf Ed) as [E1 E2]. apply wf_dict. by rewrite E1.
  - simpl. match goal with |- context [?g l] => destruct (g l) as [r|] eqn:Er end; simpl; [|done].
    intros [= <-]. apply wf_list. apply wf_list in Hv. simpl in Hn. by eapply Hlist; [|done|exact Er]; lia.
  - simpl. match goal with |- context [?g l] => destruct (g l) as [r|] eqn:Er end; simpl; [|done].
    intros [= <-]. apply wf_list. change (wf (VList l)) in Hv. apply wf_list in Hv. simpl in Hn.
    by eapply Hlist; [|done|exact Er]; lia.
Qed.

Lemma normalized_wf v n : wf v → normalized v = Ok n → wf n.
Proof. intros Hv. by apply (normalized_wf_n (S (value_depth v))); [lia|]. Qed.

(** ** Properties *)

(** [C5] Fingerprints identify inputs: two inputs the encoder accepts have the same
    canonical text exactly when, once normalized, they are the same up to the order of
    object members and the notation of numbers (1, 1.0 and 1e0 agree; omitted and null
    members, and different amounts however close, do not); so, unless these two texts
    collide under SHA-256, exactly those inputs have the same digest. *)
Theorem fingerprint_identifies_input v w n m a b :
  wf v → wf w → normalized v = Ok n → normalized w = Ok m →
  _encode n = Ok a → _encode m = Ok b →
  (a = b ↔ same n m) ∧
  ((sha256_hexdigest a = sha256_hexdigest b → a = b) → (digest v = digest w ↔ same n m)).
Proof.
  intros Hv Hw Hn Hm Ha Hb.
  assert (a = b ↔ same n m) as Hab.
  { split.
    - intros ->. apply (encode_inj_n (S (vsize n)) n m b b "" ""); [lia|done..].
    - intros Hs. pose proof (same_encode_n (S (vsize n)) n m a ltac:(lia)
        (normalized_wf v n Hv Hn) (normalized_wf w m Hw Hm) Hs Ha) as E. congruence. }
  split; [done|]. intros Hcoll. rewrite <-Hab. unfold digest, canonical.
  rewrite Hn, Hm. simpl. rewrite Ha, Hb. simpl. split; [|by intros ->].
  intros [= E]. auto.
Qed.

Definition text_of (v : value) : string := match _encode v with Ok s => s | Err _ => "" end.

Definition demo_input : value := VDict [(VStr "b", VNone); (VStr "a", VInt 100)].
Definition demo_input' : value :=
  VDict [(VStr "a", VFloat (DFinite false 1000 (-1))); (VStr "b", VNone)].

Lemma demo_wf x y : wf x → wf y → wf (VDict [(VStr "b", x); (VStr "a", y)])
  ∧ wf (VDict [(VStr "a", x); (VStr "b", y)]).
Proof.
  intros Hx Hy. split; apply wf_dict; (split; [|by repeat constructor]);
    (constructor; [by intros H%list_elem_of_singleton|apply NoDup_singleton]).
Qed.

Lemma fingerprint_identifies_input_witness :
  digest demo_input = digest demo_input' ∧ ¬ same (VList [VNone]) (VList []).
Proof.
  split.
  - refine (proj2 (proj2 (fingerprint_identifies_input demo_input demo_input'
      demo_input demo_input' (text_of demo_input) (text_of demo_input')
      (proj1 (demo_wf VNone (VInt 100) I I)) (proj2 (demo_wf (VFloat _) VNone I I))
      eq_refl eq_refl eq_refl eq_refl) (λ _, eq_refl)) _).
    apply (same_dict _ _ [("b", VNone); ("a", VInt 100)]
      [("a", VFloat (DFinite false 1000 (-1))); ("b", VNone)]
      [("b", VNone); ("a", VFloat (DFinite false 1000 (-1)))]); [reflexivity..|apply perm_swap|].
    constructor; [split; [reflexivity|apply same_scalar]|].
    constructor; [|constructor]. split; [reflexivity|].
    by apply (same_number _ _ (DFinite false 100 0) (DFinite false 1000 (-1))).
  - intros Hs. pose proof (proj2 (proj1 (fingerprint_identifies_input
      (VList [VNone]) (VList []) (VList [VNone]) (VList []) "[null]" "[]"
      (conj I I) I eq_refl eq_refl eq_refl eq_refl)) Hs) as E. discriminate E.
Defined.
