(* ===== verification/Models.v ===== *)
(** * Request models

    [app/common/models/price_model.py], [version_model.py], [parameters_model.py],
    [pagination.py] and the item models of [app/api/v1/items/models].  A model's
    declared constraints are read as Pydantic documents them: lengths in code points,
    inclusive bounds, unknown members ignored, every field checked before the model
    validators run. *)
From S2P Require Import Prelude PyText Values.
Open Scope Z_scope.

(** ** Price *)
Definition cents (n : Z) : decimal := DFinite false (Z.to_N n) (-2).
Definition MIN_PRICE : decimal := cents 1.
Definition MAX_PRICE : decimal := cents 9999999999.

(** The leading digits of a text, and the rest. *)
Fixpoint span_digits (s : string) : string * string :=
  match s with
  | EmptyString => (EmptyString, EmptyString)
  | String c s' =>
      if is_digit c then let '(ds, r) := span_digits s' in (String c ds, r)
      else (EmptyString, s)
  end.

Fixpoint digits_value (acc : N) (s : string) : N :=
  match s with
  | EmptyString => acc
  | String c s' => digits_value (10 * acc + Z.to_N (digit_value c)) s'
  end.

(** [re.fullmatch(PRICE_PATTERN, s)]: the integer and the fractional digits. *)
Definition PRICE_PATTERN (s : string) : option (string * string) :=
  let '(whole, rest) := span_digits s in
  if String.eqb whole "" then None
  else match rest with
  | EmptyString => Some (whole, EmptyString)
  | String c frac =>
      if Ascii.eqb c "."%char && str_all is_digit frac
         && (1 <=? blen frac) && (blen frac <=? 2)
      then Some (whole, frac) else None
  end.

(** [Decimal(s)] of a plain digit string. *)
Definition Decimal_of_plain (whole frac : string) : decimal :=
  DFinite false (digits_value 0 (whole +:+ frac)) (- blen frac).

Definition price_of (v : value) : py decimal :=
  match v with
  | VStr s =>
      match PRICE_PATTERN s with
      | None => Err (PydanticError "price_format"
          "Price must be an unsigned plain decimal string with at most two decimal places")
      | Some (whole, frac) => Ok (Decimal_of_plain whole frac)
      end
  | VInt z => int_to_decimal z
  | VFloat d | VDecimal d => Ok d
  | _ => Err (PydanticError "price_type"
                "Price must be a number or unsigned plain decimal string")
  end.

Definition validate_price (v : value) : py decimal :=
  price ← price_of v;
  if negb (is_finite price) || negb (decimal_le MIN_PRICE price && decimal_le price MAX_PRICE)
  then Err (PydanticError "price_range" "Price must be between 0.01 and 99999999.99")
  else
  c ← quantize 10 price (-2);
  if negb (decimal_eq price c)
  then Err (PydanticError "price_precision" "Price must have at most two decimal places")
  else Ok c.

(** ** Version *)
Definition MAX_VERSION : Z := 4294967295.

Definition normalize_revision_number (v : value) : value :=
  match v with
  | VFloat d => if dec_is_integer d then VInt (dec_to_int d) else v
  | _ => v
  end.

(** [Annotated[int, BeforeValidator(...), Field(strict=True, ge=1, le=MAX_VERSION)]] *)
Definition validate_version (v : value) : py Z :=
  match normalize_revision_number v with
  | VInt z =>
      if z <? 1 then Err (PydanticError "greater_than_equal" "ge 1")
      else if MAX_VERSION <? z then Err (PydanticError "less_than_equal" "le MAX_VERSION")
      else Ok z
  | _ => Err (PydanticError "int_type" "strict integer")
  end.

(** ** Entity identifiers *)
Definition alphanumeric (c : ascii) : bool :=
  is_digit c || is_upper_alpha c || is_lower_alpha c.

Definition EntityId (s : string) : bool := str_all alphanumeric s && (blen s =? 16).

(** ** Pagination *)
Definition MAX_SAFE_INTEGER : Z := 9007199254740991.

Inductive SortOrder := asc | desc.
Inductive ItemSort := CREATED_AT | ITEM_NAME | PRICE.

#[export] Instance SortOrder_eq_dec : EqDecision SortOrder.
Proof. solve_decision. Defined.
#[export] Instance ItemSort_eq_dec : EqDecision ItemSort.
Proof. solve_decision. Defined.

Definition normalize_order (v : value) : value :=
  match v with VStr s => VStr (lower s) | _ => v end.

Definition validate_order (v : value) : py SortOrder :=
  match normalize_order v with
  | VStr s =>
      if String.eqb s "asc" then Ok asc
      else if String.eqb s "desc" then Ok desc
      else Err (PydanticError "literal_error" "asc or desc")
  | _ => Err (PydanticError "literal_error" "asc or desc")
  end.

Record PaginationQuery := mkPaginationQuery {
  page : Z;
  limit : Z;
  order : SortOrder;
  search : option string
}.

Definition offset (q : PaginationQuery) : Z := (page q - 1) * limit q.

Definition validate_offset (q : PaginationQuery) : py PaginationQuery :=
  if MAX_SAFE_INTEGER <? offset q
  then Err (ValueError "Pagination offset exceeds the maximum safe integer")
  else Ok q.

(** The declared bounds, then the model validator. *)
Definition new_PaginationQuery (page limit : Z) (order : value) (search : option string)
  : py PaginationQuery :=
  if (page <? 1) || (MAX_SAFE_INTEGER <? page)
  then Err (PydanticError "page" "1 to MAX_SAFE_INTEGER")
  else if (limit <? 1) || (100 <? limit)
  then Err (PydanticError "limit" "1 to 100")
  else
  order ← validate_order order;
  validate_offset (mkPaginationQuery page limit order search).

Record ItemPaginationQuery := mkItemPaginationQuery {
  base_query : PaginationQuery;
  sort : ItemSort;
  min_price : option decimal;
  max_price : option decimal
}.

Definition validate_price_range (q : ItemPaginationQuery) : py ItemPaginationQuery :=
  match min_price q, max_price q with
  | Some a, Some b =>
      if negb (decimal_le a b) then Err (ValueError "min_price cannot exceed max_price.")
      else Ok q
  | _, _ => Ok q
  end.

Definition validate_sort (v : value) : py ItemSort :=
  match v with
  | VStr s =>
      if String.eqb s "name" then Ok ITEM_NAME
      else if String.eqb s "price" then Ok PRICE
      else if String.eqb s "createdAt" then Ok CREATED_AT
      else Err (PydanticError "literal_error" "name, price or createdAt")
  | _ => Err (PydanticError "literal_error" "name, price or createdAt")
  end.

(** An optional member: absent or null gives the default. *)
Definition optional_price (v : option value) : py (option decimal) :=
  match v with
  | None | Some VNone => Ok None
  | Some v => d ← validate_price v; Ok (Some d)
  end.

Definition new_ItemPaginationQuery (page limit : Z) (order sort : value)
    (search : option string) (min_price max_price : option value)
  : py ItemPaginationQuery :=
  q ← new_PaginationQuery page limit order search;
  sort ← validate_sort sort;
  min_price ← optional_price min_price;
  max_price ← optional_price max_price;
  validate_price_range (mkItemPaginationQuery q sort min_price max_price).

Record PaginatedResult (T : Type) := mkPaginatedResult {
  pr_data : list T;
  pr_total : Z;
  pr_page : Z;
  pr_limit : Z
}.
Arguments mkPaginatedResult {T}.
Arguments pr_data {T}.
Arguments pr_total {T}.
Arguments pr_page {T}.
Arguments pr_limit {T}.

Definition total_pages {T} (r : PaginatedResult T) : Z :=
  if pr_limit r =? 0 then 1
  else Z.max ((pr_total r + pr_limit r - 1) / pr_limit r) 1.

(** ** Item bodies *)

(** Every failing field is reported: its name and the kind of failure. *)
Abbreviation checked A := (result (list (string * string)) A) (only parsing).

Definition both {A B} (a : checked A) (b : checked B) : checked (A * B) :=
  match a, b with
  | Ok x, Ok y => Ok (x, y)
  | Err e, Ok _ | Ok _, Err e => Err e
  | Err e, Err e' => Err (e ++ e')
  end.

Definition field_error {A} (name kind : string) : checked A := Err [(name, kind)].

Definition error_kind (e : exn) : string :=
  match e with PydanticError kind _ => kind | _ => "value_error" end.

Definition member (name : string) (body : list (string * value)) : option value :=
  assoc_get name body.

(** A required member through a field validator. *)
Definition required {A} (name : string) (validate : value → py A)
    (body : list (string * value)) : checked A :=
  match member name body with
  | None => field_error name "missing"
  | Some v =>
      match validate v with Ok a => Ok a | Err e => field_error name (error_kind e) end
  end.

(** [Field(min_length=lo, max_length=hi)] on [str]. *)
Definition bounded_str (lo hi : Z) (v : value) : py string :=
  match v with
  | VStr s =>
      if ulen s <? lo then Err (PydanticError "string_too_short" "min_length")
      else if hi <? ulen s then Err (PydanticError "string_too_long" "max_length")
      else Ok s
  | _ => Err (PydanticError "string_type" "str")
  end.

Definition validate_name : value → py string := bounded_str 1 120.

(** [str | None] with a maximum length. *)
Definition validate_description (v : value) : py (option string) :=
  match v with
  | VNone => Ok None
  | _ => s ← bounded_str 0 500 v; Ok (Some s)
  end.

(** An optional member: [None] when it is not in [model_fields_set]. *)
Definition if_set {A} (name : string) (validate : value → py A)
    (body : list (string * value)) : checked (option A) :=
  match member name body with
  | None => Ok None
  | Some v =>
      match validate v with
      | Ok a => Ok (Some a) | Err e => field_error name (error_kind e)
      end
  end.

(** [ItemBase]: the description is [None] when it was not given. *)
Record ItemBase := mkItemBase {
  ib_name : string;
  ib_price : decimal;
  ib_description : option (option string)
}.

Definition new_ItemBase (body : list (string * value)) : checked ItemBase :=
  '(name, (price, description)) ←
    both (required "name" validate_name body)
      (both (required "price" validate_price body)
         (if_set "description" validate_description body));
  Ok (mkItemBase name price description).

Definition VersionInput (body : list (string * value)) : checked Z :=
  required "expected_version" validate_version body.

(** [ReplaceItemRequest(ItemBase, VersionInput)] *)
Definition ReplaceItemRequest (body : list (string * value)) : checked (Z * ItemBase) :=
  both (VersionInput body) (new_ItemBase body).

(** [UpdateItemRequest]: the members that were given. *)
Record UpdateItemRequest := mkUpdateItemRequest {
  up_expected_version : Z;
  up_name : option string;
  up_price : option decimal;
  up_description : option (option string)
}.

Definition reject_explicit_nulls {A} (validate : value → py A) (v : value) : py A :=
  if is_none v
  then Err (PydanticError "null_forbidden"
              "Field cannot be null (omit the field to skip updating it)")
  else validate v.

Definition reject_empty_payload (u : UpdateItemRequest) : checked UpdateItemRequest :=
  match up_name u, up_price u, up_description u with
  | None, None, None => field_error "" "empty_body"
  | _, _, _ => Ok u
  end.

Definition new_UpdateItemRequest (body : list (string * value))
  : checked UpdateItemRequest :=
  '(version, (name, (price, description))) ←
    both (VersionInput body)
      (both (if_set "name" (reject_explicit_nulls validate_name) body)
        (both (if_set "price" (reject_explicit_nulls validate_price) body)
          (if_set "description" validate_description body)));
  reject_empty_payload (mkUpdateItemRequest version name price description).

(** What the endpoint fingerprints: the validated model, field by field, with its
    [model_fields_set]. *)
Definition opt_str (d : option string) : value :=
  match d with Some s => VStr s | None => VNone end.

Definition is_set {A} (o : option A) : bool := match o with Some _ => true | None => false end.

Definition ItemBase_fields (b : ItemBase) : list (string * string * bool * value) :=
  [("name", "name", true, VStr (ib_name b));
   ("price", "price", true, VDecimal (ib_price b));
   ("description", "description", is_set (ib_description b),
      opt_str (default None (ib_description b)))].

Definition ItemBase_value (b : ItemBase) : value := VModel (ItemBase_fields b) [].

Definition VersionInput_value (version : Z) : value :=
  VModel [("expected_version", "expected_version", true, VInt version)] [].

Definition ReplaceItemRequest_value (r : Z * ItemBase) : value :=
  VModel (("expected_version", "expected_version", true, VInt r.1)
          :: ItemBase_fields r.2) [].

Definition UpdateItemRequest_value (u : UpdateItemRequest) : value :=
  VModel
    [("expected_version", "expected_version", true, VInt (up_expected_version u));
     ("name", "name", is_set (up_name u),
        match up_name u with Some s => VStr s | None => VNone end);
     ("price", "price", is_set (up_price u),
        match up_price u with Some d => VDecimal d | None => VNone end);
     ("description", "description", is_set (up_description u),
        opt_str (default None (up_description u)))] [].

(** ** Lemmas *)

(** Exactly [n] cents. *)
Definition is_cents (d : decimal) (n : Z) : Prop :=
  1 ≤ n ≤ 9999999999 ∧ decimal_eq d (cents n) = true.

Lemma scaled_cents n e : 0 ≤ n → scaled false (Z.to_N n) (-2) e = n * 10 ^ (-2 - e).
Proof. intros. unfold scaled, signed. by rewrite Z2N.id. Qed.

Lemma dec_eq_cents neg c x n e :
  0 ≤ n → decimal_eq (DFinite neg c x) (cents n) = true → e ≤ x → e ≤ -2 →
  scaled neg c x e = n * 10 ^ (-2 - e).
Proof.
  intros Hn Heq Hx He. unfold cents in Heq. rewrite dec_eq_spec in Heq.
  by rewrite (Heq e Hx He), scaled_cents.
Qed.

(** A finite decimal in the price range has a coefficient that quantizes to at most ten
    digits: [quantize] answers. *)
Lemma quantize_price d :
  is_finite d = true → decimal_le MIN_PRICE d = true → decimal_le d MAX_PRICE = true →
  ∃ n, quantize 10 d (-2) = Ok (cents n) ∧ 0 ≤ n ≤ 9999999999
    ∧ (∀ m, is_cents d m → n = m).
Proof.
  destruct d as [neg c x| |]; try done. intros _.
  unfold decimal_le, decimal_compare, MIN_PRICE, MAX_PRICE, cents.
  rewrite !Z.leb_le, (Z.min_comm x (-2)).
  rewrite !scaled_cents by lia. set (e := Z.min (-2) x) in *.
  unfold scaled. intros Hlo Hhi. unfold quantize.
  assert (0 < 10 ^ (-2 - e)) by (apply Z.pow_pos_nonneg; lia).
  assert (0 < 10 ^ (x - e)) by (apply Z.pow_pos_nonneg; lia).
  assert (neg = false) as -> by (destruct neg; [simpl in Hlo; nia|done]).
  simpl signed in *.
  set (n := if -2 <=? x then _ else _).
  assert (0 ≤ n ≤ 9999999999) as Hn.
  { subst n. destruct (Z.leb_spec (-2) x).
    - assert (e = -2) as Ee by lia. rewrite Ee in *. simpl in Hhi. nia.
    - assert (e = x) as Ee by lia. rewrite Ee in *. rewrite Z.sub_diag in *. simpl in Hhi.
      apply div_half_even_bounds; [done|]. lia. }
  exists n. split_and!; [|lia..|].
  - destruct (Z.leb_spec (10 ^ 10) n) as [Hb|_]; [|done].
    change (10 ^ 10) with 10000000000 in Hb. lia.
  - intros m [Hm Heq]. apply dec_eq_cents with (e := e) in Heq; [|lia..].
    unfold scaled in Heq. simpl signed in Heq.
    subst n. destruct (Z.leb_spec (-2) x).
    + assert (e = -2) as Ee by lia. rewrite Ee in *. simpl in Heq. lia.
    + assert (e = x) as Ee by lia. rewrite Ee, Z.sub_diag in *. simpl in Heq.
      replace (Z.of_N c) with (m * 10 ^ (-2 - x)) by lia. by apply div_half_even_exact.
Qed.

Lemma cents_in_range d n :
  is_cents d n → is_finite d = true ∧ decimal_le MIN_PRICE d = true ∧ decimal_le d MAX_PRICE = true.
Proof.
  destruct d as [neg c x| |]; [|by intros [_ ?]..]. intros [Hn Heq].
  apply dec_eq_cents with (e := Z.min (-2) x) in Heq; [|lia..].
  unfold decimal_le, decimal_compare, MIN_PRICE, MAX_PRICE, cents.
  rewrite !Z.leb_le, (Z.min_comm x (-2)), Heq, !scaled_cents by lia.
  set (e := Z.min (-2) x).
  assert (0 < 10 ^ (-2 - e)) by (apply Z.pow_pos_nonneg; lia).
  split_and!; [done|nia..].
Qed.

Lemma cents_eq n : decimal_eq (cents n) (cents n) = true.
Proof. by apply dec_eq_spec. Qed.

Lemma cents_at_least_one p n :
  0 ≤ n ≤ 9999999999 → decimal_le MIN_PRICE p = true → decimal_eq p (cents n) = true → is_cents p n.
Proof.
  intros Hn Hle He. split; [|done]. split; [|lia].
  destruct (decide (n = 0)) as [->|]; [|lia]. destruct p as [neg c x| |]; [|done..].
  apply dec_eq_cents with (e := Z.min (-2) x) in He; [|lia..].
  unfold decimal_le, decimal_compare, MIN_PRICE, cents in Hle. apply Z.leb_le in Hle.
  rewrite He, (scaled_cents 1) in Hle by lia.
  assert (0 < 10 ^ (-2 - Z.min (-2) x)) by (apply Z.pow_pos_nonneg; lia). nia.
Qed.

(** [C31] Prices are exact: a value is accepted exactly when it denotes (as a number, or as
    an unsigned plain decimal text) a whole number of cents from 1 to 9999999999, and the
    result is that number of cents with two decimal places — nothing is ever rounded.
    Every other value is refused with a validation error, never with a decimal
    exception. *)
Theorem validate_price_exact v :
  (∀ d, validate_price v = Ok d ↔
     ∃ p n, price_of v = Ok p ∧ is_cents p n ∧ d = cents n) ∧
  (∀ e, validate_price v = Err e →
     (∃ kind msg, e = PydanticError kind msg) ∨ (∃ msg, e = ValueError msg)).
Proof.
  unfold validate_price. destruct (price_of v) as [p|e0] eqn:Hp; simpl.
  2:{ split; [intros d; split; [done|intros (p & n & [=] & _)]|].
      intros e [= <-].
      destruct v as [| |z| | |s| | | | | | | | | |]; simpl in Hp; simplify_eq; eauto.
      - unfold int_to_decimal in Hp. destruct (_ <=? _); simplify_eq; eauto.
      - destruct (PRICE_PATTERN s) as [[]|]; simplify_eq; eauto. }
  destruct (negb (is_finite p) || _) eqn:Hr.
  { split; [|intros e [= <-]; eauto].
    intros d. split; [done|]. intros (p' & n & [= <-] & Hc & _).
    apply cents_in_range in Hc as (H1 & H2 & H3). by rewrite H1, H2, H3 in Hr. }
  reflect_bools. destruct (quantize_price p) as (n & -> & Hn & Huniq); [done..|]. simpl.
  destruct (decimal_eq p (cents n)) eqn:He; simpl.
  - split; [|done]. intros d. split.
    + intros [= <-]. exists p, n. eauto using cents_at_least_one.
    + intros (p' & m & [= <-] & Hc & ->). by rewrite (Huniq m Hc).
  - split; [|intros e [= <-]; eauto]. intros d. split; [done|].
    intros (p' & m & [= <-] & Hc & ->). rewrite (Huniq m Hc) in He.
    by destruct Hc as [_ Hc]; rewrite Hc in He.
Qed.

Definition price_example (neg : bool) (c : N) (x : Z) : value := VDecimal (DFinite neg c x).

Lemma validate_price_exact_witness :
  validate_price (VStr "01.20") = Ok (cents 120) ∧
  (∃ kind msg, validate_price (VFloat (DFinite false 1001 (-3))) = Err (PydanticError kind msg)).
Proof.
  split.
  - apply (validate_price_exact (VStr "01.20")). exists (DFinite false 120 (-2)), 120.
    split_and!; [reflexivity|split; [lia|reflexivity]|reflexivity].
  - destruct (proj2 (validate_price_exact (VFloat (DFinite false 1001 (-3)))) _ eq_refl)
      as [(k & m & E)|(m & E)]; [|discriminate E].
    exists k, m. rewrite <-E. reflexivity.
Defined.

(** The accepted and refused amounts of the repository's own price tests. *)
Example price_vectors :
  forallb (λ v, is_ok (validate_price v))
    [VFloat (DFinite false 1 (-2)); VInt 1; VFloat (DFinite false 12 (-1));
     VFloat (DFinite false 9999999999 (-2)); VStr "0.01"; VStr "1"; VStr "1.2"; VStr "01.20";
     VStr "00000099.99"; price_example false 12300 (-4); VFloat (DFinite false 1 2)] = true ∧
  existsb (λ v, is_ok (validate_price v))
    [VNone; VBool true; VList []; VDict []; VBytes "1.23"; VInt 0; VInt (-1);
     VFloat (DFinite false 1 (-3)); VInt 100000000; VFloat (DFinite false 30000000000000004 (-17));
     VFloat DNaN; VFloat (DInfinity false); VStr ""; VStr " 1"; VStr "1 "; VStr "+1"; VStr "-1";
     VStr "1e2"; VStr "1."; VStr ".01"; VStr "1.230"; VStr "NaN"; VStr "1_000";
     VStr ("1.00" +:+ String "010"%char ""); price_example false 1 100;
     price_example false 1000000000000000000000001 (-24)] = false.
Proof. split; vm_compute; reflexivity. Qed.

(** ** What an accepted body guarantees *)
Definition name_ok (s : string) : Prop := 1 ≤ ulen s ≤ 120.
Definition price_ok (d : decimal) : Prop := ∃ n, 1 ≤ n ≤ 9999999999 ∧ d = cents n.
Definition version_ok (z : Z) : Prop := 1 ≤ z ≤ MAX_VERSION.
Definition description_ok (d : option string) : Prop :=
  match d with Some s => ulen s ≤ 500 | None => True end.

Definition ItemBase_ok (b : ItemBase) : Prop :=
  name_ok (ib_name b) ∧ price_ok (ib_price b) ∧ description_ok (default None (ib_description b)).

Definition UpdateItemRequest_ok (u : UpdateItemRequest) : Prop :=
  version_ok (up_expected_version u)
  ∧ (∀ s, up_name u = Some s → name_ok s)
  ∧ (∀ d, up_price u = Some d → price_ok d)
  ∧ (∀ d, up_description u = Some d → description_ok d)
  ∧ (up_name u ≠ None ∨ up_price u ≠ None ∨ up_description u ≠ None).

Lemma both_ok {A B} (a : checked A) (b : checked B) x y :
  both a b = Ok (x, y) → a = Ok x ∧ b = Ok y.
Proof. destruct a, b; simpl; intros [= -> ->]; auto. Qed.

Lemma required_ok {A} name (validate : value → py A) body a :
  required name validate body = Ok a → ∃ v, member name body = Some v ∧ validate v = Ok a.
Proof.
  unfold required, field_error. destruct (member name body) as [v|]; [|done].
  destruct (validate v) eqn:E; [|done]. intros [= ->]. eauto.
Qed.

Lemma if_set_ok {A} name (validate : value → py A) body o :
  if_set name validate body = Ok o →
  (member name body = None ∧ o = None)
  ∨ ∃ v a, member name body = Some v ∧ validate v = Ok a ∧ o = Some a.
Proof.
  unfold if_set, field_error. destruct (member name body) as [v|].
  - destruct (validate v) eqn:E; [|done]. intros [= <-]. right. eauto.
  - intros [= <-]. by left.
Qed.

Lemma bounded_str_ok lo hi v s :
  bounded_str lo hi v = Ok s → v = VStr s ∧ lo ≤ ulen s ≤ hi.
Proof.
  destruct v; simpl; try done. destruct (Z.ltb_spec (ulen s0) lo); [done|].
  destruct (Z.ltb_spec hi (ulen s0)); [done|]. intros [= ->]. split; [done|lia].
Qed.

Lemma validate_description_ok v d :
  validate_description v = Ok d → description_ok d ∧ v = opt_str d.
Proof.
  destruct v; simpl; try done; [by intros [= <-]|].
  destruct (Z.ltb_spec (ulen s) 0); [done|].
  destruct (Z.ltb_spec 500 (ulen s)); [done|]. intros [= <-]. split; [simpl; lia|done].
Qed.

Lemma validate_price_ok v d : validate_price v = Ok d → price_ok d.
Proof.
  unfold validate_price. destruct (price_of v) as [p|]; simpl; [|done].
  destruct (negb (is_finite p) || _) eqn:Hr; [done|]. reflect_bools.
  destruct (quantize_price p) as (n & -> & Hn & _); [done..|]. simpl.
  destruct (decimal_eq p (cents n)) eqn:He; simpl; [|done]. intros [= <-]. exists n.
  split; [|done]. by eapply cents_at_least_one.
Qed.

Lemma validate_version_ok v z : validate_version v = Ok z → version_ok z.
Proof.
  unfold validate_version, version_ok. destruct (normalize_revision_number v); try done.
  destruct (Z.ltb_spec z0 1); [done|]. destruct (Z.ltb_spec MAX_VERSION z0); [done|].
  intros [= <-]. lia.
Qed.

Lemma new_ItemBase_ok body b : new_ItemBase body = Ok b → ItemBase_ok b.
Proof.
  unfold new_ItemBase. destruct (both _ _) as [[n [p d]]|] eqn:E; simpl; [|done].
  intros [= <-]. apply both_ok in E as [Hn E]. apply both_ok in E as [Hp Hd].
  apply required_ok in Hn as (v & _ & Hn). apply bounded_str_ok in Hn as [_ Hn].
  apply required_ok in Hp as (w & _ & Hp). apply validate_price_ok in Hp.
  split_and!; [exact Hn|exact Hp|]. simpl.
  apply if_set_ok in Hd as [[_ ->]|(x & a & _ & Hx & ->)]; [done|].
  by apply validate_description_ok in Hx as [? _].
Qed.

Lemma ReplaceItemRequest_ok body r :
  ReplaceItemRequest body = Ok r → version_ok r.1 ∧ ItemBase_ok r.2.
Proof.
  destruct r as [z b]. unfold ReplaceItemRequest. intros [Hv Hb]%both_ok.
  apply required_ok in Hv as (v & _ & Hv). eauto using validate_version_ok, new_ItemBase_ok.
Qed.

Lemma VersionInput_ok body z : VersionInput body = Ok z → version_ok z.
Proof. intros (v & _ & Hv)%required_ok. eauto using validate_version_ok. Qed.

Lemma reject_explicit_nulls_ok {A} (validate : value → py A) v a :
  reject_explicit_nulls validate v = Ok a → v ≠ VNone ∧ validate v = Ok a.
Proof. unfold reject_explicit_nulls. by destruct v. Qed.

Lemma new_UpdateItemRequest_ok body u :
  new_UpdateItemRequest body = Ok u → UpdateItemRequest_ok u.
Proof.
  unfold new_UpdateItemRequest. destruct (both _ _) as [[z [n [p d]]]|] eqn:E; simpl; [|done].
  apply both_ok in E as [Hz E]. apply both_ok in E as [Hn E]. apply both_ok in E as [Hp Hd].
  apply required_ok in Hz as (v & _ & Hz). apply validate_version_ok in Hz.
  intros Hu. assert (u = mkUpdateItemRequest z n p d) as ->
    by (unfold reject_empty_payload, field_error in Hu; simpl in Hu; destruct n, p, d; congruence).
  split_and!; simpl; [done|..].
  - intros s ->. apply if_set_ok in Hn as [[_ ?]|(x & a & _ & Hx & [= ->])]; [done|].
    apply reject_explicit_nulls_ok in Hx as [_ Hx]. by apply bounded_str_ok in Hx as [_ ?].
  - intros s ->. apply if_set_ok in Hp as [[_ ?]|(x & a & _ & Hx & [= ->])]; [done|].
    apply reject_explicit_nulls_ok in Hx as [_ Hx]. by apply validate_price_ok in Hx.
  - intros s ->. apply if_set_ok in Hd as [[_ ?]|(x & a & _ & Hx & [= ->])]; [done|].
    by apply validate_description_ok in Hx as [? _].
  - unfold reject_empty_payload in Hu. simpl in Hu. destruct n, p, d; auto; done.
Qed.

#[export] Hint Resolve validate_price_ok validate_version_ok new_ItemBase_ok
  new_UpdateItemRequest_ok VersionInput_ok : quickapi.
