(* ===== verification/Database.v ===== *)
(** * Sessions, transactions and request activity

    The database as the mutation path uses it: the two tables
    ([app/database/entities]), a session that begins, works on its own view and commits
    or rolls back ([app/config/database.py]), MySQL's named locks, and the request's
    activity ([app/common/handlers/request_activity.py]).

    A program of this file is a function of the [world]; every statement may fail: the
    world carries a schedule of faults (a driver error, a cancellation), of clock
    readings and of abandonments (a disconnect seen by the transport), one per await
    point, and the theorems quantify over all schedules. *)
From S2P Require Import Prelude PyText Values Models.
Open Scope Z_scope.

(** ** Tables *)

(** [ItemORM] *)
Record item := mkItem {
  it_id : string;
  it_version : Z;
  it_name : string;
  it_price : decimal;
  it_description : option string;
  it_created_at : Z;
  it_updated_at : Z
}.

#[export] Instance item_eq_dec : EqDecision item.
Proof. solve_decision. Defined.

(** [IdempotencyORM.state] *)
Inductive claim_state := processing | completed.

#[export] Instance claim_state_eq_dec : EqDecision claim_state.
Proof. solve_decision. Defined.

(** [IdempotencyORM] *)
Record claim := mkClaim {
  cl_namespace : string;
  cl_caller_scope : string;
  cl_operation : string;
  cl_route : string;
  cl_fingerprint : string;
  cl_state : claim_state;
  cl_response_status : option Z;
  cl_response_body : option string;
  cl_completed_at : option Z;
  cl_expires_at : option Z
}.

#[export] Instance claim_eq_dec : EqDecision claim.
Proof. solve_decision. Defined.

Record db := mkDb {
  db_items : gmap string item;
  db_claims : gmap string claim
}.

Definition set_items (m : gmap string item) (d : db) : db := mkDb m (db_claims d).
Definition set_claims (m : gmap string claim) (d : db) : db := mkDb (db_items d) m.

(** ** Request activity *)
Record RequestActivity := mkActivity {
  expires_at : option Z;               (* None: float('inf') *)
  abandoned : option string;
  owns_mutation : bool
}.

Definition RESPONSE_DEADLINE_MESSAGE : string := "Application response deadline exceeded.".

Definition abandon (reason : string) (a : RequestActivity) : RequestActivity :=
  match abandoned a with
  | None => mkActivity (expires_at a) (Some reason) (owns_mutation a)
  | Some _ => a
  end.

Definition request_expired (detail : string) : exn := HTTPException RequestExpired 408 detail [].

(** [assert_active] at a clock reading. *)
Definition activity_assert (now : Z) (a : RequestActivity) : py unit * RequestActivity :=
  match abandoned a with
  | Some reason => (Err (request_expired reason), a)
  | None =>
      match expires_at a with
      | Some t =>
          if t <=? now
          then (Err (request_expired RESPONSE_DEADLINE_MESSAGE),
                abandon RESPONSE_DEADLINE_MESSAGE a)
          else (Ok tt, a)
      | None => (Ok tt, a)
      end
  end.

(** ** The world of one request *)

(** A session: no transaction, one that was begun but has not reached the database, or
    one with its view of the tables. *)
Inductive tx_state :=
| NoTransaction
| Begun
| Working (view : db).

Inductive commit_outcome :=
| CommitDone
| CommitFailed (applied : bool) (e : exn).

(** What happens at one await point. *)
Record event := mkEvent {
  ev_now : Z;                          (* time.monotonic() *)
  ev_abandon : option string;          (* the transport abandons the request *)
  ev_fault : option exn;               (* the statement, if one runs here, fails *)
  ev_applied : bool;                   (* ... after the server ran it (named locks) *)
  ev_lock_failed : bool;               (* GET_LOCK or RELEASE_LOCK answers NULL *)
  ev_commit : commit_outcome           (* the COMMIT, if one runs here *)
}.

(** The state of [IdempotencyExecution]: [key] and [policy] are fixed by the request. *)
Record IdempotencyExecution := mkExecution {
  scope_hash : option string;
  locked : bool;
  uncertain : bool;
  claimed : bool
}.

Definition new_execution : IdempotencyExecution := mkExecution None false false false.

Record world := mkWorld {
  w_committed : db;                    (* what every other session reads *)
  w_tx : tx_state;
  w_autobegin : bool;
  w_acquired : bool;                   (* the after_begin listener is registered *)
  w_own_locks : gset string;           (* named locks of this connection *)
  w_other_locks : gset string;         (* ... of the others *)
  w_invalidated : bool;                (* this connection was discarded *)
  w_activity : RequestActivity;
  w_owner : bool;                      (* TRANSACTION_SESSION_KEY in request.scope *)
  w_execution : IdempotencyExecution;  (* the keyed execution, when there is one *)
  w_utc : Z;                           (* the database clock, ms *)
  w_random : nat → Z;                  (* secrets.choice, an index into its argument *)
  w_drawn : nat;
  w_event : nat → event;
  w_step : nat
}.

Definition M (A : Type) : Type := world → py A * world.

#[export] Instance M_ret : MRet M := λ A a w, (Ok a, w).
#[export] Instance M_bind : MBind M := λ A B f p w,
  match p w with
  | (Ok a, w') => f a w'
  | (Err e, w') => (Err e, w')
  end.

Definition act {A} (f : world → py A * world) : M A := f.
Definition raise {A} (e : exn) : M A := λ w, (Err e, w).
Definition lift {A} (r : py A) : M A := λ w, (r, w).
Definition get {A} (f : world → A) : M A := λ w, (Ok (f w), w).
Definition modify (f : world → world) : M unit := λ w, (Ok tt, f w).

(** [try: p finally: q]: an exception of [q] replaces the outcome. *)
Definition finally {A} (p : M A) (q : M unit) : M A := λ w,
  let '(r, w1) := p w in
  match q w1 with
  | (Ok _, w2) => (r, w2)
  | (Err e, w2) => (Err e, w2)
  end.

Definition set_committed (d : db) (w : world) : world :=
  mkWorld d (w_tx w) (w_autobegin w) (w_acquired w) (w_own_locks w) (w_other_locks w) (w_invalidated w)
    (w_activity w) (w_owner w) (w_execution w) (w_utc w) (w_random w) (w_drawn w) (w_event w) (w_step w).
Definition set_tx (t : tx_state) (w : world) : world :=
  mkWorld (w_committed w) t (w_autobegin w) (w_acquired w) (w_own_locks w) (w_other_locks w) (w_invalidated w)
    (w_activity w) (w_owner w) (w_execution w) (w_utc w) (w_random w) (w_drawn w) (w_event w) (w_step w).
Definition set_acquired (b : bool) (w : world) : world :=
  mkWorld (w_committed w) (w_tx w) (w_autobegin w) b (w_own_locks w) (w_other_locks w)
    (w_invalidated w) (w_activity w) (w_owner w) (w_execution w) (w_utc w) (w_random w) (w_drawn w) (w_event w) (w_step w).
Definition set_own_locks (l : gset string) (w : world) : world :=
  mkWorld (w_committed w) (w_tx w) (w_autobegin w) (w_acquired w) l (w_other_locks w) (w_invalidated w)
    (w_activity w) (w_owner w) (w_execution w) (w_utc w) (w_random w) (w_drawn w) (w_event w) (w_step w).
Definition set_invalidated (b : bool) (w : world) : world :=
  mkWorld (w_committed w) (w_tx w) (w_autobegin w) (w_acquired w) (w_own_locks w) (w_other_locks w) b
    (w_activity w) (w_owner w) (w_execution w) (w_utc w) (w_random w) (w_drawn w) (w_event w) (w_step w).
Definition set_activity (a : RequestActivity) (w : world) : world :=
  mkWorld (w_committed w) (w_tx w) (w_autobegin w) (w_acquired w) (w_own_locks w) (w_other_locks w)
    (w_invalidated w) a (w_owner w) (w_execution w) (w_utc w) (w_random w) (w_drawn w) (w_event w) (w_step w).
Definition set_owner (b : bool) (w : world) : world :=
  mkWorld (w_committed w) (w_tx w) (w_autobegin w) (w_acquired w) (w_own_locks w) (w_other_locks w)
    (w_invalidated w) (w_activity w) b (w_execution w) (w_utc w) (w_random w) (w_drawn w)
    (w_event w) (w_step w).
Definition set_execution (x : IdempotencyExecution) (w : world) : world :=
  mkWorld (w_committed w) (w_tx w) (w_autobegin w) (w_acquired w) (w_own_locks w) (w_other_locks w)
    (w_invalidated w) (w_activity w) (w_owner w) x (w_utc w) (w_random w) (w_drawn w) (w_event w) (w_step w).
Definition set_drawn (n : nat) (w : world) : world :=
  mkWorld (w_committed w) (w_tx w) (w_autobegin w) (w_acquired w) (w_own_locks w) (w_other_locks w)
    (w_invalidated w) (w_activity w) (w_owner w) (w_execution w) (w_utc w) (w_random w) n (w_event w) (w_step w).
Definition set_step (n : nat) (w : world) : world :=
  mkWorld (w_committed w) (w_tx w) (w_autobegin w) (w_acquired w) (w_own_locks w) (w_other_locks w)
    (w_invalidated w) (w_activity w) (w_owner w) (w_execution w) (w_utc w) (w_random w) (w_drawn w) (w_event w) n.

(** An await point: the transport may have abandoned the request meanwhile. *)
Definition await_point : M event := λ w,
  let ev := w_event w (w_step w) in
  let a := match ev_abandon ev with
           | Some reason => abandon reason (w_activity w) | None => w_activity w end in
  (Ok ev, set_activity a (set_step (S (w_step w)) w)).

Definition assert_active : M unit :=
  ev ← await_point;
  act (λ w, let '(r, a) := activity_assert (ev_now ev) (w_activity w) in
            (r, set_activity a w)).

(** ** Statements *)
Definition in_transaction (w : world) : bool :=
  match w_tx w with NoTransaction => false | _ => true end.

(** The first statement of a transaction acquires the connection and sends BEGIN; the
    session's [after_begin] listener, [acquired], then checks the activity. *)
Definition after_begin : M unit := λ w, if w_acquired w then assert_active w else (Ok tt, w).

Definition begin_work : M unit := λ w,
  match w_tx w with
  | Working _ => (Ok tt, w)
  | Begun => after_begin (set_tx (Working (w_committed w)) w)
  | NoTransaction =>
      if w_autobegin w then after_begin (set_tx (Working (w_committed w)) w)
      else (Err (RuntimeError "Autobegin is disabled on this Session"), w)
  end.

(** One statement: a function of the session's view, which it may change. *)
Definition statement {A} (f : db → py (A * db)) : M A :=
  _ ← begin_work;
  ev ← await_point;
  match ev_fault ev with
  | Some e => raise e
  | None => act (λ w,
      match w_tx w with
      | Working v =>
          match f v with
          | Ok (a, v') => (Ok a, set_tx (Working v') w)
          | Err e => (Err e, w)
          end
      | _ => (Err (RuntimeError "Can't operate on closed transaction"), w)
      end)
  end.

(** An await point at which the driver ends what the session holds: whether the exchange
    succeeds, fails or is cancelled, the session has no transaction afterwards and the
    server discards the uncommitted view. *)
Definition discard : M unit :=
  ev ← await_point;
  act (λ w, (match ev_fault ev with Some e => Err e | None => Ok tt end, set_tx NoTransaction w)).

(** [session.rollback()]: it reaches the database only when the transaction did. *)
Definition rollback : M unit := λ w,
  match w_tx w with
  | Working _ => discard w
  | _ => (Ok tt, set_tx NoTransaction w)
  end.

(** [session.commit()] *)
Definition commit : M unit :=
  ev ← await_point;
  act (λ w, match w_tx w with
  | Working v =>
      match ev_commit ev with
      | CommitDone => (Ok tt, set_tx NoTransaction (set_committed v w))
      | CommitFailed applied e =>
          (Err e, set_tx NoTransaction (if applied then set_committed v w else w))
      end
  | _ => (Ok tt, set_tx NoTransaction w)
  end).

(** [async with session.begin(): p]: commit on success, unless [p] has already ended
    the transaction; roll back on an exception, which a failing rollback replaces. *)
Definition session_begin {A} (p : M A) : M A := λ w,
  match p (set_tx Begun w) with
  | (Ok a, w1) =>
      if in_transaction w1
      then match commit w1 with
           | (Ok _, w2) => (Ok a, w2)
           | (Err e, w2) => (Err e, w2)
           end
      else (Ok a, w1)
  | (Err e, w1) =>
      match rollback w1 with
      | (Ok _, w2) => (Err e, w2)
      | (Err e', w2) => (Err e', w2)
      end
  end.

(** [SessionLocal(autobegin=...)] *)
Definition new_session (autobegin : bool) (w : world) : world :=
  mkWorld (w_committed w) NoTransaction autobegin false (w_own_locks w)
    (w_other_locks w) (w_invalidated w) (w_activity w) (w_owner w) (w_execution w) (w_utc w)
    (w_random w) (w_drawn w) (w_event w) (w_step w).

(** [async with SessionLocal(autobegin=...) as session: p]: closing a session rolls back
    what is left; the close is awaited, and its failure or cancellation replaces the
    outcome of [p]. *)
Definition with_session {A} (autobegin : bool) (p : M A) : M A := λ w,
  finally p discard (new_session autobegin w).

(** ** Reasoning about statements inside a transaction *)

(** What no statement changes. *)
Record frame (w w' : world) : Prop := mkFrame {
  fr_committed : w_committed w' = w_committed w;
  fr_autobegin : w_autobegin w' = w_autobegin w;
  fr_acquired : w_acquired w' = w_acquired w;
  fr_own : w_own_locks w' = w_own_locks w;
  fr_other : w_other_locks w' = w_other_locks w;
  fr_invalidated : w_invalidated w' = w_invalidated w;
  fr_owner : w_owner w' = w_owner w;
  fr_execution : w_execution w' = w_execution w;
  fr_utc : w_utc w' = w_utc w;
  fr_random : w_random w' = w_random w;
  fr_event : w_event w' = w_event w
}.

#[export] Instance frame_preorder : PreOrder frame.
Proof.
  split.
  - intros w. by constructor.
  - intros w1 w2 w3 [] []. constructor; congruence.
Qed.

(** What stops a program from outside: a fault of the schedule, or the listener that
    finds the request expired when the connection is acquired. *)
Definition interrupted (w : world) (e : exn) : Prop :=
  (∃ n, ev_fault (w_event w n) = Some e)
  ∨ (w_acquired w = true ∧ ∃ reason, e = request_expired reason).

Lemma interrupted_frame w w' e : frame w w' → interrupted w' e → interrupted w e.
Proof.
  intros [] [[n Hn]|[Ha He]]; [left; exists n; congruence|right]. split; congruence.
Qed.

(** The tables a session would read: its view, or the committed ones when it has begun
    but not reached the database. *)
Definition view_of (w : world) : option db :=
  match w_tx w with
  | NoTransaction => None
  | Begun => Some (w_committed w)
  | Working v => Some v
  end.

(** What ending a transaction without committing it does: it changes nothing outside the
    transaction, and only a fault of the schedule makes it fail. *)
Definition ends_transaction (w : world) (p : py unit * world) : Prop :=
  frame w p.2 ∧ w_tx p.2 = NoTransaction
  ∧ (p.1 = Ok tt ∨ ∃ e n, p.1 = Err e ∧ ev_fault (w_event w n) = Some e).

Lemma discard_spec w : ends_transaction w (discard w).
Proof.
  unfold ends_transaction, discard, mbind, M_bind, act. simpl.
  split_and!; [by constructor|done|]. destruct (ev_fault _) as [e|] eqn:E; eauto.
Qed.

Lemma rollback_spec w : ends_transaction w (rollback w).
Proof.
  unfold rollback. destruct (w_tx w); [| |apply discard_spec];
    (split_and!; [by constructor|done|by left]).
Qed.

(** [triple now v p Q]: inside a transaction whose view is [v], with the database clock
    at [now], [p] ends with an outcome and a view that satisfy [Q], or is interrupted; it
    changes nothing outside the transaction either way. *)
Definition triple {A} (now : Z) (v : db) (p : M A) (Q : py A → db → Prop) : Prop :=
  ∀ w, view_of w = Some v → w_utc w = now →
  frame w (p w).2 ∧ ∃ v', view_of (p w).2 = Some v'
    ∧ (Q (p w).1 v' ∨ ∃ e, (p w).1 = Err e ∧ interrupted w e).

Lemma view_of_in_transaction w v : view_of w = Some v → in_transaction w = true.
Proof. unfold view_of, in_transaction. by destruct (w_tx w). Qed.

Lemma after_begin_spec w :
  frame w (after_begin w).2 ∧ w_tx (after_begin w).2 = w_tx w ∧
  ((after_begin w).1 = Ok tt
   ∨ ∃ reason, (after_begin w).1 = Err (request_expired reason) ∧ w_acquired w = true).
Proof.
  unfold after_begin. destruct (w_acquired w) eqn:Ha; [|split_and!; auto; done].
  unfold assert_active, mbind, M_bind, act. simpl.
  destruct (activity_assert _ _) as [r a] eqn:E. split_and!; [by constructor|done|].
  unfold activity_assert in E. simpl.
  repeat case_match; simplify_eq; eauto.
Qed.

Lemma begin_work_spec w v :
  view_of w = Some v →
  frame w (begin_work w).2 ∧ w_tx (begin_work w).2 = Working v ∧
  ((begin_work w).1 = Ok tt
   ∨ ∃ reason, (begin_work w).1 = Err (request_expired reason) ∧ w_acquired w = true).
Proof.
  unfold view_of, begin_work. destruct (w_tx w) as [| |v0] eqn:Htx; [done| |].
  - intros [= <-]. destruct (after_begin_spec (set_tx (Working (w_committed w)) w)) as (Hf & Ht & Hr).
    split_and!; [|exact Ht|exact Hr]. etrans; [|exact Hf]. by constructor.
  - intros [= <-]. split_and!; auto; done.
Qed.

Section triple_rules.
Context {A B : Type} (now : Z) (v : db).

Lemma triple_mono (p : M A) (Q Q' : py A → db → Prop) :
  (∀ r v', Q r v' → Q' r v') → triple now v p Q → triple now v p Q'.
Proof.
  intros HQ Hp w Hw Hn. destruct (Hp w Hw Hn) as (Hf & v' & Hv & [HQ1|HE]);
    (split; [done|]); exists v'; eauto.
Qed.

Lemma triple_ret (a : A) (Q : py A → db → Prop) : Q (Ok a) v → triple now v (mret a) Q.
Proof. intros HQ w Hw Hn. split; [done|]. exists v. auto. Qed.

Lemma triple_lift (r : py A) (Q : py A → db → Prop) : Q r v → triple now v (lift r) Q.
Proof. intros HQ w Hw Hn. split; [done|]. exists v. auto. Qed.

Lemma triple_raise (e : exn) (Q : py A → db → Prop) : Q (Err e) v → triple now v (raise e) Q.
Proof. intros HQ w Hw Hn. split; [done|]. exists v. auto. Qed.

Lemma triple_bind (p : M B) (f : B → M A) (Q : py A → db → Prop) :
  triple now v p (λ r v', match r with Ok b => triple now v' (f b) Q | Err e => Q (Err e) v' end) →
  triple now v (p ≫= f) Q.
Proof.
  intros Hp w Hw Hn. destruct (Hp w Hw Hn) as (Hf & v' & Hv & HQ).
  unfold mbind, M_bind. destruct (p w) as [[b|e] w'] eqn:E; simpl in *.
  - destruct HQ as [HQ|(e & [=] & _)].
    destruct (HQ w' Hv) as (Hf' & v'' & Hv' & HQ'); [by rewrite (fr_utc _ _ Hf)|].
    split; [by etrans|]. exists v''. split; [done|].
    destruct HQ' as [?|(e & ? & ?)]; [by left|right]. eauto using interrupted_frame.
  - split; [done|]. exists v'. split; [done|].
    destruct HQ as [?|(e' & [= ->] & ?)]; eauto.
Qed.

Lemma triple_statement (f : db → py (A * db)) (Q : py A → db → Prop) :
  match f v with Ok (a, v') => Q (Ok a) v' | Err e => Q (Err e) v end →
  triple now v (statement f) Q.
Proof.
  intros HQ w Hw Hn. unfold statement, mbind, M_bind.
  destruct (begin_work_spec w v Hw) as (Hf & Ht & Hr).
  destruct (begin_work w) as [r w1]. simpl in *.
  destruct Hr as [->|(reason & -> & Ha)].
  2:{ simpl. split; [done|]. exists v. unfold view_of. rewrite Ht. split; [done|]. right.
      eexists. split; [done|]. right. eauto. }
  destruct (ev_fault (w_event w1 (w_step w1))) as [e|] eqn:He; simpl.
  - split; [etrans; [exact Hf|by constructor]|]. exists v. unfold view_of. simpl. rewrite Ht.
    split; [done|]. right. exists e. split; [done|]. left. exists (w_step w1).
    by rewrite <-(fr_event _ _ Hf).
  - unfold act. simpl. rewrite Ht. destruct (f v) as [[a v']|e] eqn:Hfv; simpl.
    + split; [etrans; [exact Hf|by constructor]|]. exists v'. auto.
    + split; [etrans; [exact Hf|by constructor]|]. exists v. unfold view_of. simpl.
      rewrite Ht. auto.
Qed.

Lemma triple_utc (f : Z → M A) (Q : py A → db → Prop) :
  triple now v (f now) Q → triple now v (get w_utc ≫= f) Q.
Proof.
  intros Hp w Hw Hn. unfold mbind, M_bind, get. rewrite Hn. by apply Hp.
Qed.
End triple_rules.

(** No fault is scheduled and no listener is registered: the outcome is the specified
    one. *)
Lemma triple_no_fault {A} now v (p : M A) Q w :
  triple now v p Q → view_of w = Some v → w_utc w = now →
  (∀ n, ev_fault (w_event w n) = None) → w_acquired w = false →
  ∃ v', view_of (p w).2 = Some v' ∧ Q (p w).1 v'.
Proof.
  intros Hp Hw Hn Hno Ha.
  destruct (Hp w Hw Hn) as (_ & v' & Hv & [HQ|(e & _ & [[n He]|[Ha' _]])]); [eauto| |].
  - by rewrite Hno in He.
  - congruence.
Qed.

(** Symbolic execution of a program inside a transaction. *)
Ltac triple_step :=
  match goal with
  | |- triple _ _ (mret _) _ => apply triple_ret
  | |- triple _ _ (lift _) _ => apply triple_lift
  | |- triple _ _ (raise _) _ => apply triple_raise
  | |- triple _ _ (statement _) _ => apply triple_statement
  | |- triple _ _ (get w_utc ≫= _) _ => apply triple_utc
  | |- triple _ _ (_ ≫= _) _ => apply triple_bind
  end.
