(* ===== verification/Items.v ===== *)
(** * Items

    [app/database/entities/item_orm.py] and [base_orm.py],
    [app/database/repositories/item_repo.py],
    [app/api/v1/items/services/item_service.py] and the endpoints of
    [item_controller.py]: creation, listing, versioned update, replacement and deletion
    of items within the caller's transaction. *)
From stdpp Require Import sorting.
From S2P Require Import Prelude PyText UnicodeText Values Models Database.
Open Scope Z_scope.

(** The database's text operations depend on its collation. *)
Class Collation := {
  ilike : string → string → bool;       (* text, pattern *)
  text_le : string → string → bool      (* the order of ORDER BY *)
}.

(** ** Identifiers *)
Definition alphabet : string :=
  "0123456789ABCDEFGHIJKLMNOPQRSTUVWXYZabcdefghijklmnopqrstuvwxyz".

(** [secrets.choice(s)] *)
Definition choice (s : string) : M ascii := λ w,
  let i := Nat.modulo (Z.to_nat (w_random w (w_drawn w))) (String.length s) in
  (Ok (default Ascii.zero (String.get i s)), set_drawn (S (w_drawn w)) w).

Fixpoint join_choices (n : nat) : M string :=
  match n with
  | O => mret EmptyString
  | S n' => c ← choice alphabet; s ← join_choices n'; mret (String c s)
  end.

Definition generate_id : M string := join_choices 16.

(** ** Repository *)
Record ItemCreateData := mkItemCreateData {
  cd_name : string;
  cd_description : option string;
  cd_price : decimal
}.

(** [TypedDict(total=False)]: the keys that are present. *)
Record ItemUpdateData := mkItemUpdateData {
  ud_name : option string;
  ud_description : option (option string);
  ud_price : option decimal
}.

Record ItemListQuery := mkItemListQuery {
  lq_limit : Z;
  lq_offset : Z;
  lq_search : option string;
  lq_sort : ItemSort;
  lq_order : SortOrder;
  lq_min_price : option decimal;
  lq_max_price : option decimal
}.

Definition CONFLICT : exn :=
  HTTPException PlainHTTPException 409
    "Item version conflict; reload the item before retrying." [].
Definition NOT_FOUND : exn :=
  HTTPException PlainHTTPException 404 "No item exists with the provided identifier." [].

Definition require_transaction : M unit := λ w,
  if in_transaction w then (Ok tt, w)
  else (Err (RuntimeError "Item mutations require a caller-owned transaction."), w).

(** [func.now()] in a [DATETIME] column without fractional digits: whole seconds. *)
Definition sql_now (utc : Z) : Z := utc / 1000 * 1000.

(** [session.refresh(item)] *)
Definition refresh (id : string) : M item :=
  statement (λ d,
    match db_items d !! id with
    | Some r => Ok (r, d)
    | None => Err (RuntimeError "Could not refresh instance")
    end).

(** [session.add(item); await session.flush()]: INSERT, with the column defaults. *)
Definition insert_item (item_in : ItemCreateData) : M string :=
  id ← generate_id;
  now ← get w_utc;
  statement (λ d,
    match db_items d !! id with
    | Some _ => Err DBAPIError
    | None =>
        Ok (id, set_items (<[id := mkItem id 1 (cd_name item_in) (cd_price item_in)
                                    (cd_description item_in) (sql_now now) (sql_now now)]> (db_items d)) d)
    end).

Definition create (item_in : ItemCreateData) : M item :=
  _ ← require_transaction;
  id ← insert_item item_in;
  refresh id.

(** The rows of the table, in some order. *)
Definition rows (d : db) : list item := (map_to_list (db_items d)).*2.

Definition get_all_rows : M (list item) := statement (λ d, Ok (rows d, d)).

Section listing.
Context `{Collation}.

Definition search_filter (search : option string) (r : item) : bool :=
  match search with
  | None => true
  | Some s =>
      if String.eqb s "" then true
      else
        let pattern := "%" +:+ ustrip s +:+ "%" in
        ilike (it_name r) pattern
        || match it_description r with Some t => ilike t pattern | None => false end
  end.

Definition min_filter (p : option decimal) (r : item) : bool :=
  match p with Some d => decimal_le d (it_price r) | None => true end.
Definition max_filter (p : option decimal) (r : item) : bool :=
  match p with Some d => decimal_le (it_price r) d | None => true end.

(** [.where( *filters)] *)
Definition selected (q : ItemListQuery) (r : item) : bool :=
  search_filter (lq_search q) r && min_filter (lq_min_price q) r
  && max_filter (lq_max_price q) r.

(** What a [Numeric(10, 2)] column holds: whole hundredths. *)
Definition column_cents (d : decimal) : Z :=
  match d with DFinite neg c x => dec_to_int (DFinite neg c (x + 2)) | _ => 0 end.

(** The sort column: [a] is not after [b]. *)
Definition sort_le (c : ItemSort) (a b : item) : bool :=
  match c with
  | CREATED_AT => it_created_at a <=? it_created_at b
  | ITEM_NAME => text_le (it_name a) (it_name b)
  | PRICE => column_cents (it_price a) <=? column_cents (it_price b)
  end.

(** [ORDER BY column, id], ascending. *)
Definition ascending (c : ItemSort) (a b : item) : bool :=
  sort_le c a b && (negb (sort_le c b a) || text_le (it_id a) (it_id b)).

Definition row_order (q : ItemListQuery) (a b : item) : Prop :=
  match lq_order q with
  | asc => ascending (lq_sort q) a b = true
  | desc => ascending (lq_sort q) b a = true
  end.

#[export] Instance row_order_dec q a b : Decision (row_order q a b).
Proof. unfold row_order. destruct (lq_order q); apply _. Defined.

Definition base_query (q : ItemListQuery) (d : db) : list item :=
  merge_sort (row_order q) (filter (λ r, selected q r = true) (rows d)).

Definition data_query (q : ItemListQuery) (d : db) : list item :=
  take (Z.to_nat (lq_limit q)) (drop (Z.to_nat (lq_offset q)) (base_query q d)).

Definition find_and_count (q : ItemListQuery) : M (list item * Z) :=
  total ← statement (λ d, Ok (Z.of_nat (length (base_query q d)), d));
  data ← statement (λ d, Ok (data_query q d, d));
  mret (data, total).
End listing.

Definition get_by_id (id : string) : M (option item) :=
  statement (λ d, Ok (db_items d !! id, d)).

Definition get_by_id_for_update (id : string) : M (option item) :=
  _ ← require_transaction;
  statement (λ d, Ok (db_items d !! id, d)).

(** The row after [.values( **new_data, version=ItemORM.version + 1)] and [onupdate]. *)
Definition updated_row (now : Z) (u : ItemUpdateData) (r : item) : item :=
  mkItem (it_id r) (it_version r + 1)
    (default (it_name r) (ud_name u))
    (default (it_price r) (ud_price u))
    (default (it_description r) (ud_description u))
    (it_created_at r) (sql_now now).

(** UPDATE ... WHERE id AND version = expected AND version < MAX_VERSION; the rowcount. *)
Definition update_where (now : Z) (id : string) (u : ItemUpdateData) (expected_version : Z)
    (d : db) : Z * db :=
  match db_items d !! id with
  | Some r =>
      if (it_version r =? expected_version) && (it_version r <? MAX_VERSION)
      then (1, set_items (<[id := updated_row now u r]> (db_items d)) d)
      else (0, d)
  | None => (0, d)
  end.

Definition update (obj : item) (new_data : ItemUpdateData) (expected_version : Z) : M item :=
  _ ← require_transaction;
  now ← get w_utc;
  rowcount ← statement (λ d, Ok (update_where now (it_id obj) new_data expected_version d));
  if negb (rowcount =? 1) then raise CONFLICT
  else refresh (it_id obj).

Definition delete_where (id : string) (expected_version : Z) (d : db) : Z * db :=
  match db_items d !! id with
  | Some r =>
      if it_version r =? expected_version
      then (1, set_items (base.delete id (db_items d)) d)
      else (0, d)
  | None => (0, d)
  end.

Definition delete (obj : item) (expected_version : Z) : M item :=
  _ ← require_transaction;
  rowcount ← statement (λ d, Ok (delete_where (it_id obj) expected_version d));
  if negb (rowcount =? 1) then raise CONFLICT else mret obj.

(** ** Service *)
Definition model_to {A} (target : string) (r : checked A) : py A :=
  match r with
  | Ok a => Ok a
  | Err _ => Err (HTTPException PlainHTTPException 500
                    ("Internal model conversion failed for '" +:+ target +:+ "'.") [])
  end.

Module ItemService.
Definition create (payload : ItemBase) : M item :=
  data ← lift (model_to "ItemCreateData"
    (Ok (mkItemCreateData (ib_name payload) (default None (ib_description payload))
           (ib_price payload))));
  Items.create data.

Definition list_query (q : ItemPaginationQuery) : ItemListQuery :=
  mkItemListQuery (limit (Models.base_query q)) (offset (Models.base_query q))
    (search (Models.base_query q)) (Models.sort q) (Models.order (Models.base_query q))
    (min_price q) (max_price q).

Definition get_all `{Collation} (query : ItemPaginationQuery) : M (list item * Z) :=
  q ← lift (model_to "ItemListQuery" (Ok (list_query query)));
  find_and_count q.

Definition get (id : string) : M item :=
  r ← get_by_id id;
  match r with None => raise NOT_FOUND | Some r => mret r end.

Definition _mutation_item (id : string) (expected_version : Z) : M item :=
  r ← get_by_id_for_update id;
  match r with
  | None => raise NOT_FOUND
  | Some r =>
      if negb (it_version r =? expected_version) then raise CONFLICT else mret r
  end.

(** [model_to(ItemUpdateData, payload, exclude_unset=True, ...)] *)
Definition update_data (u : UpdateItemRequest) : ItemUpdateData :=
  mkItemUpdateData (up_name u) (up_description u) (up_price u).

Definition update (id : string) (payload : UpdateItemRequest) : M item :=
  r ← _mutation_item id (up_expected_version payload);
  data ← lift (model_to "ItemUpdateData" (Ok (update_data payload)));
  Items.update r data (up_expected_version payload).

(** [exclude_unset=False]: an omitted description is dumped as [None]. *)
Definition replace_data (b : ItemBase) : ItemUpdateData :=
  mkItemUpdateData (Some (ib_name b)) (Some (default None (ib_description b)))
    (Some (ib_price b)).

Definition replace (id : string) (payload : Z * ItemBase) : M item :=
  r ← _mutation_item id payload.1;
  data ← lift (model_to "ItemUpdateData" (Ok (replace_data payload.2)));
  Items.update r data payload.1.

Definition delete (id : string) (expected_version : Z) : M item :=
  r ← _mutation_item id expected_version;
  Items.delete r expected_version.
End ItemService.

(** ** Endpoints *)

(** [ItemResponse.model_validate(item)]: the response model checks the row again. *)
Definition valid_response (r : item) : bool :=
  EntityId (it_id r) && (1 <=? ulen (it_name r)) && (ulen (it_name r) <=? 120)
  && is_ok (validate_price (VDecimal (it_price r)))
  && match it_description r with Some t => ulen t <=? 500 | None => true end
  && is_ok (validate_version (VInt (it_version r))).

Definition ItemResponse (r : item) : py item :=
  if valid_response r then Ok r else Err (PydanticError "ItemResponse" "validation failed").

Module Controller.
Definition create (payload : ItemBase) : M item :=
  r ← ItemService.create payload; lift (ItemResponse r).

Fixpoint responses (l : list item) : py (list item) :=
  match l with
  | [] => Ok []
  | r :: l' => r ← ItemResponse r; rs ← responses l'; Ok (r :: rs)
  end.

Definition get_all `{Collation} (query : ItemPaginationQuery) : M (PaginatedResult item) :=
  '(items, count) ← ItemService.get_all query;
  data ← lift (responses items);
  mret (mkPaginatedResult data count (page (Models.base_query query))
          (limit (Models.base_query query))).

Definition get (id : string) : M item :=
  r ← ItemService.get id; lift (ItemResponse r).

Definition update (id : string) (payload : UpdateItemRequest) : M item :=
  r ← ItemService.update id payload; lift (ItemResponse r).

Definition replace (id : string) (payload : Z * ItemBase) : M item :=
  r ← ItemService.replace id payload; lift (ItemResponse r).

Definition delete (id : string) (payload : Z) : M item :=
  r ← ItemService.delete id payload; lift (ItemResponse r).
End Controller.

(** ** What the operations promise *)
Module Spec.

(** One versioned write of a row: absent, stale or exhausted rows are refused. *)
Definition write (id : string) (expected_version : Z) (f : item → option item) (d : db)
  : py item * db :=
  match db_items d !! id with
  | None => (Err NOT_FOUND, d)
  | Some r =>
      if negb (it_version r =? expected_version) then (Err CONFLICT, d)
      else match f r with
           | Some r' => (Ok r', set_items (<[id := r']> (db_items d)) d)
           | None => (Err CONFLICT, d)
           end
  end.

(** The row that follows [r]: the next version, as long as an unsigned 32-bit column can
    hold one; each provided field in place of the old one; the same identifier and time of
    creation; and the time of the write, in whole seconds. *)
Definition bump (now : Z) (u : ItemUpdateData) (r : item) : option item :=
  if 4294967295 <=? it_version r then None
  else Some {|
    it_id := it_id r;
    it_version := it_version r + 1;
    it_name := match ud_name u with Some name => name | None => it_name r end;
    it_price := match ud_price u with Some price => price | None => it_price r end;
    it_description := match ud_description u with
                      | Some description => description | None => it_description r end;
    it_created_at := it_created_at r;
    it_updated_at := now - now mod 1000
  |}.

(** The removed row, with its final version. *)
Definition remove (id : string) (expected_version : Z) (d : db) : py item * db :=
  match db_items d !! id with
  | None => (Err NOT_FOUND, d)
  | Some r =>
      if negb (it_version r =? expected_version) then (Err CONFLICT, d)
      else (Ok r, set_items (base.delete id (db_items d)) d)
  end.

(** A new row under a fresh identifier, or an identifier collision. *)
Definition created (now : Z) (data : ItemCreateData) (d : db) (r : py item) (d' : db) : Prop :=
  ∃ id, EntityId id = true ∧
    match db_items d !! id with
    | Some _ => r = Err DBAPIError ∧ d' = d
    | None =>
        let row := mkItem id 1 (cd_name data) (cd_price data) (cd_description data)
                     (now - now mod 1000) (now - now mod 1000) in
        r = Ok row ∧ d' = set_items (<[id := row]> (db_items d)) d
    end.
End Spec.

Lemma sql_now_seconds now : sql_now now = now - now mod 1000.
Proof. unfold sql_now. pose proof (Z.div_mod now 1000). lia. Qed.

(** The row the UPDATE writes is the specified one. *)
Lemma bump_updated_row now u r :
  Spec.bump now u r = if it_version r <? MAX_VERSION then Some (updated_row now u r) else None.
Proof.
  unfold Spec.bump, updated_row. rewrite sql_now_seconds.
  replace (it_version r <? MAX_VERSION) with (negb (4294967295 <=? it_version r))
    by (rewrite Z.leb_antisym; apply negb_involutive).
  by destruct (4294967295 <=? it_version r).
Qed.

(** Rows are filed under their identifier and satisfy every declared bound. *)
Definition item_ok (id : string) (r : item) : Prop :=
  it_id r = id ∧ EntityId id = true ∧ name_ok (it_name r) ∧ price_ok (it_price r)
  ∧ description_ok (it_description r) ∧ version_ok (it_version r).

Definition table_ok (d : db) : Prop := map_Forall item_ok (db_items d).

Definition filed (d : db) : Prop := map_Forall (λ id r, it_id r = id) (db_items d).

Lemma table_ok_filed d : table_ok d → filed d.
Proof. intros Hd id r Hr. by destruct (Hd id r Hr). Qed.

Lemma triple_require {A} now v (p : M A) Q :
  triple now v p Q → triple now v (require_transaction ≫= λ _, p) Q.
Proof.
  intros Hp w Hw Hn. unfold mbind, M_bind, require_transaction.
  rewrite (view_of_in_transaction w v Hw). by apply Hp.
Qed.

Lemma triple_update now v obj u z Q :
  (match update_where now (it_id obj) u z v with
   | (n, v') =>
       if n =? 1 then
         match db_items v' !! it_id obj with
         | Some r => Q (Ok r) v' | None => False end
       else Q (Err CONFLICT) v'
   end) →
  triple now v (update obj u z) Q.
Proof.
  intros HQ. unfold update. apply triple_require. apply triple_utc, triple_bind, triple_statement.
  destruct (update_where now (it_id obj) u z v) as [n v'].
  destruct (n =? 1); simpl; [|by apply triple_raise].
  apply triple_statement. by destruct (db_items v' !! it_id obj).
Qed.

(** The shared shape of update and replacement. *)
Lemma triple_versioned_write now v id z u :
  filed v →
  triple now v
    (r ← ItemService._mutation_item id z;
     data ← lift (model_to "ItemUpdateData" (Ok u));
     update r data z)
    (λ r v', (r, v') = Spec.write id z (Spec.bump now u) v).
Proof.
  intros Hv. apply triple_bind. unfold ItemService._mutation_item.
  apply triple_bind, triple_require, triple_statement.
  unfold Spec.write. destruct (db_items v !! id) as [r|] eqn:Hr; [|by apply triple_raise].
  destruct (Z.eqb_spec (it_version r) z) as [Hz|Hz]; simpl; [|by apply triple_raise].
  apply triple_ret, triple_bind, triple_lift. simpl. apply triple_update.
  rewrite (Hv id r Hr), bump_updated_row. unfold update_where. rewrite Hr.
  rewrite (proj2 (Z.eqb_eq _ _) Hz). simpl.
  destruct (it_version r <? MAX_VERSION); simpl; [|done].
  by rewrite lookup_insert_eq.
Qed.

Lemma triple_delete now v id z :
  filed v →
  triple now v (ItemService.delete id z) (λ r v', (r, v') = Spec.remove id z v).
Proof.
  intros Hv. unfold ItemService.delete, ItemService._mutation_item, delete.
  apply triple_bind, triple_bind, triple_require, triple_statement. unfold Spec.remove.
  destruct (db_items v !! id) as [r|] eqn:Hr; [|by apply triple_raise].
  destruct (Z.eqb_spec (it_version r) z) as [Hz|Hz]; simpl; [|by apply triple_raise].
  apply triple_ret, triple_require, triple_bind, triple_statement.
  unfold delete_where. rewrite (Hv id r Hr), Hr, (proj2 (Z.eqb_eq _ _) Hz). simpl.
  by apply triple_ret.
Qed.

(** [C4] Versioned mutations implement their specification inside the caller's
    transaction: PATCH and PUT replace exactly the row whose version is the expected one
    (below the largest version) by the row with the provided fields changed — PUT gives
    every field, an omitted description becoming null — every other field kept, the
    version incremented by one and the time of the write in whole seconds; deletion removes exactly that row and returns it; a missing row is 404, any
    other version 409, and nothing else changes. *)
Theorem item_mutations_refine_spec now v id :
  filed v →
  (∀ u, triple now v (ItemService.update id u)
     (λ r v', (r, v') = Spec.write id (up_expected_version u)
        (Spec.bump now (mkItemUpdateData (up_name u) (up_description u) (up_price u))) v)) ∧
  (∀ z b, triple now v (ItemService.replace id (z, b))
     (λ r v', (r, v') = Spec.write id z
        (Spec.bump now (mkItemUpdateData (Some (ib_name b))
                          (Some (default None (ib_description b))) (Some (ib_price b)))) v)) ∧
  (∀ z, triple now v (ItemService.delete id z) (λ r v', (r, v') = Spec.remove id z v)).
Proof.
  intros Hv. split_and!.
  - intros u. by apply triple_versioned_write.
  - intros z b. by apply triple_versioned_write.
  - intros z. by apply triple_delete.
Qed.

Definition demo_item (version : Z) : item :=
  mkItem "A1b2C3d4E5f6G7h8" version "Iron Sword" (cents 4999) (Some "steel") 5 5.
Definition demo_db (version : Z) : db :=
  mkDb {[ "A1b2C3d4E5f6G7h8" := demo_item version ]} ∅.
Definition demo_event : event := mkEvent 0 None None false false CommitDone.
Definition demo_world (d : db) : world :=
  mkWorld d (Working d) false false ∅ ∅ false (mkActivity None None true) false new_execution 9700 (λ _, 3) 0
    (λ _, demo_event) 0.

Lemma demo_filed z : filed (demo_db z).
Proof. unfold filed. simpl. by apply map_Forall_singleton. Defined.

(** A PATCH of the price alone, at the expected version and at a stale one. *)
Lemma item_mutations_refine_spec_witness :
  let u := mkUpdateItemRequest 7 None (Some (cents 100)) None in
  (∃ v', view_of (ItemService.update "A1b2C3d4E5f6G7h8" u (demo_world (demo_db 7))).2 = Some v'
    ∧ ((ItemService.update "A1b2C3d4E5f6G7h8" u (demo_world (demo_db 7))).1, v')
      = Spec.write "A1b2C3d4E5f6G7h8" 7
          (Spec.bump 9700 (mkItemUpdateData None None (Some (cents 100)))) (demo_db 7))
  ∧ (ItemService.update "A1b2C3d4E5f6G7h8" u (demo_world (demo_db 7))).1
    = Ok (mkItem "A1b2C3d4E5f6G7h8" 8 "Iron Sword" (cents 100) (Some "steel") 5 9000)
  ∧ (ItemService.update "A1b2C3d4E5f6G7h8" u (demo_world (demo_db 8))).1 = Err CONFLICT.
Proof.
  split_and!; [|vm_compute; reflexivity..].
  destruct (item_mutations_refine_spec 9700 (demo_db 7) "A1b2C3d4E5f6G7h8" (demo_filed 7))
    as (Hu & _ & _).
  exact (triple_no_fault 9700 _ _ _ (demo_world (demo_db 7)) (Hu (mkUpdateItemRequest 7 None (Some (cents 100)) None))
           eq_refl eq_refl (λ _, eq_refl) eq_refl).
Defined.

(** ** Creation *)
Lemma alphabet_alphanumeric i :
  (i < 62)%nat → ∃ c, String.get i alphabet = Some c ∧ alphanumeric c = true.
Proof.
  intros Hi. destruct (String.get i alphabet) as [c|] eqn:E.
  - exists c. split; [done|].
    assert (forallb (λ i, match String.get i alphabet with
              | Some c => alphanumeric c | None => true end) (seq 0 62) = true) as Hall
      by (vm_compute; reflexivity).
    rewrite forallb_forall in Hall. specialize (Hall i).
    rewrite E in Hall. apply Hall, in_seq. lia.
  - exfalso.
    assert (forallb (λ i, match String.get i alphabet with
              | Some _ => true | None => false end) (seq 0 62) = true) as Hall
      by (vm_compute; reflexivity).
    rewrite forallb_forall in Hall. specialize (Hall i).
    rewrite E in Hall. discriminate Hall. apply in_seq. lia.
Qed.

Lemma triple_choice now v (Q : py ascii → db → Prop) :
  (∀ c, alphanumeric c = true → Q (Ok c) v) → triple now v (choice alphabet) Q.
Proof.
  intros HQ w Hw Hn. split; [by constructor|]. exists v. split; [exact Hw|]. left.
  unfold choice. cbv zeta. cbn [fst].
  destruct (alphabet_alphanumeric
    (Nat.modulo (Z.to_nat (w_random w (w_drawn w))) (String.length alphabet))) as (c & E & Hc).
  { change (String.length alphabet) with 62%nat. apply Nat.mod_upper_bound. lia. }
  rewrite E. by apply HQ.
Qed.

Lemma triple_join_choices now v n (Q : py string → db → Prop) :
  (∀ s, str_all alphanumeric s = true → String.length s = n → Q (Ok s) v) →
  triple now v (join_choices n) Q.
Proof.
  revert Q. induction n as [|n IH]; intros Q HQ.
  - apply triple_ret. by apply HQ.
  - apply triple_bind, triple_choice. intros c Hc. apply triple_bind, IH.
    intros s Hs Hl. apply triple_ret, HQ; simpl; [by rewrite Hc, Hs|by rewrite Hl].
Qed.

Lemma triple_create now v data :
  triple now v (create data) (λ r v', Spec.created now data v r v').
Proof.
  unfold create, insert_item. apply triple_require, triple_bind, triple_bind.
  unfold generate_id. apply triple_join_choices. intros id Hid Hl.
  apply triple_utc, triple_statement.
  assert (EntityId id = true) as Hok.
  { unfold EntityId, blen. by rewrite Hid, Hl. }
  destruct (db_items v !! id) as [r|] eqn:Hr.
  - exists id. split; [done|]. by rewrite Hr.
  - apply triple_statement. simpl. rewrite lookup_insert_eq, sql_now_seconds.
    exists id. split; [done|]. by rewrite Hr.
Qed.

(** ** Endpoints keep the table well formed and always answer *)
Definition expected_failure (e : exn) : Prop := e = NOT_FOUND ∨ e = CONFLICT ∨ e = DBAPIError.

(** A response was rendered from a well-formed row, or the request was refused. *)
Definition answered (r : py item) (v' : db) : Prop :=
  table_ok v' ∧ match r with Ok row => valid_response row = true | Err e => expected_failure e end.

Lemma price_ok_valid d : price_ok d → is_ok (validate_price (VDecimal d)) = true.
Proof.
  intros (n & Hn & ->). assert (is_cents (cents n) n) as Hc by (split; [done|apply cents_eq]).
  unfold validate_price. simpl. destruct (cents_in_range _ _ Hc) as (_ & H2 & H3).
  rewrite H2, H3. simpl.
  destruct (quantize_price (cents n)) as (m & -> & _ & Hm); [done..|]. simpl.
  by rewrite (Hm n Hc), cents_eq.
Qed.

Lemma item_ok_valid id r : item_ok id r → valid_response r = true.
Proof.
  intros (Hid & Hent & [Hn1 Hn2] & Hp & Hd & [Hv1 Hv2]). unfold valid_response.
  rewrite Hid, Hent, price_ok_valid by done.
  rewrite (proj2 (Z.leb_le 1 _)), (proj2 (Z.leb_le _ 120)) by done.
  assert (match it_description r with Some t => ulen t <=? 500 | None => true end = true) as ->
    by (destruct (it_description r); [by apply Z.leb_le|done]).
  unfold validate_version. simpl. rewrite (proj2 (Z.ltb_ge _ 1)) by lia.
  by rewrite (proj2 (Z.ltb_ge MAX_VERSION _)) by lia.
Qed.

Lemma ItemResponse_ok r : valid_response r = true → ItemResponse r = Ok r.
Proof. unfold ItemResponse. by intros ->. Qed.

Lemma insert_ok id r d :
  table_ok d → item_ok id r → table_ok (set_items (<[id := r]> (db_items d)) d).
Proof. intros Hd Hr. apply map_Forall_insert_2; done. Qed.

Lemma delete_ok id d : table_ok d → table_ok (set_items (base.delete id (db_items d)) d).
Proof. intros Hd. by apply map_Forall_delete. Qed.

Definition update_data_ok (u : ItemUpdateData) : Prop :=
  (∀ s, ud_name u = Some s → name_ok s) ∧ (∀ p, ud_price u = Some p → price_ok p)
  ∧ (∀ t, ud_description u = Some t → description_ok t).

Lemma updated_row_ok now u id r :
  item_ok id r → update_data_ok u → it_version r < MAX_VERSION →
  item_ok id (updated_row now u r).
Proof.
  intros (Hid & Hent & Hn & Hp & Hd & [Hv1 Hv2]) (Un & Up & Ud) Hlt.
  split_and!; simpl; [done|done| | | |split; lia].
  - destruct (ud_name u); simpl; auto.
  - destruct (ud_price u); simpl; auto.
  - destruct (ud_description u); simpl; auto.
Qed.

(** The response step after a service call that is refused or returns a stored row. *)
Lemma triple_answer now v (p : M item) (Q : py item → db → Prop) :
  triple now v p Q →
  (∀ r v', Q r v' → table_ok v'
     ∧ match r with Ok row => ∃ id, item_ok id row | Err e => expected_failure e end) →
  triple now v (r ← p; lift (ItemResponse r)) answered.
Proof.
  intros Hp HQ. apply triple_bind. eapply triple_mono; [|exact Hp].
  intros [row|e] v' H; destruct (HQ _ _ H) as [Hv Hr]; [|by split].
  apply triple_lift. destruct Hr as [id Hr]. apply item_ok_valid in Hr as Hvalid.
  rewrite ItemResponse_ok by done. by split.
Qed.

Lemma write_answered now id z u v :
  table_ok v → update_data_ok u →
  let '(r, v') := Spec.write id z (Spec.bump now u) v in
  table_ok v' ∧ match r with Ok row => ∃ id, item_ok id row | Err e => expected_failure e end.
Proof.
  intros Hv Hu. unfold Spec.write.
  destruct (db_items v !! id) as [r|] eqn:Hr; [|by split; [|left]].
  destruct (negb _); [by split; [|right; left]|]. rewrite bump_updated_row.
  destruct (Z.ltb_spec (it_version r) MAX_VERSION); [|by split; [|right; left]].
  assert (item_ok id (updated_row now u r)) by (apply updated_row_ok; auto).
  split; [by apply insert_ok|by exists id].
Qed.

Lemma remove_answered id z v :
  table_ok v →
  let '(r, v') := Spec.remove id z v in
  table_ok v' ∧ match r with Ok row => ∃ id, item_ok id row | Err e => expected_failure e end.
Proof.
  intros Hv. unfold Spec.remove. destruct (db_items v !! id) as [r|] eqn:Hr; [|by split; [|left]].
  destruct (negb _); [by split; [|right; left]|].
  split; [by apply delete_ok|exists id; auto].
Qed.

Lemma created_answered now data v r v' :
  table_ok v → name_ok (cd_name data) → price_ok (cd_price data) →
  description_ok (cd_description data) → Spec.created now data v r v' →
  table_ok v' ∧ match r with Ok row => ∃ id, item_ok id row | Err e => expected_failure e end.
Proof.
  intros Hv Hn Hp Hd (id & Hid & Hc).
  destruct (db_items v !! id); destruct Hc as [-> ->]; [by split; [|right; right]|].
  set (row := mkItem _ _ _ _ _ _ _).
  assert (item_ok id row) by (split_and!; simpl; try done).
  split; [by apply insert_ok|by exists id].
Qed.

Lemma update_request_data_ok u : UpdateItemRequest_ok u → update_data_ok (ItemService.update_data u).
Proof. intros (_ & Hn & Hp & Hd & _). by split_and!. Qed.

Lemma replace_request_data_ok b : ItemBase_ok b → update_data_ok (ItemService.replace_data b).
Proof. intros (Hn & Hp & Hd). split_and!; simpl; intros ? [= <-]; done. Qed.

(** [C11] Type preservation end to end: a body the models accept, run by its endpoint on a
    table whose rows satisfy every declared bound, leaves such a table, and is either
    answered with a row that passes the response model, or refused as missing (404),
    stale (409) or colliding (the driver's integrity error) — response validation never
    fails on stored rows. *)
Theorem endpoints_preserve_table now v id body :
  table_ok v →
  (∀ b, new_ItemBase body = Ok b → triple now v (Controller.create b) answered) ∧
  (∀ u, new_UpdateItemRequest body = Ok u → triple now v (Controller.update id u) answered) ∧
  (∀ r, ReplaceItemRequest body = Ok r → triple now v (Controller.replace id r) answered) ∧
  (∀ z, VersionInput body = Ok z → triple now v (Controller.delete id z) answered).
Proof.
  intros Hv. pose proof (table_ok_filed v Hv) as Hf. split_and!.
  - intros b (Hn & Hp & Hd)%new_ItemBase_ok. eapply triple_answer.
    + apply triple_bind, triple_lift. simpl. apply triple_create.
    + intros r v'. by apply created_answered.
  - intros u Hu%new_UpdateItemRequest_ok. eapply triple_answer.
    + by apply triple_versioned_write.
    + intros r v' E. pose proof (write_answered now id (up_expected_version u)
        (ItemService.update_data u) v Hv (update_request_data_ok u Hu)) as H.
      by rewrite <-E in H.
  - intros [z b] [_ Hb]%ReplaceItemRequest_ok. eapply triple_answer.
    + by apply triple_versioned_write.
    + intros r v' E. pose proof (write_answered now id z (ItemService.replace_data b) v Hv
        (replace_request_data_ok b Hb)) as H.
      simpl in E. by rewrite <-E in H.
  - intros z _. eapply triple_answer.
    + by apply triple_delete.
    + intros r v' E. pose proof (remove_answered id z v Hv) as H. by rewrite <-E in H.
Qed.

Lemma demo_table_ok z : version_ok z → table_ok (demo_db z).
Proof.
  intros Hz. unfold table_ok. simpl. apply map_Forall_singleton.
  split_and!; [reflexivity|reflexivity|split; vm_compute; discriminate| |vm_compute; discriminate|done].
  exists 4999. split; [lia|reflexivity].
Defined.

Lemma endpoints_preserve_table_witness :
  (∃ v', view_of (Controller.create (mkItemBase "Bow" (cents 150) None) (demo_world (demo_db 7))).2
         = Some v'
     ∧ answered (Controller.create (mkItemBase "Bow" (cents 150) None) (demo_world (demo_db 7))).1 v')
  ∧ (Controller.create (mkItemBase "Bow" (cents 150) None) (demo_world (demo_db 7))).1
    = Ok (mkItem "3333333333333333" 1 "Bow" (cents 150) None 9000 9000).
Proof.
  split; [|vm_compute; reflexivity].
  destruct (endpoints_preserve_table 9700 (demo_db 7) ""
    [("name", VStr "Bow"); ("price", VStr "1.5")] (demo_table_ok 7 ltac:(vm_compute; split; discriminate)))
    as (Hc & _).
  exact (triple_no_fault 9700 _ _ _ (demo_world (demo_db 7)) (Hc _ eq_refl)
           eq_refl eq_refl (λ _, eq_refl) eq_refl).
Defined.

(** ** Listing *)
Section pages.
Context `{Collation}.

(** What the query plan relies on: the collation is a total preorder of texts. *)
Class CollationLaws : Prop := {
  text_le_total a b : text_le a b = true ∨ text_le b a = true;
  text_le_trans a b c : text_le a b = true → text_le b c = true → text_le a c = true
}.

(** The primary key: rows with identifiers the collation does not tell apart are one. *)
Definition key_distinguishes (l : list item) : Prop :=
  ∀ a b, a ∈ l → b ∈ l →
  text_le (it_id a) (it_id b) = true → text_le (it_id b) (it_id a) = true → a = b.

Context `{!CollationLaws}.

Lemma sort_le_total c a b : sort_le c a b = true ∨ sort_le c b a = true.
Proof. destruct c; simpl; rewrite ?Z.leb_le; [lia|apply text_le_total|lia]. Qed.

Lemma sort_le_trans c a b d : sort_le c a b = true → sort_le c b d = true → sort_le c a d = true.
Proof. destruct c; simpl; rewrite ?Z.leb_le; [lia|apply text_le_trans|lia]. Qed.

Lemma ascending_spec c a b :
  ascending c a b = true ↔
  sort_le c a b = true ∧ (sort_le c b a = false ∨ text_le (it_id a) (it_id b) = true).
Proof. unfold ascending. rewrite andb_true_iff, orb_true_iff, negb_true_iff. done. Qed.

Lemma ascending_total c a b : ascending c a b = true ∨ ascending c b a = true.
Proof.
  rewrite !ascending_spec.
  destruct (sort_le c a b) eqn:E1, (sort_le c b a) eqn:E2; auto.
  - destruct (text_le_total (it_id a) (it_id b)); auto.
  - destruct (sort_le_total c a b); congruence.
Qed.

Lemma ascending_trans c a b d :
  ascending c a b = true → ascending c b d = true → ascending c a d = true.
Proof.
  rewrite !ascending_spec. intros [H1 H1'] [H2 H2'].
  split; [by eapply sort_le_trans|].
  destruct (sort_le c d a) eqn:E; [right|by left].
  destruct H1' as [H1'|H1'].
  { rewrite (sort_le_trans c b d a) in H1' by done. done. }
  destruct H2' as [H2'|H2'].
  { rewrite (sort_le_trans c d a b) in H2' by done. done. }
  by eapply text_le_trans.
Qed.

#[export] Instance row_order_total q : Total (row_order q).
Proof. intros a b. unfold row_order. destruct (lq_order q); apply ascending_total. Qed.
#[export] Instance row_order_trans q : Transitive (row_order q).
Proof.
  intros a b d. unfold row_order. destruct (lq_order q); intros;
    eapply ascending_trans; eauto.
Qed.

Lemma row_order_antisymm q a b :
  row_order q a b → row_order q b a →
  text_le (it_id a) (it_id b) = true ∧ text_le (it_id b) (it_id a) = true.
Proof.
  unfold row_order. destruct (lq_order q); rewrite !ascending_spec;
    intros [? [?|?]] [? [?|?]]; try congruence; auto.
Qed.

(** The order of a page does not depend on how the table is stored. *)
Lemma base_query_unique q d l :
  key_distinguishes (rows d) → l ≡ₚ rows d →
  merge_sort (row_order q) (filter (λ r, selected q r = true) l) = base_query q d.
Proof.
  intros Hk Hl. unfold base_query.
  assert (filter (λ r, selected q r = true) l
          ≡ₚ filter (λ r, selected q r = true) (rows d)) as Hf by by rewrite Hl.
  eapply (StronglySorted_unique_strong (row_order q)).
  - intros a b Ha Hb Hab Hba. rewrite merge_sort_Permutation in Ha, Hb.
    rewrite Hf in Ha. apply list_elem_of_filter in Ha as [_ Ha].
    apply list_elem_of_filter in Hb as [_ Hb].
    destruct (row_order_antisymm q a b Hab Hba). by apply Hk.
  - apply StronglySorted_merge_sort; apply _.
  - apply StronglySorted_merge_sort; apply _.
  - by rewrite !merge_sort_Permutation.
Qed.
End pages.

Lemma concat_chunks {A} (k n : nat) (l : list A) :
  (length l ≤ n * k)%nat →
  concat ((λ i, take k (drop (i * k) l)) <$> seq 0 n) = l.
Proof.
  revert l. induction n as [|n IH]; intros l Hl; simpl.
  - destruct l; [done|]. simpl in Hl. lia.
  - rewrite drop_0. etrans; [|apply (take_drop k l)]. f_equal.
    rewrite <-(IH (drop k l)) by (rewrite length_drop; lia).
    rewrite <-fmap_S_seq, <-list_fmap_compose. f_equal. apply list_fmap_ext.
    intros i j _. simpl. by rewrite drop_drop.
Qed.

Lemma rows_NoDup d : filed d → NoDup (rows d).
Proof.
  intros Hf. apply (NoDup_fmap_1 it_id). unfold rows.
  assert (it_id <$> (map_to_list (db_items d)).*2 = (map_to_list (db_items d)).*1) as ->.
  { rewrite <-list_fmap_compose. apply list_fmap_ext. intros i [id r] Hi. simpl.
    apply (Hf id r), elem_of_map_to_list, list_elem_of_lookup_2 with i, Hi. }
  apply NoDup_fst_map_to_list.
Qed.

(** A page of the listing: the query with another page number. *)
Definition page_query (p : Z) (q : ItemPaginationQuery) : ItemPaginationQuery :=
  let b := Models.base_query q in
  mkItemPaginationQuery
    (mkPaginationQuery p (limit b) (Models.order b) (search b))
    (Models.sort q) (min_price q) (max_price q).

Definition first_pages (n : nat) : list Z := (λ i, Z.of_nat i + 1) <$> seq 0 n.

Lemma total_pages_enough total page lim :
  0 ≤ total → 1 ≤ lim →
  total ≤ total_pages (mkPaginatedResult (T := item) [] total page lim) * lim.
Proof.
  intros Ht Hl. unfold total_pages. simpl. rewrite (proj2 (Z.eqb_neq lim 0)) by lia.
  pose proof (Z.div_mod (total + lim - 1) lim ltac:(lia)).
  pose proof (Z.mod_pos_bound (total + lim - 1) lim ltac:(lia)). nia.
Qed.

(** [C29] Listing: for an accepted query over a fixed table, the pages 1 to [total_pages]
    concatenated are the whole result — every matching row exactly once, in the
    requested order with the identifier as tie-break — and that result is the same
    whatever order the table stores its rows in. *)
Theorem pages_partition_the_listing `{CollationLaws} d page0 lim ord srt srch mn mx q :
  new_ItemPaginationQuery page0 lim ord srt srch mn mx = Ok q →
  filed d → key_distinguishes (rows d) →
  let whole := base_query (ItemService.list_query q) d in
  let n := total_pages (mkPaginatedResult (T := item) [] (Z.of_nat (length whole)) page0 lim) in
  concat ((λ p, data_query (ItemService.list_query (page_query p q)) d)
            <$> first_pages (Z.to_nat n)) = whole ∧
  StronglySorted (row_order (ItemService.list_query q)) whole ∧
  (∀ r, r ∈ whole ↔ r ∈ rows d ∧ selected (ItemService.list_query q) r = true) ∧
  NoDup whole ∧
  (∀ l, l ≡ₚ rows d →
     merge_sort (row_order (ItemService.list_query q))
       (filter (λ r, selected (ItemService.list_query q) r = true) l) = whole).
Proof.
  intros Hq Hf Hk whole n.
  assert (1 ≤ lim ∧ limit (Models.base_query q) = lim) as [Hlim El].
  { unfold new_ItemPaginationQuery, new_PaginationQuery in Hq.
    destruct (_ || _); [done|]. destruct ((lim <? 1) || _) eqn:E; [done|]. reflect_bools.
    destruct (validate_order ord); [|done]. simpl in Hq.
    unfold validate_offset in Hq. destruct (_ <? _); [done|]. simpl in Hq.
    destruct (validate_sort srt); [|done]. simpl in Hq.
    destruct (optional_price mn); [|done]. simpl in Hq.
    destruct (optional_price mx); [|done]. simpl in Hq.
    unfold validate_price_range in Hq. simpl in Hq.
    split; [lia|]. split_matches; done. }
  split_and!.
  - rewrite <-(concat_chunks (Z.to_nat lim) (Z.to_nat n) whole).
    2:{ pose proof (total_pages_enough (Z.of_nat (length whole)) page0 lim ltac:(lia) Hlim) as Hn.
        fold n in Hn. nia. }
    f_equal. unfold first_pages. rewrite <-list_fmap_compose. apply list_fmap_ext.
    intros i j _. unfold data_query, whole, compose. f_equal.
    + simpl. by rewrite El.
    + f_equal. unfold ItemService.list_query, page_query, offset. simpl. rewrite El. lia.
  - apply StronglySorted_merge_sort; apply _.
  - intros r. unfold whole, base_query. rewrite merge_sort_Permutation.
    rewrite list_elem_of_filter. tauto.
  - unfold whole, base_query. rewrite merge_sort_Permutation. apply NoDup_filter.
    by apply rows_NoDup.
  - intros l Hl. by apply base_query_unique.
Qed.

(** Texts ordered by length. *)
#[local] Instance demo_collation : Collation := {
  ilike t p := contains (strip t) p;
  text_le a b := (String.length a <=? String.length b)%nat
}.

#[local] Instance demo_collation_laws : CollationLaws.
Proof.
  split; simpl; intros.
  - destruct (Nat.leb_spec (String.length a) (String.length b)); [by left|right].
    apply Nat.leb_le. lia.
  - apply Nat.leb_le. apply Nat.leb_le in H, H0. lia.
Defined.

Definition demo_query : ItemPaginationQuery :=
  mkItemPaginationQuery (mkPaginationQuery 1 1 desc None) PRICE (Some (cents 100)) None.

Lemma pages_partition_the_listing_witness :
  let whole := base_query (ItemService.list_query demo_query) (demo_db 7) in
  whole = [demo_item 7] ∧
  concat ((λ p, data_query (ItemService.list_query (page_query p demo_query)) (demo_db 7))
            <$> first_pages 1) = whole.
Proof.
  split; [vm_compute; reflexivity|].
  apply (pages_partition_the_listing (demo_db 7) 1 1 (VStr "DESC") (VStr "price") None
           (Some (VStr "1")) None demo_query).
  - reflexivity.
  - apply demo_filed.
  - intros a b Ha Hb _ _. vm_compute in Ha, Hb.
    apply list_elem_of_singleton in Ha as ->. by apply list_elem_of_singleton in Hb as ->.
Defined.
