(* ===== verification/Idempotency.v ===== *)
(** * Idempotent mutations

    [app/common/models/idempotency_model.py] (declarations and the key header),
    [app/database/repositories/idempotency_repo.py] and
    [app/common/services/idempotency_service.py]: the durable claim of a keyed request,
    its replay, and the advisory lock that serializes requests of one scope. *)
From stdpp Require Import sorting.
From S2P Require Import Prelude PyText Values Sha256 JsonText Fingerprint Models Database.
Open Scope Z_scope.

(** ** Declarations *)
Definition PUBLIC_IDEMPOTENCY_SCOPE : string := "public".
Definition RETENTION_SECONDS : Z := 86400.
Definition CLEANUP_INTERVAL_SECONDS : Z := 3600.
Definition KEY_ERROR : string :=
  "Idempotency-Key must be one opaque 1–128 character printable ASCII value without whitespace or commas.".

(** What a mutation sees of its request. *)
Record Request := mkRequest {
  rq_method : string;
  rq_headers : list (string * string);     (* names in lower case, as ASGI delivers them *)
  rq_path_format : option string;          (* the matched route's template *)
  rq_caller : string;                      (* what authentication left in request.state *)
  rq_params : list (string * string);      (* path parameters *)
  rq_body : value                          (* the parsed JSON body *)
}.

Inductive caller_scope_decl :=
| FixedScope (s : string)
| ScopeOf (f : Request → py string).

Record IdempotencyPolicy := mkPolicy {
  operation : string;
  route : option string;
  caller_scope : caller_scope_decl
}.

(** [IdempotencyPolicy.__post_init__] *)
Definition bounded (lo hi : Z) (s : string) : bool := (lo <=? ulen s) && (ulen s <=? hi).

Definition post_init (p : IdempotencyPolicy) : py IdempotencyPolicy :=
  if negb (bounded 1 128 (operation p))
     || match route p with Some r => negb (bounded 1 512 r) | None => false end
  then Err (ValueError
    "Idempotency requires a bounded operation and stable public route template.")
  else if match caller_scope p with FixedScope s => negb (bounded 1 128 s) | _ => false end
  then Err (ValueError "Idempotency caller scope must contain 1–128 characters.")
  else Ok p.

(** [re.sub(r'{([^}]+)}', r':\1', template)] *)
Fixpoint until_brace (s : string) : option (string * string) :=
  match s with
  | EmptyString => None
  | String c r =>
      if Ascii.eqb c "}"%char then Some (EmptyString, r)
      else '(name, rest) ← until_brace r; Some (String c name, rest)
  end.

Fixpoint colon_names (fuel : nat) (s : string) : string :=
  match fuel, s with
  | S fuel, String c r =>
      if Ascii.eqb c "{"%char then
        match until_brace r with
        | Some (String n ns, rest) => ":" +:+ String n ns +:+ colon_names fuel rest
        | _ => String c (colon_names fuel r)
        end
      else String c (colon_names fuel r)
  | _, _ => EmptyString
  end.

Definition express_template (template : string) : string :=
  let template := rstrip_char "/"%char template in
  let template := if String.eqb template "" then "/" else template in
  colon_names (String.length template) template.

Definition resolve_route (request : Request) (policy : IdempotencyPolicy) : py string :=
  match route policy with
  | Some r => Ok r
  | None =>
      match rq_path_format request with
      | None => Err (RuntimeError "Automatic idempotency requires a matched route template.")
      | Some template => Ok (rq_method request +:+ " " +:+ express_template template)
      end
  end.

(** [[\x21-\x2b\x2d-\x7e]{1,128}] *)
Definition key_char (c : ascii) : bool := in_range 33 43 c || in_range 45 126 c.
Definition valid_key (s : string) : bool :=
  str_all key_char s && (1 <=? blen s) && (blen s <=? 128).

Definition read_key (request : Request) : py (option string) :=
  let values := (filter (λ h, h.1 = "idempotency-key") (rq_headers request)).*2 in
  match values with
  | [] => Ok None
  | [v] => if valid_key v then Ok (Some v)
           else Err (HTTPException PlainHTTPException 400 KEY_ERROR [])
  | _ => Err (HTTPException PlainHTTPException 400 KEY_ERROR [])
  end.

(** ** Repository *)
Module Repo.
Definition require_transaction : M unit := λ w,
  if in_transaction w then (Ok tt, w)
  else (Err (RuntimeError "Idempotency writes require an active transaction."), w).

(** The row, and whether [expires_at > UTC_TIMESTAMP(3)]; a NULL compares to NULL. *)
Definition find (hash : string) : M (option (claim * bool)) :=
  _ ← require_transaction;
  now ← get w_utc;
  statement (λ d,
    Ok (match db_claims d !! hash with
        | Some c => Some (c, match cl_expires_at c with Some t => now <? t | None => false end)
        | None => None
        end, d)).

Definition claim (hash : string) (record : Database.claim) : M unit :=
  _ ← require_transaction;
  statement (λ d,
    match db_claims d !! hash with
    | Some _ => Err DBAPIError
    | None => Ok (tt, set_claims (<[hash := record]> (db_claims d)) d)
    end).

Definition expired (now : Z) (c : Database.claim) : bool :=
  bool_decide (cl_state c = completed)
  && match cl_expires_at c with Some t => t <=? now | None => false end.

Definition delete_expired (hash : string) : M unit :=
  _ ← require_transaction;
  now ← get w_utc;
  statement (λ d,
    Ok (tt, match db_claims d !! hash with
            | Some c => if expired now c
                        then set_claims (base.delete hash (db_claims d)) d else d
            | None => d
            end)).

(** [.values(state='completed', ...)] *)
Definition completed_claim (now : Z) (status : Z) (body : string) (c : Database.claim)
  : Database.claim :=
  mkClaim (cl_namespace c) (cl_caller_scope c) (cl_operation c) (cl_route c)
    (cl_fingerprint c) completed (Some status) (Some body) (Some now)
    (Some (now + 1000 * RETENTION_SECONDS)).

Definition complete_where (now : Z) (hash : string) (status : Z) (body : string) (d : db)
  : Z * db :=
  match db_claims d !! hash with
  | Some c =>
      if bool_decide (cl_state c = processing)
      then (1, set_claims (<[hash := completed_claim now status body c]> (db_claims d)) d)
      else (0, d)
  | None => (0, d)
  end.

Definition complete (hash : string) (status : Z) (body : string) : M unit :=
  _ ← require_transaction;
  now ← get w_utc;
  rowcount ← statement (λ d, Ok (complete_where now hash status body d));
  if negb (rowcount =? 1)
  then raise (RuntimeError "Only a processing idempotency claim can be completed.")
  else mret tt.

(** ORDER BY expires_at, scope_hash *)
Definition expiry_key (kc : string * Database.claim) : Z := default 0 (cl_expires_at kc.2).
Definition expiry_le (a b : string * Database.claim) : Prop :=
  (expiry_key a <? expiry_key b) || ((expiry_key a =? expiry_key b) && str_le a.1 b.1) = true.
#[global] Instance expiry_le_dec a b : Decision (expiry_le a b).
Proof. unfold expiry_le. apply _. Defined.

Definition purge_batch (now limit : Z) (d : db) : list string :=
  (take (Z.to_nat limit)
     (merge_sort expiry_le
        (filter (λ kc, expired now kc.2 = true) (map_to_list (db_claims d))))).*1.

Definition delete_all (ks : list string) (m : gmap string Database.claim)
  : gmap string Database.claim := foldr base.delete m ks.

Definition purge_expired_batch (limit : Z) : M Z :=
  _ ← require_transaction;
  if negb ((1 <=? limit) && (limit <=? 1000))
  then raise (ValueError "Idempotency cleanup batch must contain 1–1000 rows.")
  else
  now ← get w_utc;
  statement (λ d,
    let ks := purge_batch now limit d in
    Ok (Z.of_nat (length ks), set_claims (delete_all ks (db_claims d)) d)).
End Repo.

(** ** Prepared responses *)

(** [JSONResponse] and [PreparedJSONResponse]: a status and the bytes of the body. *)
Record JSONResponse := mkJSONResponse { status_code : Z; body : string }.

Definition validate_response (status : Z) (body : string) (limit : Z) : py unit :=
  if negb ((200 <=? status) && (status <? 300)) || (limit <? blen body)
  then Err (RuntimeError "Prepared response exceeds the idempotency storage contract.")
  else if (status =? 204) || (status =? 205)
  then if String.eqb body "" then Ok tt
       else Err (RuntimeError "Bodyless idempotent responses must not contain JSON.")
  else text ← decode_utf8 body; json_loads text.

(** ** Execution *)

(** [settings]: the values the service reads. *)
Record Settings := mkSettings {
  APP_NAME : string;
  DATABASE_NAME : string;                       (* engine.url.database *)
  IDEMPOTENCY_MAX_RESPONSE_BYTES : Z;
  IDEMPOTENCY_CLEANUP_MAX_BATCHES : nat;
  IDEMPOTENCY_CLEANUP_BATCH_SIZE : Z
}.

(** What [find] leaves to do: replay a response, or claim the scope (after removing an
    expired claim). *)
Inductive lookup_outcome :=
| Replay (r : JSONResponse)
| ClaimFresh
| ClaimExpired.

Definition stored_response_limit : Z := 65536.

Definition consider (existing : option (claim * bool)) (fingerprint : string)
  : py lookup_outcome :=
  match existing with
  | None => Ok ClaimFresh
  | Some (record, unexpired) =>
      if negb (bool_decide (cl_state record = completed))
      then Err (RuntimeError "Unexpected persisted idempotency claim state.")
      else if unexpired then
        if negb (String.eqb (cl_fingerprint record) fingerprint)
        then Err (HTTPException PlainHTTPException 409
               "Idempotency-Key was already used with a different payload." [])
        else match cl_response_status record, cl_response_body record with
        | Some status, Some body =>
            _ ← validate_response status body stored_response_limit;
            Ok (Replay (mkJSONResponse status body))
        | _, _ => Err (RuntimeError "Stored idempotency response is incomplete.")
        end
      else Ok ClaimExpired
  end.

Section execution.
Variable settings : Settings.
Variable request : Request.
Variable policy : IdempotencyPolicy.
Variable key : string.

(** The identity of the claim: its scope hash, and the columns it is stored with. *)
Definition resolve_caller : py string :=
  caller ← match caller_scope policy with FixedScope s => Ok s | ScopeOf f => f request end;
  if negb (bounded 1 128 caller)
  then Err (RuntimeError "Idempotency caller scope must contain 1–128 characters.")
  else Ok caller.

Definition namespace_of : py string :=
  digest (VList [VStr (APP_NAME settings); VStr (DATABASE_NAME settings)]).

Definition scope_hash_of (namespace caller route : string) : py string :=
  digest (VList [VStr "idempotency-v1"; VStr namespace; VStr caller; VStr (operation policy);
                 VStr route; VStr key]).

(** [SELECT GET_LOCK(:name, 0)]: 1, 0 when another session holds it, NULL on an error. *)
Definition get_lock (name : string) : M (option Z) :=
  _ ← begin_work;
  ev ← await_point;
  act (λ w,
    let w' := if bool_decide (name ∈ w_other_locks w) then w
              else set_own_locks ({[name]} ∪ w_own_locks w) w in
    match ev_fault ev with
    | Some e => (Err e, if ev_applied ev then w' else w)
    | None =>
        if ev_lock_failed ev then (Ok None, w)
        else (Ok (Some (if bool_decide (name ∈ w_other_locks w) then 0 else 1)), w')
    end).

Definition set_scope_hash (h : string) : M unit :=
  modify (λ w, let x := w_execution w in
    set_execution (mkExecution (Some h) (locked x) (uncertain x) (claimed x)) w).
Definition set_uncertain (b : bool) : M unit :=
  modify (λ w, let x := w_execution w in
    set_execution (mkExecution (scope_hash x) (locked x) b (claimed x)) w).
Definition set_locked : M unit :=
  modify (λ w, let x := w_execution w in
    set_execution (mkExecution (scope_hash x) true (uncertain x) (claimed x)) w).
Definition set_claimed : M unit :=
  modify (λ w, let x := w_execution w in
    set_execution (mkExecution (scope_hash x) (locked x) (uncertain x) true) w).

(** Lock ownership is uncertain until the answer is known to be 0 or 1. *)
Definition acquire (hash : string) : M unit :=
  _ ← set_uncertain true;
  acquired ← get_lock hash;
  match acquired with
  | None => raise (RuntimeError "Unable to establish idempotency lock ownership.")
  | Some n =>
      if negb ((n =? 0) || (n =? 1))
      then raise (RuntimeError "Unable to establish idempotency lock ownership.")
      else
      _ ← set_uncertain false;
      if n =? 0
      then raise (HTTPException PlainHTTPException 409
                    "This idempotent request is already processing." [])
      else set_locked
  end.

Definition new_claim (namespace caller route fingerprint : string) : claim :=
  mkClaim namespace caller (operation policy) route fingerprint processing None None None None.

(** [IdempotencyExecution.begin] *)
Definition begin (inputs : value) : M (option JSONResponse) :=
  _ ← assert_active;
  caller ← lift resolve_caller;
  namespace ← lift namespace_of;
  route ← lift (resolve_route request policy);
  hash ← lift (scope_hash_of namespace caller route);
  _ ← set_scope_hash hash;
  fingerprint ← lift (digest inputs);
  _ ← acquire hash;
  _ ← assert_active;
  existing ← Repo.find hash;
  outcome ← lift (consider existing fingerprint);
  match outcome with
  | Replay r => mret (Some r)
  | ClaimFresh | ClaimExpired =>
      _ ← match outcome with ClaimExpired => Repo.delete_expired hash | _ => mret tt end;
      _ ← Repo.claim hash (new_claim namespace caller route fingerprint);
      _ ← set_claimed;
      _ ← assert_active;
      mret None
  end.

(** [IdempotencyExecution.complete] *)
Definition complete (response : JSONResponse) : M unit :=
  x ← get w_execution;
  if claimed x then
    _ ← assert_active;
    match scope_hash x with
    | None => raise (RuntimeError "Missing idempotency scope.")
    | Some hash =>
        _ ← lift (validate_response (status_code response) (body response)
                    (IDEMPOTENCY_MAX_RESPONSE_BYTES settings));
        Repo.complete hash (status_code response) (body response)
    end
  else mret tt.

(** [await self.connection.invalidate()]: the server ends the session and drops its
    named locks. *)
Definition invalidate : M unit := modify (λ w, set_invalidated true (set_own_locks ∅ w)).

(** [SELECT RELEASE_LOCK(:name)]: 1 when this session held it. *)
Definition release_lock (name : string) : M (option Z) :=
  ev ← await_point;
  act (λ w,
    let held := bool_decide (name ∈ w_own_locks w) in
    let w' := set_own_locks (w_own_locks w ∖ {[name]}) w in
    match ev_fault ev with
    | Some e => (Err e, if ev_applied ev then w' else w)
    | None => if ev_lock_failed ev then (Ok None, w)
              else (Ok (Some (if held then 1 else 0)), w')
    end).

(** The body of [release]'s [try]. *)
Definition release_body : M unit :=
  x ← get w_execution;
  invalidated ← get w_invalidated;
  open ← get in_transaction;
  if uncertain x || invalidated || open then invalidate
  else if locked x then
    released ← match scope_hash x with
               | Some h => release_lock h
               | None => mret None
               end;
    if bool_decide (released = Some 1) then mret tt
    else raise (RuntimeError "Unable to confirm idempotency lock release.")
  else mret tt.

(** [IdempotencyExecution.release] *)
Definition release (failed : bool) : M unit :=
  finally
    (λ w, match release_body w with
          | (Ok _, w1) => (Ok tt, w1)
          | (Err e, w1) =>
              let w2 := (invalidate w1).2 in
              if failed then (Ok tt, w2) else (Err e, w2)
          end)
    (invalidated ← get w_invalidated;
     if failed && negb invalidated then invalidate else mret tt).

(** [async with pinned_execution(...)]: connecting may fail; leaving releases. *)
Definition connect : M unit :=
  ev ← await_point;
  match ev_fault ev with Some e => raise e | None => mret tt end.

Definition pinned_execution {A} (p : M A) : M A :=
  _ ← connect;
  _ ← modify (λ w, set_execution new_execution (set_invalidated false w));
  act (λ w,
    match p w with
    | (Ok a, w1) =>
        match release false w1 with (Ok _, w2) => (Ok a, w2) | (Err e, w2) => (Err e, w2) end
    | (Err e, w1) =>
        match release true w1 with (Ok _, w2) => (Err e, w2) | (Err e', w2) => (Err e', w2) end
    end).
End execution.
