(* ===== verification/Mutation.v ===== *)
(** * Mutation routes

    [app/common/handlers/application_route.py]: what an idempotent endpoint may declare,
    and [ApplicationRoute]'s handler, which owns the transaction around the endpoint, the
    keyed execution and the response. *)
From S2P Require Import Prelude PyText Values Fingerprint Models Database Idempotency.
Open Scope Z_scope.

(** ** Declarations of an idempotent endpoint *)

(** FastAPI's [params]: how a field was declared. *)
Inductive field_info :=
| Body (media_type : string)
| Form (media_type : string)
| Param.

Record ModelField := mkField {
  fld_name : string;
  fld_alias : string;
  fld_info : field_info
}.

Inductive Dependant := mkDependant {
  request_param_name : option string;
  http_connection_param_name : option string;
  header_params : list ModelField;
  cookie_params : list ModelField;
  path_params : list ModelField;
  query_params : list ModelField;
  body_params : list ModelField;
  dependencies : list Dependant
}.

Definition nonempty {A} (l : list A) : bool := match l with [] => false | _ => true end.

(** [re.findall(r'{([^}]+)}', path)] *)
Fixpoint brace_names (fuel : nat) (s : string) : list string :=
  match fuel, s with
  | S fuel, String c r =>
      if Ascii.eqb c "{"%char then
        match until_brace r with
        | Some (String n ns, rest) => String n ns :: brace_names fuel rest
        | _ => brace_names fuel r
        end
      else brace_names fuel r
  | _, _ => []
  end.

Definition path_names (path : string) : list string := brace_names (String.length path) path.

Fixpoint ends_with (suffix s : string) : bool :=
  String.eqb suffix s || match s with EmptyString => false | String _ r => ends_with suffix r end.

Definition json_body (f : ModelField) : bool :=
  match fld_info f with
  | Body media => String.eqb media "application/json" || ends_with "+json" media
  | _ => false
  end.

Definition unique_aliases (l : list ModelField) : bool := bool_decide (NoDup (fld_alias <$> l)).

Definition hidden_inputs (d : Dependant) : bool :=
  nonempty (body_params d) || nonempty (path_params d) || nonempty (query_params d).

Fixpoint dependant_size (d : Dependant) : nat :=
  match d with
  | mkDependant _ _ _ _ _ _ _ deps => S (list_sum (map dependant_size deps))
  end.

(** [while pending: dependency = pending.pop() ...]; the stack's last element is the
    head of the list, so [extend] pushes the dependencies in reverse. *)
Fixpoint check_pending (fuel : nat) (pending : list Dependant) : py unit :=
  match fuel, pending with
  | _, [] => Ok tt
  | O, _ => Ok tt
  | S fuel, dependency :: pending =>
      if hidden_inputs dependency
      then Err (RuntimeError
        "Idempotent body/path/query inputs must be declared directly on the endpoint; dependencies may provide authorization and services, not hidden mutation inputs.")
      else check_pending fuel (reverse (dependencies dependency) ++ pending)
  end.

Definition _validate_idempotent_inputs (dependant : Dependant) (path : string) : py unit :=
  if bool_decide (request_param_name dependant ≠ None)
     || bool_decide (http_connection_param_name dependant ≠ None)
     || nonempty (header_params dependant) || nonempty (cookie_params dependant)
  then Err (RuntimeError
    "Idempotent endpoints must declare business inputs as body/path/query parameters, not raw requests, headers or cookies. Use dependencies for authorization and services.")
  else if existsb (λ n, negb (bool_decide (n ∈ fld_alias <$> path_params dependant)))
            (path_names path)
  then Err (RuntimeError
    "Every idempotent route path parameter must be declared on its endpoint.")
  else if negb (unique_aliases (body_params dependant))
          || negb (unique_aliases (path_params dependant))
          || negb (unique_aliases (query_params dependant))
  then Err (RuntimeError
    "Idempotent input parameter aliases must be unique within each input category.")
  else if existsb (λ f, negb (json_body f)) (body_params dependant)
  then Err (RuntimeError "Idempotent routes support declared JSON bodies only.")
  else
    check_pending (dependant_size dependant) (reverse (dependencies dependant)).

(** ** The route handler *)

(** A prepared response: [isinstance(response, JSONResponse)], [response.background],
    and its status and bytes. *)
Record Response := mkResponse {
  is_JSONResponse : bool;
  background : bool;
  prepared : JSONResponse
}.

(** The values FastAPI validated, by parameter name. *)
Definition Values : Type := list (string * value).

Definition value_at (n : string) (vs : Values) : value := default VNone (assoc_get n vs).

Definition by_alias (fields : list ModelField) (vs : Values) : value :=
  VDict ((λ f, (VStr (fld_alias f), value_at (fld_name f) vs)) <$> fields).

(** The inputs [execution.begin] fingerprints. *)
Definition fingerprint_inputs (d : Dependant) (vs : Values) : value :=
  VDict
    [(VStr "body", match body_params d with
                   | [] => VNone
                   | [f] => value_at (fld_name f) vs
                   | fields => by_alias fields vs
                   end);
     (VStr "params", match path_params d with [] => VNone | fields => by_alias fields vs end);
     (VStr "query", match query_params d with [] => VNone | fields => by_alias fields vs end)].

(** An endpoint as the route sees it, for validated inputs [V] and results [A].  FastAPI's
    request validation and response preparation are not part of the repository. *)
Record Endpoint (V A : Type) := mkEndpoint {
  ep_transactional : bool;                      (* @transactional *)
  ep_policy : option IdempotencyPolicy;         (* @idempotent *)
  ep_dependant : Dependant;
  ep_path_format : string;
  ep_validate : Request → py V;
  ep_values : V → Values;                       (* the endpoint's keyword arguments *)
  ep_original : V → M A;
  ep_render : A → py Response
}.
Arguments ep_transactional {V A}.
Arguments ep_policy {V A}.
Arguments ep_dependant {V A}.
Arguments ep_path_format {V A}.
Arguments ep_validate {V A}.
Arguments ep_values {V A}.
Arguments ep_original {V A}.
Arguments ep_render {V A}.

Section route.
Context {V A : Type} (settings : Settings) (ep : Endpoint V A).

(** The registration checks of [get_route_handler]. *)
Definition register : py unit :=
  match ep_policy ep with
  | None => Ok tt
  | Some _ =>
      if negb (ep_transactional ep)
      then Err (RuntimeError "Idempotency requires a transactional JSON route.")
      else _validate_idempotent_inputs (ep_dependant ep) (ep_path_format ep)
  end.

(** [validated_endpoint]: under a keyed execution, begin it and replay if there is a
    stored response. *)
Definition validated_endpoint (request : Request) (execution : option (IdempotencyPolicy * string))
    (vs : V) : M (Response + A) :=
  match execution with
  | Some (policy, key) =>
      replay ← begin settings request policy key (fingerprint_inputs (ep_dependant ep) (ep_values ep vs));
      match replay with
      | Some r => mret (inl (mkResponse true false r))
      | None => a ← ep_original ep vs; mret (inr a)
      end
  | None => a ← ep_original ep vs; mret (inr a)
  end.

(** FastAPI's handler around the endpoint: validate, call, and prepare what was returned;
    a response is passed through. *)
Definition prepare (request : Request) (execution : option (IdempotencyPolicy * string))
  : M Response :=
  vs ← lift (ep_validate ep request);
  outcome ← validated_endpoint request execution vs;
  match outcome with
  | inl r => mret r
  | inr a => lift (ep_render ep a)
  end.

Definition own_mutation : M unit :=
  modify (λ w, let a := w_activity w in
    set_activity (mkActivity (expires_at a) (abandoned a) true) w).

(** The statements under [session.begin()]. *)
Definition transaction (request : Request) (execution : option (IdempotencyPolicy * string))
  : M Response :=
  _ ← assert_active;
  response ← prepare request execution;
  if negb (is_JSONResponse response) || background response
  then raise (RuntimeError
    "Transactional routes require buffered JSON without background tasks.")
  else
  _ ← (if 400 <=? status_code (prepared response)
       then rollback
       else
         _ ← match execution with
             | Some _ => complete settings (prepared response)
             | None => mret tt
             end;
         assert_active);
  mret response.

(** The [try]/[finally] with the listener and the scope key. *)
Definition owned (request : Request) (execution : option (IdempotencyPolicy * string))
  : M Response :=
  _ ← modify (λ w, set_acquired true (set_owner true w));
  finally (session_begin (transaction request execution))
    (modify (λ w, set_owner false (set_acquired false w))).

(** [ApplicationRoute.get_route_handler().handle] *)
Definition handle (request : Request) : M Response :=
  if negb (ep_transactional ep) then prepare request None
  else
  owner ← get w_owner;
  if (owner : bool) then raise (RuntimeError "A mutation transaction already owns this request.")
  else
  _ ← assert_active;
  _ ← own_mutation;
  key ← match ep_policy ep with Some _ => lift (read_key request) | None => mret None end;
  with_session false (
    open ← get in_transaction;
    if (open : bool) then raise (RuntimeError "A mutation requires a fresh transaction owner.")
    else
    match ep_policy ep, key with
    | Some policy, Some key => pinned_execution (owned request (Some (policy, key)))
    | _, _ => owned request None
    end).
End route.

(** ** What the registration checks establish *)
Inductive depends (d : Dependant) : Dependant → Prop :=
| depends_direct x : x ∈ dependencies d → depends d x
| depends_indirect x y : x ∈ dependencies d → depends x y → depends d y.

Definition no_hidden_inputs (d : Dependant) : Prop :=
  hidden_inputs d = false ∧ ∀ y, depends d y → hidden_inputs y = false.

Lemma no_hidden_inputs_eq d :
  no_hidden_inputs d ↔ hidden_inputs d = false ∧ Forall no_hidden_inputs (dependencies d).
Proof.
  unfold no_hidden_inputs. rewrite Forall_forall. split.
  - intros [Hh H]. split; [done|]. intros x Hx. split; [by apply H, depends_direct|].
    intros y Hy. by eapply H, depends_indirect.
  - intros [Hh H]. split; [done|]. intros y [x Hx|x y' Hx Hy]; [by apply H|by eapply H].
Qed.

Lemma dependant_size_eq d :
  dependant_size d = S (list_sum (map dependant_size (dependencies d))).
Proof. by destruct d. Qed.

Lemma sizes_reverse l : list_sum (map dependant_size (reverse l)) = list_sum (map dependant_size l).
Proof. apply Permutation_list_sum, Permutation_map, reverse_Permutation. Qed.

(** The fuel, the number of dependencies in the tree, is enough. *)
Lemma check_pending_ok fuel pending :
  (list_sum (map dependant_size pending) ≤ fuel)%nat →
  check_pending fuel pending = Ok tt ↔ Forall no_hidden_inputs pending.
Proof.
  revert pending. induction fuel as [|fuel IH]; intros [|d pending] Hf; simpl in *;
    [by split|rewrite dependant_size_eq in Hf; lia|by split|].
  rewrite dependant_size_eq in Hf. rewrite Forall_cons, no_hidden_inputs_eq.
  destruct (hidden_inputs d); [naive_solver|]. rewrite IH.
  - rewrite Forall_app, Forall_reverse. tauto.
  - rewrite map_app, list_sum_app, sizes_reverse. lia.
Qed.

Lemma nonempty_false {A} (l : list A) : nonempty l = false ↔ l = [].
Proof. by destruct l. Qed.

Lemma guarded_ok (b : bool) (e : exn) (p : py unit) :
  (if b then Err e else p) = Ok tt ↔ b = false ∧ p = Ok tt.
Proof. destruct b; naive_solver. Qed.

Lemma existsb_negb_false {A} (f : A → bool) l :
  existsb (λ x, negb (f x)) l = false ↔ Forall (λ x, f x = true) l.
Proof.
  induction l as [|x l IH]; simpl; [by split|].
  by rewrite orb_false_iff, negb_false_iff, Forall_cons, IH.
Qed.

(** An idempotent endpoint passes registration exactly when its business inputs are
    all in the fingerprint: it takes no raw request, connection, header or cookie;
    declares every name of its path template; its aliases are unique per category; its
    bodies are JSON; and nowhere in its tree of dependencies, at any depth, is a body,
    path or query input declared. *)
Theorem idempotent_inputs_are_declared d path :
  _validate_idempotent_inputs d path = Ok tt ↔
    (request_param_name d = None ∧ http_connection_param_name d = None
     ∧ header_params d = [] ∧ cookie_params d = [])
    ∧ Forall (λ n, n ∈ fld_alias <$> path_params d) (path_names path)
    ∧ NoDup (fld_alias <$> body_params d) ∧ NoDup (fld_alias <$> path_params d)
    ∧ NoDup (fld_alias <$> query_params d)
    ∧ Forall (λ f, json_body f = true) (body_params d)
    ∧ ∀ y, depends d y → body_params y = [] ∧ path_params y = [] ∧ query_params y = [].
Proof.
  unfold _validate_idempotent_inputs.
  assert ((∀ y, depends d y → body_params y = [] ∧ path_params y = [] ∧ query_params y = [])
    ↔ check_pending (dependant_size d) (reverse (dependencies d)) = Ok tt) as Hdeps.
  { rewrite check_pending_ok.
    - rewrite Forall_reverse, Forall_forall. unfold no_hidden_inputs.
      assert (∀ y, hidden_inputs y = false ↔
        body_params y = [] ∧ path_params y = [] ∧ query_params y = []) as Hh.
      { intros y. unfold hidden_inputs. rewrite !orb_false_iff, !nonempty_false. tauto. }
      setoid_rewrite Hh. split.
      + intros H x Hx. split; [by apply H, depends_direct|]. intros y Hy.
        by eapply H, depends_indirect.
      + intros H y [x Hx|x y' Hx Hy]; [by apply H|by eapply H].
    - rewrite dependant_size_eq, sizes_reverse. lia. }
  rewrite Hdeps. clear Hdeps. unfold unique_aliases.
  rewrite !guarded_ok, !existsb_negb_false, !orb_false_iff, !nonempty_false, !negb_false_iff,
    !bool_decide_eq_true, !bool_decide_eq_false.
  assert (∀ o : option string, ¬ o ≠ None ↔ o = None) as Hn
    by (intros [s|]; [split; [intros H; by destruct H|done]|naive_solver]).
  rewrite !Hn. setoid_rewrite bool_decide_eq_true. tauto.
Qed.
