(* ===== verification/MutationFacts.v ===== *)
(** * Mutations are atomic and happen at most once

    What [Mutation.v]'s handler guarantees for every schedule of faults, clock readings
    and abandonments: all of a mutation or nothing of it is committed, a keyed mutation is
    committed together with its response, a retry replays that response without running
    the endpoint, and no named lock outlives its request. *)
From S2P Require Import Prelude PyText Values Sha256 JsonText Fingerprint Models Database Idempotency Mutation.
Open Scope Z_scope.

#[local] Arguments digest : simpl never.
#[local] Arguments namespace_of : simpl never.
#[local] Arguments scope_hash_of : simpl never.
#[local] Arguments resolve_caller : simpl never.
#[local] Arguments resolve_route : simpl never.
#[local] Arguments consider : simpl never.

(** ** Weakest preconditions *)
Definition runs {A} (p : M A) (w : world) (Q : py A → world → Prop) : Prop :=
  Q (p w).1 (p w).2.

Lemma runs_mono {A} (p : M A) w (Q Q' : py A → world → Prop) :
  (∀ r w', Q r w' → Q' r w') → runs p w Q → runs p w Q'.
Proof. unfold runs. auto. Qed.

Lemma runs_bind {A B} (p : M B) (f : B → M A) w Q :
  runs p w (λ r w', match r with Ok b => runs (f b) w' Q | Err e => Q (Err e) w' end) →
  runs (p ≫= f) w Q.
Proof. unfold runs, mbind, M_bind. by destruct (p w) as [[b|e] w']. Qed.

Lemma runs_bind_assoc {A B C} (p : M B) (g : B → M C) (f : C → M A) w Q :
  runs ((p ≫= g) ≫= f) w Q → runs (p ≫= λ b, g b ≫= f) w Q.
Proof. unfold runs, mbind, M_bind. by destruct (p w) as [[b|e] w']. Qed.

(** Ending a transaction without committing it, by a rollback or by closing its session. *)
Lemma runs_ends (p : M unit) w (Q : py unit → world → Prop) :
  ends_transaction w (p w) →
  (∀ w', frame w w' → w_tx w' = NoTransaction →
     Q (Ok tt) w' ∧ ∀ e n, ev_fault (w_event w n) = Some e → Q (Err e) w') →
  runs p w Q.
Proof.
  intros (Hf & Ht & Hr) HQ. unfold runs. destruct (HQ _ Hf Ht) as [H1 H2].
  destruct Hr as [->|(e & n & -> & He)]; eauto.
Qed.

Lemma runs_with_session {A} autobegin (p : M A) w (Q : py A → world → Prop) :
  runs p (new_session autobegin w) (λ r w1,
    ∀ w2, frame w1 w2 → w_tx w2 = NoTransaction →
      Q r w2 ∧ ∀ e n, ev_fault (w_event w1 n) = Some e → Q (Err e) w2) →
  runs (with_session autobegin p) w Q.
Proof.
  unfold runs, with_session, finally. destruct (p (new_session autobegin w)) as [r w1].
  cbn [fst snd]. intros HQ. pose proof (discard_spec w1) as (Hf & Ht & Hr). destruct (HQ _ Hf Ht) as [H1 H2].
  destruct (discard w1) as [[[]|e] w2]; cbn [fst snd] in *; [done|]. destruct Hr as [?|(e' & n & [= <-] & He)]; [done|eauto].
Qed.

(** What changes during a request besides the activity and the schedule position. *)
Record mframe (w w' : world) : Prop := mkMframe {
  mf_committed : w_committed w' = w_committed w;
  mf_autobegin : w_autobegin w' = w_autobegin w;
  mf_acquired : w_acquired w' = w_acquired w;
  mf_other : w_other_locks w' = w_other_locks w;
  mf_invalidated : w_invalidated w' = w_invalidated w;
  mf_owner : w_owner w' = w_owner w;
  mf_utc : w_utc w' = w_utc w;
  mf_random : w_random w' = w_random w;
  mf_event : w_event w' = w_event w
}.

#[export] Instance mframe_preorder : PreOrder mframe.
Proof.
  split.
  - intros w. by constructor.
  - intros w1 w2 w3 [] []. constructor; congruence.
Qed.

Lemma frame_mframe w w' : frame w w' → mframe w w'.
Proof. intros []. by constructor. Qed.

(** Only the activity and the position in the schedule changed. *)
Definition calm (w w' : world) : Prop := frame w w' ∧ w_tx w' = w_tx w.

Lemma calm_view w w' : calm w w' → view_of w' = view_of w.
Proof. intros [[] Ht]. unfold view_of. by rewrite Ht, fr_committed. Qed.

Lemma runs_await w (Q : py event → world → Prop) :
  (∀ w', calm w w' → Q (Ok (w_event w (w_step w))) w') → runs await_point w Q.
Proof. intros HQ. apply HQ. split; [by constructor|done]. Qed.

Definition is_expired (e : exn) : Prop := ∃ reason, e = request_expired reason.

Lemma runs_assert_active w (Q : py unit → world → Prop) :
  (∀ w', calm w w' → Q (Ok tt) w') →
  (∀ w' e, calm w w' → is_expired e → Q (Err e) w') →
  runs assert_active w Q.
Proof.
  intros HQ HE. apply runs_bind, runs_await. intros w1 [Hf Ht]. unfold runs, act.
  destruct (activity_assert _ _) as [r a] eqn:E. simpl.
  assert (calm w (set_activity a w1)) by (split; [etrans; [exact Hf|by constructor]|done]).
  unfold activity_assert in E. repeat case_match; simplify_eq; auto; apply HE; unfold is_expired; eauto.
Qed.

Lemma runs_lift {A} (r : py A) w Q : Q r w → runs (lift r) w Q.
Proof. done. Qed.

Lemma runs_triple {A} (p : M A) w v R Q :
  triple (w_utc w) v p R → view_of w = Some v →
  (∀ r w' v', frame w w' → view_of w' = Some v' →
     R r v' ∨ (∃ e, r = Err e ∧ interrupted w e) → Q r w') →
  runs p w Q.
Proof.
  intros Hp Hv HQ. destruct (Hp w Hv eq_refl) as (Hf & v' & Hv' & HR). eapply HQ; eauto.
Qed.

(** ** Schedules *)

(** What stops a mutation from outside: a scheduled fault, an expired request, or a lock
    function that failed. *)
Definition disturbed (w : world) (e : exn) : Prop :=
  (∃ n, ev_fault (w_event w n) = Some e) ∨ is_expired e
  ∨ ((∃ n, ev_lock_failed (w_event w n) = true)
     ∧ (e = RuntimeError "Unable to establish idempotency lock ownership."
        ∨ e = RuntimeError "Unable to confirm idempotency lock release.")).

Lemma interrupted_disturbed w e : interrupted w e → disturbed w e.
Proof. intros [?|[_ ?]]; [by left|by right; left]. Qed.

Lemma disturbed_event w w' e : w_event w' = w_event w → disturbed w' e → disturbed w e.
Proof. unfold disturbed. by intros ->. Qed.

(** ** Named locks *)

(** Every lock of the connection is accounted for: its ownership is uncertain, or the
    execution holds exactly the lock it will release. *)
Definition lock_inv (w : world) : Prop :=
  uncertain (w_execution w) = true
  ∨ (locked (w_execution w) = false ∧ w_own_locks w = ∅)
  ∨ ∃ h, locked (w_execution w) = true ∧ scope_hash (w_execution w) = Some h
      ∧ w_own_locks w = {[h]}.

Lemma lock_inv_frame w w' : frame w w' → lock_inv w → lock_inv w'.
Proof. intros [] H. unfold lock_inv. by rewrite fr_own, fr_execution. Qed.

Lemma lock_inv_empty w : w_own_locks w = ∅ → locked (w_execution w) = false → lock_inv w.
Proof. intros E Hl. right; left. done. Qed.

(** ** [begin] *)
Section begin.
Context (settings : Settings) (request : Request) (policy : IdempotencyPolicy) (key : string).

(** Namespace, caller, route and scope hash of a keyed request. *)
Definition identity : py (string * string * string * string) :=
  caller ← resolve_caller request policy;
  namespace ← namespace_of settings;
  route ← resolve_route request policy;
  hash ← scope_hash_of policy key namespace caller route;
  Ok (namespace, caller, route, hash).

Definition lookup_claim (now : Z) (hash : string) (d : db) : option (claim * bool) :=
  match db_claims d !! hash with
  | Some c => Some (c, match cl_expires_at c with Some t => now <? t | None => false end)
  | None => None
  end.

Definition in_progress : exn :=
  HTTPException PlainHTTPException 409 "This idempotent request is already processing." [].

(** The outcome of [begin] on a view. *)
Definition begin_result (w : world) (inputs : value) (v : db) (r : py (option JSONResponse))
    (w' : world) (v' : db) : Prop :=
  match identity with
  | Err e => r = Err e
  | Ok (namespace, caller, route, hash) =>
      match digest inputs with
      | Err e => r = Err e
      | Ok fingerprint =>
          if bool_decide (hash ∈ w_other_locks w) then r = Err in_progress
          else match consider (lookup_claim (w_utc w) hash v) fingerprint with
          | Err e => r = Err e
          | Ok (Replay resp) => r = Ok (Some resp) ∧ v' = v ∧ claimed (w_execution w') = false
          | Ok _ =>
              r = Ok None
              ∧ v' = set_claims (<[hash := new_claim policy namespace caller route fingerprint]>
                                   (db_claims v)) v
              ∧ w_execution w' = mkExecution (Some hash) true false true
          end
      end
  end.

Lemma runs_get_lock w v name (Q : py (option Z) → world → Prop) :
  view_of w = Some v →
  (∀ e w', mframe w w' → view_of w' = Some v → w_execution w' = w_execution w →
     w_own_locks w' ⊆ {[name]} ∪ w_own_locks w → disturbed w e → Q (Err e) w') →
  (∀ w', mframe w w' → view_of w' = Some v → w_execution w' = w_execution w →
     w_own_locks w' ⊆ {[name]} ∪ w_own_locks w →
     (∃ n, ev_lock_failed (w_event w n) = true) → Q (Ok None) w') →
  (∀ w', mframe w w' → view_of w' = Some v → w_execution w' = w_execution w →
     name ∈ w_other_locks w → w_own_locks w' = w_own_locks w → Q (Ok (Some 0)) w') →
  (∀ w', mframe w w' → view_of w' = Some v → w_execution w' = w_execution w →
     name ∉ w_other_locks w → w_own_locks w' = {[name]} ∪ w_own_locks w → Q (Ok (Some 1)) w') →
  runs (get_lock name) w Q.
Proof.
  intros Hv HE HN H0 H1. unfold get_lock. apply runs_bind.
  destruct (begin_work_spec w v Hv) as (Hf & Ht & Hr). unfold runs at 1.
  destruct (begin_work w) as [r w1]. simpl in *.
  assert (view_of w1 = Some v) as Hv1 by (unfold view_of; by rewrite Ht).
  destruct Hr as [->|(reason & -> & _)].
  2:{ apply HE; [by apply frame_mframe|done|apply Hf|rewrite (fr_own _ _ Hf); set_solver|].
      right; left. by exists reason. }
  apply runs_bind, runs_await. intros w2 Hc. pose proof (calm_view _ _ Hc) as Hv2.
  destruct Hc as [Hf2 _]. rewrite Hv1 in Hv2.
  assert (frame w w2) as Hf' by (by etrans). pose proof (fr_event _ _ Hf) as Hev1.
  clear Hf Hf2.
  set (ev := w_event w1 (w_step w1)).
  assert (∃ n, w_event w n = ev) as [n Hn].
  { exists (w_step w1). subst ev. by rewrite Hev1. }
  clearbody ev. unfold runs, act.
  assert (∀ l, mframe w (set_own_locks l w2)) as Hm.
  { intros l. etrans; [by apply frame_mframe|by constructor]. }
  pose proof (frame_mframe _ _ Hf') as Hm2. destruct Hf'.
  rewrite fr_own, fr_other.
  destruct (bool_decide_reflect (name ∈ w_other_locks w)) as [Hin|Hin].
  - destruct (ev_fault ev) as [e|] eqn:He; simpl.
    { rewrite (Tauto.if_same (ev_applied ev)). apply HE; auto.
      - rewrite fr_own. set_solver.
      - left. exists n. by rewrite Hn. }
    destruct (ev_lock_failed ev) eqn:Hl; simpl.
    + apply HN; auto; [rewrite fr_own; set_solver|]. exists n. by rewrite Hn.
    + by apply H0.
  - destruct (ev_fault ev) as [e|] eqn:He; simpl.
    { apply HE; [by destruct (ev_applied ev)|by destruct (ev_applied ev)
        |by destruct (ev_applied ev)|destruct (ev_applied ev); simpl; set_solver|].
      left. exists n. by rewrite Hn. }
    destruct (ev_lock_failed ev) eqn:Hl; simpl.
    + apply HN; auto; [rewrite fr_own; set_solver|]. exists n. by rewrite Hn.
    + by apply H1.
Qed.

Lemma runs_acquire w v hash (Q : py unit → world → Prop) :
  view_of w = Some v → w_own_locks w = ∅ → scope_hash (w_execution w) = Some hash →
  locked (w_execution w) = false →
  (∀ e w', mframe w w' → view_of w' = Some v → lock_inv w' →
     disturbed w e ∨ (hash ∈ w_other_locks w ∧ e = in_progress) → Q (Err e) w') →
  (∀ w', mframe w w' → view_of w' = Some v → hash ∉ w_other_locks w →
     w_execution w' = mkExecution (Some hash) true false (claimed (w_execution w)) →
     w_own_locks w' = {[hash]} → Q (Ok tt) w') →
  runs (acquire hash) w Q.
Proof.
  intros Hv Hown Hhash Hlocked HE HQ. unfold acquire. apply runs_bind. unfold runs at 1. simpl.
  set (w1 := set_execution _ w).
  assert (mframe w w1) as Hm1 by by constructor.
  assert (uncertain (w_execution w1) = true) as Hunc by done.
  assert (∀ w2, w_execution w2 = w_execution w1 → lock_inv w2) as Hinv.
  { intros w2 E. left. by rewrite E. }
  apply runs_bind. apply (runs_get_lock w1 v); [exact Hv| | | |].
  - intros e w2 Hm Hv2 He _ Hd. apply HE; [by etrans|done|by apply Hinv|].
    left. by eapply disturbed_event; [|exact Hd].
  - intros w2 Hm Hv2 He _ Hl. apply HE; [by etrans|done|by apply Hinv|].
    left. right; right. eauto.
  - intros w2 Hm Hv2 He Hin Ho. simpl. apply runs_bind. unfold runs at 1. simpl.
    apply HE; [etrans; [exact Hm1|etrans; [exact Hm|by constructor]]|done| |by right].
    apply lock_inv_empty; simpl; [by rewrite Ho|by rewrite He].
  - intros w2 Hm Hv2 He Hin Ho. simpl. apply runs_bind. unfold runs at 1. simpl.
    unfold runs. simpl. apply HQ;
      [etrans; [exact Hm1|etrans; [exact Hm|by constructor]]|done|done| |].
    + simpl. rewrite He. simpl. by rewrite Hhash.
    + simpl. rewrite Ho. simpl. rewrite Hown. set_solver.
Qed.

(** A stored claim of a committed request. *)
Definition claim_ok (c : claim) : Prop :=
  cl_state c = completed ∧
  ∃ status bytes done expires,
    cl_response_status c = Some status ∧ cl_response_body c = Some bytes
    ∧ cl_completed_at c = Some done ∧ cl_expires_at c = Some expires
    ∧ expires = done + 1000 * RETENTION_SECONDS
    ∧ validate_response status bytes stored_response_limit = Ok tt.

Definition claims_ok (d : db) : Prop := map_Forall (λ _, claim_ok) (db_claims d).

Lemma triple_repo_require {B} now v (p : M B) Q :
  triple now v p Q → triple now v (Repo.require_transaction ≫= λ _, p) Q.
Proof.
  intros Hp w Hw Hn. unfold mbind, M_bind, Repo.require_transaction.
  rewrite (view_of_in_transaction w v Hw). by apply Hp.
Qed.

Lemma triple_find now v hash :
  triple now v (Repo.find hash) (λ r v', r = Ok (lookup_claim now hash v) ∧ v' = v).
Proof.
  unfold Repo.find. apply triple_repo_require, triple_utc, triple_statement. done.
Qed.

(** Claiming the scope when nothing unexpired is stored under it. *)
Lemma triple_claim now v hash fingerprint record outcome :
  claims_ok v →
  consider (lookup_claim now hash v) fingerprint = Ok outcome →
  (∀ resp, outcome ≠ Replay resp) →
  triple now v
    (_ ← match outcome with ClaimExpired => Repo.delete_expired hash | _ => mret tt end;
     Repo.claim hash record)
    (λ r v', r = Ok tt ∧ v' = set_claims (<[hash := record]> (db_claims v)) v).
Proof.
  intros Hok Hc Hnr. unfold lookup_claim, consider in Hc.
  destruct (db_claims v !! hash) as [c|] eqn:Hl; simpl in Hc.
  - destruct (Hok hash c Hl) as (Hst & status & bytes & dn & t & Hs & Hb & Hd & Ht & _ & _).
    rewrite Hst, Ht in Hc. simpl in Hc.
    destruct (Z.ltb_spec now t) as [Hlt|Hge].
    { destruct (negb _); [done|]. rewrite Hs, Hb in Hc.
      destruct (validate_response _ _ _); simpl in Hc; [|done]. injection Hc as <-. by destruct (Hnr (mkJSONResponse status bytes)). }
    injection Hc as <-. apply triple_bind. unfold Repo.delete_expired.
    apply triple_repo_require, triple_utc, triple_statement. rewrite Hl.
    unfold Repo.expired. rewrite Hst, Ht, (proj2 (Z.leb_le t now) Hge). simpl.
    apply triple_repo_require, triple_statement. simpl. rewrite lookup_delete_eq.
    split; [done|]. unfold set_claims. simpl. f_equal. apply insert_delete_eq.
  - injection Hc as <-. apply triple_bind, triple_ret, triple_repo_require, triple_statement.
    by rewrite Hl.
Qed.

Lemma runs_begin w v inputs (Q : py (option JSONResponse) → world → Prop) :
  view_of w = Some v → claims_ok v → w_execution w = new_execution → w_own_locks w = ∅ →
  (∀ r w' v', mframe w w' → view_of w' = Some v' → lock_inv w' →
     begin_result w inputs v r w' v' ∨ (∃ e, r = Err e ∧ disturbed w e) → Q r w') →
  runs (begin settings request policy key inputs) w Q.
Proof.
  intros Hv Hok Hexec Hown HQ. unfold begin. apply runs_bind, runs_assert_active.
  2:{ intros w1 e Hc He. pose proof (calm_view _ _ Hc) as Hv1. destruct Hc as [Hf _].
      apply (HQ _ _ v); [by apply frame_mframe|congruence| |right; exists e; split; [done|by right; left]].
      apply (lock_inv_frame w); [done|by apply lock_inv_empty; [|rewrite Hexec]]. }
  intros w1 Hc. pose proof (calm_view _ _ Hc) as Hv1. destruct Hc as [Hf1 _].
  rewrite Hv in Hv1.
  assert (w_own_locks w1 = ∅) as Hown1 by (by rewrite (fr_own _ _ Hf1)).
  assert (locked (w_execution w1) = false) as Hl1 by (by rewrite (fr_execution _ _ Hf1), Hexec).
  assert (∀ e, begin_result w inputs v (Err e) w1 v → Q (Err e) w1) as Hearly.
  { intros e He. apply (HQ _ _ v); [by apply frame_mframe|done|by apply lock_inv_empty|by left]. }
  unfold begin_result, identity in Hearly.
  apply runs_bind, runs_lift. destruct (resolve_caller request policy) as [caller|e] eqn:Hcaller; [|by apply Hearly].
  apply runs_bind, runs_lift. cbn [mbind result_bind] in Hearly.
  destruct (namespace_of settings) as [namespace|e] eqn:Hns; [|by apply Hearly].
  apply runs_bind, runs_lift. cbn [mbind result_bind] in Hearly.
  destruct (resolve_route request policy) as [route|e] eqn:Hroute; [|by apply Hearly].
  apply runs_bind, runs_lift. cbn [mbind result_bind] in Hearly.
  destruct (scope_hash_of policy key namespace caller route) as [hash|e] eqn:Hhash; [|by apply Hearly].
  cbn [mbind result_bind] in Hearly.
  apply runs_bind. unfold runs at 1. simpl. set (w2 := set_execution _ w1).
  assert (mframe w w2) as Hm2 by (etrans; [by apply frame_mframe|by constructor]).
  apply runs_bind, runs_lift. destruct (digest inputs) as [fingerprint|e] eqn:Hfp.
  2:{ apply (HQ _ _ v); [done|done|by apply lock_inv_empty|left].
      unfold begin_result, identity. rewrite Hcaller. cbn [mbind result_bind]. rewrite Hns. cbn [mbind result_bind].
      rewrite Hroute. cbn [mbind result_bind]. rewrite Hhash. cbn [mbind result_bind].
      by rewrite Hfp. }
  assert (∀ r w3 v3, mframe w2 w3 → view_of w3 = Some v3 → lock_inv w3 →
    (if bool_decide (hash ∈ w_other_locks w) then r = Err in_progress
     else match consider (lookup_claim (w_utc w) hash v) fingerprint with
          | Err e => r = Err e
          | Ok (Replay resp) => r = Ok (Some resp) ∧ v3 = v ∧ claimed (w_execution w3) = false
          | Ok _ =>
              r = Ok None
              ∧ v3 = set_claims (<[hash := new_claim policy namespace caller route fingerprint]>
                                   (db_claims v)) v
              ∧ w_execution w3 = mkExecution (Some hash) true false true
          end)
    ∨ (∃ e, r = Err e ∧ disturbed w e) → Q r w3) as HQ'.
  { intros r w3 v3 Hm Hv3 Hi Hr. apply (HQ r w3 v3); [by etrans|done|done|].
    destruct Hr as [Hr|?]; [left|by right].
    unfold begin_result, identity. rewrite Hcaller. cbn [mbind result_bind]. rewrite Hns. cbn [mbind result_bind].
      rewrite Hroute. cbn [mbind result_bind]. rewrite Hhash. cbn [mbind result_bind].
      by rewrite Hfp. }
  clear HQ Hearly.
  apply runs_bind. apply (runs_acquire w2 v hash); [done|done|done|done| |].
  { intros e w3 Hm Hv3 Hi [Hd|[Hin ->]]; apply (HQ' _ _ v); auto.
    - right. exists e. split; [done|]. eapply disturbed_event; [|exact Hd]. apply Hm2.
    - left. rewrite bool_decide_true; [done|]. by rewrite <-(mf_other _ _ Hm2). }
  intros w3 Hm3 Hv3 Hin Hex3 Hown3. rewrite (mf_other _ _ Hm2) in Hin.
  rewrite bool_decide_false in HQ' by done.
  assert (claimed (w_execution w2) = false) as Hcl by (simpl; by rewrite (fr_execution _ _ Hf1), Hexec).
  rewrite Hcl in Hex3.
  assert (∀ w4, w_own_locks w4 = w_own_locks w3 → scope_hash (w_execution w4) = Some hash →
    locked (w_execution w4) = true → lock_inv w4) as Hinv.
  { intros w4 Ho Hs Hl. right; right. exists hash. by rewrite Ho, Hown3. }
  apply runs_bind, runs_assert_active.
  2:{ intros w4 e Hc He. pose proof (calm_view _ _ Hc) as Hv4. destruct Hc as [Hf4 _].
      pose proof (frame_mframe _ _ Hf4).
      apply (HQ' _ _ v); [by etrans|congruence| |right; exists e; split; [done|by right; left]].
      apply Hinv; [apply Hf4|by rewrite (fr_execution _ _ Hf4), Hex3..]. }
  intros w4 Hc. pose proof (calm_view _ _ Hc) as Hv4. destruct Hc as [Hf4 _].
  rewrite Hv3 in Hv4. pose proof (frame_mframe _ _ Hf4) as Hm4.
  assert (w_utc w4 = w_utc w) as Hutc
    by (rewrite (mf_utc _ _ Hm4), (mf_utc _ _ Hm3), (mf_utc _ _ Hm2); done).
  assert (w_event w4 = w_event w) as Hev
    by (rewrite (mf_event _ _ Hm4), (mf_event _ _ Hm3), (mf_event _ _ Hm2); done).
  apply runs_bind, (runs_triple _ _ v _ _ (triple_find _ _ _) Hv4).
  intros r w5 v5 Hf5 Hv5 Hr.
  assert (frame w3 w5) as Hf35 by by etrans.
  assert (mframe w2 w5) as Hm5 by (etrans; [exact Hm3|by apply frame_mframe]).
  assert (lock_inv w5) as Hi5.
  { apply Hinv; [apply Hf35|by rewrite (fr_execution _ _ Hf35), Hex3..]. }
  destruct Hr as [[-> ->]|(e & -> & Hd)].
  2:{ apply (HQ' _ _ v5); [done..|]. right. exists e. split; [done|].
      eapply disturbed_event; [exact Hev|by apply interrupted_disturbed]. }
  rewrite Hutc. apply runs_bind, runs_lift.
  destruct (consider (lookup_claim (w_utc w) hash v) fingerprint) as [outcome|e] eqn:Hcons.
  2:{ apply (HQ' _ _ v); [done..|by left]. }
  assert ((∀ resp, outcome ≠ Replay resp) →
    runs (_ ← match outcome with ClaimExpired => Repo.delete_expired hash | _ => mret tt end;
          _ ← Repo.claim hash (new_claim policy namespace caller route fingerprint);
          _ ← set_claimed; _ ← assert_active; mret None) w5 Q) as Hclaim.
  { intros Hnr. apply runs_bind_assoc, runs_bind.
    pose proof Hcons as Hcons'. rewrite <-Hutc, <-(fr_utc _ _ Hf5) in Hcons'.
    apply (runs_triple _ _ v _ _ (triple_claim _ v hash fingerprint _ outcome Hok Hcons' Hnr) Hv5).
    intros r w6 v6 Hf6 Hv6 Hr.
    assert (frame w3 w6) as Hf36 by by etrans.
    assert (mframe w2 w6) as Hm6 by (etrans; [exact Hm3|by apply frame_mframe]).
    assert (w_execution w6 = mkExecution (Some hash) true false false) as Hex6
      by by rewrite (fr_execution _ _ Hf36).
    destruct Hr as [[-> ->]|(e & -> & Hd)].
    2:{ apply (HQ' _ _ v6); [done|done| |].
        - apply Hinv; [apply Hf36|by rewrite Hex6..].
        - right. exists e. split; [done|].
          eapply disturbed_event; [|by apply interrupted_disturbed].
          by rewrite (fr_event _ _ Hf5). }
    apply runs_bind. unfold runs at 1. simpl. set (w7 := set_execution _ w6).
    assert (mframe w2 w7) as Hm7 by (etrans; [exact Hm6|by constructor]).
    assert (w_execution w7 = mkExecution (Some hash) true false true) as Hex7
      by (simpl; by rewrite Hex6).
    apply runs_bind, runs_assert_active.
    + intros w8 Hc. pose proof (calm_view _ _ Hc) as Hv8. destruct Hc as [Hf8 _].
      assert (w_execution w8 = mkExecution (Some hash) true false true) as Hex8
        by by rewrite (fr_execution _ _ Hf8).
      unfold runs. simpl. eapply HQ'; [etrans; [exact Hm7|by apply frame_mframe]|
        rewrite Hv8; exact Hv6| |left].
      * apply Hinv; [rewrite (fr_own _ _ Hf8); apply Hf36|by rewrite Hex8..].
      * by destruct outcome; [destruct (Hnr r)|..].
    + intros w8 e Hc He. pose proof (calm_view _ _ Hc) as Hv8. destruct Hc as [Hf8 _].
      eapply HQ'; [etrans; [exact Hm7|by apply frame_mframe]|rewrite Hv8; exact Hv6| |right].
      * apply Hinv; [rewrite (fr_own _ _ Hf8); apply Hf36|by rewrite (fr_execution _ _ Hf8), Hex7..].
      * exists e. split; [done|]. by right; left. }
  destruct outcome as [resp| |]; [|by apply Hclaim..]. clear Hclaim.
  unfold runs. simpl. apply (HQ' _ _ v); [done..|]. left. split_and!; [done..|].
  by rewrite (fr_execution _ _ Hf35), Hex3.
Qed.
End begin.

(** ** The specification of a mutation request *)

(** What a keyed request finds: a stored response, or a scope to claim. *)
Inductive begun :=
| Replayed (resp : JSONResponse)
| Claimed (hash : string) (c : claim).

Definition begin_decision (settings : Settings) (request : Request) (policy : IdempotencyPolicy)
    (key : string) (now : Z) (other : gset string) (d : db) (inputs : value) : py begun :=
  '(namespace, caller, route, hash) ← identity settings request policy key;
  fingerprint ← digest inputs;
  if bool_decide (hash ∈ other) then Err in_progress
  else
    outcome ← consider (lookup_claim now hash d) fingerprint;
    match outcome with
    | Replay resp => Ok (Replayed resp)
    | _ => Ok (Claimed hash (new_claim policy namespace caller route fingerprint))
    end.

Lemma begin_result_decision settings request policy key w inputs v r w' v' :
  begin_result settings request policy key w inputs v r w' v' →
  match begin_decision settings request policy key (w_utc w) (w_other_locks w) v inputs with
  | Err e => r = Err e
  | Ok (Replayed resp) => r = Ok (Some resp) ∧ v' = v ∧ claimed (w_execution w') = false
  | Ok (Claimed hash c) =>
      r = Ok None ∧ v' = set_claims (<[hash := c]> (db_claims v)) v
      ∧ w_execution w' = mkExecution (Some hash) true false true
  end.
Proof.
  unfold begin_result, begin_decision.
  destruct (identity settings request policy key) as [[[[namespace caller] route] hash]|e];
    cbn [mbind result_bind]; [|done].
  destruct (digest inputs) as [fingerprint|e]; cbn [mbind result_bind]; [|done].
  destruct (bool_decide _); [done|].
  destruct (consider _ _) as [[]|e]; cbn [mbind result_bind]; done.
Qed.

Section spec.
Context {V A : Type} (settings : Settings) (ep : Endpoint V A).

(** What the endpoint does to its transaction's view. *)
Context (R : Z → V → db → py A → db → Prop).

Definition unbuffered (resp : Response) : bool :=
  negb (is_JSONResponse resp) || background resp.
Definition unbuffered_error : exn :=
  RuntimeError "Transactional routes require buffered JSON without background tasks.".

(** How a prepared response ends the transaction that started on [d] and reached [v]. *)
Definition settle (store : db → py db) (resp : Response) (v d : db) : py Response * db :=
  if unbuffered resp then (Err unbuffered_error, d)
  else if 400 <=? status_code (prepared resp) then (Ok resp, d)
  else match store v with Ok v' => (Ok resp, v') | Err e => (Err e, d) end.

(** Storing the response with the claim. *)
Definition store_response (now : Z) (hash : string) (resp : Response) (v : db) : py db :=
  _ ← validate_response (status_code (prepared resp)) (body (prepared resp))
        (IDEMPOTENCY_MAX_RESPONSE_BYTES settings);
  Ok (Repo.complete_where now hash (status_code (prepared resp)) (body (prepared resp)) v).2.

Definition run_endpoint (now : Z) (vs : V) (store : Response → db → py db) (v d : db)
    (r : py Response) (d' : db) : Prop :=
  ∃ a v1, R now vs v a v1 ∧
    match a with
    | Err e => (r, d') = (Err e, d)
    | Ok a =>
        match ep_render ep a with
        | Err e => (r, d') = (Err e, d)
        | Ok resp => (r, d') = settle (store resp) resp v1 d
        end
    end.

(** A request as one atomic step on the committed tables. *)
Definition atomic (request : Request) (execution : option (IdempotencyPolicy * string))
    (now : Z) (other : gset string) (d : db) (r : py Response) (d' : db) : Prop :=
  match ep_validate ep request with
  | Err e => (r, d') = (Err e, d)
  | Ok vs =>
      match execution with
      | None => run_endpoint now vs (λ _ v, Ok v) d d r d'
      | Some (policy, key) =>
          match begin_decision settings request policy key now other d
                  (fingerprint_inputs (ep_dependant ep) (ep_values ep vs)) with
          | Err e => (r, d') = (Err e, d)
          | Ok (Replayed resp) => (r, d') = (Ok (mkResponse true false resp), d)
          | Ok (Claimed hash c) =>
              run_endpoint now vs (store_response now hash)
                (set_claims (<[hash := c]> (db_claims d)) d) d r d'
          end
      end
  end.

(** The endpoint's contract: its triple on the tables it relies on, which do not concern
    the claims; and that it leaves the claims alone. *)
Context (I : db → Prop) (valid : V → Prop).
Hypothesis (tables_claims : ∀ m d, I d → I (set_claims m d)).
Hypothesis (inputs_valid : ∀ request vs, ep_validate ep request = Ok vs → valid vs).
Hypothesis (endpoint_triple : ∀ now v vs,
  I v → valid vs → triple now v (ep_original ep vs) (R now vs v)).
Hypothesis (endpoint_claims : ∀ now vs v r v', R now vs v r v' → db_claims v' = db_claims v).

(** What [prepare] has done when the endpoint ran on the view [v]. *)
Definition endpoint_ran (now : Z) (vs : V) (v : db) (r : py Response) (v' : db) : Prop :=
  ∃ a v1, R now vs v a v1 ∧
    match a with Err e => r = Err e | Ok a => r = ep_render ep a ∧ v' = v1 end.

Definition prepared_post (request : Request) (execution : option (IdempotencyPolicy * string))
    (w : world) (d : db) (r : py Response) (w' : world) (v' : db) : Prop :=
  match ep_validate ep request with
  | Err e => r = Err e
  | Ok vs =>
      match execution with
      | None => endpoint_ran (w_utc w) vs d r v'
      | Some (policy, key) =>
          match begin_decision settings request policy key (w_utc w) (w_other_locks w) d
                  (fingerprint_inputs (ep_dependant ep) (ep_values ep vs)) with
          | Err e => r = Err e
          | Ok (Replayed resp) =>
              r = Ok (mkResponse true false resp) ∧ v' = d ∧ claimed (w_execution w') = false
          | Ok (Claimed hash c) =>
              endpoint_ran (w_utc w) vs (set_claims (<[hash := c]> (db_claims d)) d) r v'
              ∧ w_execution w' = mkExecution (Some hash) true false true
          end
      end
  end.

(** A keyed request starts with a fresh execution on a connection without locks. *)
Definition start_ok (execution : option (IdempotencyPolicy * string)) (w : world) : Prop :=
  match execution with
  | Some _ => w_execution w = new_execution ∧ w_own_locks w = ∅
  | None => True
  end.

(** The locks after it: accounted for, or untouched when the request has no key. *)
Definition locks_ok (execution : option (IdempotencyPolicy * string)) (w w' : world) : Prop :=
  match execution with
  | Some _ => lock_inv w'
  | None => w_own_locks w' = w_own_locks w
  end.

Lemma start_ok_frame execution w w' : frame w w' → start_ok execution w → start_ok execution w'.
Proof.
  intros Hf. destruct execution; simpl; [|done].
  destruct Hf. rewrite fr_execution, fr_own. done.
Qed.

Lemma start_ok_locks execution w : start_ok execution w → locks_ok execution w w.
Proof.
  destruct execution; simpl; [|done]. intros [He Ho]. apply lock_inv_empty; [done|by rewrite He].
Qed.

Lemma locks_ok_frame execution w w1 w2 :
  locks_ok execution w w1 → frame w1 w2 → locks_ok execution w w2.
Proof.
  intros H Hf. destruct execution; simpl in *; [by eapply lock_inv_frame|].
  by rewrite (fr_own _ _ Hf).
Qed.

Lemma locks_ok_from execution w w1 w2 :
  frame w w1 → locks_ok execution w1 w2 → locks_ok execution w w2.
Proof. intros Hf. destruct execution; simpl; [done|]. by rewrite (fr_own _ _ Hf). Qed.

(** Running the endpoint and rendering its result. *)
Lemma runs_endpoint w v vs (Q : py Response → world → Prop) :
  I v → valid vs → view_of w = Some v →
  (∀ r w' v', frame w w' → view_of w' = Some v' →
     endpoint_ran (w_utc w) vs v r v' ∨ (∃ e, r = Err e ∧ disturbed w e) → Q r w') →
  runs (ep_original ep vs ≫= λ a, lift (ep_render ep a)) w Q.
Proof.
  intros HI Hvs Hv HQ. apply runs_bind, (runs_triple _ _ v _ _ (endpoint_triple _ v vs HI Hvs) Hv).
  intros r w' v' Hf Hv' [HR|(e & -> & Hd)].
  - destruct r as [a|e]; [unfold runs; simpl|]; apply (HQ _ _ v'); auto; left.
    + by exists (Ok a), v'.
    + by exists (Err e), v'.
  - apply (HQ _ _ v'); auto. right. eauto using interrupted_disturbed.
Qed.

Lemma runs_prepare request execution w d (Q : py Response → world → Prop) :
  I d → view_of w = Some d → claims_ok d → start_ok execution w →
  (∀ r w' v', mframe w w' → view_of w' = Some v' → locks_ok execution w w' →
     prepared_post request execution w d r w' v' ∨ (∃ e, r = Err e ∧ disturbed w e) → Q r w') →
  runs (prepare settings ep request execution) w Q.
Proof.
  intros HI Hv Hok Hs HQ. unfold prepare. apply runs_bind, runs_lift.
  pose proof (start_ok_locks _ _ Hs) as Hi. unfold prepared_post in HQ.
  destruct (ep_validate ep request) as [vs|e] eqn:Hvs; [|apply (HQ _ _ d); [done|done|done|by left]].
  apply inputs_valid in Hvs.
  unfold validated_endpoint. destruct execution as [[policy key]|].
  - destruct Hs as [Hexec Hown]. apply runs_bind, runs_bind.
    apply (runs_begin settings request policy key w d); [done..|].
    intros r w1 v1 Hm Hv1 Hi1 [Hr|(e & -> & Hd)].
    2:{ apply (HQ _ _ v1); [done|done|done|by right; exists e]. }
    apply begin_result_decision in Hr.
    destruct (begin_decision _ _ _ _ _ _ _ _) as [[resp|hash c]|e].
    + destruct Hr as (-> & -> & Hcl). unfold runs. simpl.
      apply (HQ _ _ d); [done|done|done|by left].
    + destruct Hr as (-> & -> & Hex).
      set (v1 := set_claims _ d) in *.
      enough (runs (ep_original ep vs ≫= λ a, lift (ep_render ep a)) w1 Q) as Hgoal
        by (revert Hgoal; unfold runs, mbind, M_bind, mret, M_ret; by destruct (ep_original ep vs w1) as [[a|e] w2]).
      apply (runs_endpoint w1 v1); [by apply tables_claims|done|done|]. intros r w2 v2 Hf2 Hv2 Hr.
      rewrite (mf_utc _ _ Hm) in Hr.
      apply (HQ _ _ v2); [etrans; [exact Hm|by apply frame_mframe]|done|by eapply lock_inv_frame|].
      destruct Hr as [Hr|(e & -> & Hd)]; [left|right].
      * split; [done|]. by rewrite (fr_execution _ _ Hf2).
      * exists e. split; [done|]. eapply disturbed_event; [|exact Hd]. apply Hm.
    + subst r. apply (HQ _ _ v1); [done|done|done|by left].
  - enough (runs (ep_original ep vs ≫= λ a, lift (ep_render ep a)) w Q) as Hgoal
      by (revert Hgoal; unfold runs, mbind, M_bind, mret, M_ret; by destruct (ep_original ep vs w) as [[a|e] w2]).
    apply (runs_endpoint w d); [done|done|done|]. intros r w2 v2 Hf2 Hv2 Hr.
    apply (HQ _ _ v2); [by apply frame_mframe|done|by apply Hf2|done].
Qed.

Lemma triple_complete now v hash c status bytes :
  db_claims v !! hash = Some c → cl_state c = processing →
  triple now v (Repo.complete hash status bytes)
    (λ r v', r = Ok tt ∧ v' = (Repo.complete_where now hash status bytes v).2).
Proof.
  intros Hc Hst. unfold Repo.complete. apply triple_repo_require, triple_utc, triple_bind, triple_statement.
  unfold Repo.complete_where. rewrite Hc, Hst. simpl. by apply triple_ret.
Qed.

Lemma runs_complete w v hash c resp (Q : py unit → world → Prop) :
  view_of w = Some v → w_execution w = mkExecution (Some hash) true false true →
  db_claims v !! hash = Some c → cl_state c = processing →
  (∀ r w' v', frame w w' → view_of w' = Some v' →
     match store_response (w_utc w) hash resp v with
     | Ok v1 => r = Ok tt ∧ v' = v1 | Err e => r = Err e
     end ∨ (∃ e, r = Err e ∧ disturbed w e) → Q r w') →
  runs (complete settings (prepared resp)) w Q.
Proof.
  intros Hv Hex Hc Hst HQ. unfold complete. apply runs_bind. unfold runs at 1. simpl. rewrite Hex. simpl.
  apply runs_bind, runs_assert_active.
  2:{ intros w1 e Hcalm He. pose proof (calm_view _ _ Hcalm) as Hv1. destruct Hcalm as [Hf _].
      apply (HQ _ _ v); [done|congruence|right]. exists e. split; [done|]. by right; left. }
  intros w1 Hcalm. pose proof (calm_view _ _ Hcalm) as Hv1. destruct Hcalm as [Hf _].
  rewrite Hv in Hv1. unfold store_response in HQ. apply runs_bind, runs_lift.
  destruct (validate_response _ _ _) as [[]|e]; cbn [mbind result_bind] in HQ;
    [|apply (HQ _ _ v); [done|done|by left]].
  apply (runs_triple _ _ v _ _ (triple_complete _ v hash c _ _ Hc Hst) Hv1).
  intros r w2 v2 Hf2 Hv2 Hr. rewrite (fr_utc _ _ Hf) in Hr.
  apply (HQ _ _ v2); [by etrans|done|].
  destruct Hr as [?|(e & -> & Hd)]; [by left|right]. exists e. split; [done|].
  eapply disturbed_event; [|by apply interrupted_disturbed]. apply Hf.
Qed.

(** Where the transaction block leaves the session. *)
Definition block_post (request : Request) (execution : option (IdempotencyPolicy * string))
    (w : world) (d : db) (r : py Response) (w' : world) : Prop :=
  mframe w w' ∧ locks_ok execution w w' ∧
  match r with
  | Err e => atomic request execution (w_utc w) (w_other_locks w) d (Err e) d
             ∨ disturbed w e
  | Ok resp =>
      ∃ d', atomic request execution (w_utc w) (w_other_locks w) d (Ok resp) d'
        ∧ ((w_tx w' = NoTransaction ∧ d' = d) ∨ view_of w' = Some d')
  end.

Lemma consider_replay existing fingerprint resp :
  consider existing fingerprint = Ok (Replay resp) → (400 <=? status_code resp) = false.
Proof.
  unfold consider. destruct existing as [[c b]|]; [|done].
  destruct (negb (bool_decide _)); [done|]. destruct b; [|done].
  destruct (negb (String.eqb _ _)); [done|].
  destruct (cl_response_status c) as [st|], (cl_response_body c) as [bytes|]; try done.
  destruct (validate_response st bytes _) eqn:Hv; cbn [mbind result_bind]; [|done].
  intros [= <-]. simpl. unfold validate_response in Hv.
  destruct (negb ((200 <=? st) && (st <? 300)) || _) eqn:E; [done|]. reflect_bools.
  apply Z.leb_gt. lia.
Qed.

Lemma begin_decision_replay request policy key now other d inputs resp :
  begin_decision settings request policy key now other d inputs = Ok (Replayed resp) →
  (400 <=? status_code resp) = false.
Proof.
  unfold begin_decision.
  destruct (identity _ _ _ _) as [[[[ns cl] rt] h]|]; cbn [mbind result_bind]; [|done].
  destruct (digest inputs); cbn [mbind result_bind]; [|done].
  destruct (bool_decide _); [done|].
  destruct (consider _ _) as [[]|] eqn:E; cbn [mbind result_bind]; try done.
  intros [= <-]. by eapply consider_replay.
Qed.

Lemma begin_decision_claim request policy key now other d inputs hash c :
  begin_decision settings request policy key now other d inputs = Ok (Claimed hash c) →
  cl_state c = processing.
Proof.
  unfold begin_decision.
  destruct (identity _ _ _ _) as [[[[ns cl] rt] h]|]; cbn [mbind result_bind]; [|done].
  destruct (digest inputs); cbn [mbind result_bind]; [|done].
  destruct (bool_decide _); [done|].
  destruct (consider _ _) as [[]|] eqn:E; cbn [mbind result_bind]; try done; by intros [= _ <-].
Qed.

(** The activity check that ends the block. *)
Lemma runs_final_check w (resp : Response) d d' request execution w0 :
  mframe w0 w → locks_ok execution w0 w → view_of w = Some d' →
  atomic request execution (w_utc w0) (w_other_locks w0) d (Ok resp) d' →
  runs assert_active w (λ r w',
    match r with
    | Ok _ => runs (mret resp) w' (block_post request execution w0 d)
    | Err e => block_post request execution w0 d (Err e) w'
    end).
Proof.
  intros Hm Hi Hv Ha. apply runs_assert_active.
  - intros w1 Hc. pose proof (calm_view _ _ Hc) as Hv1. destruct Hc as [Hf _].
    unfold runs. simpl. split_and!; [etrans; [exact Hm|by apply frame_mframe]|by eapply locks_ok_frame|].
    exists d'. split; [done|]. right. congruence.
  - intros w1 e Hc He. destruct Hc as [Hf _].
    split_and!; [etrans; [exact Hm|by apply frame_mframe]|by eapply locks_ok_frame|].
    right. by right; left.
Qed.

Lemma prepared_err request execution w d e w' v' :
  prepared_post request execution w d (Err e) w' v' →
  atomic request execution (w_utc w) (w_other_locks w) d (Err e) d.
Proof.
  unfold prepared_post, atomic, run_endpoint, endpoint_ran.
  assert (∀ now vs v store, (∃ a v1, R now vs v a v1 ∧
      match a with
      | Err e' => (Err e : py Response) = Err e' | Ok a => Err e = ep_render ep a ∧ v' = v1 end) →
    ∃ a v1, R now vs v a v1 ∧
      match a with
      | Err e' => (Err e : py Response, d) = (Err e', d)
      | Ok a => match ep_render ep a with
                | Err e' => (Err e : py Response, d) = (Err e', d)
                | Ok resp => (Err e, d) = settle (store resp) resp v1 d end
      end) as Hrun.
  { intros now vs v store ([a|e'] & v1 & HR & H).
    - destruct H as [H _]. exists (Ok a), v1. split; [done|]. by rewrite <-H.
    - exists (Err e'), v1. split; [done|]. congruence. }
  destruct (ep_validate ep request) as [vs|e0]; [|congruence].
  destruct execution as [[policy key]|]; [|by apply Hrun].
  destruct (begin_decision _ _ _ _ _ _ _ _) as [[resp|hash c]|e0]; [by intros [? _]| |congruence].
  intros [H _]. by apply Hrun.
Qed.

Lemma prepared_ok request execution w d resp w' v' :
  prepared_post request execution w d (Ok resp) w' v' →
  (is_Some execution ∧ unbuffered resp = false ∧ (400 <=? status_code (prepared resp)) = false
   ∧ v' = d ∧ claimed (w_execution w') = false
   ∧ atomic request execution (w_utc w) (w_other_locks w) d (Ok resp) d)
  ∨ ∃ store,
      (∀ r d', (r, d') = settle store resp v' d →
         atomic request execution (w_utc w) (w_other_locks w) d r d')
      ∧ match execution with
        | None => store = λ v, Ok v
        | Some _ => ∃ hash c, w_execution w' = mkExecution (Some hash) true false true
            ∧ db_claims v' !! hash = Some c ∧ cl_state c = processing
            ∧ store = store_response (w_utc w) hash resp
        end.
Proof.
  unfold prepared_post, atomic, run_endpoint, endpoint_ran.
  destruct (ep_validate ep request) as [vs|e0]; [|done].
  destruct execution as [[policy key]|].
  - destruct (begin_decision _ _ _ _ _ _ _ _) as [[resp0|hash c]|e0] eqn:Hb; [| |done].
    + intros ([= ->] & -> & Hcl). left. split_and!; try done.
      by eapply begin_decision_replay.
    + intros [([a|e'] & v1 & HR & H) Hex]; [|done]. destruct H as [H ->]. right.
      exists (store_response (w_utc w) hash resp). split.
      * intros r d' E. exists (Ok a), v1. split; [done|]. by rewrite <-H.
      * exists hash, c. split_and!; [done| |by eapply begin_decision_claim|done].
        rewrite (endpoint_claims _ _ _ _ _ HR). simpl. by rewrite lookup_insert_eq.
  - intros ([a|e'] & v1 & HR & H); [|done]. destruct H as [H ->]. right.
    exists (λ v, Ok v). split; [|done]. intros r d' E. exists (Ok a), v1. split; [done|].
    by rewrite <-H.
Qed.

Lemma runs_transaction request execution w d :
  I d → view_of w = Some d → claims_ok d → start_ok execution w →
  runs (transaction settings ep request execution) w (block_post request execution w d).
Proof.
  intros HI Hv Hok Hs. unfold transaction. apply runs_bind, runs_assert_active.
  2:{ intros w1 e Hc He. destruct Hc as [Hf _]. split_and!; [by apply frame_mframe| |].
      - eapply locks_ok_frame; [by apply start_ok_locks|done].
      - right. by right; left. }
  intros w1 Hc. pose proof (calm_view _ _ Hc) as Hv1. destruct Hc as [Hf1 _]. rewrite Hv in Hv1.
  apply runs_bind, (runs_prepare request execution w1 d); [done..|by eapply start_ok_frame|].
  intros r w2 v2 Hm2 Hv2 Hi2 Hr.
  assert (mframe w w2) as Hm by (etrans; [by apply frame_mframe|done]).
  apply (locks_ok_from _ w) in Hi2; [|done].
  destruct Hr as [Hr|(e & -> & Hd)].
  2:{ split_and!; [done..|]. right. eapply disturbed_event; [|exact Hd]. apply Hf1. }
  destruct r as [resp|e].
  2:{ split_and!; [done..|]. left. rewrite <-(fr_utc _ _ Hf1), <-(fr_other _ _ Hf1).
      by eapply prepared_err. }
  pose proof Hr as Hcases. apply prepared_ok in Hcases.
  rewrite (fr_utc _ _ Hf1), (fr_other _ _ Hf1) in Hcases.
  destruct Hcases as [([p Hp] & Hb & Hst & -> & Hcl & Ha)|(store & Hset & Hex)].
  - unfold unbuffered in Hb. rewrite Hb, Hst. apply runs_bind, runs_bind.
    rewrite Hp. unfold complete. apply runs_bind. unfold runs at 1. simpl. rewrite Hcl.
    unfold runs at 1. simpl. rewrite <-Hp. by apply (runs_final_check w2 resp d d).
  - unfold unbuffered, settle in *.
    destruct (negb (is_JSONResponse resp) || background resp) eqn:Hb.
    { split_and!; [done..|]. left. apply Hset. unfold unbuffered. by rewrite ?Hb. }
    destruct (400 <=? status_code (prepared resp)) eqn:Hst.
    { apply runs_bind, (runs_ends _ _ _ (rollback_spec w2)). intros w3 Hf3 Htx3.
      assert (mframe w w3) as Hm3 by (etrans; [exact Hm|by apply frame_mframe]).
      assert (locks_ok execution w w3) as Hi3 by by eapply locks_ok_frame. split.
      - split_and!; [done..|]. exists d. split; [|by left].
        apply Hset. unfold unbuffered. by rewrite ?Hb, ?Hst.
      - intros e n He. split_and!; [done..|]. right. left. exists n. by rewrite <-(mf_event _ _ Hm). }
    unfold unbuffered in Hset. rewrite ?Hb, ?Hst in Hset.
    apply runs_bind, runs_bind. destruct execution as [[policy key]|].
    + destruct Hex as (hash & c & Hex & Hc & Hcst & ->).
      apply (runs_complete w2 v2 hash c resp); [done..|].
      intros r w3 v3 Hf3 Hv3 Hr3.
      assert (mframe w w3) as Hm3 by (etrans; [exact Hm|by apply frame_mframe]).
      assert (locks_ok (Some (policy, key)) w w3) as Hi3 by by eapply locks_ok_frame.
      rewrite (mf_utc _ _ Hm) in Hr3.
      destruct Hr3 as [Hr3|(e & -> & Hd)].
      * destruct (store_response (w_utc w) hash resp v2) as [v4|e] eqn:Hs4.
        -- destruct Hr3 as [-> ->]. apply (runs_final_check w3 resp d v4); auto.
        -- subst r. split_and!; [done..|]. left. by apply Hset.
      * split_and!; [done..|]. right. eapply disturbed_event; [|exact Hd]. apply Hm.
    + subst store. unfold runs at 1. simpl. apply (runs_final_check w2 resp d v2); auto.
Qed.

(** *** Commit *)

(** What the request has left after its session ended. *)
Record closed (w w' : world) : Prop := mkClosed {
  cs_tx : w_tx w' = NoTransaction;
  cs_other : w_other_locks w' = w_other_locks w;
  cs_utc : w_utc w' = w_utc w;
  cs_event : w_event w' = w_event w
}.

Definition commit_failed (w : world) (e : exn) : Prop :=
  ∃ n applied, ev_commit (w_event w n) = CommitFailed applied e.

(** The committed tables [d'] after outcome [r]: the specified step; or a disturbance,
    after which the step has been applied entirely or not at all. *)
Definition settled (request : Request) (execution : option (IdempotencyPolicy * string))
    (w : world) (d : db) (r : py Response) (d' : db) : Prop :=
  match r with
  | Ok resp => atomic request execution (w_utc w) (w_other_locks w) d (Ok resp) d'
  | Err e =>
      (d' = d ∧ atomic request execution (w_utc w) (w_other_locks w) d (Err e) d)
      ∨ ((disturbed w e ∨ commit_failed w e)
         ∧ (d' = d ∨ ∃ resp,
              atomic request execution (w_utc w) (w_other_locks w) d (Ok resp) d'))
  end.

Lemma runs_session_begin request execution w d :
  I d → w_committed w = d → claims_ok d → start_ok execution w →
  runs (session_begin (transaction settings ep request execution)) w
    (λ r w', settled request execution w d r (w_committed w') ∧ closed w w'
             ∧ locks_ok execution w w').
Proof.
  intros HI Hd Hok Hs. pose proof (runs_transaction request execution (set_tx Begun w) d HI) as Ht.
  unfold runs in *. unfold session_begin.
  destruct Ht as (Hm & Hl & Hr); [unfold view_of; simpl; by rewrite Hd|done|by destruct execution|].
  destruct (transaction settings ep request execution (set_tx Begun w)) as [[resp|e] w1]; simpl in *;
    assert (w_committed w1 = d) as Hc1 by (rewrite (mf_committed _ _ Hm); exact Hd).
  2:{ destruct (rollback_spec w1) as (Hf & Htx & Hrb).
      assert (closed w (rollback w1).2) as Hcl by (destruct Hm, Hf; constructor; simpl in *; congruence).
      assert (locks_ok execution w (rollback w1).2) as Hlk
        by (eapply locks_ok_frame; [|exact Hf]; by destruct execution).
      assert (w_committed (rollback w1).2 = d) as Hc2 by (by rewrite (fr_committed _ _ Hf)).
      destruct (rollback w1) as [[u|e'] w2]; simpl in *; rewrite Hc2; (split_and!; [|done|done]).
      - destruct Hr as [Ha|Hdist]; [left; by split|right; split; by left].
      - destruct Hrb as [?|(e0 & n & [= <-] & He)]; [done|]. right. split; [|by left].
        left. left. exists n. pose proof (mf_event _ _ Hm). simpl in *. congruence. }
  destruct Hr as (d' & Ha & [[Htx ->]|Hv]).
  - unfold in_transaction. rewrite Htx. simpl. split_and!.
    + by rewrite Hc1.
    + destruct Hm. by constructor.
    + by destruct execution.
  - rewrite (view_of_in_transaction _ _ Hv). unfold commit, mbind, M_bind, act. simpl.
    set (ev := w_event w1 (w_step w1)).
    assert (w_event w (w_step w1) = ev) as Hev by (subst ev; by rewrite (mf_event _ _ Hm)).
    destruct (w_tx w1) as [| |v] eqn:Htx; [by unfold view_of in Hv; rewrite Htx in Hv| |].
    + unfold view_of in Hv. rewrite Htx in Hv. injection Hv as Hv. simpl. split_and!.
      * by rewrite <-Hv in Ha.
      * destruct Hm. by constructor.
      * by destruct execution.
    + unfold view_of in Hv. rewrite Htx in Hv. injection Hv as ->.
      destruct (ev_commit ev) as [|applied e] eqn:Hc; simpl.
      * split_and!; [done|destruct Hm; by constructor|by destruct execution].
      * split_and!.
        -- right. split; [right; exists (w_step w1), applied; by rewrite Hev|].
           destruct applied; simpl; [right; by exists resp|by left].
        -- destruct Hm. by destruct applied; constructor.
        -- by destruct execution, applied.
Qed.

Lemma runs_owned request execution w d :
  I d → w_committed w = d → claims_ok d → start_ok execution w →
  runs (owned settings ep request execution) w
    (λ r w', settled request execution w d r (w_committed w') ∧ closed w w'
             ∧ locks_ok execution w w' ∧ w_owner w' = false ∧ w_acquired w' = false).
Proof.
  intros HI Hd Hok Hs. unfold owned. apply runs_bind. unfold runs at 1. simpl.
  set (w1 := set_acquired true (set_owner true w)).
  pose proof (runs_session_begin request execution w1 d HI Hd Hok) as Hrun.
  unfold runs, finally in *. destruct Hrun as (H1 & H2 & H3); [by destruct execution|].
  destruct (session_begin (transaction settings ep request execution) w1) as [r w2]. simpl in *.
  split_and!; [done|by destruct H2; constructor|by destruct execution|done|done].
Qed.

(** *** Lock release *)
Lemma runs_release failed w :
  lock_inv w → w_tx w = NoTransaction →
  runs (release failed) w
    (λ r w', w_own_locks w' = ∅ ∧ w_committed w' = w_committed w ∧ closed w w'
             ∧ w_owner w' = w_owner w
             ∧ match r with Ok _ => True | Err e => failed = false ∧ disturbed w e end).
Proof.
  intros Hi Htx. unfold runs, release, finally.
  assert (runs release_body w (λ r w',
    w_committed w' = w_committed w ∧ closed w w' ∧ w_owner w' = w_owner w
    ∧ match r with Ok _ => w_own_locks w' = ∅ | Err e => disturbed w e end)) as Hbody.
  { unfold runs, release_body, mbind, M_bind, get. simpl.
    destruct (uncertain (w_execution w) || w_invalidated w || in_transaction w) eqn:Hu.
    { unfold invalidate, modify. simpl. split_and!; [done|by constructor|done|done]. }
    reflect_bools. destruct Hi as [Hi|[[Hl Ho]|(h & Hl & Hh & Ho)]]; [congruence| |].
    - rewrite Hl. unfold mret, M_ret. simpl. split_and!; [done|by constructor|done|done].
    - rewrite Hl, Hh. unfold release_lock, mbind, M_bind, act. simpl. rewrite Ho.
      rewrite bool_decide_true by set_solver. set (ev := w_event w (w_step w)).
      assert ({[h]} ∖ {[h]} = (∅ : gset string)) as He by set_solver.
      destruct (ev_fault ev) as [e|] eqn:Hf; simpl.
      + split_and!; [by destruct (ev_applied ev)|by destruct (ev_applied ev); constructor
          |by destruct (ev_applied ev)|left; by exists (w_step w)].
      + destruct (ev_lock_failed ev) eqn:Hlf; simpl.
        * split_and!; [done|by constructor|done|]. right; right. split; [by exists (w_step w)|by right].
        * split_and!; [done|by constructor|done|done]. }
  unfold runs in Hbody. destruct (release_body w) as [[u|e] w1]; simpl in *.
  - destruct Hbody as (H1 & H2 & H3 & H4). unfold mbind, M_bind, get. simpl.
    destruct (failed && negb (w_invalidated w1)); simpl; split_and!; try done;
      destruct H2; by constructor.
  - destruct Hbody as (H1 & H2 & H3 & H4). destruct failed; unfold mbind, M_bind, get; simpl;
      (split_and!; try done; destruct H2; by constructor).
Qed.

(** *** The whole request *)

(** The keyed execution a request asks for. *)
Definition execution_of (request : Request) : py (option (IdempotencyPolicy * string)) :=
  match ep_policy ep with
  | None => Ok None
  | Some policy =>
      key ← read_key request;
      Ok (match key with Some key => Some (policy, key) | None => None end)
  end.

Definition atomic_request (request : Request) (now : Z) (other : gset string) (d : db)
    (r : py Response) (d' : db) : Prop :=
  match execution_of request with
  | Err e => (r, d') = (Err e, d)
  | Ok execution => atomic request execution now other d r d'
  end.

Definition settled_request (request : Request) (w : world) (r : py Response) (d' : db) : Prop :=
  match r with
  | Ok resp => atomic_request request (w_utc w) (w_other_locks w) (w_committed w) (Ok resp) d'
  | Err e =>
      (d' = w_committed w
       ∧ atomic_request request (w_utc w) (w_other_locks w) (w_committed w) (Err e) d')
      ∨ ((disturbed w e ∨ commit_failed w e)
         ∧ (d' = w_committed w ∨ ∃ resp,
              atomic_request request (w_utc w) (w_other_locks w) (w_committed w) (Ok resp) d'))
  end.

(** An exception of the schedule in place of the outcome. *)
Lemma settled_replaced request execution w d r e d' :
  disturbed w e ∨ commit_failed w e →
  settled request execution w d r d' → settled request execution w d (Err e) d'.
Proof.
  intros He Hs. right. split; [done|]. destruct r as [resp|e0]; [right; by exists resp|].
  destruct Hs as [[-> _]|[_ Hs]]; [by left|done].
Qed.

Lemma settled_lift request execution w w1 r d' :
  execution_of request = Ok execution → frame w w1 →
  settled request execution w1 (w_committed w1) r d' → settled_request request w r d'.
Proof.
  intros He [] Hs. unfold settled_request, settled, atomic_request in *. rewrite He.
  rewrite fr_committed, fr_utc, fr_other in Hs. unfold disturbed, commit_failed in *.
  rewrite fr_event in Hs. destruct r; [done|]. destruct Hs as [[-> ?]|?]; auto.
Qed.

Lemma runs_pinned request policy key w :
  I (w_committed w) → claims_ok (w_committed w) → w_own_locks w = ∅ → w_owner w = false →
  runs (pinned_execution (owned settings ep request (Some (policy, key)))) w
    (λ r w', settled request (Some (policy, key)) w (w_committed w) r (w_committed w')
             ∧ w_event w' = w_event w ∧ w_own_locks w' = ∅ ∧ w_owner w' = false).
Proof.
  intros HI Hok Hown Hno. unfold pinned_execution. apply runs_bind. unfold connect.
  apply runs_bind, runs_await. intros w1 [Hf1 _].
  set (ev := w_event w (w_step w)). destruct (ev_fault ev) as [e|] eqn:He.
  { unfold runs, raise. simpl. rewrite (fr_committed _ _ Hf1), (fr_own _ _ Hf1), (fr_owner _ _ Hf1).
    split_and!; [|apply Hf1|done|done]. right. split; [left; left; by exists (w_step w)|by left]. }
  unfold runs at 1. simpl. apply runs_bind. unfold runs at 1. simpl.
  set (w2 := set_execution new_execution (set_invalidated false w1)).
  assert (w_committed w2 = w_committed w) as Hc2 by apply Hf1.
  pose proof (runs_owned request (Some (policy, key)) w2 (w_committed w)) as Ho.
  unfold runs, act in *.
  destruct Ho as (Hset & Hcl & Hl & Hno3 & _); [done|done|done| |].
  { split; [done|]. simpl. by rewrite (fr_own _ _ Hf1). }
  destruct (owned settings ep request (Some (policy, key)) w2) as [r w3]. simpl in *.
  assert (w_event w2 = w_event w) as Hev by apply Hf1.
  assert (disturbed w2 = disturbed w) as Hdist by (unfold disturbed; by rewrite Hev).
  assert (commit_failed w2 = commit_failed w) as Hcf by (unfold commit_failed; by rewrite Hev).
  assert (settled request (Some (policy, key)) w (w_committed w) r (w_committed w3)) as Hset'.
  { unfold settled in *. rewrite Hdist, Hcf in Hset.
    replace (w_utc w2) with (w_utc w) in Hset by (symmetry; apply Hf1).
    by replace (w_other_locks w2) with (w_other_locks w) in Hset by (symmetry; apply Hf1). }
  assert (∀ e, disturbed w3 e → disturbed w e) as Hd3.
  { intros e. apply disturbed_event. rewrite (cs_event _ _ Hcl). exact Hev. }
  destruct r as [resp|e].
  - pose proof (runs_release false w3 Hl (cs_tx _ _ Hcl)) as Hrel. unfold runs in Hrel.
    destruct (release false w3) as [[u|e] w4]; simpl in *; destruct Hrel as (H1 & H2 & H3 & H4 & H5);
      assert (w_event w4 = w_event w) as Hev4 by (rewrite (cs_event _ _ H3), (cs_event _ _ Hcl); exact Hev).
    + rewrite H2, H4. done.
    + rewrite H2, H4. split_and!; [|done..]. right.
      destruct H5 as [_ H5]. split; [left; auto|]. right. by exists resp.
  - pose proof (runs_release true w3 Hl (cs_tx _ _ Hcl)) as Hrel. unfold runs in Hrel.
    destruct (release true w3) as [[u|e'] w4]; simpl in *; destruct Hrel as (H1 & H2 & H3 & H4 & H5);
      assert (w_event w4 = w_event w) as Hev4 by (rewrite (cs_event _ _ H3), (cs_event _ _ Hcl); exact Hev).
    + rewrite H2, H4. done.
    + by destruct H5 as [? _].
Qed.

Lemma runs_handle request w :
  ep_transactional ep = true →
  I (w_committed w) → claims_ok (w_committed w) → w_own_locks w = ∅ → w_owner w = false →
  runs (handle settings ep request) w
    (λ r w', settled_request request w r (w_committed w')
             ∧ w_own_locks w' = ∅ ∧ w_owner w' = false).
Proof.
  intros Ht HI Hok Hown Hno. unfold handle. rewrite Ht. simpl.
  apply runs_bind. unfold runs at 1. simpl. rewrite Hno.
  apply runs_bind, runs_assert_active.
  2:{ intros w1 e [Hf _] He. rewrite (fr_committed _ _ Hf), (fr_own _ _ Hf), (fr_owner _ _ Hf).
      split_and!; [|done|done]. right. split; [left; by right; left|by left]. }
  intros w1 [Hf1 _]. apply runs_bind. unfold runs at 1. simpl. set (w2 := set_activity _ w1).
  assert (frame w w2) as Hf2 by (etrans; [exact Hf1|by constructor]). clear Hf1.
  assert (∀ e, execution_of request = Err e →
    settled_request request w (Err e) (w_committed w2) ∧ w_own_locks w2 = ∅ ∧ w_owner w2 = false)
    as Hkey.
  { intros e He. rewrite (fr_committed _ _ Hf2), (fr_own _ _ Hf2), (fr_owner _ _ Hf2).
    split_and!; [|done|done]. left. unfold atomic_request. by rewrite He. }
  apply runs_bind.
  assert (∀ execution, execution_of request = Ok execution →
    runs (with_session false
      (open ← get in_transaction;
       if (open : bool) then raise (RuntimeError "A mutation requires a fresh transaction owner.")
       else match execution with
            | Some (policy, key) => pinned_execution (owned settings ep request (Some (policy, key)))
            | None => owned settings ep request None
            end)) w2
      (λ r w', settled_request request w r (w_committed w') ∧ w_own_locks w' = ∅ ∧ w_owner w' = false))
    as Hrest.
  { intros execution He. apply runs_with_session. set (w3 := new_session false w2).
    assert (w_committed w3 = w_committed w) as Hc3 by apply Hf2.
    assert (w_own_locks w3 = ∅) as Ho3 by (rewrite <-Hown; apply Hf2).
    assert (w_owner w3 = false) as Hw3 by (rewrite <-Hno; apply Hf2).
    apply (runs_mono _ _ (λ r w', settled request execution w3 (w_committed w3) r (w_committed w')
      ∧ w_event w' = w_event w3 ∧ w_own_locks w' = ∅ ∧ w_owner w' = false)).
    { intros r w4 (Hset & Hev & Hl & Ho) w5 Hf5 _.
      rewrite (fr_committed _ _ Hf5), (fr_own _ _ Hf5), (fr_owner _ _ Hf5). split.
      - split_and!; [|done|done]. by apply (settled_lift request execution w w2 r _ He Hf2).
      - intros e n Hn. split_and!; [|done|done].
        apply (settled_lift request execution w w2 (Err e) _ He Hf2).
        apply (settled_replaced _ _ _ _ r); [|done]. left. left. exists n.
        rewrite Hev in Hn. exact Hn. }
    apply runs_bind. unfold runs at 1. cbn [get fst snd in_transaction new_session w3 w_tx].
    destruct execution as [[policy key]|].
    - by apply runs_pinned; rewrite ?Hc3.
    - eapply runs_mono; [|apply (runs_owned request None w3 (w_committed w3)); by rewrite ?Hc3].
      intros r w4 (H1 & H2 & H3 & H4 & H5). split_and!; [done|apply H2|by rewrite H3|done]. }
  unfold execution_of in Hrest, Hkey. destruct (ep_policy ep) as [policy|].
  - apply runs_lift. destruct (read_key request) as [[key|]|e]; cbn [mbind result_bind] in Hrest, Hkey.
    + by apply (Hrest (Some (policy, key))).
    + by apply (Hrest None).
    + by apply Hkey.
  - unfold runs at 1. simpl. by apply (Hrest None).
Qed.
End spec.
