(* ===== verification/ItemRoutes.v ===== *)
(** * The item mutation routes

    The four mutation endpoints of
    [app/api/v1/items/controllers/item_controller.py] as [ApplicationRoute] sees them —
    their declarations, validated inputs and bodies — and the interface
    [EndpointContract] between an endpoint and the route that owns its transaction. *)
From S2P Require Import Prelude PyText Values Fingerprint FingerprintFacts Models Database Items Idempotency Mutation MutationFacts.
Open Scope Z_scope.

(** ** The contract between a route and its endpoint *)

(** On validated inputs and tables that satisfy [I] — which does not concern the claims —
    the endpoint's statements satisfy [R], keep [I] and leave the claims alone. *)
Class EndpointContract {V A : Type} (ep : Endpoint V A) (I : db → Prop) (valid : V → Prop)
    (R : Z → V → db → py A → db → Prop) : Prop := {
  contract_claims_free m d : I d → I (set_claims m d);
  contract_valid request vs : ep_validate ep request = Ok vs → valid vs;
  contract_triple now v vs : I v → valid vs → triple now v (ep_original ep vs) (R now vs v);
  contract_frame now vs v r v' : R now vs v r v' → db_claims v' = db_claims v;
  contract_tables now vs v r v' : R now vs v r v' → I v'
}.

(** ** Declarations *)
Definition field (name : string) (info : field_info) : ModelField := mkField name name info.
Definition id_param : ModelField := field "id" Param.
Definition payload_body : ModelField := field "payload" (Body "application/json").

(** [Depends(get_item_service)], which depends on [get_session(request)]. *)
Definition get_session_dependant : Dependant :=
  mkDependant (Some "request") None [] [] [] [] [] [].
Definition get_item_service_dependant : Dependant :=
  mkDependant None None [] [] [] [] [] [get_session_dependant].

Definition item_dependant (path : list ModelField) : Dependant :=
  mkDependant None None [] [] path [] [payload_body] [get_item_service_dependant].

Definition item_policy (operation : string) : IdempotencyPolicy :=
  mkPolicy operation None (FixedScope PUBLIC_IDEMPOTENCY_SCOPE).

(** ** Validated inputs *)
Definition body_members (v : value) : option (list (string * value)) :=
  match v with
  | VDict entries => match string_keys entries with Ok r => Some r | Err _ => None end
  | _ => None
  end.

Definition body_errors (l : list (string * string)) : exn :=
  RequestValidationError
    ((λ e, mkValidationError e.2 (if String.eqb e.1 "" then ["body"] else ["body"; e.1]) "") <$> l).

(** The JSON body through its model. *)
Definition validate_body {P} (model : list (string * value) → checked P) (request : Request)
  : py P :=
  match body_members (rq_body request) with
  | None => Err (body_errors [("", "model_attributes_type")])
  | Some members =>
      match model members with Ok p => Ok p | Err l => Err (body_errors l) end
  end.

Definition validate_id (request : Request) : py string :=
  let id := default "" (assoc_get "id" (rq_params request)) in
  if EntityId id then Ok id
  else Err (RequestValidationError
              [mkValidationError "string_pattern_mismatch" ["path"; "id"] ""]).

Definition validate_id_and_body {P} (model : list (string * value) → checked P)
    (request : Request) : py (string * P) :=
  id ← validate_id request; p ← validate_body model request; Ok (id, p).

(** Response serialization belongs to Pydantic: the bytes of an item. *)
Class Rendering := { item_json : item → string }.

Section routes.
Context `{Rendering}.

Definition render (status : Z) (r : item) : py Response :=
  Ok (mkResponse true false (mkJSONResponse status (item_json r))).

Definition create_route : Endpoint ItemBase item :=
  mkEndpoint _ _ true (Some (item_policy "items.create")) (item_dependant []) "/api/v1/items"
    (validate_body new_ItemBase) (λ b, [("payload", ItemBase_value b)])
    Controller.create (render 201).

Definition update_route : Endpoint (string * UpdateItemRequest) item :=
  mkEndpoint _ _ true (Some (item_policy "items.update")) (item_dependant [id_param])
    "/api/v1/items/{id}" (validate_id_and_body new_UpdateItemRequest)
    (λ '(id, u), [("id", VStr id); ("payload", UpdateItemRequest_value u)])
    (λ '(id, u), Controller.update id u) (render 200).

Definition replace_route : Endpoint (string * (Z * ItemBase)) item :=
  mkEndpoint _ _ true (Some (item_policy "items.replace")) (item_dependant [id_param])
    "/api/v1/items/{id}" (validate_id_and_body ReplaceItemRequest)
    (λ '(id, r), [("id", VStr id); ("payload", ReplaceItemRequest_value r)])
    (λ '(id, r), Controller.replace id r) (render 200).

Definition delete_route : Endpoint (string * Z) item :=
  mkEndpoint _ _ true (Some (item_policy "items.delete")) (item_dependant [id_param])
    "/api/v1/items/{id}/delete" (validate_id_and_body VersionInput)
    (λ '(id, z), [("id", VStr id); ("payload", VersionInput_value z)])
    (λ '(id, z), Controller.delete id z) (render 200).
End routes.

(** The four declarations pass the registration checks. *)
Example item_routes_register `{Rendering} :
  register create_route = Ok tt ∧ register update_route = Ok tt
  ∧ register replace_route = Ok tt ∧ register delete_route = Ok tt.
Proof. by split_and!. Qed.

(** ** The item endpoints meet the contract *)

(** Answered from well-formed rows, by the specified step, with the claims untouched. *)
Definition item_step (step : db → py item → db → Prop) (v : db) (r : py item) (v' : db) : Prop :=
  answered r v' ∧ step v r v' ∧ db_claims v' = db_claims v.

Definition create_step (now : Z) (b : ItemBase) : db → py item → db → Prop :=
  item_step (Spec.created now
    (mkItemCreateData (ib_name b) (default None (ib_description b)) (ib_price b))).
Definition update_step (now : Z) (i : string * UpdateItemRequest) : db → py item → db → Prop :=
  item_step (λ v r v', (r, v') = Spec.write i.1 (up_expected_version i.2)
    (Spec.bump now (ItemService.update_data i.2)) v).
Definition replace_step (now : Z) (i : string * (Z * ItemBase)) : db → py item → db → Prop :=
  item_step (λ v r v', (r, v') = Spec.write i.1 i.2.1
    (Spec.bump now (ItemService.replace_data i.2.2)) v).
Definition delete_step (now : Z) (i : string * Z) : db → py item → db → Prop :=
  item_step (λ v r v', (r, v') = Spec.remove i.1 i.2 v).

(** A service triple whose results are stored rows, through the response model. *)
Lemma triple_item_step now v (p : M item) (step : db → py item → db → Prop) :
  triple now v p (step v) →
  (∀ r v', step v r v' → table_ok v' ∧ db_claims v' = db_claims v
     ∧ match r with Ok row => ∃ id, item_ok id row | Err e => expected_failure e end) →
  triple now v (r ← p; lift (ItemResponse r)) (item_step step v).
Proof.
  intros Hp HQ. apply triple_bind. eapply triple_mono; [|exact Hp].
  intros [row|e] v' H; destruct (HQ _ _ H) as (Hv & Hc & Hr); [|by split_and!].
  apply triple_lift. destruct Hr as [id Hr]. apply item_ok_valid in Hr as Hvalid.
  rewrite ItemResponse_ok by done. by split_and!.
Qed.

Lemma write_claims id z f v : db_claims (Spec.write id z f v).2 = db_claims v.
Proof. unfold Spec.write. by repeat case_match. Qed.

Lemma remove_claims id z v : db_claims (Spec.remove id z v).2 = db_claims v.
Proof. unfold Spec.remove. by repeat case_match. Qed.

Lemma created_claims now data v r v' : Spec.created now data v r v' → db_claims v' = db_claims v.
Proof. intros (id & _ & H). destruct (db_items v !! id); by destruct H as [_ ->]. Qed.

Lemma triple_write now v id z u :
  table_ok v → update_data_ok u →
  triple now v (r ← (r ← ItemService._mutation_item id z;
                     data ← lift (model_to "ItemUpdateData" (Ok u));
                     update r data z);
                lift (ItemResponse r))
    (item_step (λ v r v', (r, v') = Spec.write id z (Spec.bump now u) v) v).
Proof.
  intros Hv Hu. apply triple_item_step; [by apply triple_versioned_write, table_ok_filed|].
  intros r v' E. pose proof (write_answered now id z u v Hv Hu) as H.
  pose proof (write_claims id z (Spec.bump now u) v) as Hc. rewrite <-E in H, Hc.
  destruct H. by split_and!.
Qed.

Section contracts.
Context `{Rendering}.

#[export] Instance create_contract :
  EndpointContract create_route table_ok ItemBase_ok create_step.
Proof.
  split; simpl; [done| | |by intros ? ? ? ? ? (_ & _ & ?)|by intros ? ? ? ? ? ([? _] & _ & _)].
  - intros request b. unfold validate_body. destruct (body_members _) as [l|]; [|done].
    destruct (new_ItemBase l) eqn:E; [|done]. intros [= <-]. by eapply new_ItemBase_ok.
  - intros now v b Hv (Hn & Hp & Hd). apply triple_item_step.
    + apply triple_bind, triple_lift. simpl. apply triple_create.
    + intros r v' Hc. pose proof (created_claims _ _ _ _ _ Hc).
      apply created_answered in Hc as [??]; [|done..]. by split_and!.
Qed.

Lemma validate_id_and_body_ok {P} (model : list (string * value) → checked P) request id p :
  validate_id_and_body model request = Ok (id, p) → ∃ l, model l = Ok p.
Proof.
  unfold validate_id_and_body. destruct (validate_id request); simpl; [|done].
  unfold validate_body. destruct (body_members _) as [l|]; simpl; [|done].
  destruct (model l) eqn:E; simpl; [|done]. intros [= _ <-]. eauto.
Qed.

#[export] Instance update_contract :
  EndpointContract update_route table_ok (λ i, UpdateItemRequest_ok i.2) update_step.
Proof.
  split; simpl; [done| | |by intros ? ? ? ? ? (_ & _ & ?)|by intros ? ? ? ? ? ([? _] & _ & _)].
  - intros request [id u] [l Hl]%validate_id_and_body_ok. by eapply new_UpdateItemRequest_ok.
  - intros now v [id u] Hv Hu. by apply triple_write, update_request_data_ok.
Qed.

#[export] Instance replace_contract :
  EndpointContract replace_route table_ok (λ i, ItemBase_ok i.2.2) replace_step.
Proof.
  split; simpl; [done| | |by intros ? ? ? ? ? (_ & _ & ?)|by intros ? ? ? ? ? ([? _] & _ & _)].
  - intros request [id r] [l Hl]%validate_id_and_body_ok. by apply ReplaceItemRequest_ok in Hl as [_ ?].
  - intros now v [id [z b]] Hv Hb. by apply triple_write, replace_request_data_ok.
Qed.

#[export] Instance delete_contract :
  EndpointContract delete_route table_ok (λ _, True) delete_step.
Proof.
  split; simpl; [done|done| |by intros ? ? ? ? ? (_ & _ & ?)|by intros ? ? ? ? ? ([? _] & _ & _)].
  intros now v [id z] Hv _. apply triple_item_step; [by apply triple_delete, table_ok_filed|].
  intros r v' E. pose proof (remove_answered id z v Hv) as H1.
  pose proof (remove_claims id z v) as Hc. simpl in E. rewrite <-E in H1, Hc.
  destruct H1. by split_and!.
Qed.
End contracts.

(** ** Properties of every mutation route *)
Section mutation_properties.
Context {V A : Type} (settings : Settings) (ep : Endpoint V A) (I : db → Prop) (valid : V → Prop)
  (R : Z → V → db → py A → db → Prop) `{!EndpointContract ep I valid R}.

(** A request arrives at a connection without locks and a scope without a session. *)
Record arrives (w : world) : Prop := mkArrives {
  ar_tables : I (w_committed w);
  ar_claims : claims_ok (w_committed w);
  ar_locks : w_own_locks w = ∅;
  ar_owner : w_owner w = false
}.

Lemma handle_settles request w :
  ep_transactional ep = true → arrives w →
  settled_request settings ep R request w (handle settings ep request w).1
    (w_committed (handle settings ep request w).2)
  ∧ w_own_locks (handle settings ep request w).2 = ∅
  ∧ w_owner (handle settings ep request w).2 = false.
Proof.
  intros Ht []. apply (runs_handle settings ep R I valid); auto.
  - apply contract_claims_free.
  - apply contract_valid.
  - apply contract_triple.
  - apply contract_frame.
Qed.

(** The configured bound on stored responses. *)
Definition settings_ok : Prop := IDEMPOTENCY_MAX_RESPONSE_BYTES settings ≤ stored_response_limit.

Lemma validate_response_mono st b l l' :
  l ≤ l' → validate_response st b l = Ok tt → validate_response st b l' = Ok tt.
Proof.
  unfold validate_response. intros Hl.
  destruct (negb _); simpl; [done|].
  destruct (Z.ltb_spec l (blen b)), (Z.ltb_spec l' (blen b)); try done. lia.
Qed.

Lemma claims_ok_insert hash c d :
  claim_ok c → claims_ok d → claims_ok (set_claims (<[hash := c]> (db_claims d)) d).
Proof. intros Hc Hd. by apply map_Forall_insert_2. Qed.

Lemma settle_invariants store resp v d r d' :
  I d → claims_ok d → (∀ v', store v = Ok v' → I v' ∧ claims_ok v') →
  (r, d') = settle store resp v d → I d' ∧ claims_ok d'.
Proof.
  intros HI Hok Hs. unfold settle. destruct (unbuffered resp); [by intros [= -> ->]|].
  destruct (400 <=? _); [by intros [= -> ->]|].
  destruct (store v) as [v'|e]; [|by intros [= -> ->]]. intros [= -> ->]. by apply Hs.
Qed.

(** The stored response turns a claim being processed into a completed one. *)
Lemma store_response_claims now hash resp v v' c d :
  settings_ok → claims_ok d → db_claims v = <[hash := c]> (db_claims d) → cl_state c = processing →
  store_response settings now hash resp v = Ok v' →
  ∃ c', v' = set_claims (<[hash := c']> (db_claims d)) v ∧ claim_ok c'
    ∧ c' = Repo.completed_claim now (status_code (prepared resp)) (body (prepared resp)) c.
Proof.
  intros Hset Hok Hv Hc. unfold store_response.
  destruct (validate_response _ _ _) as [[]|e] eqn:E; cbn [mbind result_bind]; [|done].
  unfold Repo.complete_where. rewrite Hv, lookup_insert_eq, Hc. simpl. intros [= <-].
  eexists. rewrite insert_insert_eq. split; [done|]. split; [|done]. split; [done|].
  do 4 eexists. split_and!; try done. by eapply validate_response_mono.
Qed.

Lemma run_endpoint_invariants now vs store v d r d' :
  I d → claims_ok d → run_endpoint ep R now vs store v d r d' →
  (∀ resp v1 v2, I v1 → db_claims v1 = db_claims v → store resp v1 = Ok v2 → I v2 ∧ claims_ok v2) →
  I d' ∧ claims_ok d'.
Proof.
  intros HI Hok (a & v1 & HR & H) Hs.
  pose proof (contract_frame _ _ _ _ _ HR) as Hc. apply contract_tables in HR as HI1.
  destruct a as [a|e]; [|by injection H as -> ->].
  destruct (ep_render ep a) as [resp|e]; [|by injection H as -> ->].
  eapply (settle_invariants (store resp) resp v1 d r d'); eauto.
Qed.

(** A committed step keeps the tables and the claims well formed. *)
Lemma atomic_invariants request execution now other d r d' :
  settings_ok → I d → claims_ok d →
  atomic settings ep R request execution now other d r d' → I d' ∧ claims_ok d'.
Proof.
  intros Hset HI Hok. unfold atomic.
  destruct (ep_validate ep request) as [vs|e]; [|by intros [= -> ->]].
  destruct execution as [[policy key]|].
  - destruct (begin_decision _ _ _ _ _ _ _ _) as [[resp|hash c]|e] eqn:Hb;
      [by intros [= -> ->]| |by intros [= -> ->]].
    apply begin_decision_claim in Hb.
    intros H. eapply run_endpoint_invariants; [done..|exact H|]. intros resp v1 v2 HI1 Hc Hs.
    apply (store_response_claims _ _ _ _ _ c d) in Hs as (c' & -> & Hc' & _); [|done..].
    split; [by apply contract_claims_free|]. by apply map_Forall_insert_2.
  - intros H. eapply run_endpoint_invariants; [done..|exact H|].
    intros resp v1 v2 HI1 Hc [= <-]. split; [done|]. unfold claims_ok. by rewrite Hc.
Qed.

Lemma settled_invariants request w r d' :
  settings_ok → I (w_committed w) → claims_ok (w_committed w) →
  settled_request settings ep R request w r d' → I d' ∧ claims_ok d'.
Proof.
  intros Hset HI Hok.
  assert (∀ r, atomic_request settings ep R request (w_utc w) (w_other_locks w)
    (w_committed w) r d' → I d' ∧ claims_ok d') as Hstep.
  { intros r'. unfold atomic_request. destruct (execution_of ep request); [|by intros [= -> ->]].
    by apply atomic_invariants. }
  unfold settled_request. destruct r as [resp|e]; [apply Hstep|].
  intros [[-> _]|[_ [->|[resp H]]]]; [done..|by eapply Hstep].
Qed.

Lemma handle_invariants request w :
  settings_ok → ep_transactional ep = true → arrives w →
  I (w_committed (handle settings ep request w).2)
  ∧ claims_ok (w_committed (handle settings ep request w).2).
Proof.
  intros Hset Ht Ha. destruct (handle_settles request w Ht Ha) as [Hs _]. destruct Ha.
  by eapply settled_invariants.
Qed.
End mutation_properties.
