(* ===== verification/MutationTheorems.v ===== *)
(** * What the mutation routes guarantee

    The properties of [ApplicationRoute] for every endpoint that meets its contract, and
    for the four item mutations: atomicity under every schedule, invariants of the
    committed tables along every history of requests, and the behaviour of keyed
    requests (stored with the mutation, replayed, refused). *)
From S2P Require Import Prelude PyText Values Fingerprint FingerprintFacts Models Database Items Idempotency Mutation MutationFacts ItemRoutes.
Open Scope Z_scope.

#[local] Arguments digest : simpl never.
#[local] Arguments identity : simpl never.
#[local] Arguments validate_response : simpl never.

(** ** Keyed requests *)

(** The claim a keyed request with valid inputs makes: its scope hash, and the row
    [begin] inserts. *)
Definition claim_of {V A} (settings : Settings) (ep : Endpoint V A) (request : Request)
  : py (string * claim) :=
  execution ← execution_of ep request;
  vs ← ep_validate ep request;
  match execution with
  | None => Err (ValueError "no key")
  | Some (policy, key) =>
      '(namespace, caller, route, hash) ← identity settings request policy key;
      fingerprint ← digest (fingerprint_inputs (ep_dependant ep) (ep_values ep vs));
      Ok (hash, new_claim policy namespace caller route fingerprint)
  end.

Definition different_payload : exn :=
  HTTPException PlainHTTPException 409 "Idempotency-Key was already used with a different payload." [].

(** The response stored in a completed claim. *)
Definition stored_response (c : claim) : Response :=
  mkResponse true false
    (mkJSONResponse (default 0 (cl_response_status c)) (default "" (cl_response_body c))).

Definition unexpired_at (now : Z) (c : claim) : Prop :=
  match cl_expires_at c with Some t => now < t | None => False end.

(** The answer a found claim [c] calls for when the request would claim [cl]. *)
Definition scope_answer (w : world) (hash : string) (c cl : claim) (stored : Response)
  : py Response :=
  if bool_decide (hash ∈ w_other_locks w) then Err in_progress
  else if String.eqb (cl_fingerprint c) (cl_fingerprint cl)
       then Ok stored else Err different_payload.

(** The request commits nothing; its outcome is [answer], or a disturbance. *)
Definition only_answers {V A} (settings : Settings) (ep : Endpoint V A) (request : Request)
    (w : world) (answer : py Response) : Prop :=
  let '(r, w') := handle settings ep request w in
  w_committed w' = w_committed w ∧
  (r = answer ∨ ∃ e, r = Err e ∧ (disturbed w e ∨ commit_failed w e)).

(** The request performs its step or nothing, and leaves no lock and no session behind. *)
Definition settles_and_releases {V A} (settings : Settings) (ep : Endpoint V A)
    (R : Z → V → db → py A → db → Prop) (request : Request) (w : world) : Prop :=
  let '(r, w') := handle settings ep request w in
  settled_request settings ep R request w r (w_committed w')
  ∧ w_own_locks w' = ∅ ∧ w_owner w' = false.

Section keyed.
Context {V A : Type} (settings : Settings) (ep : Endpoint V A) (I : db → Prop) (valid : V → Prop)
  (R : Z → V → db → py A → db → Prop) `{!EndpointContract ep I valid R}.

Lemma consider_stored d hash c now fingerprint :
  claims_ok d → db_claims d !! hash = Some c → unexpired_at now c →
  consider (lookup_claim now hash d) fingerprint =
    if String.eqb (cl_fingerprint c) fingerprint
    then Ok (Replay (prepared (stored_response c))) else Err different_payload.
Proof.
  intros Hok Hc Hu. destruct (Hok hash c Hc) as (Hst & st & bytes & dn & t & Hs & Hb & _ & Ht & _ & Hv).
  unfold lookup_claim. rewrite Hc. unfold unexpired_at in Hu. rewrite Ht in Hu |- *.
  unfold consider. rewrite (proj2 (Z.ltb_lt now t) Hu), Hst. simpl.
  destruct (String.eqb _ _); simpl; [|done].
  by rewrite Hs, Hb, Hv.
Qed.

(** A claim that is found decides the request before its endpoint runs. *)
Lemma atomic_stored request hash cl c now other d r d' :
  claims_ok d → claim_of settings ep request = Ok (hash, cl) →
  db_claims d !! hash = Some c → unexpired_at now c →
  atomic_request settings ep R request now other d r d' →
  d' = d ∧ r = if bool_decide (hash ∈ other) then Err in_progress
               else if String.eqb (cl_fingerprint c) (cl_fingerprint cl)
                    then Ok (stored_response c) else Err different_payload.
Proof.
  intros Hok Hk Hc Hu. unfold claim_of in Hk. unfold atomic_request, atomic.
  destruct (execution_of ep request) as [execution|e]; cbn [mbind result_bind] in Hk; [|done].
  destruct (ep_validate ep request) as [vs|e]; cbn [mbind result_bind] in Hk; [|done].
  destruct execution as [[policy key]|]; [|done]. unfold begin_decision.
  destruct (identity _ _ _ _) as [[[[ns caller] route] h]|e]; cbn [mbind result_bind] in Hk |- *; [|done].
  destruct (digest _) as [fp|e]; cbn [mbind result_bind] in Hk |- *; [|done].
  injection Hk as -> <-. simpl.
  destruct (bool_decide _); [by intros [= -> ->]|].
  rewrite (consider_stored d hash c) by done.
  destruct (String.eqb _ _); cbn [mbind result_bind]; by intros [= -> ->].
Qed.

(** A successful keyed request has left its claim behind, with the response. *)
Lemma atomic_success_stored request hash cl now other d resp d' :
  claims_ok d → settings_ok settings → claim_of settings ep request = Ok (hash, cl) →
  (∀ c, db_claims d !! hash = Some c → ¬ unexpired_at now c) →
  status_code (prepared resp) < 400 →
  atomic_request settings ep R request now other d (Ok resp) d' →
  ∃ c, db_claims d' !! hash = Some c ∧ stored_response c = resp
    ∧ cl_fingerprint c = cl_fingerprint cl ∧ cl_expires_at c = Some (now + 1000 * RETENTION_SECONDS)
    ∧ ∀ h, h ≠ hash → db_claims d' !! h = db_claims d !! h.
Proof.
  intros Hok Hset Hk Hno Hst. unfold claim_of in Hk. unfold atomic_request, atomic.
  destruct (execution_of ep request) as [execution|e]; cbn [mbind result_bind] in Hk; [|done].
  destruct (ep_validate ep request) as [vs|e]; cbn [mbind result_bind] in Hk; [|done].
  destruct execution as [[policy key]|]; [|done]. unfold begin_decision.
  destruct (identity _ _ _ _) as [[[[ns caller] route] h]|e]; cbn [mbind result_bind] in Hk |- *; [|done].
  destruct (digest _) as [fp|e]; cbn [mbind result_bind] in Hk |- *; [|done].
  injection Hk as -> <-. simpl. destruct (bool_decide _); [done|].
  destruct (consider _ _) as [outcome|e] eqn:Hcons; cbn [mbind result_bind]; [|done].
  assert (∀ r0, outcome ≠ Replay r0) as Hnr.
  { intros r0 ->. unfold lookup_claim in Hcons. destruct (db_claims d !! hash) as [c|] eqn:Hc; [|done].
    specialize (Hno c eq_refl). unfold unexpired_at in Hno. unfold consider in Hcons.
    destruct (negb _); [done|]. destruct (cl_expires_at c) as [t|]; [|done].
    destruct (Z.ltb_spec now t); [by destruct Hno|done]. }
  intros H.
  assert (run_endpoint ep R now vs (store_response settings now hash)
    (set_claims (<[hash := new_claim policy ns caller route fp]> (db_claims d)) d) d (Ok resp) d') as Hrun
    by (destruct outcome; [by destruct (Hnr r)|exact H..]).
  clear H Hcons. destruct Hrun as (a & v1 & HR & H). apply contract_frame in HR.
  destruct a as [a|e]; [|done]. destruct (ep_render ep a) as [resp'|e]; [|done].
  unfold settle in H. destruct (unbuffered resp') eqn:Hb; [done|].
  destruct (Z.leb_spec 400 (status_code (prepared resp'))).
  { injection H as -> _. lia. }
  destruct (store_response _ _ _ _ _) as [v2|e] eqn:Hs; [|done]. injection H as -> ->.
  apply (store_response_claims settings now hash resp' v1 v2
           (new_claim policy ns caller route fp) d) in Hs as (c' & -> & _ & ->); [|done..].
  exists (Repo.completed_claim now (status_code (prepared resp')) (body (prepared resp'))
            (new_claim policy ns caller route fp)).
  split_and!; simpl; [by rewrite lookup_insert_eq| |done|done|].
  - unfold stored_response. simpl. unfold unbuffered in Hb.
    destruct resp' as [js bg [st bd]]. simpl in *. by destruct js, bg.
  - intros h Hh. by rewrite lookup_insert_ne.
Qed.

Lemma settled_stored request hash cl c w r d' :
  claims_ok (w_committed w) → claim_of settings ep request = Ok (hash, cl) →
  db_claims (w_committed w) !! hash = Some c → unexpired_at (w_utc w) c →
  settled_request settings ep R request w r d' →
  d' = w_committed w ∧
  (r = scope_answer w hash c cl (stored_response c)
   ∨ ∃ e, r = Err e ∧ (disturbed w e ∨ commit_failed w e)).
Proof.
  intros Hok Hk Hc Hu. unfold settled_request. destruct r as [resp|e].
  - intros H. eapply atomic_stored in H as [-> ->]; eauto.
  - intros [[-> H]|[Hd [->|[resp H]]]]; [|by eauto|].
    + eapply atomic_stored in H as [_ ->]; eauto.
    + eapply atomic_stored in H as [-> _]; eauto.
Qed.
End keyed.

(** ** A concrete deployment *)
Definition demo_settings : Settings := mkSettings "QuickAPI" "app" 65536 10 100.

#[local] Instance demo_rendering : Rendering := { item_json := λ r, "{}" }.

(** POST /api/v1/items creating a bow at [price] under [key]. *)
Definition bow_request (key price : string) : Request :=
  mkRequest "POST" [("idempotency-key", key)] (Some "/api/v1/items") "" []
    (VDict [(VStr "name", VStr "Bow"); (VStr "price", VStr price)]).

(** A request of a calm schedule arriving when the database clock shows [utc]. *)
Definition arrival (utc : Z) (d : db) : world :=
  mkWorld d NoTransaction false false ∅ ∅ false (mkActivity None None false) false new_execution utc
    (λ _, 3) 0 (λ _, demo_event) 0.

Definition demo_run (utc : Z) (key price : string) (d : db) : py Response * world :=
  handle demo_settings create_route (bow_request key price) (arrival utc d).

(** The tables after the first request. *)
Definition demo_created : db := w_committed (demo_run 9 "k1" "1.5" (demo_db 7)).2.

Definition bow_response : Response := mkResponse true false (mkJSONResponse 201 "{}").

Definition demo_hash : string :=
  match claim_of demo_settings create_route (bow_request "k1" "1.5") with
  | Ok (hash, _) => hash | Err _ => "" end.
Definition demo_claim (price : string) : claim :=
  match claim_of demo_settings create_route (bow_request "k1" price) with
  | Ok (_, c) => c | Err _ => mkClaim "" "" "" "" "" processing None None None None end.

Definition demo_stored (utc : Z) (price : string) : claim :=
  Repo.completed_claim utc 201 "{}" (demo_claim price).

Lemma demo_arrives utc : arrives table_ok (arrival utc (demo_db 7)).
Proof.
  split; [|by intros ???|done|done]. apply demo_table_ok. vm_compute. split; discriminate.
Qed.

Lemma demo_created_ok : table_ok demo_created ∧ claims_ok demo_created.
Proof.
  unfold demo_created, demo_run.
  apply (handle_invariants demo_settings create_route table_ok ItemBase_ok create_step);
    [vm_compute; discriminate|done|apply demo_arrives].
Qed.

Lemma demo_created_arrives utc : arrives table_ok (arrival utc demo_created).
Proof. destruct demo_created_ok. by constructor. Qed.

(** ** Properties *)

(** [C1] A mutation is atomic. Whatever faults, clock readings, abandonments, lock
    failures and commit failures the schedule holds, a transactional route whose endpoint
    meets its contract either performs its specified step on the committed tables — the
    endpoint's changes together with the completed claim of a keyed request — or leaves
    them untouched; when it answers, the answer is the step's; when it fails without
    having changed anything, the failure is the step's or a disturbance of the schedule.
    Afterwards the connection holds no named lock and the request owns no session. *)
Theorem mutation_atomic {V A} settings (ep : Endpoint V A) I valid R
    `{!EndpointContract ep I valid R} request w :
  ep_transactional ep = true → arrives I w →
  settles_and_releases settings ep R request w.
Proof.
  intros Ht Ha. pose proof (handle_settles settings ep I valid R request w Ht Ha) as H.
  unfold settles_and_releases. by destruct (handle settings ep request w).
Qed.

Lemma mutation_atomic_witness :
  settles_and_releases demo_settings create_route create_step (bow_request "k1" "1.5")
    (arrival 9 (demo_db 7))
  ∧ (demo_run 9 "k1" "1.5" (demo_db 7)).1 = Ok bow_response
  ∧ length (map_to_list (db_items demo_created)) = 2%nat
  ∧ length (map_to_list (db_claims demo_created)) = 1%nat.
Proof.
  split; [|split_and!; vm_compute; reflexivity].
  exact (mutation_atomic demo_settings create_route table_ok ItemBase_ok
    create_step (bow_request "k1" "1.5") (arrival 9 (demo_db 7)) eq_refl (demo_arrives 9)).
Defined.

(** [C6] A keyed request that finds an unexpired claim under its scope never runs its
    endpoint and changes nothing: while another request of the scope is in progress it is
    refused with 409; with the claim's fingerprint it is answered with the stored status
    and bytes; with any other fingerprint it is refused with 409; or it is disturbed. *)
Theorem claim_decides_keyed_request {V A} settings (ep : Endpoint V A) I valid R
    `{!EndpointContract ep I valid R} request hash cl c w :
  ep_transactional ep = true → arrives I w →
  claim_of settings ep request = Ok (hash, cl) →
  db_claims (w_committed w) !! hash = Some c → unexpired_at (w_utc w) c →
  only_answers settings ep request w (scope_answer w hash c cl (stored_response c)).
Proof.
  intros Ht Ha Hk Hc Hu. destruct (handle_settles settings ep I valid R request w Ht Ha) as [Hs _].
  unfold only_answers. destruct (handle settings ep request w) as [r w']. simpl in Hs.
  eapply settled_stored in Hs; [exact Hs|apply Ha|done..].
Qed.

Lemma claim_decides_keyed_request_witness :
  only_answers demo_settings create_route (bow_request "k1" "2.50") (arrival 1000 demo_created)
    (Err different_payload)
  ∧ (demo_run 1000 "k1" "2.50" demo_created).1 = Err different_payload.
Proof.
  split; [|vm_compute; reflexivity].
  assert (Err different_payload = scope_answer (arrival 1000 demo_created) demo_hash
    (demo_stored 9 "1.5") (demo_claim "2.50") (stored_response (demo_stored 9 "1.5"))) as ->
    by (vm_compute; reflexivity).
  apply (claim_decides_keyed_request demo_settings create_route table_ok ItemBase_ok create_step);
    [reflexivity|apply demo_created_arrives|vm_compute; reflexivity..].
Defined.

(** [C3] Mutations of one key happen at most once. When a keyed request that found no
    unexpired claim is answered below 400, its response is committed with it, completed
    and expiring one retention period (86 400 s) after the transaction; and as long as
    that claim stands and has not expired, every request of the same scope commits
    nothing: it is answered with the same response if its inputs have the same
    fingerprint, refused with 409 otherwise or while the scope is locked, or disturbed. *)
Theorem keyed_mutation_at_most_once {V A} settings (ep : Endpoint V A) I valid R
    `{!EndpointContract ep I valid R} request hash cl w resp w1 :
  ep_transactional ep = true → settings_ok settings → arrives I w →
  claim_of settings ep request = Ok (hash, cl) →
  (∀ c, db_claims (w_committed w) !! hash = Some c → ¬ unexpired_at (w_utc w) c) →
  handle settings ep request w = (Ok resp, w1) → status_code (prepared resp) < 400 →
  is_Some (db_claims (w_committed w1) !! hash) ∧
  ∀ request' cl' w2, claim_of settings ep request' = Ok (hash, cl') → arrives I w2 →
    db_claims (w_committed w2) !! hash = db_claims (w_committed w1) !! hash →
    w_utc w2 < w_utc w + 86400000 →
    only_answers settings ep request' w2 (scope_answer w2 hash cl cl' resp).
Proof.
  intros Ht Hset Ha Hk Hno E Hst.
  destruct (handle_settles settings ep I valid R request w Ht Ha) as [Hs _]. rewrite E in Hs.
  eapply (atomic_success_stored settings ep I valid R) in Hs as (c & Hc & Hr & Hf & Hx & _); [|apply Ha|done..].
  split; [by eexists|]. intros request' cl' w2 Hk' Ha2 Hsame Hutc.
  destruct (handle_settles settings ep I valid R request' w2 Ht Ha2) as [Hs2 _].
  unfold only_answers. destruct (handle settings ep request' w2) as [r w3]. simpl in Hs2.
  eapply settled_stored in Hs2; [|apply Ha2|exact Hk'|by rewrite Hsame|].
  - unfold scope_answer in *. by rewrite <-Hr, <-Hf.
  - unfold unexpired_at. rewrite Hx. exact Hutc.
Qed.

(** The same bow again, its price written differently; and a bow at another price. *)
Lemma keyed_mutation_at_most_once_witness :
  only_answers demo_settings create_route (bow_request "k1" "1.50") (arrival 1000 demo_created)
    (Ok bow_response)
  ∧ (demo_run 1000 "k1" "1.50" demo_created).1 = Ok bow_response
  ∧ (demo_run 1000 "k1" "2.50" demo_created).1 = Err different_payload.
Proof.
  split; [|split; vm_compute; reflexivity].
  assert (Ok bow_response = scope_answer (arrival 1000 demo_created) demo_hash
    (demo_claim "1.5") (demo_claim "1.50") bow_response) as -> by (vm_compute; reflexivity).
  refine (proj2 (keyed_mutation_at_most_once demo_settings create_route table_ok ItemBase_ok
    create_step (bow_request "k1" "1.5") demo_hash (demo_claim "1.5") (arrival 9 (demo_db 7))
    bow_response (set_committed demo_created (demo_run 9 "k1" "1.5" (demo_db 7)).2)
    eq_refl _ (demo_arrives 9) _ _ _ eq_refl)
    (bow_request "k1" "1.50") (demo_claim "1.50") (arrival 1000 demo_created) _
    (demo_created_arrives 1000) _ eq_refl).
  - vm_compute; discriminate.
  - vm_compute; reflexivity.
  - intros c E. vm_compute in E. discriminate.
  - vm_compute; reflexivity.
  - vm_compute; reflexivity.
  - cbn [w_committed set_committed arrival]. reflexivity.
Defined.
