(* ===== verification/Cleanup.v ===== *)
(** * Cleanup of expired claims

    [app/common/services/idempotency_cleanup_service.py]: [_sweep] deletes expired claims
    in bounded batches, each its own transaction; [Service] is the state machine of the
    timer, the single sweep in flight and shutdown. *)
From stdpp Require Import sorting.
From S2P Require Import Prelude PyText Fingerprint FingerprintFacts Database Idempotency Mutation MutationFacts.
Open Scope Z_scope.

(** ** The sweep *)

(** One batch in its own session and transaction. *)
Definition sweep_batch (size : Z) : M Z :=
  with_session false (session_begin (Repo.purge_expired_batch size)).

(** The loop from batch number [i]; [accepting i] is [self._accepting] when it is read. *)
Fixpoint sweep_from (accepting : nat → bool) (size : Z) (batches i : nat) (count : Z) : M Z :=
  match batches with
  | O => mret count
  | S batches =>
      if accepting i then
        removed ← sweep_batch size;
        if removed <? size then mret (count + removed)
        else sweep_from accepting size batches (S i) (count + removed)
      else mret count
  end.

Definition _sweep (settings : Settings) (accepting : nat → bool) : M Z :=
  sweep_from accepting (IDEMPOTENCY_CLEANUP_BATCH_SIZE settings)
    (IDEMPOTENCY_CLEANUP_MAX_BATCHES settings) 0 0.

(** ** What a sweep removes *)

(** The expired claims, the oldest first. *)
Definition expired_list (now : Z) (m : gmap string claim) : list (string * claim) :=
  merge_sort Repo.expiry_le (filter (λ kc, Repo.expired now kc.2 = true) (map_to_list m)).

(** The tables without the [n] oldest expired claims. *)
Definition purged (now : Z) (n : nat) (d : db) : db :=
  set_claims (Repo.delete_all (take n (expired_list now (db_claims d))).*1 (db_claims d)) d.

#[local] Instance expiry_le_total : Total Repo.expiry_le.
Proof.
  intros [a ca] [b cb]. unfold Repo.expiry_le, Repo.expiry_key. simpl.
  destruct (str_le_total a b) as [E|E]; rewrite E;
  destruct (Z.ltb_spec (default 0 (cl_expires_at ca)) (default 0 (cl_expires_at cb))),
    (Z.eqb_spec (default 0 (cl_expires_at ca)) (default 0 (cl_expires_at cb))),
    (Z.ltb_spec (default 0 (cl_expires_at cb)) (default 0 (cl_expires_at ca))),
    (Z.eqb_spec (default 0 (cl_expires_at cb)) (default 0 (cl_expires_at ca))); simpl;
    try (by left); try (by right); try lia.
Qed.

#[local] Instance expiry_le_trans : Transitive Repo.expiry_le.
Proof.
  intros [a ca] [b cb] [c cc]. unfold Repo.expiry_le, Repo.expiry_key. simpl.
  rewrite !orb_true_iff, !andb_true_iff, !Z.ltb_lt, !Z.eqb_eq.
  intros [?|[? ?]] [?|[? ?]]; [left; lia..|right]. split; [lia|by eapply str_le_trans].
Qed.

Lemma delete_all_lookup ks (m : gmap string claim) k :
  Repo.delete_all ks m !! k = if bool_decide (k ∈ ks) then None else m !! k.
Proof.
  unfold Repo.delete_all. induction ks as [|k0 ks IH]; simpl; [done|].
  destruct (decide (k0 = k)) as [->|Hne].
  - rewrite lookup_delete_eq, bool_decide_true; [done|by left].
  - rewrite lookup_delete_ne by done. rewrite IH. repeat case_bool_decide; set_solver.
Qed.

Lemma expired_list_elem now m k c :
  (k, c) ∈ expired_list now m ↔ m !! k = Some c ∧ Repo.expired now c = true.
Proof.
  unfold expired_list. rewrite merge_sort_Permutation, list_elem_of_filter, elem_of_map_to_list.
  simpl. tauto.
Qed.

Lemma expired_list_NoDup now m : NoDup (expired_list now m).*1.
Proof.
  unfold expired_list. rewrite merge_sort_Permutation.
  apply NoDup_fmap_fst.
  - intros k c c'. rewrite !list_elem_of_filter, !elem_of_map_to_list. intros [_ H] [_ H']. congruence.
  - apply NoDup_filter, NoDup_map_to_list.
Qed.

Lemma expired_list_antisymm now m a b :
  a ∈ expired_list now m → b ∈ expired_list now m →
  Repo.expiry_le a b → Repo.expiry_le b a → a = b.
Proof.
  destruct a as [a ca], b as [b cb]. rewrite !expired_list_elem. intros [Ha _] [Hb _].
  unfold Repo.expiry_le, Repo.expiry_key. simpl.
  rewrite !orb_true_iff, !andb_true_iff, !Z.ltb_lt, !Z.eqb_eq.
  intros [?|[? ?]] [?|[? ?]]; try lia.
  assert (a = b) as -> by by apply str_le_antisymm. congruence.
Qed.

Lemma drop_elem {A} (x : A) n l : x ∈ drop n l → x ∈ l.
Proof. intros H. rewrite <-(take_drop n l). apply elem_of_app. by right. Qed.

(** Removing the first [n] leaves the rest, in the same order. *)
Lemma expired_list_purged now n d :
  expired_list now (db_claims (purged now n d)) = drop n (expired_list now (db_claims d)).
Proof.
  set (l := expired_list now (db_claims d)).
  assert (expired_list now (db_claims (purged now n d)) ≡ₚ drop n l) as Hp.
  { apply NoDup_Permutation.
    - eapply NoDup_fmap_1, expired_list_NoDup.
    - pose proof (NoDup_fmap_1 _ _ (expired_list_NoDup now (db_claims d))) as H. fold l in H.
      rewrite <-(take_drop n l) in H. by apply NoDup_app in H as (_ & _ & ?).
    - intros [k c]. rewrite expired_list_elem. simpl. rewrite delete_all_lookup.
      assert ((k, c) ∈ l ↔ db_claims d !! k = Some c ∧ Repo.expired now c = true) as Hl
        by apply expired_list_elem.
      pose proof (expired_list_NoDup now (db_claims d)) as Hnd. fold l in Hnd |- *.
      rewrite <-(take_drop n l) in Hl, Hnd. rewrite elem_of_app in Hl.
      rewrite fmap_app, NoDup_app in Hnd. destruct Hnd as (_ & Hnd & _).
      case_bool_decide as Hin; split.
      + by intros [? _].
      + intros H. exfalso. apply (Hnd k Hin), list_elem_of_fmap. by exists (k, c).
      + intros [H He]. destruct Hl as [_ [Hl|Hl]]; [done| |done].
        destruct Hin. apply list_elem_of_fmap. by exists (k, c).
      + intros H. apply Hl. by right. }
  eapply (StronglySorted_unique_strong Repo.expiry_le).
  - intros a b Ha Hb. apply (expired_list_antisymm now (db_claims d)).
    + rewrite Hp in Ha. by eapply drop_elem.
    + by eapply drop_elem.
  - apply StronglySorted_merge_sort; apply _.
  - apply (StronglySorted_app_1_r _ (take n l)). rewrite take_drop.
    apply StronglySorted_merge_sort; apply _.
  - done.
Qed.

Lemma purged_purged now a b d : purged now a (purged now b d) = purged now (b + a) d.
Proof.
  pose proof (expired_list_purged now b d) as E. unfold purged at 1. rewrite E.
  unfold purged, set_claims. simpl. f_equal. apply map_eq. intros k.
  rewrite !delete_all_lookup. set (l := expired_list now (db_claims d)).
  assert (take (b + a) l = take b l ++ take a (drop b l)) as ->.
  { by rewrite take_take_drop. }
  rewrite fmap_app. repeat case_bool_decide; set_solver.
Qed.

Lemma purged_0 now d : purged now 0 d = d.
Proof. by destruct d. Qed.

(** *** One batch *)
Definition batch_size_ok (size : Z) : Prop := 1 ≤ size ≤ 1000.

Lemma triple_purge now v size :
  batch_size_ok size →
  triple now v (Repo.purge_expired_batch size) (λ r v',
    r = Ok (Z.of_nat (Nat.min (Z.to_nat size) (length (expired_list now (db_claims v)))))
    ∧ v' = purged now (Z.to_nat size) v).
Proof.
  intros [Hlo Hhi]. apply triple_repo_require.
  rewrite (proj2 (Z.leb_le 1 size)), (proj2 (Z.leb_le size 1000)) by done. simpl.
  apply triple_utc, triple_statement. split; [|done]. unfold Repo.purge_batch.
  by rewrite length_fmap, length_take.
Qed.

(** The database's clock and the schedule do not change; the statements of the background
    task fail only by the schedule. *)
Definition failed (w : world) (e : exn) : Prop :=
  (∃ n, ev_fault (w_event w n) = Some e) ∨ commit_failed w e.

Definition same_run (w w' : world) : Prop := w_utc w' = w_utc w ∧ w_event w' = w_event w.

Definition expired_count (w : world) : nat :=
  length (expired_list (w_utc w) (db_claims (w_committed w))).

(** What a batch has done to the committed tables after outcome [r]. *)
Definition batch_done (size : Z) (w : world) (r : py Z) (w' : world) : Prop :=
  same_run w w' ∧
    match r with
    | Ok removed => removed = Z.of_nat (Nat.min (Z.to_nat size) (expired_count w))
        ∧ w_committed w' = purged (w_utc w) (Z.to_nat size) (w_committed w)
    | Err e => failed w e ∧ (w_committed w' = w_committed w
        ∨ w_committed w' = purged (w_utc w) (Z.to_nat size) (w_committed w))
    end.

Lemma runs_purge_transaction size w :
  batch_size_ok size → w_tx w = NoTransaction → w_acquired w = false →
  runs (session_begin (Repo.purge_expired_batch size)) w (batch_done size w).
Proof.
  intros Hsize Htx Hacq. unfold runs, session_begin. set (w1 := set_tx Begun w).
  destruct (triple_purge (w_utc w) (w_committed w) size Hsize w1 eq_refl eq_refl)
    as (Hf & v' & Hv' & Hr).
  destruct (Repo.purge_expired_batch size w1) as [[removed|e] w2] eqn:E; simpl in *;
    assert (w_committed w2 = w_committed w) as Hc by apply Hf;
    assert (w_utc w2 = w_utc w) as Hu by apply Hf;
    assert (w_event w2 = w_event w) as He by apply Hf.
  2:{ destruct Hr as [[? _]|(e' & [= <-] & [H|[H _]])]; [done| |simpl in H; congruence].
      destruct (rollback_spec w2) as (Hf2 & _ & Hrb).
      assert (same_run w (rollback w2).2) as Hs by (destruct Hf2; split; simpl in *; congruence).
      assert (w_committed (rollback w2).2 = w_committed w) as Hc2 by (rewrite (fr_committed _ _ Hf2); exact Hc).
      destruct (rollback w2) as [[u|e2] w3]; simpl in *; (split; [exact Hs|]); (split; [left|by left]); [exact H|].
      destruct Hrb as [?|(e0 & n & [= <-] & Hn)]; [done|]. exists n. by rewrite <-He. }
  destruct Hr as [[[= ->] ->]|(e' & ? & _)]; [|done].
  rewrite (view_of_in_transaction _ _ Hv'). unfold commit, mbind, M_bind, act. simpl.
  set (ev := w_event w2 (w_step w2)).
  assert (ev = w_event w (w_step w2)) as Hev by (subst ev; by rewrite He).
  destruct (w_tx w2) as [| |v] eqn:Htx2; [by unfold view_of in Hv'; rewrite Htx2 in Hv'| |].
  - unfold view_of in Hv'. rewrite Htx2 in Hv'. injection Hv' as Hv'. simpl. by split_and!.
  - unfold view_of in Hv'. rewrite Htx2 in Hv'. injection Hv' as ->.
    destruct (ev_commit ev) as [|applied e] eqn:Hcm; simpl; (split; [by destruct applied|]) || (split; [done|by split]).
    split; [right; exists (w_step w2), applied; by rewrite <-Hev|]. destruct applied; simpl; auto.
Qed.

Lemma runs_sweep_batch size w :
  batch_size_ok size → runs (sweep_batch size) w (batch_done size w).
Proof.
  intros Hsize. unfold sweep_batch. apply runs_with_session.
  pose proof (runs_purge_transaction size (new_session false w) Hsize eq_refl eq_refl) as Hp.
  eapply runs_mono; [|exact Hp]. intros r w1 [[Hu He] Hr] w2 Hf _.
  assert (same_run w w2) as Hs by (destruct Hf; split; simpl in *; congruence).
  unfold batch_done. rewrite (fr_committed _ _ Hf). split; [by split|]. intros e n Hn. split; [exact Hs|].
  split; [left; exists n; by rewrite He in Hn|].
  destruct r as [removed|e']; [right; apply Hr|apply Hr].
Qed.

(** *** The whole sweep *)

(** A sweep's batches: it has removed the [k] oldest expired claims. *)
Lemma runs_sweep_from accepting size batches i count w :
  batch_size_ok size →
  runs (sweep_from accepting size batches i count) w (λ r w', same_run w w' ∧
    ∃ k, (k ≤ batches * Z.to_nat size)%nat
      ∧ w_committed w' = purged (w_utc w) k (w_committed w)
      ∧ match r with
        | Ok total => total = count + Z.of_nat (Nat.min k (expired_count w))
            ∧ ((∀ j, (i ≤ j < i + batches)%nat → accepting j = true) →
               (expired_count w < batches * Z.to_nat size)%nat → (expired_count w ≤ k)%nat)
        | Err e => failed w e
        end).
Proof.
  intros Hsize. revert i count w. induction batches as [|batches IH]; intros i count w; simpl.
  { unfold runs. simpl. split; [done|]. exists 0%nat. rewrite purged_0.
    split_and!; [done|done|lia|lia]. }
  destruct (accepting i) eqn:Hacc.
  2:{ unfold runs. simpl. split; [done|]. exists 0%nat. rewrite purged_0.
      split_and!; [lia|done|lia|]. intros Ha. by rewrite (Ha i ltac:(lia)) in Hacc. }
  apply runs_bind. pose proof (runs_sweep_batch size w Hsize) as Hb. unfold runs, batch_done in Hb. unfold runs at 1.
  destruct (sweep_batch size w) as [[removed|e] w1]; simpl in *; destruct Hb as [[Hu He] Hb].
  2:{ split; [done|]. destruct Hb as [Hf [Hc|Hc]].
      - exists 0%nat. rewrite purged_0. split_and!; [lia|done|done].
      - exists (Z.to_nat size). split_and!; [lia|done|done]. }
  destruct Hb as [Hr Hc].
  assert (expired_count w1 = expired_count w - Z.to_nat size)%nat as Hcount.
  { unfold expired_count. rewrite Hu, Hc, expired_list_purged, length_drop. done. }
  destruct Hsize as [Hlo Hhi].
  destruct (Z.ltb_spec removed size).
  - unfold runs. simpl. split; [done|]. exists (Z.to_nat size).
    split_and!; [lia|done|lia|]. intros _ _. lia.
  - specialize (IH (S i) (count + removed) w1). unfold runs in IH |- *.
    destruct (sweep_from _ _ _ _ _ w1) as [r w2]. simpl in *.
    destruct IH as ([Hu2 He2] & k & Hk & Hc2 & Hres). split; [by unfold same_run in *; split; congruence|].
    exists (Z.to_nat size + k)%nat. split_and!; [lia| |].
    + by rewrite Hc2, Hu, Hc, purged_purged.
    + destruct r as [total|e].
      * destruct Hres as [-> Hall]. rewrite Hcount in Hall |- *. split; [lia|].
        intros Ha Hlt. enough (expired_count w - Z.to_nat size ≤ k)%nat by lia.
        apply Hall; [intros j ?; apply Ha; lia|lia].
      * unfold failed, commit_failed in *. by rewrite He in Hres.
Qed.

(** *** Properties *)
Lemma purged_lookup now n d h :
  db_claims (purged now n d) !! h =
    if bool_decide (h ∈ (take n (expired_list now (db_claims d))).*1) then None else db_claims d !! h.
Proof. apply delete_all_lookup. Qed.

Lemma purged_removes_expired now n d h c :
  db_claims d !! h = Some c → db_claims (purged now n d) !! h = None → Repo.expired now c = true.
Proof.
  intros Hc. rewrite purged_lookup. case_bool_decide as Hin; [|congruence]. intros _.
  apply list_elem_of_fmap in Hin as ([k c'] & -> & Hin). apply subseteq_take, expired_list_elem in Hin.
  simpl in Hc. destruct Hin. congruence.
Qed.

(** [C23] A sweep removes expired claims only, the oldest first, in bounded batches:
    whatever fails and whenever it is told to stop, it has removed exactly the [k] oldest
    expired claims for some [k] within the configured bound, all other claims and the
    items are untouched, and the count it returns is the number removed; one that runs to
    its end while accepting, with fewer expired claims than the bound, leaves none. *)
Theorem sweep_removes_oldest_expired settings accepting w :
  batch_size_ok (IDEMPOTENCY_CLEANUP_BATCH_SIZE settings) →
  let bound := (IDEMPOTENCY_CLEANUP_MAX_BATCHES settings
                * Z.to_nat (IDEMPOTENCY_CLEANUP_BATCH_SIZE settings))%nat in
  let '(r, w') := _sweep settings accepting w in
  ∃ k, (k ≤ bound)%nat
    ∧ w_committed w' = purged (w_utc w) k (w_committed w)
    ∧ db_items (w_committed w') = db_items (w_committed w)
    ∧ (∀ h c, db_claims (w_committed w) !! h = Some c →
         db_claims (w_committed w') !! h = Some c
         ∨ (db_claims (w_committed w') !! h = None ∧ Repo.expired (w_utc w) c = true))
    ∧ match r with
      | Ok total => total = Z.of_nat (Nat.min k (expired_count w))
          ∧ ((∀ j, accepting j = true) → (expired_count w < bound)%nat →
             map_Forall (λ _ c, Repo.expired (w_utc w) c = false) (db_claims (w_committed w')))
      | Err e => failed w e
      end.
Proof.
  intros Hsize bound. pose proof (runs_sweep_from accepting _
    (IDEMPOTENCY_CLEANUP_MAX_BATCHES settings) 0 0 w Hsize) as Hrun.
  unfold runs, _sweep in *. destruct (sweep_from _ _ _ _ _ w) as [r w'].
  destruct Hrun as (_ & k & Hk & Hc & Hr). simpl in *. exists k. rewrite Hc.
  split_and!; [done|done|done| |].
  - intros h c Hl. destruct (db_claims (purged _ k _) !! h) as [c'|] eqn:E.
    + left. rewrite purged_lookup in E. case_bool_decide; [done|congruence].
    + right. split; [done|]. by eapply purged_removes_expired.
  - destruct r as [total|e]; [|done]. destruct Hr as [-> Hall]. split; [done|].
    intros Ha Hlt h c Hl. specialize (Hall (λ j _, Ha j) Hlt).
    apply not_true_is_false. intros He.
    assert ((h, c) ∈ expired_list (w_utc w) (db_claims (purged (w_utc w) k (w_committed w)))) as Hin
      by by apply expired_list_elem.
    rewrite expired_list_purged, drop_ge in Hin by done. by apply not_elem_of_nil in Hin.
Qed.

Definition aged_claim (expires : Z) : claim :=
  mkClaim "" "" "" "" "" completed (Some 201) (Some "{}") (Some 0) (Some expires).
Definition aged_world : world :=
  mkWorld (mkDb ∅ {[ "a" := aged_claim 30; "b" := aged_claim 10; "c" := aged_claim 90;
                     "d" := aged_claim 20 ]})
    NoTransaction false false ∅ ∅ false (mkActivity None None false) false new_execution 50
    (λ _, 3) 0 (λ _, mkEvent 0 None None false false CommitDone) 0.

(** Three expired claims in batches of two, and in one batch of two. *)
Lemma sweep_removes_oldest_expired_witness :
  let claims b w := (map_to_list (db_claims (w_committed (_sweep (mkSettings "" "" 0 b 2) (λ _, true) w).2))).*1 in
  claims 2%nat aged_world = ["c"] ∧ claims 1%nat aged_world = ["c"; "a"]
  ∧ ∃ k, (k ≤ 2 * 2)%nat ∧ w_committed (_sweep (mkSettings "" "" 0 2 2) (λ _, true) aged_world).2
       = purged 50 k (w_committed aged_world).
Proof.
  intros claims. split_and!; [vm_compute; reflexivity..|].
  pose proof (sweep_removes_oldest_expired (mkSettings "" "" 0 2 2) (λ _, true) aged_world
    ltac:(split; vm_compute; discriminate)) as H. cbv zeta in H.
  destruct (_sweep _ _ _) as [r w'] eqn:E. destruct H as (k & Hk & Hc & _). exists k. by split.
Defined.

(** ** The service *)
Module Service.

(** [IdempotencyCleanupService] and its tasks, by number: [sv_timers] and [sv_sweeps] are
    the tasks of [_run] and [_sweep] that have not finished. *)
Record state := mkState {
  sv_accepting : bool;
  sv_stop : bool;
  sv_timer : option nat;
  sv_pending : option nat;
  sv_timers : gset nat;
  sv_sweeps : gset nat;
  sv_next : nat
}.

Definition initial : state := mkState false false None None ∅ ∅ 0.

Definition start (s : state) : state :=
  if sv_accepting s then s
  else mkState true false (Some (sv_next s)) (sv_pending s) ({[sv_next s]} ∪ sv_timers s)
         (sv_sweeps s) (S (sv_next s)).

Definition quiesce (s : state) : state :=
  mkState false true (sv_timer s) (sv_pending s) (sv_timers s) (sv_sweeps s) (sv_next s).

(** [sweep] up to its await: the task the caller waits for. *)
Definition sweep (s : state) : option nat * state :=
  match sv_pending s with
  | Some p => (Some p, s)
  | None =>
      if sv_accepting s
      then (Some (sv_next s),
            mkState (sv_accepting s) (sv_stop s) (sv_timer s) (Some (sv_next s)) (sv_timers s)
              ({[sv_next s]} ∪ sv_sweeps s) (S (sv_next s)))
      else (None, s)
  end.

(** Its [finally]: [if pending.done() and self._pending is pending]. *)
Definition sweep_finally (p : nat) (s : state) : state :=
  if negb (bool_decide (p ∈ sv_sweeps s)) && bool_decide (sv_pending s = Some p)
  then mkState (sv_accepting s) (sv_stop s) (sv_timer s) None (sv_timers s) (sv_sweeps s) (sv_next s)
  else s.

Definition set_timers (t : option nat) (ts : gset nat) (s : state) : state :=
  mkState (sv_accepting s) (sv_stop s) t (sv_pending s) ts (sv_sweeps s) (sv_next s).
Definition set_sweeps (ps : gset nat) (s : state) : state :=
  mkState (sv_accepting s) (sv_stop s) (sv_timer s) (sv_pending s) (sv_timers s) ps (sv_next s).

Definition check (s : state) : bool :=
  sv_accepting s && match sv_timer s with Some t => bool_decide (t ∈ sv_timers s) | None => false end.

(** [stop] returns when its timer has finished and been forgotten, and the sweep it then
    finds has finished. *)
Definition stop_returns (s : state) : bool :=
  match sv_timer s with None => true | Some _ => false end
  && match sv_pending s with Some p => negb (bool_decide (p ∈ sv_sweeps s)) | None => true end.

(** Everything between two await points of the service's callers and tasks. *)
Inductive label := Start | Quiesce | Sweep | SweepEnds (p : nat) | Resume (p : nat)
  | TimerEnds (t : nat) | StopForgets (t : nat).

Inductive step : label → state → state → Prop :=
| step_start s : step Start s (start s)
| step_quiesce s : step Quiesce s (quiesce s)
| step_sweep s : step Sweep s (sweep s).2
| step_sweep_ends p s : p ∈ sv_sweeps s → step (SweepEnds p) s (set_sweeps (sv_sweeps s ∖ {[p]}) s)
| step_resume p s : step (Resume p) s (sweep_finally p s)
| step_timer_ends t s : t ∈ sv_timers s → sv_accepting s = false →
    step (TimerEnds t) s (set_timers (sv_timer s) (sv_timers s ∖ {[t]}) s)
| step_stop_forgets t s : sv_timer s = Some t → t ∉ sv_timers s →
    step (StopForgets t) s (set_timers None (sv_timers s) s).

Inductive reachable : state → Prop :=
| reachable_initial : reachable initial
| reachable_step l s s' : reachable s → step l s s' → reachable s'.

(** Every step that does not start the service. *)
Inductive after_stop : state → state → Prop :=
| after_refl s : after_stop s s
| after_step l s s' s'' : step l s s' → l ≠ Start → after_stop s' s'' → after_stop s s''.

Definition in_flight_ok (s : state) : Prop := ∀ p, p ∈ sv_sweeps s → sv_pending s = Some p.

Lemma step_in_flight l s s' : step l s s' → in_flight_ok s → in_flight_ok s'.
Proof.
  unfold in_flight_ok. intros Hst H p. destruct Hst as [s|s|s|q s Hq|q s|t s Ht Ha|t s Ht Hn]; simpl.
  - unfold start. destruct (sv_accepting _); simpl; auto.
  - auto.
  - unfold sweep. destruct (sv_pending s) as [r|] eqn:Hr; simpl; [rewrite Hr; auto|].
    destruct (sv_accepting s); simpl; [|rewrite Hr; auto].
    intros [->%elem_of_singleton|Hin]%elem_of_union; [done|]. by apply H in Hin.
  - intros [Hin _]%elem_of_difference. auto.
  - unfold sweep_finally. case_bool_decide as Hin; simpl; [by auto|].
    case_bool_decide as Hp; simpl; [|by auto]. intros Hs. specialize (H p Hs). congruence.
  - auto.
  - auto.
Qed.

Lemma reachable_in_flight s : reachable s → in_flight_ok s.
Proof.
  induction 1 as [|l s s' _ IH Hs]; [by intros p Hp%elem_of_empty|by eapply step_in_flight].
Qed.

Lemma after_stop_quiet s s' :
  after_stop s s' → sv_accepting s = false → sv_sweeps s = ∅ →
  sv_accepting s' = false ∧ sv_sweeps s' = ∅.
Proof.
  induction 1 as [|l s s' s'' Hs Hl _ IH]; [done|]. intros Ha He.
  apply IH; destruct Hs; simpl; try done; unfold start, sweep, sweep_finally; simpl.
  - by destruct (sv_pending _); simpl; [|rewrite Ha].
  - by case_match.
  - by destruct (sv_pending _); simpl; [|rewrite Ha].
  - set_solver.
  - by case_match.
Qed.

(** At every moment at most one sweep is in flight, and it is the one every caller
    of [sweep] joins; and once [stop] has returned with the service quiesced, no sweep
    is running and, until the service is started again, none ever starts. *)
Theorem single_sweep_in_flight s :
  reachable s →
  (∀ p q, p ∈ sv_sweeps s → q ∈ sv_sweeps s → p = q ∧ (sweep s).1 = Some p) ∧
  (sv_accepting s = false → stop_returns s = true →
   ∀ s', after_stop s s' → sv_sweeps s' = ∅ ∧ check s' = false).
Proof.
  intros Hr%reachable_in_flight. split.
  - intros p q Hp%Hr Hq%Hr. split; [congruence|]. unfold sweep. by rewrite Hp.
  - intros Ha Hs s' Hs'. assert (sv_sweeps s = ∅) as He.
    { apply elem_of_equiv_empty_L. intros p Hp. pose proof (Hr p Hp) as Hq.
      unfold stop_returns in Hs. rewrite Hq in Hs. apply andb_true_iff in Hs as [_ Hs].
      by rewrite bool_decide_true in Hs. }
    destruct (after_stop_quiet s s' Hs' Ha He) as [Ha' He']. split; [done|].
    unfold check. by rewrite Ha'.
Qed.

(** Started, swept twice by two callers, quiesced, the sweep and the timer end, stopped. *)
Lemma single_sweep_in_flight_witness :
  let s1 := (sweep (sweep (start initial)).2).2 in
  let s2 := quiesce s1 in
  let s3 := sweep_finally 1 (set_sweeps (sv_sweeps s2 ∖ {[1%nat]}) s2) in
  let s4 := set_timers (sv_timer s3) (sv_timers s3 ∖ {[0%nat]}) s3 in
  let s5 := set_timers None (sv_timers s4) s4 in
  sv_sweeps s1 = {[1%nat]} ∧ stop_returns s2 = false ∧ sv_sweeps (sweep s5).2 = ∅.
Proof.
  intros s1 s2 s3 s4 s5. split_and!; [vm_compute; reflexivity..|].
  assert (reachable s5) as Hr.
  { apply (reachable_step (StopForgets 0) s4); [|constructor; vm_compute; done].
    apply (reachable_step (TimerEnds 0) s3); [|constructor; vm_compute; done].
    apply (reachable_step (Resume 1) (set_sweeps (sv_sweeps s2 ∖ {[1%nat]}) s2)); [|constructor].
    apply (reachable_step (SweepEnds 1) s2); [|constructor; vm_compute; done].
    apply (reachable_step Quiesce s1); [|constructor].
    apply (reachable_step Sweep (sweep (start initial)).2); [|constructor].
    apply (reachable_step Sweep (start initial)); [|constructor].
    apply (reachable_step Start initial); [constructor|constructor]. }
  apply (proj2 (single_sweep_in_flight s5 Hr) eq_refl eq_refl).
  apply (after_step Sweep s5 (sweep s5).2); [constructor|done|constructor].
Defined.
End Service.
