(* ===== verification/Histories.v ===== *)
(** * Histories of the database

    Every state the committed tables can reach through the item mutations and the cleanup
    of claims, under arbitrary schedules and clocks. *)
From S2P Require Import Prelude PyText Values Models Database Items Idempotency Mutation MutationFacts ItemRoutes MutationTheorems Cleanup.
Open Scope Z_scope.

(** The four mutation routes. *)
Inductive mutation := Create | Update | Replace | Delete.

Section history.
Context `{Rendering} (settings : Settings).

Definition handle_mutation (m : mutation) (request : Request) : M Response :=
  match m with
  | Create => handle settings create_route request
  | Update => handle settings update_route request
  | Replace => handle settings replace_route request
  | Delete => handle settings delete_route request
  end.

(** The committed tables over time.  The world of each step — its schedule, clock,
    randomness and the locks of other connections — is arbitrary. *)
Inductive history : db → Prop :=
| history_empty : history (mkDb ∅ ∅)
| history_mutation m request w :
    history (w_committed w) → w_own_locks w = ∅ → w_owner w = false →
    history (w_committed (handle_mutation m request w).2)
| history_sweep accepting w :
    history (w_committed w) → history (w_committed (_sweep settings accepting w).2).

Definition consistent (d : db) : Prop := table_ok d ∧ claims_ok d.

Lemma purged_consistent now n d : consistent d → consistent (purged now n d).
Proof.
  intros [Ht Hc]. split; [exact Ht|]. intros h c Hl. rewrite purged_lookup in Hl.
  case_bool_decide; [done|by eapply Hc].
Qed.

Lemma mutation_consistent m request w :
  settings_ok settings → arrives table_ok w →
  consistent (w_committed (handle_mutation m request w).2).
Proof.
  intros Hset Ha. unfold consistent.
  destruct m; simpl; by apply (handle_invariants settings _ _ _ _).
Qed.

(** [C9] Every history keeps the database consistent: each item is filed under its own
    well-formed id with a version within bounds, a price of whole cents within range, a
    valid name and description; every stored claim is completed, with a replayable
    response and an expiry one retention period after completion — no history commits a
    claim without its response. *)
Theorem histories_are_consistent d :
  settings_ok settings → batch_size_ok (IDEMPOTENCY_CLEANUP_BATCH_SIZE settings) →
  history d → table_ok d ∧ claims_ok d.
Proof.
  intros Hset Hsize. induction 1 as [|m request w _ [Ht Hc] Hl Ho|accepting w _ IH].
  - split; by intros ???.
  - by apply mutation_consistent.
  - pose proof (runs_sweep_from accepting _
      (IDEMPOTENCY_CLEANUP_MAX_BATCHES settings) 0 0 w Hsize) as (_ & k & _ & Hk & _).
    unfold _sweep. rewrite Hk. by apply purged_consistent.
Qed.
End history.

#[local] Existing Instance demo_rendering.

(** A creation, and a sweep a day later that removes its claim. *)
Lemma arrival_committed utc d : w_committed (arrival utc d) = d.
Proof. reflexivity. Qed.

Definition first_bow : db :=
  w_committed (handle_mutation demo_settings Create (bow_request "k1" "1.5") (arrival 9 (mkDb ∅ ∅))).2.
Definition swept : py Z * world :=
  _sweep demo_settings (λ _, true) (arrival 86400009 first_bow).

Lemma first_bow_history : history demo_settings first_bow.
Proof. apply history_mutation; [rewrite arrival_committed; apply history_empty|done|done]. Qed.

Lemma swept_history : history demo_settings (w_committed swept.2).
Proof. apply history_sweep. rewrite arrival_committed. apply first_bow_history. Qed.

Lemma histories_are_consistent_witness :
  swept.1 = Ok 1 ∧ length (map_to_list (db_items (w_committed swept.2))) = 1%nat
  ∧ table_ok (w_committed swept.2) ∧ claims_ok (w_committed swept.2).
Proof.
  split; [vm_compute; reflexivity|]. split; [vm_compute; reflexivity|].
  apply (histories_are_consistent demo_settings (w_committed swept.2)).
  - vm_compute; discriminate.
  - split; vm_compute; discriminate.
  - apply swept_history.
Defined.
