(* ===== verification/RequestPolicy.v ===== *)
(** * Request and response policy

    The remaining layers of [app/common/middleware] that decide on a request or rewrite
    its response: operational exposure, methods, content types, CORS, the body limit,
    the rate limit, security headers, the request identifier, failures before the
    response starts, HEAD responses and cleanup.  Each is a definition on ASGI programs;
    what a layer decides is a function of the scope, what it does to messages a closure. *)
From stdpp Require Import sorting.
From S2P Require Import Prelude PyText Fingerprint Asgi.
From S2P Require Values.
From S2P Require RateLimiter.
Open Scope Z_scope.

Definition one_of (x : string) (l : list string) : bool := bool_decide (x ∈ l).

(** [{key.decode().lower(): value.decode() for key, value in headers}] *)
Fixpoint extract_headers (hs : list header) (acc : list header) : py (list header) :=
  match hs with
  | [] => Ok acc
  | (key, value) :: hs' =>
      k ← decode_utf8 key; v ← decode_utf8 value;
      extract_headers hs' (assoc_set (lower k) v acc)
  end.

Definition on_http (s : scope) (handle inner : app) : app :=
  if String.eqb (sc_type s) "http" then handle else inner.

(** A [send_wrapper] that rewrites messages. *)
Definition on_start (f : list header → list header) (m : message) : message :=
  match m with ResponseStart status hs => ResponseStart status (f hs) | _ => m end.

(** ** The path below the mount point *)
Definition strip_root (root path : string) : string :=
  if negb (String.eqb root "")
     && (String.eqb path root || starts_with (root +:+ "/") path)
  then drop_str (String.length root) path else path.

Section policy.
Context `{Starlette}.

(** ** Operational exposure *)
Record OperationalExposure := mkExposure {
  docs_enabled : bool;
  diagnostics_enabled : bool;
  metrics_enabled : bool
}.

Definition disabled (mw : OperationalExposure) : list string :=
  (if docs_enabled mw then [] else ["/docs"; "/redoc"; "/openapi.json"])
  ++ (if diagnostics_enabled mw then [] else ["/info"; "/system"])
  ++ (if metrics_enabled mw then [] else ["/metrics"]).

Definition reserved (mw : OperationalExposure) (s : scope) : bool :=
  let path := lower (strip_root (sc_root s) (sc_path s)) in
  existsb (λ prefix, String.eqb path prefix || starts_with (prefix +:+ "/") path) (disabled mw).

Definition OperationalExposureASGIMiddleware (mw : OperationalExposure) (inner : app) : app :=
  GetScope (λ s,
    on_http s
      (if reserved mw s then (r ← http_exception_handler 404 "Not Found" []; send_response r)
       else inner)
      inner).

(** ** Methods *)
Definition check_method (allowed_methods : list string) (s : scope) : py unit :=
  let method := upper (sc_method s) in
  if negb (one_of method (upper <$> allowed_methods))
  then Err (http_error 405 ("HTTP method '" +:+ method +:+ "' is not allowed on this server."))
  else Ok tt.

Definition MethodWhitelistASGIMiddleware (allowed_methods : list string) (inner : app) : app :=
  GetScope (λ s,
    on_http s (rejecting (_ ← of_result (check_method allowed_methods s); inner)) inner).

(** ** Content types *)
Record ContentTypes := mkContentTypes {
  default_allowed : list string;
  ct_overrides : list (string * list string)
}.

Definition _allowed_for_path (mw : ContentTypes) (path : string) : list string :=
  match list_find (λ o, starts_with o.1 path = true) (ct_overrides mw) with
  | Some (_, o) => o.2
  | None => default_allowed mw
  end.

Definition no_body_methods : list string := ["GET"; "DELETE"; "HEAD"; "OPTIONS"].

(** [str(sorted(allowed))] *)
Definition text_le (a b : string) : Prop := str_le a b = true.
#[local] Instance text_le_dec a b : Decision (text_le a b).
Proof. unfold text_le. apply _. Defined.
Definition sorted_repr (l : list string) : string :=
  "[" +:+ join ", " ((λ s, "'" +:+ s +:+ "'") <$> merge_sort text_le l) +:+ "]".

Definition check_content_type (mw : ContentTypes) (s : scope) : py unit :=
  let method := upper (sc_method s) in
  header_map ← extract_headers (sc_headers s) [];
  let content_type := assoc_get "content-type" header_map in
  if one_of method no_body_methods then
    if bool_decide (content_type ≠ None)
    then Err (http_error 415 ("HTTP method '" +:+ method +:+ "' does not accept a request body."))
    else Ok tt
  else if one_of method ["POST"; "PUT"; "PATCH"] then
    let allowed := _allowed_for_path mw (sc_path s) in
    match content_type with
    | None => Err (http_error 415 "Missing Content-Type header.")
    | Some ct =>
        let normalized := lower (strip (default "" (head (split_on ";"%char ct)))) in
        if negb (one_of normalized allowed)
        then Err (http_error 415 ("Content-Type '" +:+ ct
               +:+ "' is not allowed on this endpoint. Expected one of: "
               +:+ sorted_repr allowed +:+ "."))
        else Ok tt
    end
  else Ok tt.

Definition ContentTypeEnforcementASGIMiddleware (mw : ContentTypes) (inner : app) : app :=
  GetScope (λ s,
    on_http s (rejecting (_ ← of_result (check_content_type mw s); inner)) inner).

(** ** CORS *)

(** [MutableHeaders.__setitem__]: the first occurrence is replaced, the others removed. *)
Definition set_header (name value : string) (hs : list header) : list header :=
  let without := filter (λ h, h.1 ≠ name) in
  match list_find (λ h, h.1 = name) hs with
  | Some (i, _) => take i hs ++ (name, value) :: without (drop (S i) hs)
  | None => hs ++ [(name, value)]
  end.

Definition getlist (name : string) (hs : list header) : list string :=
  (filter (λ h, h.1 = name) hs).*2.

(** The tokens of the [Vary] header, by their lower case. *)
Definition vary_tokens (hs : list header) : list (string * string) :=
  foldl (λ acc token, assoc_set (lower (strip token)) (strip token) acc) []
    (filter (λ token, strip token ≠ "") (getlist "vary" hs ≫= split_on ","%char)).

Definition setdefault (k v : string) (d : list (string * string)) : list (string * string) :=
  match assoc_get k d with Some _ => d | None => d ++ [(k, v)] end.

Definition vary_names (method : string) : list string :=
  "Origin" :: (if String.eqb method "OPTIONS"
               then ["Access-Control-Request-Method"; "Access-Control-Request-Headers"] else []).

Definition apply_vary (method : string) (hs : list header) : list header :=
  let vary := foldl (λ d name, setdefault (lower name) name d) (vary_tokens hs) (vary_names method) in
  set_header "vary" (if bool_decide ("*" ∈ vary.*1) then "*" else join ", " vary.*2) hs.

Definition apply_cors_response_headers (s : scope) (m : message) : message :=
  match m, sc_cors s with
  | ResponseStart status hs, Some response_headers =>
      ResponseStart status
        (foldl (λ acc h, set_header h.1 h.2 acc) (apply_vary (sc_method s) hs) response_headers)
  | _, _ => m
  end.

Record CustomCORS := mkCORS {
  opts_origin : list string;          (* a single origin is a list of one *)
  opts_methods : list string;
  opts_allowed_headers : list string;
  opts_exposed_headers : list string;
  credentials : bool;
  max_age : Z
}.

(** [list(dict.fromkeys(m.upper() for m in methods))] *)
Definition fromkeys (l : list string) : list string :=
  (foldl (λ d m, assoc_set m tt d) [] l).*1.

Definition new_CORS (origin methods allowed exposed : list string) (creds : bool) (age : Z)
  : CustomCORS := mkCORS origin (fromkeys (upper <$> methods)) allowed exposed creds age.

Definition _is_allowed_origin (mw : CustomCORS) (origin : option string) : bool :=
  match origin with
  | None => true
  | Some o => String.eqb o "" || one_of "*" (opts_origin mw) || one_of o (opts_origin mw)
  end.

Definition present (o : option string) : option string :=
  match o with Some s => if String.eqb s "" then None else Some s | None => None end.

(** The checks of a preflight; [requested] is the method asked for. *)
Definition check_preflight (mw : CustomCORS) (headers : list header) (requested : string) : py unit :=
  let requested_headers :=
    match assoc_get "access-control-request-headers" headers with
    | Some value => (λ item, lower (strip item)) <$> split_on ","%char value
    | None => []
    end in
  if negb (one_of requested (opts_methods mw))
     || existsb (λ item, negb (one_of item (lower <$> opts_allowed_headers mw))) requested_headers
  then Err (http_error 403 "CORS preflight method or headers not allowed.")
  else Ok tt.

(** The headers of a request that passed, after the origin's own. *)
Definition policy_headers (mw : CustomCORS) : list header :=
  [("access-control-allow-methods", join ", " (opts_methods mw));
   ("access-control-allow-headers", join ", " (opts_allowed_headers mw));
   ("access-control-expose-headers", join ", " (opts_exposed_headers mw));
   ("access-control-max-age", pretty (max_age mw))]
  ++ (if credentials mw then [("access-control-allow-credentials", "true")] else []).

Definition update_headers (new old : list header) : list header :=
  foldl (λ acc h, assoc_set h.1 h.2 acc) old new.

(** [response_headers] is one dict, shared between the scope and the closures. *)
Definition response_headers_update (new : list header) (k : app) : app :=
  GetScope (λ s, PutScope (set_cors (Some (update_headers new (default [] (sc_cors s)))) s) k).

Definition _run_cors_logic (mw : CustomCORS) (inner : app) : app :=
  GetScope (λ s,
    headers ← of_result (extract_headers (sc_headers s) []);
    let origin := assoc_get "origin" headers in
    if negb (_is_allowed_origin mw origin)
    then Raise (http_error 403 ("CORS origin '" +:+ default "None" origin +:+ "' not allowed."))
    else
    let rest :=
      response_headers_update (policy_headers mw)
        (if String.eqb (sc_method s) "OPTIONS"
         then (_ ← send (ResponseStart 204 (plain_headers 204)); send (ResponseBody "" false))
         else inner) in
    match present origin with
    | None => rest
    | Some o =>
        response_headers_update [("access-control-allow-origin", o)]
          match (if String.eqb (sc_method s) "OPTIONS"
                 then present (assoc_get "access-control-request-method" headers) else None) with
          | Some requested => _ ← of_result (check_preflight mw headers requested); rest
          | None => rest
          end
    end).

(** Every message goes through the policy reached by then. *)
Definition cors_send (u : unit) (m : message) : prog (unit * py unit) :=
  GetScope (λ s, Send (apply_cors_response_headers s m) (λ r, Ret (u, r))).

Definition CustomCORSASGIMiddleware (mw : CustomCORS) (inner : app) : app :=
  GetScope (λ s,
    on_http s
      (PutScope (set_cors (Some []) s)
        (pbind (wrap recv_through cors_send (rejecting (_run_cors_logic mw inner)) tt)
               (λ '(_, r), of_result r)))
      inner).

(** ** Body limits *)
Record BodyLimit := mkBodyLimit { max_body_bytes : Z }.
Definition default_body_limit : BodyLimit := mkBodyLimit 1048576.

Record RequestBodyLimit := mkRequestBodyLimit {
  default_limit : BodyLimit;
  bl_overrides : list (string * BodyLimit)
}.

Definition _select_limit (mw : RequestBodyLimit) (path : string) : BodyLimit :=
  match list_find (λ o, starts_with o.1 path = true) (bl_overrides mw) with
  | Some (_, o) => o.2
  | None => default_limit mw
  end.

(** [f'{n / d:.2f}'], exact. *)
Definition two_decimals (n d : Z) : string :=
  let cents := Values.div_half_even (100 * n) d in
  pretty (cents / 100) +:+ "." +:+ pretty (cents mod 100 / 10) +:+ pretty (cents mod 10).

Definition format_bytes (value : Z) : string :=
  if value <? 1024 then pretty value +:+ " B"
  else if value <? 1024 ^ 2 then two_decimals value 1024 +:+ " KB"
  else if value <? 1024 ^ 3 then two_decimals value (1024 ^ 2) +:+ " MB"
  else two_decimals value (1024 ^ 3) +:+ " GB".

Definition body_too_large (max_bytes : Z) : exn :=
  http_error 413 ("Request body exceeds maximum allowed size (limit = "
                  +:+ format_bytes max_bytes +:+ ").").

Definition check_content_length (max_bytes : Z) (s : scope) : py unit :=
  headers ← extract_headers (sc_headers s) [];
  match assoc_get "content-length" headers with
  | None => Ok tt
  | Some content_length =>
      match parse_int content_length with
      | Err _ => Err (http_error 413 "Invalid Content-Length header.")
      | Ok declared =>
          if declared <? 0 then Err (http_error 413 "Invalid Content-Length header.")
          else if max_bytes <? declared then Err (body_too_large max_bytes)
          else Ok tt
      end
  end.

(** [limited_receive], on the running total. *)
Definition count_message (max_bytes total : Z) (r : py message) : Z * py message :=
  match r with
  | Ok (RequestBody chunk more) =>
      let total' := total + blen chunk in
      if negb (blen chunk =? 0) && (max_bytes <? total')
      then (total', Err (body_too_large max_bytes)) else (total', r)
  | _ => (total, r)
  end.

Definition limited_receive (max_bytes total : Z) : prog (Z * py message) :=
  Recv (λ r, Ret (count_message max_bytes total r)).

Definition limit_headers (max_bytes total : Z) (hs : list header) : list header :=
  hs ++ [("x-body-limit-bytes", pretty max_bytes);
         ("x-body-remaining-bytes", pretty (Z.max (max_bytes - total) 0))].

Definition limited_send (max_bytes total : Z) (m : message) : prog (Z * py unit) :=
  Send (on_start (limit_headers max_bytes total) m) (λ r, Ret (total, r)).

Definition limit_body {A} (max_bytes : Z) (inner : prog A) : prog (Z * py A) :=
  wrap (limited_receive max_bytes) (limited_send max_bytes) inner 0.

Definition RequestBodyLimitASGIMiddleware (mw : RequestBodyLimit) (inner : app) : app :=
  GetScope (λ s,
    on_http s
      (rejecting (
         let max_bytes := max_body_bytes (_select_limit mw (sc_path s)) in
         _ ← of_result (check_content_length max_bytes s);
         '(_, r) ← limit_body max_bytes inner;
         of_result r))
      inner).

(** ** Rate limiting *)
Definition get_client_ip (s : scope) : string :=
  match sc_client s with Some (host, _) => host | None => "unknown" end.

(** [f'{ms / 1000:.3f}'.rstrip('0').rstrip('.')] *)
Definition format_seconds (ms : Z) : string :=
  rstrip_char "."%char (rstrip_char "0"%char
    (pretty (ms / 1000) +:+ "." +:+ pretty (ms mod 1000 / 100)
     +:+ pretty (ms mod 100 / 10) +:+ pretty (ms mod 10))).

Definition is_favicon (s : scope) : bool :=
  String.eqb (rstrip_char "/"%char (lower (strip_root (sc_root s) (sc_path s)))) "/favicon.ico"
  && one_of (sc_method s) ["GET"; "HEAD"].

(** [decision.status or 429] *)
Definition rejection_status (d : RateLimiter.RateLimitDecision) : Z :=
  match RateLimiter.status d with Some st => if st =? 0 then 429 else st | None => 429 end.

Definition rate_limited (p : RateLimiter.RateLimitPolicy) (d : RateLimiter.RateLimitDecision)
  : prog response :=
  let message :=
    if bool_decide (RateLimiter.status d = Some 503)
    then "Rate limiter capacity is exhausted. Try again later."
    else "Too many requests — limit is " +:+ pretty (RateLimiter.max_requests p) +:+ " per "
         +:+ format_seconds (RateLimiter.window_ms p) +:+ "s." in
  http_exception_handler (rejection_status d) message
    [("Retry-After", pretty (RateLimiter.retry_after_seconds d)); ("X-RateLimit-Result", "rejected")].

Definition RateLimitASGIMiddleware (p : RateLimiter.RateLimitPolicy) (inner : app) : app :=
  GetScope (λ s,
    on_http s
      (if is_favicon s then inner
       else Limit (get_client_ip s) (λ decision,
         d ← of_result decision;
         if negb (RateLimiter.allowed d) then r ← rate_limited p d; send_response r
         else map_send (on_start (λ hs, hs ++ [("x-ratelimit-result", "accepted")])) inner))
      inner).

(** ** Security headers *)
Definition security_headers : list header :=
  [("x-frame-options", "DENY");
   ("x-content-type-options", "nosniff");
   ("referrer-policy", "strict-origin-when-cross-origin");
   ("x-xss-protection", "0");
   ("strict-transport-security", "max-age=63072000; includeSubDomains; preload");
   ("cross-origin-opener-policy", "same-origin");
   ("cross-origin-embedder-policy", "require-corp");
   ("cross-origin-resource-policy", "same-origin");
   ("permissions-policy", "geolocation=(), microphone=(), camera=()");
   ("content-security-policy",
    "default-src 'self'; img-src 'self' data:; object-src 'none'; frame-ancestors 'none'; base-uri 'self'")].

Definition documentation_path (s : scope) : bool :=
  existsb (λ prefix, starts_with prefix (lower (sc_path s))) ["/docs"; "/redoc"; "/openapi.json"].

Definition SecurityHeadersMiddleware (docs : bool) (inner : app) : app :=
  GetScope (λ s,
    on_http s
      (if docs && documentation_path s then inner
       else map_send (on_start (λ hs, hs ++ security_headers)) inner)
      inner).

(** ** Request context *)
Definition take_str (n : nat) (s : string) : string := String.substring 0 n s.

(** [scope.get('client', ['unknown'])[0]]: the server sets the key, to [None] for a peer
    without an address. *)
Definition RequestContextASGIMiddleware (inner : app) : app :=
  GetScope (λ s,
    on_http s
      (Uuid (λ uuid,
         let id := take_str 8 uuid in
         match sc_client s with
         | None => Raise (TypeError "'NoneType' object is not subscriptable")
         | Some (client, _) =>
             let ctx := mkContext id (sc_method s) (sc_path s) client in
             PutScope (set_ctx (Some ctx) s)
               (SetContext (Some ctx)
                  (map_send (on_start (λ hs, hs ++ [("x-request-id", id)])) inner))
         end))
      inner).

(** [try: inner finally: clear()] *)
Definition RequestCleanupASGIMiddleware (inner : app) : app :=
  pbind (wrap recv_through send_through inner tt)
    (λ '(_, r), SetContext None (of_result r)).

(** ** Failures before the response starts *)
Definition tracking_send (started : bool) (m : message) : prog (bool * py unit) :=
  let started := match m with ResponseStart _ _ => true | _ => started end in
  Send m (λ r, Ret (started, r)).

Definition RequestErrorASGIMiddleware (inner : app) : app :=
  GetScope (λ s,
    on_http s
      (pbind (wrap recv_through tracking_send inner false)
        (λ '(started, r),
           match r with
           | Ok _ => Ret tt
           | Err e =>
               if is_Exception e && negb started
               then r ← unhandled_exception_handler; send_response r
               else Raise e
           end))
      inner).

(** ** HEAD responses *)
Definition without_body (m : message) : message :=
  match m with ResponseBody _ more => ResponseBody EmptyString more | _ => m end.

Definition HeadResponseASGIMiddleware (inner : app) : app :=
  GetScope (λ s,
    if negb (String.eqb (sc_type s) "http") || negb (String.eqb (sc_method s) "HEAD")
    then inner else map_send without_body inner).
End policy.
