(* ===== verification/PolicyFacts.v ===== *)
(** * What the policy layers guarantee

    For every inner application: which requests reach it, what it can be sent, and what
    its responses look like behind each layer of [RequestPolicy.v]. *)
From S2P Require Import Prelude PyText Fingerprint Asgi HeaderPolicy RequestPolicy.
From S2P Require RateLimiter.
Open Scope Z_scope.

(** ** Servers that accept every message *)
Definition accepting (v : server) : Prop := ∀ m, sv_accept v m = Ok tt.

Lemma sv_accept_pop v : sv_accept (pop_inbox v).2 = sv_accept v.
Proof. unfold pop_inbox. by destruct (sv_inbox v). Qed.

Lemma run_accept {A} (p : prog A) v : sv_accept (run p v).2 = sv_accept v.
Proof.
  revert v. induction p as [| |k IH|m k IH|k IH|sc p IH|r p IH|k IH|k IH|i k IH|c p IH|k IH];
    intros v; simpl; try done; try apply IH.
  - pose proof (sv_accept_pop v) as E. destruct (pop_inbox v) as [r v']. simpl in E.
    by rewrite IH.
  - destruct (sv_accept v m) as [[]|e]; by rewrite IH.
  - by rewrite IH.
  - by rewrite IH.
  - by rewrite IH.
Qed.

Definition with_wire (l : list message) (v : server) : server :=
  mkServer (sv_inbox v) (sv_accept v) l (sv_scope v) (sv_logs v)
    (sv_clock v) (sv_uuid v) (sv_limit v) (sv_context v).

Lemma with_wire_id v : with_wire (sv_wire v) v = v.
Proof. by destruct v. Qed.

(** What a run adds to the wire. *)
Definition sent {A} (p : prog A) (v : server) : list message :=
  drop (length (sv_wire v)) (sv_wire (run p v).2).

(** Programs do not read the wire. *)
Lemma run_wire {A} (p : prog A) v :
  ∃ r new v', ∀ l, run p (with_wire l v) = (r, with_wire (l ++ new) v').
Proof.
  revert v.
  induction p as [a|e|k IH|m k IH|k IH|sc p IH|r p IH|k IH|k IH|i k IH|c p IH|k IH];
    intros v; cbn [run].
  - exists (Ok a), [], v. intros l. by rewrite app_nil_r.
  - exists (Err e), [], v. intros l. by rewrite app_nil_r.
  - destruct (pop_inbox v) as [r v1] eqn:E. destruct (IH r v1) as (r' & new & v' & H).
    exists r', new, v'. intros l. rewrite <-H. unfold pop_inbox in *. simpl.
    by destruct (sv_inbox v); injection E as <- <-.
  - destruct (sv_accept v m) as [[]|e] eqn:E.
    + destruct (IH (Ok tt) v) as (r' & new & v' & H). exists r', (m :: new), v'. intros l.
      simpl. rewrite E, (cons_middle m l new), (assoc_L (++)). apply (H (l ++ [m])).
    + destruct (IH (Err e) v) as (r' & new & v' & H). exists r', new, v'. intros l. simpl.
      rewrite E. apply H.
  - apply (IH (sv_scope v) v).
  - apply (IH (with_scope sc v)).
  - apply (IH (push_log r v)).
  - apply (IH (sv_clock v) v).
  - apply (IH (sv_uuid v) v).
  - apply (IH (sv_limit v i) v).
  - apply (IH (with_context c v)).
  - apply (IH (sv_context v) v).
Qed.

Lemma run_sent {A} (p : prog A) v l :
  run p (with_wire l v) = ((run p v).1, with_wire (l ++ sent p v) (run p v).2)
  ∧ sv_wire (run p v).2 = sv_wire v ++ sent p v.
Proof.
  destruct (run_wire p v) as (r & new & v' & H). pose proof (H (sv_wire v)) as Hv.
  rewrite with_wire_id in Hv. unfold sent. rewrite Hv, H. simpl.
  by rewrite drop_app_length.
Qed.

Lemma sent_cons {A} (p : prog A) m v :
  sv_wire (run p (push_wire m v)).2 = sv_wire v ++ m :: sent p (push_wire m v).
Proof. rewrite (proj2 (run_sent p (push_wire m v) [])). simpl. by rewrite <-(assoc_L (++)). Qed.

(** Two runs from servers that differ in what was sent before. *)
Lemma sent_with_wire {A} (p : prog A) v l : sent p (with_wire l v) = sent p v.
Proof.
  unfold sent at 1. rewrite (proj1 (run_sent p v l)). simpl. by rewrite drop_app_length.
Qed.

(** ** Rewriting messages *)

(** On an accepting server, a layer that rewrites messages changes nothing else. *)
Lemma run_map_send {A} (f : message → message) (p : prog A) v :
  accepting v →
  run (map_send f p) v
  = ((run p v).1, with_wire (sv_wire v ++ (f <$> sent p v)) (run p v).2).
Proof.
  intros Hv. unfold map_send. rewrite run_bind.
  enough (run (wrap recv_through (λ s m, Send (f m) (λ r, Ret (s, r))) p tt) v
    = (Ok (tt, (run p v).1), with_wire (sv_wire v ++ (f <$> sent p v)) (run p v).2)) as ->
    by (by rewrite run_of_result).
  revert v Hv.
  induction p as [a|e|k IH|m k IH|k IH|sc p IH|r p IH|k IH|k IH|i k IH|c p IH|k IH]; intros v Hv;
    cbn [run wrap pbind].
  - unfold sent. simpl. by rewrite drop_all, app_nil_r, with_wire_id.
  - unfold sent. simpl. by rewrite drop_all, app_nil_r, with_wire_id.
  - unfold sent. simpl. destruct (pop_inbox v) as [r v1] eqn:E.
    pose proof (sv_wire_pop v) as Hw. pose proof (sv_accept_pop v) as Ha. rewrite E in Hw, Ha.
    simpl in Hw, Ha. rewrite IH by (by unfold accepting; rewrite Ha). unfold sent. by rewrite Hw.
  - rewrite !Hv. rewrite IH by exact Hv. unfold sent at 2. cbn [run]. rewrite Hv, sent_cons.
    rewrite drop_app_length. simpl. rewrite <-(assoc_L (++)). simpl.
    replace (push_wire (f m) v) with (with_wire (sv_wire v ++ [f m]) v) by done.
    replace (push_wire m v) with (with_wire (sv_wire v ++ [m]) v) by done.
    rewrite !sent_with_wire, !(proj1 (run_sent _ v _)). done.
  - by rewrite IH.
  - by rewrite (IH (with_scope sc v)).
  - by rewrite (IH (push_log r v)).
  - by rewrite IH.
  - by rewrite IH.
  - by rewrite IH.
  - by rewrite (IH (with_context c v)).
  - by rewrite IH.
Qed.

(** ** Noticing the start of a response *)
Definition is_start (m : message) : bool :=
  match m with ResponseStart _ _ => true | _ => false end.

Lemma run_tracking {A} (p : prog A) v started :
  accepting v →
  run (wrap recv_through tracking_send p started) v
  = (Ok (started || existsb is_start (sent p v), (run p v).1), (run p v).2).
Proof.
  revert v started.
  induction p as [a|e|k IH|m k IH|k IH|sc p IH|r p IH|k IH|k IH|i k IH|c p IH|k IH];
    intros v started Hv; cbn [run wrap pbind recv_through tracking_send].
  - unfold sent. simpl. by rewrite drop_all, orb_false_r.
  - unfold sent. simpl. by rewrite drop_all, orb_false_r.
  - unfold sent. simpl. destruct (pop_inbox v) as [r v1] eqn:E.
    pose proof (sv_wire_pop v) as Hw. pose proof (sv_accept_pop v) as Ha. rewrite E in Hw, Ha.
    simpl in Hw, Ha. rewrite IH by (by unfold accepting; rewrite Ha). unfold sent. by rewrite Hw.
  - rewrite !Hv. rewrite IH by exact Hv. unfold sent at 2. cbn [run]. rewrite Hv, sent_cons.
    rewrite drop_app_length. simpl. by destruct m, started.
  - by rewrite IH.
  - by rewrite (IH (with_scope sc v)).
  - by rewrite (IH (push_log r v)).
  - by rewrite IH.
  - by rewrite IH.
  - by rewrite IH.
  - by rewrite (IH (with_context c v)).
  - by rewrite IH.
Qed.

(** ** Failures before and after the response starts *)
Section failures.
Context `{Starlette}.

(** What [unhandled_exception_handler] sends. *)
Definition failure_response (v : server) : list message :=
  let body := json_error 500 "Internal Server Error" (sv_clock v) in
  [ResponseStart 500 (raw_headers [] body); ResponseBody body false].

Lemma run_send_response r v :
  accepting v →
  run (send_response r) v = (Ok tt, with_wire (sv_wire v
    ++ [ResponseStart (rsp_status r) (raw_headers (rsp_headers r) (rsp_body r));
        ResponseBody (rsp_body r) false]) v).
Proof.
  intros Hv. unfold send_response, respond, send. simpl. rewrite !Hv. simpl.
  unfold push_wire, with_wire. simpl. by rewrite <-(assoc_L (++)).
Qed.

(** Logging and the clock around a rendered response. *)
Lemma run_error_response status msg headers v :
  run (error_response status msg headers) v
  = (Ok (mkResponse status headers (json_error status msg (sv_clock v))), v).
Proof. done. Qed.

(** [C21] A failing application is answered exactly once: an exception it raises before
    its response starts becomes one complete, generic 500 response and one more entry of
    the log, an error with status 500, and nothing more is read; one raised later, a
    cancellation, or a normal return leaves everything the application did as it is —
    the log included — and propagates the same outcome, so that a started response is
    never continued. *)
Theorem failures_answered_once inner v :
  accepting v → sc_type (sv_scope v) = "http" →
  let '(r, v1) := run inner v in
  let '(r', v2) := run (RequestErrorASGIMiddleware inner) v in
  match r with
  | Err e =>
      if is_Exception e && negb (existsb is_start (sent inner v))
      then r' = Ok tt ∧ sv_wire v2 = sv_wire v1 ++ failure_response v1
           ∧ sv_logs v2 = sv_logs v1 ++ [mkLog LError "HTTP request failed." (Some 500)]
           ∧ sv_inbox v2 = sv_inbox v1
      else r' = Err e ∧ v2 = v1
  | Ok _ => r' = Ok tt ∧ v2 = v1
  end.
Proof.
  intros Hv Ht. unfold RequestErrorASGIMiddleware, on_http. cbn [run]. rewrite Ht. simpl.
  rewrite run_bind, run_tracking by done. simpl.
  pose proof (run_accept inner v) as Ha.
  destruct (run inner v) as [[[]|e] v1]; simpl in *; [done|].
  destruct (is_Exception e && _); [|done].
  simpl. rewrite !Ha, !Hv. simpl. split_and!; [done| |done..]. unfold failure_response. by rewrite <-(assoc_L (++)).
Qed.
End failures.

#[local] Existing Instance demo_starlette.

(** An application that fails at once, and one that fails after starting its response. *)
Definition failing : app := Raise (RuntimeError "boom").
Definition failing_late : app := _ ← send (ResponseStart 200 []); failing.

Lemma failures_answered_once_witness :
  sv_wire (run (RequestErrorASGIMiddleware failing) (demo_server [])).2
    = failure_response (demo_server [])
  ∧ sv_logs (run (RequestErrorASGIMiddleware failing) (demo_server [])).2
    = [mkLog LError "HTTP request failed." (Some 500)]
  ∧ run (RequestErrorASGIMiddleware failing_late) (demo_server []) = run failing_late (demo_server []).
Proof.
  split; [|split].
  - exact (proj1 (proj2 (failures_answered_once failing (demo_server []) (λ _, eq_refl) eq_refl))).
  - exact (proj1 (proj2 (proj2 (failures_answered_once failing (demo_server []) (λ _, eq_refl) eq_refl)))).
  - pose proof (failures_answered_once failing_late (demo_server []) (λ _, eq_refl) eq_refl) as H.
    simpl in H |- *. reflexivity.
Defined.

(** ** Bounded bodies *)

(** A program that also returns what [receive] answered it. *)
Definition tap {A} (p : prog A) : prog (list (py message) * py A) :=
  wrap (λ log, Recv (λ r, Ret (log ++ [r], r))) send_through p [].

Definition body_bytes (r : py message) : Z :=
  match r with Ok (RequestBody chunk _) => blen chunk | _ => 0 end.
Definition total_bytes (rs : list (py message)) : Z := foldr (λ r acc, body_bytes r + acc) 0 rs.

(** What the layer makes of the messages the server delivers. *)
Fixpoint limit_stream (max_bytes total : Z) (rs : list (py message)) : list (py message) :=
  match rs with
  | [] => []
  | r :: rs' =>
      let '(total', r') := count_message max_bytes total r in
      r' :: limit_stream max_bytes total' rs'
  end.

Lemma body_bytes_nonneg r : 0 ≤ body_bytes r.
Proof. unfold body_bytes, blen. repeat case_match; lia. Qed.

Lemma total_bytes_nonneg rs : 0 ≤ total_bytes rs.
Proof. induction rs as [|r rs IH]; simpl; [lia|]. pose proof (body_bytes_nonneg r). lia. Qed.

Lemma count_message_eq max_bytes total r :
  count_message max_bytes total r
  = (total + body_bytes r,
     if negb (body_bytes r =? 0) && (max_bytes <? total + body_bytes r)
     then Err (body_too_large max_bytes) else r).
Proof.
  unfold count_message, body_bytes. destruct r as [m|e]; [|by rewrite Z.add_0_r].
  destruct m; simpl; rewrite ?Z.add_0_r; try done. by destruct (negb _ && _).
Qed.

Lemma limit_stream_cons max_bytes total r rs :
  limit_stream max_bytes total (r :: rs)
  = (if negb (body_bytes r =? 0) && (max_bytes <? total + body_bytes r)
     then Err (body_too_large max_bytes) else r)
    :: limit_stream max_bytes (total + body_bytes r) rs.
Proof. simpl. by rewrite count_message_eq. Qed.

(** Once over the limit, only empty chunks pass. *)
Lemma limit_stream_over max_bytes total rs :
  max_bytes < total → total_bytes (limit_stream max_bytes total rs) = 0.
Proof.
  revert total. induction rs as [|r rs IH]; intros total Ht; [done|].
  pose proof (body_bytes_nonneg r). rewrite limit_stream_cons. simpl. rewrite IH by lia.
  rewrite (proj2 (Z.ltb_lt _ _)) by lia.
  destruct (Z.eqb_spec (body_bytes r) 0); simpl; lia.
Qed.

Lemma limit_stream_bound max_bytes total rs :
  total ≤ max_bytes → total + total_bytes (limit_stream max_bytes total rs) ≤ max_bytes.
Proof.
  revert total. induction rs as [|r rs IH]; intros total Ht; [simpl; lia|].
  pose proof (body_bytes_nonneg r). rewrite limit_stream_cons. simpl.
  destruct (Z.ltb_spec max_bytes (total + body_bytes r)) as [Hgt|Hle].
  - rewrite limit_stream_over by lia. destruct (Z.eqb_spec (body_bytes r) 0); simpl; lia.
  - rewrite andb_false_r. specialize (IH _ Hle). lia.
Qed.

Lemma limit_stream_id max_bytes total rs :
  total + total_bytes rs ≤ max_bytes → limit_stream max_bytes total rs = rs.
Proof.
  revert total. induction rs as [|r rs IH]; intros total Ht; [done|].
  pose proof (body_bytes_nonneg r). pose proof (total_bytes_nonneg rs). simpl in Ht.
  rewrite limit_stream_cons, IH by lia.
  by rewrite (proj2 (Z.ltb_ge _ _)), andb_false_r by lia.
Qed.

Lemma limit_stream_app max_bytes total rs r :
  limit_stream max_bytes total (rs ++ [r])
  = limit_stream max_bytes total rs
    ++ [(count_message max_bytes (total + total_bytes rs) r).2].
Proof.
  revert total. induction rs as [|r0 rs IH]; intros total.
  - simpl. rewrite Z.add_0_r. by destruct (count_message max_bytes total r).
  - rewrite <-app_comm_cons, (limit_stream_cons _ _ r0 (rs ++ [r])), IH, limit_stream_cons.
    simpl. by rewrite Z.add_assoc.
Qed.

Lemma total_bytes_app rs r : total_bytes (rs ++ [r]) = total_bytes rs + body_bytes r.
Proof. induction rs as [|r0 rs IH]; simpl; [lia|]. rewrite IH. lia. Qed.

(** The first [n] answers of the server's [receive]. *)
Definition answers (n : nat) (v : server) : list (py message) :=
  take n (sv_inbox v ++ replicate n (Ok RequestDisconnect)).

Lemma answers_S n v :
  answers (S n) v = (pop_inbox v).1 :: answers n (pop_inbox v).2.
Proof.
  unfold answers, pop_inbox. destruct (sv_inbox v) as [|r rs] eqn:E; simpl; rewrite ?E; [done|].
  f_equal. change (Ok RequestDisconnect :: replicate n (Ok RequestDisconnect))
    with (replicate (S n) (Ok RequestDisconnect : py message)).
  rewrite replicate_S_end, (assoc_L (++)), take_app_le; [done|].
  rewrite length_app, length_replicate. lia.
Qed.

(** The program behind the layer receives the limited stream of the server's answers. *)
Lemma run_limit_tap {A} max_bytes (p : prog A) rs v :
  ∃ n r v',
    run (wrap (limited_receive max_bytes) (limited_send max_bytes)
           (wrap (λ log, Recv (λ r, Ret (log ++ [r], r))) send_through p
              (limit_stream max_bytes 0 rs)) (total_bytes rs)) v
    = (Ok (total_bytes (rs ++ answers n v),
           Ok (limit_stream max_bytes 0 (rs ++ answers n v), r)), v').
Proof.
  revert rs v.
  induction p as [a|e|k IH|m k IH|k IH|sc p IH|r p IH|k IH|k IH|i k IH|c p IH|k IH];
    intros rs v; cbn [run wrap pbind limited_receive limited_send send_through].
  - exists 0%nat, (Ok a), v. by rewrite !app_nil_r.
  - exists 0%nat, (Err e), v. by rewrite !app_nil_r.
  - destruct (pop_inbox v) as [r v1] eqn:E.
    destruct (IH (count_message max_bytes (total_bytes rs) r).2 (rs ++ [r]) v1) as (n & r2 & v2 & Hn).
    exists (S n), r2, v2. rewrite answers_S, E. cbn [fst snd].
    rewrite (cons_middle r rs (answers n v1)), !(assoc_L (++)), <-Hn.
    rewrite limit_stream_app, total_bytes_app, Z.add_0_l.
    rewrite (count_message_eq max_bytes (total_bytes rs) r). done.
  - destruct (sv_accept v _) as [[]|e]; [|apply IH].
    by apply (IH (Ok tt) rs (push_wire _ v)).
  - apply (IH (sv_scope v)).
  - apply (IH rs (with_scope sc v)).
  - apply (IH rs (push_log r v)).
  - apply (IH (sv_clock v)).
  - apply (IH (sv_uuid v)).
  - apply (IH (sv_limit v i)).
  - apply (IH rs (with_context c v)).
  - apply (IH (sv_context v)).
Qed.

(** The declared length, when the headers decode. *)
Definition declared_length (s : scope) : option (py Z) :=
  match extract_headers (sc_headers s) [] with
  | Ok headers => parse_int <$> assoc_get "content-length" headers
  | Err _ => None
  end.

Definition length_ok (max_bytes : Z) (declared : option (py Z)) : bool :=
  match declared with
  | Some (Ok z) => (0 <=? z) && (z <=? max_bytes)
  | Some (Err _) => false
  | None => true
  end.

Lemma check_content_length_spec max_bytes s :
  is_ok (extract_headers (sc_headers s) []) = true →
  if length_ok max_bytes (declared_length s)
  then check_content_length max_bytes s = Ok tt
  else ∃ d, check_content_length max_bytes s = Err (http_error 413 d).
Proof.
  unfold declared_length, check_content_length.
  destruct (extract_headers _ _) as [headers|e]; [|done]. intros _. cbn [mbind result_bind].
  destruct (assoc_get _ headers) as [text|]; [|done]. simpl.
  destruct (parse_int text) as [z|e]; simpl; [|by eexists].
  destruct (Z.ltb_spec z 0), (Z.leb_spec 0 z); try lia; simpl; [by eexists|].
  destruct (Z.ltb_spec max_bytes z), (Z.leb_spec z max_bytes); try lia; [by eexists|done].
Qed.

(** The answer to a body that is too large. *)
Definition too_large_response `{Starlette} (detail : string) (v : server) : list message :=
  let body := json_error 413 detail (sv_clock v) in
  [ResponseStart 413 (raw_headers [] body); ResponseBody body false].

Lemma run_too_large `{Starlette} detail v :
  accepting v →
  ∃ v', run (render_rejection (http_error 413 detail)) v = (Ok tt, v')
    ∧ sv_wire v' = sv_wire v ++ too_large_response detail v ∧ sv_inbox v' = sv_inbox v.
Proof.
  intros Hv. unfold render_rejection, http_error, http_exception_handler. simpl.
  rewrite !Hv. simpl. eexists. split; [done|]. simpl. split; [|done].
  unfold too_large_response. by rewrite <-(assoc_L (++)).
Qed.

(** What the layer delivers in place of the [i]-th message. *)
Lemma limit_stream_lookup max_bytes total rs i :
  limit_stream max_bytes total rs !! i
  = (λ r, if negb (body_bytes r =? 0) && (max_bytes <? total + total_bytes (take (S i) rs))
          then Err (body_too_large max_bytes) else r) <$> rs !! i.
Proof.
  revert total i. induction rs as [|r rs IH]; intros total i; [done|]. rewrite limit_stream_cons.
  destruct i as [|i]; [cbn [lookup list_lookup fmap option_fmap option_map take total_bytes foldr]; by rewrite Z.add_0_r|].
  change ((?x :: ?l) !! S i) with (l !! i). rewrite IH. destruct (rs !! i) as [r'|]; [|done].
  cbn [fmap option_fmap option_map]. change (take (S (S i)) (r :: rs)) with (r :: take (S i) rs).
  cbn [total_bytes foldr]. by rewrite Z.add_assoc.
Qed.

(** [C24] Bodies are bounded. A declared length that is not a number between 0 and the
    limit is answered with 413 before the application runs or any of the body is read.
    However the body is chunked and whatever length was declared, the application receives
    what the server delivers except that each non-empty chunk with which the body has
    exceeded the limit is replaced by the 413 exception, raised by its [receive]: it never
    receives more than the limit, and a body within the limit is delivered unchanged. When
    that exception leaves the application, the request is answered with 413; an application
    that catches it answers as it likes. *)
Theorem bodies_are_bounded `{Starlette} mw inner v :
  let max_bytes := max_body_bytes (_select_limit mw (sc_path (sv_scope v))) in
  0 ≤ max_bytes → sc_type (sv_scope v) = "http" →
  is_ok (extract_headers (sc_headers (sv_scope v)) []) = true →
  (length_ok max_bytes (declared_length (sv_scope v)) = false → accepting v →
   ∃ d v', run (RequestBodyLimitASGIMiddleware mw inner) v = (Ok tt, v')
     ∧ sv_wire v' = sv_wire v ++ too_large_response d v ∧ sv_inbox v' = sv_inbox v) ∧
  (∃ n delivered r v', run (limit_body max_bytes (tap inner)) v
      = (Ok (total_bytes (answers n v), Ok (delivered, r)), v')
    ∧ (∀ i, delivered !! i = (λ m,
         if negb (body_bytes m =? 0) && (max_bytes <? total_bytes (take (S i) (answers n v)))
         then Err (body_too_large max_bytes) else m) <$> answers n v !! i)
    ∧ total_bytes delivered ≤ max_bytes
    ∧ (total_bytes (answers n v) ≤ max_bytes → delivered = answers n v)) ∧
  (∀ total v1, length_ok max_bytes (declared_length (sv_scope v)) = true → accepting v →
   run (limit_body max_bytes inner) v = (Ok (total, Err (body_too_large max_bytes)), v1) →
   ∃ d v', run (RequestBodyLimitASGIMiddleware mw inner) v = (Ok tt, v')
     ∧ sv_wire v' = sv_wire v1 ++ too_large_response d v1 ∧ sv_inbox v' = sv_inbox v1).
Proof.
  intros max_bytes Hmax Ht Hd.
  assert (∀ (p : app), run (rejecting p) v = match run p v with
      | (Err e, v1) => if is_HTTPException e then run (render_rejection e) v1 else (Err e, v1)
      | x => x end) as Hrej.
  { intros p. unfold rejecting. rewrite run_try_except. by destruct (run p v) as [[[]|e] v1]. }
  pose proof (check_content_length_spec max_bytes (sv_scope v) Hd) as Hc.
  assert (run (RequestBodyLimitASGIMiddleware mw inner) v
    = run (rejecting (_ ← of_result (check_content_length max_bytes (sv_scope v));
                      '(_, r) ← limit_body max_bytes inner; of_result r)) v) as E.
  { unfold RequestBodyLimitASGIMiddleware, on_http. cbn [run]. by rewrite Ht. }
  rewrite E, Hrej. clear E. split_and!.
  - intros Hl Hv. rewrite Hl in Hc. destruct Hc as [d Hc]. exists d.
    destruct (run_too_large d v Hv) as (v' & Hr & Hw & Hi). exists v'. split; [|done].
    unfold mbind, prog_bind. rewrite run_bind, Hc. exact Hr.
  - destruct (run_limit_tap max_bytes inner [] v) as (n & r & v' & Hrun).
    exists n, (limit_stream max_bytes 0 (answers n v)), r, v'. split_and!; [exact Hrun| | |].
    + intros i. rewrite limit_stream_lookup. done.
    + pose proof (limit_stream_bound max_bytes 0 (answers n v) Hmax). lia.
    + intros Hle. apply limit_stream_id. lia.
  - intros total v1 Hl Hv Hrun. rewrite Hl in Hc. eexists.
    assert (accepting v1) as Hv1.
    { pose proof (run_accept (limit_body max_bytes inner) v) as Ha. rewrite Hrun in Ha. simpl in Ha.
      unfold accepting. by rewrite Ha. }
    destruct (run_too_large ("Request body exceeds maximum allowed size (limit = "
                  +:+ format_bytes max_bytes +:+ ").") v1 Hv1) as (v' & Hr & Hw & Hi).
    exists v'. split; [|done].
    unfold mbind, prog_bind. rewrite run_bind, Hc. cbn [run of_result]. rewrite run_bind, Hrun. exact Hr.
Qed.

(** Two chunks of three bytes against a limit of five. *)
Definition chunked : server :=
  mkServer [Ok (RequestBody "abc" true); Ok (RequestBody "def" false)] (λ _, Ok tt) []
    (demo_scope []) [] 7 "0123456789abcdef" (λ _, Ok (RateLimiter.mkDecision true None 0)) None.
Definition body_reader : app := _ ← receive; _ ← receive; mret tt.
Definition five_bytes : RequestBodyLimit := mkRequestBodyLimit (mkBodyLimit 5) [].

Lemma bodies_are_bounded_witness :
  (∃ n delivered r v', run (limit_body 5 (tap body_reader)) chunked
     = (Ok (total_bytes (answers n chunked), Ok (delivered, r)), v')
     ∧ total_bytes delivered ≤ 5)
  ∧ limit_stream 5 0 (answers 2 chunked)
    = [Ok (RequestBody "abc" true); Err (body_too_large 5)]
  ∧ (∃ d v', run (RequestBodyLimitASGIMiddleware five_bytes body_reader) chunked = (Ok tt, v')
       ∧ sv_wire v' = too_large_response d chunked)
  ∧ ∃ d v', run (RequestBodyLimitASGIMiddleware five_bytes body_reader) (demo_server [("Content-Length", "6")])
       = (Ok tt, v') ∧ sv_wire v' = too_large_response d (demo_server [("Content-Length", "6")]).
Proof.
  destruct (bodies_are_bounded five_bytes body_reader chunked ltac:(vm_compute; discriminate) eq_refl eq_refl)
    as (_ & (n & delivered & r & v' & Hrun & _ & Hle & _) & H413).
  destruct (bodies_are_bounded five_bytes body_reader (demo_server [("Content-Length", "6")])
    ltac:(vm_compute; discriminate) eq_refl eq_refl) as (Hdeclared & _).
  split; [|split; [reflexivity|split]].
  - exists n, delivered, r, v'. split; [exact Hrun|exact Hle].
  - destruct (H413 6 (run (limit_body 5 body_reader) chunked).2 eq_refl (λ _, eq_refl) eq_refl)
      as (d & v2 & Hr & Hw & _).
    exists d, v2. split; [exact Hr|exact Hw].
  - destruct (Hdeclared eq_refl (λ _, eq_refl)) as (d & v2 & Hr & Hw & _). exists d, v2. split; [exact Hr|exact Hw].
Defined.
