(* ===== verification/CorsFacts.v ===== *)
(** * What the CORS layer guarantees

    The headers every response carries behind [CustomCORSASGIMiddleware]: the [Vary]
    tokens survive the rewriting, and an origin is echoed only when it is allowed. *)
From S2P Require Import Prelude PyText Fingerprint FingerprintFacts Asgi HeaderPolicy RequestPolicy PolicyFacts.
Open Scope Z_scope.

(** ** Stripping and splitting *)
Lemma lstrip_head P s :
  lstrip_when P s = s ∨ ∃ c s', s = String c s' ∧ P c = true.
Proof. destruct s as [|c s]; simpl; [by left|]. destruct (P c) eqn:E; [right; eauto|by left]. Qed.

Lemma lstrip_idemp P s : lstrip_when P (lstrip_when P s) = lstrip_when P s.
Proof. induction s as [|c s IH]; simpl; [done|]. destruct (P c) eqn:E; [done|]. simpl. by rewrite E. Qed.

Lemma rstrip_cons P c s :
  rstrip_when P (String c s) =
    if String.eqb (rstrip_when P s) "" && P c then "" else String c (rstrip_when P s).
Proof. simpl. by destruct (rstrip_when P s), (P c). Qed.

Lemma rstrip_idemp P s : rstrip_when P (rstrip_when P s) = rstrip_when P s.
Proof.
  induction s as [|c s IH]; [done|]. rewrite rstrip_cons.
  destruct (String.eqb (rstrip_when P s) "" && P c) eqn:E; [done|]. rewrite rstrip_cons, IH, E. done.
Qed.

Lemma lstrip_rstrip P s : lstrip_when P s = s → lstrip_when P (rstrip_when P s) = rstrip_when P s.
Proof.
  destruct s as [|c s]; [done|]. rewrite rstrip_cons. simpl. destruct (P c) eqn:E.
  - intros H. exfalso. assert (∀ t, (String.length (lstrip_when P t) ≤ String.length t)%nat) as Hl.
    { induction t as [|d t IH]; simpl; [done|]. destruct (P d); simpl; lia. }
    specialize (Hl s). rewrite H in Hl. simpl in Hl. lia.
  - intros _. rewrite andb_false_r. simpl. by rewrite E.
Qed.

Lemma strip_idemp s : strip (strip s) = strip s.
Proof.
  unfold strip. rewrite (lstrip_rstrip is_space (lstrip_when is_space s)) by apply lstrip_idemp.
  apply rstrip_idemp.
Qed.

Lemma strip_space s : strip (" " +:+ s) = strip s.
Proof. done. Qed.

(** A token of a comma-separated header. *)
Definition token_ok (t : string) : Prop := strip t = t ∧ t ≠ "" ∧ mem_char ","%char t = false.

Lemma split_on_nonempty c s : split_on c s ≠ [].
Proof. destruct s as [|d s]; simpl; [done|]. destruct (Ascii.eqb d c); [done|]. by destruct (split_on c s). Qed.

Lemma split_on_app c s t :
  mem_char c s = false →
  split_on c (s +:+ t) = match split_on c t with w :: ws => (s +:+ w) :: ws | [] => [] end.
Proof.
  induction s as [|d s IH]; intros Hs; simpl.
  - change ("" +:+ t) with t. pose proof (split_on_nonempty c t). by destruct (split_on c t).
  - rewrite mem_char_cons in Hs. apply orb_false_iff in Hs as [Hd Hs].
    rewrite Ascii.eqb_sym in Hd. change (String d s +:+ t) with (String d (s +:+ t)). simpl.
    rewrite Hd, IH by done. pose proof (split_on_nonempty c t). by destruct (split_on c t).
Qed.

Lemma split_join l :
  Forall token_ok l → l ≠ [] →
  strip <$> split_on ","%char (join ", " l) = l.
Proof.
  induction 1 as [|t l (Ht & _ & Hc) Hl IH]; [done|]. intros _.
  destruct l as [|u l].
  - simpl. rewrite <-(str_app_nil t) at 1. rewrite split_on_app by done. simpl.
    rewrite str_app_nil. by rewrite Ht.
  - change (join ", " (t :: u :: l)) with (t +:+ ", " +:+ join ", " (u :: l)).
    rewrite split_on_app by done.
    change (", " +:+ join ", " (u :: l)) with (String ","%char (String " "%char (join ", " (u :: l)))).
    specialize (IH ltac:(done)). revert IH.
    generalize (join ", " (u :: l)). intros s IH. simpl.
    pose proof (split_on_nonempty ","%char s).
    destruct (split_on ","%char s) as [|w ws]; [done|].
    change ((strip <$> (t +:+ "") :: String " "%char w :: ws) = t :: u :: l).
    rewrite str_app_nil, !fmap_cons, Ht. f_equal. exact IH.
Qed.

(** ** Header lists *)
Lemma set_header_cons name value k w hs :
  set_header name value ((k, w) :: hs) =
    if decide (k = name) then (name, value) :: filter (λ h, h.1 ≠ name) hs
    else (k, w) :: set_header name value hs.
Proof.
  unfold set_header. simpl. destruct (decide (k = name)) as [->|Hne]; simpl; [done|].
  destruct (list_find (λ h : header, h.1 = name) hs) as [[i h]|]; done.
Qed.

Lemma getlist_cons n k w hs :
  getlist n ((k, w) :: hs) = if decide (k = n) then w :: getlist n hs else getlist n hs.
Proof. unfold getlist. rewrite filter_cons. simpl. by destruct (decide (k = n)). Qed.

Lemma getlist_filter_ne n name hs :
  getlist n (filter (λ h, h.1 ≠ name) hs) = if decide (n = name) then [] else getlist n hs.
Proof.
  induction hs as [|[k w] hs IH]; [by case_decide|]. rewrite filter_cons, getlist_cons. simpl.
  destruct (decide (k ≠ name)); rewrite ?getlist_cons, IH; repeat case_decide; naive_solver.
Qed.

Lemma getlist_set_header n name value hs :
  getlist n (set_header name value hs) = if decide (n = name) then [value] else getlist n hs.
Proof.
  induction hs as [|[k w] hs IH].
  - unfold set_header. simpl. rewrite getlist_cons. repeat case_decide; naive_solver.
  - rewrite set_header_cons. destruct (decide (k = name)) as [->|Hne].
    + rewrite getlist_cons, getlist_filter_ne, getlist_cons. repeat case_decide; naive_solver.
    + rewrite !getlist_cons, IH. repeat case_decide; naive_solver.
Qed.

(** ** The [Vary] tokens *)
Definition vary_ok (d : list (string * string)) : Prop :=
  NoDup d.*1 ∧ Forall (λ kv, token_ok kv.2 ∧ kv.1 = lower kv.2) d.

Lemma assoc_set_fresh (k v : string) (d : list (string * string)) :
  k ∉ d.*1 → assoc_set k v d = d ++ [(k, v)].
Proof.
  induction d as [|[k' v'] d IH]; simpl; [done|]. intros Hk. rewrite not_elem_of_cons in Hk.
  rewrite decide_False by tauto. f_equal. apply IH. tauto.
Qed.

Lemma vary_ok_set t d : token_ok t → vary_ok d → vary_ok (assoc_set (lower t) t d).
Proof.
  intros Ht [Hnd Hall]. split; [by apply assoc_set_NoDup|]. by apply assoc_set_Forall.
Qed.

Lemma vary_ok_setdefault t d : token_ok t → vary_ok d → vary_ok (setdefault (lower t) t d).
Proof.
  intros Ht Hd. unfold setdefault. destruct (assoc_get (lower t) d) eqn:E; [done|].
  rewrite <-assoc_set_fresh; [by apply vary_ok_set|]. by apply assoc_get_none.
Qed.

Lemma split_on_no_comma c s w : w ∈ split_on c s → mem_char c w = false.
Proof.
  revert w. induction s as [|d s IH]; simpl; intros w.
  - by intros ->%list_elem_of_singleton.
  - destruct (Ascii.eqb d c) eqn:E; [intros [->|?]%elem_of_cons; auto|].
    destruct (split_on c s) as [|w0 ws]; intros [->|Hw]%elem_of_cons.
    + by rewrite mem_char_cons, Ascii.eqb_sym, E.
    + by apply elem_of_nil in Hw.
    + rewrite mem_char_cons, Ascii.eqb_sym, E. apply IH. left.
    + apply IH. by right.
Qed.

Lemma strip_no_char c s : mem_char c s = false → mem_char c (strip s) = false.
Proof.
  intros Hs. unfold strip.
  assert (∀ P t, mem_char c t = false → mem_char c (lstrip_when P t) = false) as Hl.
  { intros P t. induction t as [|d t IH]; [done|]. rewrite mem_char_cons. intros H.
    apply orb_false_iff in H as [H1 H2]. simpl. destruct (P d); [auto|].
    by rewrite mem_char_cons, H1. }
  assert (∀ P t, mem_char c t = false → mem_char c (rstrip_when P t) = false) as Hr.
  { intros P t. induction t as [|d t IH]; [done|]. rewrite mem_char_cons. intros H.
    apply orb_false_iff in H as [H1 H2]. rewrite rstrip_cons.
    destruct (String.eqb _ _ && _); [done|]. by rewrite mem_char_cons, H1, IH. }
  auto.
Qed.

Lemma vary_tokens_ok hs : vary_ok (vary_tokens hs).
Proof.
  unfold vary_tokens.
  assert (∀ l d, vary_ok d → Forall (λ t, strip t ≠ "" ∧ mem_char ","%char t = false) l →
    vary_ok (foldl (λ acc t, assoc_set (lower (strip t)) (strip t) acc) d l)) as H.
  { intros l. induction l as [|t l IH]; intros d Hd Hl; [done|]. apply Forall_cons in Hl as [[H1 H2] Hl].
    simpl. apply IH; [|done]. apply vary_ok_set; [|done].
    split_and!; [apply strip_idemp|done|by apply strip_no_char]. }
  apply H; [split; constructor|]. apply Forall_forall. intros t.
  rewrite list_elem_of_filter, list_elem_of_bind. intros (Hne & s & Ht & _).
  split; [done|by eapply split_on_no_comma].
Qed.

(** The tokens after the policy's own. *)
Definition varied (method : string) (hs : list header) : list (string * string) :=
  foldl (λ d name, setdefault (lower name) name d) (vary_tokens hs) (vary_names method).

Lemma setdefault_keys k v d : k ∈ (setdefault k v d).*1 ∧ d.*1 ⊆ (setdefault k v d).*1.
Proof.
  unfold setdefault. destruct (assoc_get k d) eqn:E.
  - split; [|done]. apply list_elem_of_fmap. exists (k, s). split; [done|]. by apply assoc_get_elem.
  - rewrite fmap_app. set_solver.
Qed.

Lemma varied_ok method hs : vary_ok (varied method hs) ∧ "origin" ∈ (varied method hs).*1.
Proof.
  unfold varied, vary_names. pose proof (vary_tokens_ok hs) as H.
  assert (∀ t, t ∈ ["Origin"; "Access-Control-Request-Method"; "Access-Control-Request-Headers"] →
    token_ok t) as Hn by (intros t Ht; repeat (apply elem_of_cons in Ht as [->|Ht]; [done|]); by apply elem_of_nil in Ht).
  simpl. pose proof (setdefault_keys "origin" "Origin" (vary_tokens hs)) as [Ho _].
  apply (vary_ok_setdefault "Origin") in H; [|by apply Hn; left].
  destruct (String.eqb method "OPTIONS"); simpl; [|done]. split.
  - apply (vary_ok_setdefault "Access-Control-Request-Headers"); [apply Hn; set_solver|].
    apply (vary_ok_setdefault "Access-Control-Request-Method"); [apply Hn; set_solver|done].
  - by apply setdefault_keys, setdefault_keys.
Qed.

Lemma foldl_set_fresh d acc :
  vary_ok (acc ++ d) → foldl (λ acc t, assoc_set (lower t) t acc) acc d.*2 = acc ++ d.
Proof.
  revert acc. induction d as [|[k v] d IH]; intros acc Hd; simpl; [by rewrite app_nil_r|].
  destruct Hd as [Hnd Hall]. pose proof Hall as Hall'. apply Forall_app in Hall' as [_ Hall'].
  apply Forall_cons in Hall' as [[_ Hk] _]. simpl in Hk. rewrite <-Hk.
  rewrite assoc_set_fresh.
  - trans ((acc ++ [(k, v)]) ++ d); [apply IH|]; by rewrite <-(assoc_L (++)).
  - rewrite fmap_app, fmap_cons in Hnd. apply NoDup_app in Hnd as (_ & Hnd & _).
    intros Hin. apply (Hnd k Hin). left.
Qed.

Lemma foldl_strip l acc :
  foldl (λ acc t, assoc_set (lower (strip t)) (strip t) acc) acc (filter (λ t, strip t ≠ "") l)
  = foldl (λ acc t, assoc_set (lower t) t acc) acc (filter (λ t, t ≠ "") (strip <$> l)).
Proof.
  revert acc. induction l as [|t l IH]; intros acc; [done|]. rewrite fmap_cons, !filter_cons.
  case_decide; simpl; apply IH.
Qed.

Lemma tokens_round_trip d :
  vary_ok d → d ≠ [] →
  foldl (λ acc token, assoc_set (lower (strip token)) (strip token) acc) []
    (filter (λ token, strip token ≠ "") (split_on ","%char (join ", " d.*2))) = d.
Proof.
  intros Hok Hd. pose proof Hok as [_ Hall]. rewrite foldl_strip, split_join.
  - rewrite filter_all; [by apply (foldl_set_fresh d [])|]. clear -Hall.
    induction Hall as [|[k v] d [(_ & Hv & _) _] _ IH]; by constructor.
  - clear -Hall. induction Hall as [|[k v] d [Hv _] _ IH]; by constructor.
  - intros E. by apply fmap_nil_inv in E.
Qed.

Lemma varied_nonempty method hs : varied method hs ≠ [].
Proof.
  destruct (varied_ok method hs) as [_ Ho]. intros E. rewrite E in Ho. by apply elem_of_nil in Ho.
Qed.

Lemma apply_vary_tokens method hs :
  "*" ∉ (varied method hs).*1 → vary_tokens (apply_vary method hs) = varied method hs.
Proof.
  intros Hs. unfold apply_vary, vary_tokens at 1. fold (varied method hs).
  rewrite getlist_set_header, decide_True, bool_decide_false by done. simpl.
  rewrite app_nil_r. apply tokens_round_trip; [apply varied_ok|apply varied_nonempty].
Qed.

Lemma apply_vary_star method hs :
  "*" ∈ (varied method hs).*1 → getlist "vary" (apply_vary method hs) = ["*"].
Proof.
  intros Hs. unfold apply_vary. fold (varied method hs).
  by rewrite getlist_set_header, decide_True, bool_decide_true.
Qed.

(** [Vary] round-trips: after the policy has rewritten a response's headers there is
    one [Vary] header, which reads back as exactly the tokens that were there (compared
    without case, the last spelling kept) followed by those of the policy that were
    missing — or [*] alone when [*] was among them — so nothing a cache relies on is
    lost and [Origin] is always covered. *)
Theorem vary_round_trip method hs :
  (∃ x, getlist "vary" (apply_vary method hs) = [x]) ∧
  (∀ n, n ≠ "vary" → getlist n (apply_vary method hs) = getlist n hs) ∧
  if bool_decide ("*" ∈ (varied method hs).*1)
  then getlist "vary" (apply_vary method hs) = ["*"]
  else vary_tokens (apply_vary method hs) = varied method hs ∧ "origin" ∈ (varied method hs).*1.
Proof.
  split; [unfold apply_vary; rewrite getlist_set_header, decide_True by done; by eexists|]. split.
  { intros n Hn. unfold apply_vary. by rewrite getlist_set_header, decide_False. }
  case_bool_decide; [by apply apply_vary_star|].
  split; [by apply apply_vary_tokens|apply varied_ok].
Qed.

(** ** Responses *)

(** The scopes a program puts in place satisfy [Q], from scopes that do. *)
Fixpoint puts {A} (Q : scope → Prop) (p : prog A) : Prop :=
  match p with
  | Ret _ | Raise _ => True
  | Recv k => ∀ r, puts Q (k r)
  | Send m k => ∀ r, puts Q (k r)
  | GetScope k => ∀ s, Q s → puts Q (k s)
  | PutScope s k => Q s ∧ puts Q k
  | Log _ k => puts Q k
  | Now k => ∀ t, puts Q (k t)
  | Uuid k => ∀ u, puts Q (k u)
  | Limit _ k => ∀ d, puts Q (k d)
  | SetContext _ k => puts Q k
  | GetContext k => ∀ c, puts Q (k c)
  end.

Lemma puts_bind {A B} Q (p : prog A) (f : A → prog B) :
  puts Q p → (∀ a, puts Q (f a)) → puts Q (pbind p f).
Proof. intros Hp Hf. induction p; simpl in *; naive_solver. Qed.

Lemma puts_wrap {S A} Q (p : prog A) (s : S) :
  puts Q p → puts Q (wrap recv_through send_through p s).
Proof. induction p; simpl in *; naive_solver. Qed.

Lemma puts_of_result {A} Q (r : py A) : puts Q (of_result r).
Proof. by destruct r. Qed.

Section cors.
Context `{Starlette}.

Lemma puts_rejecting Q p : puts Q p → puts Q (rejecting p).
Proof.
  intros Hp. apply puts_bind; [by apply puts_wrap|]. intros [u r].
  destruct r as [a|e]; simpl; [done|]. destruct (is_HTTPException e) eqn:E; [|done].
  destruct e; try done. unfold render_rejection, http_exception_handler. simpl.
  destruct (_ <? 500); simpl; intros; destruct r; simpl; try done; intros; by destruct r.
Qed.

(** What goes out behind [cors_send] from scopes that satisfy [Q]. *)
Lemma run_cors_send {A} Q (p : prog A) v u :
  puts Q p → Q (sv_scope v) →
  ∃ new, sv_wire (run (wrap recv_through cors_send p u) v).2 = sv_wire v ++ new
    ∧ Forall (λ m, ∃ s m0, Q s ∧ m = apply_cors_response_headers s m0) new.
Proof.
  revert v u.
  induction p as [a|e|k IH|m k IH|k IH|sc p IH|r p IH|k IH|k IH|i k IH|c p IH|k IH];
    intros v u Hp Hq; cbn [run wrap pbind recv_through cors_send]; simpl in Hp.
  - exists []. by rewrite app_nil_r.
  - exists []. by rewrite app_nil_r.
  - destruct (pop_inbox v) as [r v1] eqn:E. pose proof (sv_wire_pop v) as Hw. rewrite E in Hw.
    assert (sv_scope v1 = sv_scope v) as Hs.
    { unfold pop_inbox in E. by destruct (sv_inbox v); injection E as _ <-. }
    simpl in Hw. rewrite <-Hw. apply IH; [auto|by rewrite Hs].
  - set (m' := apply_cors_response_headers (sv_scope v) m).
    destruct (sv_accept v m') as [[]|e]; [|by apply IH].
    destruct (IH (Ok tt) (push_wire m' v) u (Hp _) Hq) as (new & -> & Hn).
    exists (m' :: new). simpl. rewrite <-(assoc_L (++)). split; [done|]. constructor; [|done].
    by exists (sv_scope v), m.
  - apply IH; auto.
  - destruct Hp as [Hsc Hp]. by apply (IH (with_scope sc v)).
  - by apply (IH (push_log r v)).
  - by apply IH.
  - by apply IH.
  - by apply IH.
  - by apply (IH (with_context c v)).
  - by apply IH.
Qed.

Definition acao : string := "access-control-allow-origin".

(** The scopes of a request whose origin [o] was accepted. *)
Definition origin_scope (o : string) (mw : CustomCORS) (s : scope) : Prop :=
  sc_cors s = Some [(acao, o)] ∨ sc_cors s = Some ((acao, o) :: policy_headers mw).

Lemma getlist_foldl n hs l :
  n ∉ l.*1 → getlist n (foldl (λ acc h, set_header h.1 h.2 acc) hs l) = getlist n hs.
Proof.
  revert hs. induction l as [|[k v] l IH]; intros hs Hn; simpl in *; [done|].
  rewrite not_elem_of_cons in Hn. rewrite IH by tauto.
  rewrite getlist_set_header, decide_False; [done|]. tauto.
Qed.

Lemma policy_names mw n :
  n ∈ (policy_headers mw).*1 → n ≠ acao ∧ n ≠ "vary".
Proof.
  unfold policy_headers. destruct (credentials mw); simpl; intros Hn;
    repeat (apply elem_of_cons in Hn as [->|Hn]; [done|]); by apply elem_of_nil in Hn.
Qed.

(** A start message that went out under an accepted origin. *)
Definition echoes (o : string) (m : message) : Prop :=
  match m with
  | ResponseStart _ hs =>
      getlist acao hs = [o]
      ∧ (getlist "vary" hs = ["*"] ∨ "origin" ∈ (vary_tokens hs).*1)
  | _ => True
  end.

Lemma varied_on_origin method hs :
  getlist "vary" (apply_vary method hs) = ["*"]
  ∨ "origin" ∈ (vary_tokens (apply_vary method hs)).*1.
Proof.
  destruct (decide ("*" ∈ (varied method hs).*1)); [left; by apply apply_vary_star|right].
  rewrite apply_vary_tokens by done. apply varied_ok.
Qed.

Lemma origin_scope_echoes o mw s m :
  origin_scope o mw s → echoes o (apply_cors_response_headers s m).
Proof.
  intros Hs. unfold apply_cors_response_headers. destruct m as [| |st hs| |]; try done.
  assert (∀ l, (∀ n, n ∈ l.*1 → n ≠ acao ∧ n ≠ "vary") →
    echoes o (ResponseStart st (foldl (λ acc h, set_header h.1 h.2 acc)
      (apply_vary (sc_method s) hs) ((acao, o) :: l)))) as Hgen.
  { intros l Hl. simpl. split.
    - rewrite getlist_foldl by (intros Hn; by destruct (Hl acao Hn)).
      by rewrite getlist_set_header, decide_True.
    - unfold vary_tokens. rewrite getlist_foldl by (intros Hn; by destruct (Hl "vary" Hn)).
      rewrite getlist_set_header, decide_False by done. apply varied_on_origin. }
  destruct Hs as [-> | ->]; apply Hgen; [by intros n Hn%elem_of_nil|apply policy_names].
Qed.

Lemma puts_update mw o new (p : app) :
  (∀ s, origin_scope o mw s →
     origin_scope o mw (set_cors (Some (update_headers new (default [] (sc_cors s)))) s)) →
  puts (origin_scope o mw) p → puts (origin_scope o mw) (response_headers_update new p).
Proof. intros Hn Hp s Hs. split; [by apply Hn|done]. Qed.

Lemma policy_update mw o s :
  origin_scope o mw s →
  origin_scope o mw (set_cors (Some (update_headers (policy_headers mw) (default [] (sc_cors s)))) s).
Proof.
  intros [Hs|Hs]; right; simpl; rewrite Hs; unfold policy_headers, update_headers;
    by destruct (credentials mw).
Qed.

(** What follows the origin's own header in [_run_cors_logic]. *)
Definition after_origin (mw : CustomCORS) (method : string) (headers : list header) (inner : app) : app :=
  let rest :=
    response_headers_update (policy_headers mw)
      (if String.eqb method "OPTIONS"
       then (_ ← send (ResponseStart 204 (plain_headers 204)); send (ResponseBody "" false))
       else inner) in
  match (if String.eqb method "OPTIONS"
         then present (assoc_get "access-control-request-method" headers) else None) with
  | Some requested => _ ← of_result (check_preflight mw headers requested); rest
  | None => rest
  end.

Lemma puts_after_origin mw o method headers inner :
  (∀ Q, puts Q inner) → puts (origin_scope o mw) (after_origin mw method headers inner).
Proof.
  intros Hi. unfold after_origin.
  assert (puts (origin_scope o mw) (response_headers_update (policy_headers mw)
      (if String.eqb method "OPTIONS"
       then (_ ← send (ResponseStart 204 (plain_headers 204)); send (ResponseBody "" false))
       else inner))) as Hrest.
  { apply puts_update; [apply policy_update|]. destruct (String.eqb _ _); [|apply Hi].
    apply puts_bind; [intros r; apply puts_of_result|intros _ r; apply puts_of_result]. }
  match goal with |- puts _ match ?x with _ => _ end => destruct x end; [|exact Hrest].
  apply puts_bind; [apply puts_of_result|intros _; exact Hrest].
Qed.
End cors.

Lemma is_allowed_origin_spec mw o :
  o ≠ "" → _is_allowed_origin mw (Some o) = bool_decide ("*" ∈ opts_origin mw ∨ o ∈ opts_origin mw).
Proof.
  intros Hne. simpl. rewrite (proj2 (String.eqb_neq o "")) by done. unfold one_of.
  repeat case_bool_decide; naive_solver.
Qed.

(** [C14] CORS: a request from an origin that is not allowed is refused with 403, whatever
    the application is, and the policy adds no allowed origin to the answer; every
    response to a request from an allowed origin — success, preflight answer, preflight
    refusal or failure — names exactly that origin as allowed and varies on [Origin]. *)
Theorem cors_governs_responses `{Starlette} mw inner v headers o :
  accepting v → sc_type (sv_scope v) = "http" →
  extract_headers (sc_headers (sv_scope v)) [] = Ok headers →
  assoc_get "origin" headers = Some o → o ≠ "" → (∀ Q, puts Q inner) →
  let v' := (run (CustomCORSASGIMiddleware mw inner) v).2 in
  if decide ("*" ∈ opts_origin mw ∨ o ∈ opts_origin mw)
  then ∃ new, sv_wire v' = sv_wire v ++ new ∧ Forall (echoes o) new
  else ∃ body, sv_wire v' = sv_wire v ++
         [ResponseStart 403 (apply_vary (sc_method (sv_scope v)) (raw_headers [] body));
          ResponseBody body false].
Proof.
  intros Hv Ht Hh Ho Hne Hi v'. subst v'. unfold CustomCORSASGIMiddleware, on_http. cbn [run].
  rewrite Ht. cbn [String.eqb Ascii.eqb Bool.eqb run]. rewrite run_bind.
  unfold _run_cors_logic. cbn [rejecting try_except wrap pbind run with_scope sv_scope].
  unfold rejecting, try_except. cbn [wrap pbind run with_scope sv_scope sc_headers set_cors].
  rewrite Hh. cbn [of_result mbind prog_bind pbind]. rewrite Ho, is_allowed_origin_spec by done.
  case_bool_decide as Ha; [rewrite (decide_True _ _ Ha)|rewrite (decide_False _ _ Ha)].
  - cbn [negb].
    assert (present (Some o) = Some o) as -> by (simpl; by rewrite (proj2 (String.eqb_neq o ""))).
    set (u := with_scope (set_cors (Some [(acao, o)]) (set_cors (Some []) (sv_scope v)))
                (with_scope (set_cors (Some []) (sv_scope v)) v)).
    pose proof (run_cors_send (origin_scope o mw)
      (rejecting (after_origin mw (sc_method (sv_scope v)) headers inner)) u tt) as Hrun.
    destruct Hrun as (new & Hw & Hn);
      [by apply puts_rejecting, puts_after_origin|by left|].
    exists new. split.
    + etrans; [|exact Hw]. cbn [response_headers_update wrap pbind run with_scope sv_scope].
      change (update_headers [("access-control-allow-origin", o)]
        (default [] (sc_cors (set_cors (Some []) (sv_scope v))))) with [(acao, o)].
      fold u.
      match goal with |- sv_wire (let (r, v') := run ?p u in _).2 = _ =>
        change p with (wrap recv_through cors_send
          (rejecting (after_origin mw (sc_method (sv_scope v)) headers inner)) tt) end.
      destruct (run _ u) as [[[[] r]|e] v2]; [by rewrite run_of_result|done].
    + eapply Forall_impl; [exact Hn|]. intros m (s & m0 & Hs & ->). by eapply origin_scope_echoes.
  - cbn [negb wrap pbind recv_through run]. simpl is_HTTPException. cbv iota.
    eexists. simpl. rewrite !Hv. simpl. by rewrite <-(assoc_L (++)).
Qed.

#[local] Existing Instance demo_starlette.
Definition demo_cors : CustomCORS :=
  new_CORS ["https://a.example"] ["get"; "post"; "GET"] ["Content-Type"] ["X-Request-Id"] true 600.
Definition demo_app : app :=
  _ ← send (ResponseStart 200 [("vary", "Accept, origin ,accept")]); send (ResponseBody "{}" false).

(** An allowed origin's response, and a refused origin's. *)
Lemma cors_governs_responses_witness :
  (∃ new, sv_wire (run (CustomCORSASGIMiddleware demo_cors demo_app)
             (demo_server [("Origin", "https://a.example")])).2 = [] ++ new
          ∧ Forall (echoes "https://a.example") new)
  ∧ (∃ body, sv_wire (run (CustomCORSASGIMiddleware demo_cors demo_app)
               (demo_server [("Origin", "https://b.example")])).2
             = [] ++ [ResponseStart 403 (apply_vary "GET" (raw_headers [] body)); ResponseBody body false])
  ∧ map (λ m, match m with ResponseStart _ hs => getlist "vary" hs | _ => [] end)
      (sv_wire (run (CustomCORSASGIMiddleware demo_cors demo_app)
         (demo_server [("Origin", "https://a.example")])).2) = [["accept, origin"]; []].
Proof.
  assert (∀ Q, puts Q demo_app) as Hq.
  { intros Q. apply puts_bind; [intros r; apply puts_of_result|intros _ r; apply puts_of_result]. }
  split; [|split; [|vm_compute; reflexivity]].
  - exact (cors_governs_responses demo_cors demo_app (demo_server [("Origin", "https://a.example")])
      [("origin", "https://a.example")] "https://a.example" (λ _, eq_refl) eq_refl eq_refl eq_refl
      ltac:(discriminate) Hq).
  - exact (cors_governs_responses demo_cors demo_app (demo_server [("Origin", "https://b.example")])
      [("origin", "https://b.example")] "https://b.example" (λ _, eq_refl) eq_refl eq_refl eq_refl
      ltac:(discriminate) Hq).
Defined.
