(* ===== verification/Stack.v ===== *)
(** * The policy stack

    The policy layers [create_app] of [app/config/application.py] adds, in its order (the
    last added is the outermost), and which requests reach the router.  The layers that
    admit, time, log and measure requests are not part of this composition. *)
From S2P Require Import Prelude PyText Fingerprint Asgi HeaderPolicy RequestPolicy PolicyFacts CorsFacts.
From S2P Require RateLimiter.
Open Scope Z_scope.

(** The settings the stack reads. *)
Record AppSettings {I : IpAddress} := mkAppSettings {
  exposure : OperationalExposure;
  body_limit : RequestBodyLimit;
  cors : CustomCORS;
  allowed_methods : list string;
  content_types : ContentTypes;
  header_limits : HeaderLimits;
  extra_allowed : list string;
  rate_policy : RateLimiter.RateLimitPolicy;
  proxies : TrustedProxy
}.

Section stack.
Context `{IpAddress} `{Starlette} (settings : AppSettings).

(** The layers between the header limits and the router. *)
Definition inner_stack (router : app) : app :=
  ContentTypeEnforcementASGIMiddleware (content_types settings)
  (MethodWhitelistASGIMiddleware (allowed_methods settings)
  (CustomCORSASGIMiddleware (cors settings)
  (RequestBodyLimitASGIMiddleware (body_limit settings)
  (RequestErrorASGIMiddleware
  (OperationalExposureASGIMiddleware (exposure settings) router))))).

(** The layers around them. *)
Definition policy_stack (router : app) : app :=
  HeadResponseASGIMiddleware
  (RequestCleanupASGIMiddleware
  (TrustedProxyASGIMiddleware (proxies settings)
  (RequestContextASGIMiddleware
  (SecurityHeadersMiddleware (docs_enabled (exposure settings))
  (RateLimitASGIMiddleware (rate_policy settings)
  (HeaderSanitizationASGIMiddleware (extra_allowed settings)
  (RequestHeaderLimitASGIMiddleware (header_limits settings)
  (inner_stack router)))))))).

(** ** The decision *)

(** CORS on decoded headers: refused, answered without the router, or passed. *)
Definition cors_answer (s : scope) (headers : list header) : option Z :=
  let origin := assoc_get "origin" headers in
  if negb (_is_allowed_origin (cors settings) origin) then Some 403
  else if String.eqb (sc_method s) "OPTIONS" then
    match present origin, present (assoc_get "access-control-request-method" headers) with
    | Some _, Some requested =>
        if is_ok (check_preflight (cors settings) headers requested) then Some 204 else Some 403
    | _, _ => Some 204
    end
  else None.

(** The first refusal at or below content types, on decoded headers. *)
Definition refused_inside (s : scope) : option Z :=
  match extract_headers (sc_headers s) [] with
  | Err _ => None
  | Ok headers =>
      if negb (is_ok (check_content_type (content_types settings) s)) then Some 415
      else if negb (is_ok (check_method (allowed_methods settings) s)) then Some 405
      else match cors_answer s headers with
      | Some st => Some st
      | None =>
          if negb (is_ok (check_content_length
                            (max_body_bytes (_select_limit (body_limit settings) (sc_path s))) s))
          then Some 413
          else if reserved (exposure settings) s then Some 404 else None
      end
  end.

(** Header sanitization and limits before it. *)
Definition refused_after_rate (s : scope) : option Z :=
  match sanitize (allowed_headers (extra_allowed settings)) (sc_headers s) [] [] with
  | Err _ => Some 400
  | Ok hs =>
      if negb (is_ok (check_limits (header_limits settings) hs)) then Some 431
      else refused_inside (set_headers hs s)
  end.

Definition rate_refusal (limit : string → py RateLimiter.RateLimitDecision) (s : scope) : option Z :=
  if is_favicon s then None
  else match limit (get_client_ip s) with
       | Ok d => if RateLimiter.allowed d then None else Some (rejection_status d)
       | Err _ => None
       end.

(** The status a request is answered with before the router, by the first layer that
    refuses it; [None] when it reaches the router. *)
Definition refusal (v : server) : option Z :=
  let s := resolve_proxy (proxies settings) (sv_scope v) in
  match rate_refusal (sv_limit v) s with
  | Some st => Some st
  | None => refused_after_rate s
  end.
End stack.

(** ** Layers preserve the decision *)

(** The same kind of message, with the same status. *)
Definition similar (m m' : message) : Prop :=
  match m, m' with
  | ResponseStart st _, ResponseStart st' _ => st = st'
  | ResponseBody _ more, ResponseBody _ more' => more = more'
  | _, _ => m = m'
  end.

(** A [send] closure that forwards each message, possibly rewritten. *)
Definition forwards {S} (on_send : S → message → prog (S * py unit)) : Prop :=
  ∀ s m v, accepting v → ∃ s' m', run (on_send s m) v = (Ok (s', Ok tt), push_wire m' v)
    ∧ similar m m'.

Lemma run_wrap_similar {S A} (on_send : S → message → prog (S * py unit)) (p : prog A) s v :
  forwards on_send → accepting v →
  ∃ s' v' new, run (wrap recv_through on_send p s) v = (Ok (s', (run p v).1), v')
    ∧ sv_wire v' = sv_wire v ++ new ∧ Forall2 similar (sent p v) new.
Proof.
  intros Hf. revert s v.
  induction p as [a|e|k IH|m k IH|k IH|sc p IH|r p IH|k IH|k IH|i k IH|c p IH|k IH]; intros s v Hv;
    cbn [run wrap pbind recv_through].
  - exists s, v, []. unfold sent. simpl. rewrite app_nil_r, drop_all. done.
  - exists s, v, []. unfold sent. simpl. rewrite app_nil_r, drop_all. done.
  - unfold sent. simpl. destruct (pop_inbox v) as [r v1] eqn:E.
    pose proof (sv_wire_pop v) as Hw. pose proof (sv_accept_pop v) as Ha. rewrite E in Hw, Ha.
    simpl in Hw, Ha. rewrite <-Hw. apply IH. unfold accepting. by rewrite Ha.
  - rewrite run_bind. destruct (Hf s m v Hv) as (s' & m' & -> & Hm).
    rewrite Hv. unfold sent. cbn [run]. rewrite Hv.
    destruct (IH (Ok tt) s' (push_wire m' v)) as (s2 & v2 & new & -> & Hw & Hn); [done|].
    exists s2, v2, (m' :: new). rewrite Hw. simpl. rewrite <-(assoc_L (++)).
    pose proof (proj1 (run_sent (k (Ok tt)) (push_wire m v) (sv_wire (push_wire m' v)))) as E.
    change (with_wire (sv_wire (push_wire m' v)) (push_wire m v)) with (push_wire m' v) in E.
    rewrite E. split_and!; [done|done|].
    rewrite sent_cons, drop_app_length. constructor; [done|].
    replace (sent (k (Ok tt)) (push_wire m' v)) with (sent (k (Ok tt)) (push_wire m v)) in Hn; [done|].
    change (push_wire m' v) with (with_wire (sv_wire v ++ [m']) (push_wire m v)).
    by rewrite sent_with_wire.
  - by apply IH.
  - by apply (IH s (with_scope sc v)).
  - by apply (IH s (push_log r v)).
  - by apply IH.
  - by apply IH.
  - by apply IH.
  - by apply (IH s (with_context c v)).
  - by apply IH.
Qed.

(** The request is answered by one complete response of status [st]. *)
Definition answered (st : Z) (p : app) (v : server) : Prop :=
  ∃ hs body v', run p v = (Ok tt, v')
    ∧ sv_wire v' = sv_wire v ++ [ResponseStart st hs; ResponseBody body false].

(** Refused whatever the router is, or left to the router: one that is cancelled at once
    tells, since no layer catches a cancellation. *)
Definition decides (o : option Z) (F : app → app) (v : server) : Prop :=
  match o with
  | Some st => ∀ router, answered st (F router) v
  | None => ∃ v', run (F (Raise CancelledError)) v = (Err CancelledError, v')
  end.

Lemma similar_response st hs body new :
  Forall2 similar [ResponseStart st hs; ResponseBody body false] new →
  ∃ hs' body', new = [ResponseStart st hs'; ResponseBody body' false].
Proof.
  intros H. apply Forall2_cons_inv_l in H as (m1 & l1 & H1 & H & ->).
  apply Forall2_cons_inv_l in H as (m2 & l2 & H2 & H & ->). apply Forall2_nil_inv_l in H as ->.
  destruct m1, m2; simpl in *; simplify_eq; eauto.
Qed.

Lemma decides_wrap {S} (on_send : S → message → prog (S * py unit)) (G : S * py unit → app) o F s v :
  forwards on_send → accepting v →
  (∀ s' r u, (run (G (s', r)) u).1 = r ∧ sv_wire (run (G (s', r)) u).2 = sv_wire u) →
  decides o F v → decides o (λ r, pbind (wrap recv_through on_send (F r) s) G) v.
Proof.
  intros Hf Hv HG. unfold decides. destruct o as [st|].
  - intros H router. destruct (H router) as (hs & body & v' & E & Hw).
    destruct (run_wrap_similar on_send (F router) s v Hf Hv) as (s' & v2 & new & E2 & Hw2 & Hn).
    rewrite E in E2. unfold sent in Hn. rewrite E in Hn. simpl in Hn.
    rewrite Hw, drop_app_length in Hn. apply similar_response in Hn as (hs' & body' & ->).
    destruct (HG s' (Ok tt) v2) as [Hr Hw3].
    exists hs', body', (run (G (s', Ok tt)) v2).2. rewrite run_bind, E2. simpl.
    destruct (run (G (s', Ok tt)) v2) as [r v3]. simpl in *. subst r. split; [done|].
    by rewrite Hw3, Hw2.
  - intros [v' E]. destruct (run_wrap_similar on_send (F (Raise CancelledError)) s v Hf Hv)
      as (s' & v2 & new & E2 & _). destruct (HG s' (Err CancelledError) v2) as [Hr _].
    exists (run (G (s', Err CancelledError)) v2).2. rewrite run_bind, E2, E. simpl.
    destruct (run (G (s', Err CancelledError)) v2) as [r v3]. simpl in *. by subst r.
Qed.

Lemma forwards_map f :
  (∀ m, similar m (f m)) → forwards (λ (s : unit) m, Send (f m) (λ r, Ret (s, r))).
Proof. intros Hf s m v Hv. exists s, (f m). simpl. by rewrite Hv. Qed.

Lemma ends_of_result (r : py unit) u :
  (run (of_result r) u).1 = r ∧ sv_wire (run (of_result r) u).2 = sv_wire u.
Proof. by rewrite run_of_result. Qed.

Lemma decides_map_send o F f v :
  (∀ m, similar m (f m)) → accepting v → decides o F v → decides o (λ r, map_send f (F r)) v.
Proof. intros Hf Hv H. apply decides_wrap; [by apply forwards_map|done|intros; apply ends_of_result|done]. Qed.

Lemma similar_on_start f m : similar m (on_start f m).
Proof. by destruct m. Qed.

Lemma similar_without_body m : similar m (without_body m).
Proof. by destruct m. Qed.

Section decisions.
Context `{Starlette}.

Lemma decides_rejecting o F v : decides o F v → decides o (λ r, rejecting (F r)) v.
Proof.
  unfold decides. destruct o as [st|].
  - intros H2 router. destruct (H2 router) as (hs & body & v' & E & Hw).
    exists hs, body, v'. unfold rejecting. by rewrite run_try_except, E.
  - intros [v' E]. exists v'. unfold rejecting. by rewrite run_try_except, E.
Qed.

Lemma answered_rejection st detail v :
  accepting v → answered st (render_rejection (http_error st detail)) v.
Proof.
  intros Hv. unfold answered, render_rejection, http_exception_handler, http_error.
  destruct (st <? 500); simpl; rewrite !Hv; simpl; do 3 eexists;
    (split; [done|]); simpl; by rewrite <-(assoc_L (++)).
Qed.

(** A check that raises the rejection [st], or lets the request through. *)
Lemma decides_check st (c : py unit) o F v :
  accepting v → (∀ e, c = Err e → ∃ d, e = http_error st d) →
  decides o F v →
  decides (if negb (is_ok c) then Some st else o) (λ r, rejecting (_ ← of_result c; F r)) v.
Proof.
  intros Hv Hc HF. destruct c as [[]|e]; simpl.
  - by apply decides_rejecting.
  - destruct (Hc e eq_refl) as [d ->]. intros router. unfold rejecting, answered.
    rewrite run_try_except. by apply answered_rejection.
Qed.

Lemma decides_http o (F G : scope → app → app) v :
  sc_type (sv_scope v) = "http" → decides o (F (sv_scope v)) v →
  decides o (λ r, GetScope (λ s, on_http s (F s r) (G s r))) v.
Proof.
  intros Ht HF. unfold decides, answered, on_http in *. cbn [run]. rewrite Ht. by destruct o.
Qed.

Lemma decides_put o (F : app → app) s v :
  decides o F (with_scope s v) → decides o (λ r, PutScope s (F r)) v.
Proof. by destruct o. Qed.
End decisions.

(** ** The layers of the stack *)
Section layers.
Context `{Starlette}.

Lemma check_preflight_403 mw headers requested e :
  check_preflight mw headers requested = Err e → ∃ d, e = http_error 403 d.
Proof. unfold check_preflight. destruct (_ || _); [|done]. intros [= <-]. by eexists. Qed.

Lemma check_method_405 l s e : check_method l s = Err e → ∃ d, e = http_error 405 d.
Proof. unfold check_method. destruct (negb _); [|done]. intros [= <-]. by eexists. Qed.

Lemma check_content_type_415 mw s headers e :
  extract_headers (sc_headers s) [] = Ok headers →
  check_content_type mw s = Err e → ∃ d, e = http_error 415 d.
Proof.
  unfold check_content_type. intros ->. cbn [mbind result_bind].
  repeat case_match; intros; simplify_eq; by eexists.
Qed.

Lemma check_content_length_413 max_bytes s headers e :
  extract_headers (sc_headers s) [] = Ok headers →
  check_content_length max_bytes s = Err e → ∃ d, e = http_error 413 d.
Proof.
  intros Hh Hc. pose proof (check_content_length_spec max_bytes s) as H1.
  rewrite Hh in H1. specialize (H1 eq_refl).
  destruct (length_ok _ _); [congruence|]. destruct H1 as [d Hd]. exists d. congruence.
Qed.

Lemma check_limits_431 l hs e :
  Forall (λ h, header_name h ≠ "transfer-encoding") hs →
  check_limits l hs = Err e → ∃ d, e = http_error 431 d.
Proof.
  intros Hte Hc. destruct (within_limits_check l hs Hte) as [[_ ?]|[_ [d ?]]]; [congruence|].
  exists d. congruence.
Qed.

(** Below CORS: the body limit, failures and exposure. *)
Lemma decides_body bl ex v headers :
  accepting v → sc_type (sv_scope v) = "http" →
  extract_headers (sc_headers (sv_scope v)) [] = Ok headers →
  decides
    (if negb (is_ok (check_content_length
                       (max_body_bytes (_select_limit bl (sc_path (sv_scope v)))) (sv_scope v)))
     then Some 413 else if reserved ex (sv_scope v) then Some 404 else None)
    (λ r, RequestBodyLimitASGIMiddleware bl
            (RequestErrorASGIMiddleware (OperationalExposureASGIMiddleware ex r))) v.
Proof.
  intros Hv Ht Hh.
  set (max_bytes := max_body_bytes (_select_limit bl (sc_path (sv_scope v)))).
  apply decides_http; [done|]. cbv zeta. fold max_bytes.
  apply decides_check; [done|by intros e; apply (check_content_length_413 _ _ headers)|].
  unfold limit_body, RequestErrorASGIMiddleware, OperationalExposureASGIMiddleware, on_http.
  destruct (reserved ex (sv_scope v)) eqn:Hr; simpl.
  - intros router. unfold answered. simpl. rewrite Ht. simpl. rewrite Ht. simpl. rewrite Hr. simpl.
    rewrite !Hv. simpl. do 3 eexists. split; [done|]. simpl. by rewrite <-(assoc_L (++)).
  - eexists. simpl. rewrite Ht. simpl. rewrite Ht. simpl. rewrite Hr. simpl. done.
Qed.

Lemma forwards_cors : forwards cors_send.
Proof.
  intros u m v Hv. exists u, (apply_cors_response_headers (sv_scope v) m). simpl. rewrite Hv.
  split; [done|]. unfold apply_cors_response_headers. by destruct m, (sc_cors (sv_scope v)).
Qed.

Lemma decides_update o new (F : app → app) v :
  (∀ c, decides o F (with_scope (set_cors c (sv_scope v)) v)) →
  decides o (λ r, response_headers_update new (F r)) v.
Proof.
  intros HF. specialize (HF (Some (update_headers new (default [] (sc_cors (sv_scope v)))))).
  by destruct o.
Qed.

(** The preflight answer, and the router below the policy headers. *)
Lemma decides_cors_rest mw o (F : app → app) v :
  accepting v →
  (∀ c, decides o F (with_scope (set_cors c (sv_scope v)) v)) →
  decides (if String.eqb (sc_method (sv_scope v)) "OPTIONS" then Some 204 else o)
    (λ r, response_headers_update (policy_headers mw)
       (if String.eqb (sc_method (sv_scope v)) "OPTIONS"
        then (_ ← send (ResponseStart 204 (plain_headers 204)); send (ResponseBody "" false))
        else F r)) v.
Proof.
  intros Hv HF. apply decides_update. intros c. destruct (String.eqb _ _); [|done].
  intros router. unfold answered. simpl. rewrite !Hv. simpl. do 3 eexists.
  split; [done|]. simpl. by rewrite <-(assoc_L (++)).
Qed.

Lemma decides_raise st detail v :
  accepting v → decides (Some st) (λ _, rejecting (Raise (http_error st detail))) v.
Proof.
  intros Hv router. unfold rejecting, answered. rewrite run_try_except. by apply answered_rejection.
Qed.

Lemma decides_of_ok o (F : app → app) v :
  decides o F v → decides o (λ r, _ ← of_result (Ok tt : py unit); F r) v.
Proof. by destruct o. Qed.

Lemma decides_run o (F G : app → app) v u :
  (∀ r, run (F r) v = run (G r) u) → sv_wire v = sv_wire u → decides o G u → decides o F v.
Proof.
  intros HF Hw. unfold decides, answered. destruct o as [st|].
  - intros HG r. rewrite HF, Hw. apply HG.
  - intros [v' E]. exists v'. by rewrite HF.
Qed.

Lemma run_rejecting p q v u : run p v = run q u → run (rejecting p) v = run (rejecting q) u.
Proof. intros E. unfold rejecting. by rewrite !run_try_except, E. Qed.

(** The preflight check, and what follows it. *)
Lemma decides_after_origin mw o F v headers requested :
  accepting v →
  (∀ c, decides o F (with_scope (set_cors c (sv_scope v)) v)) →
  requested = present (assoc_get "access-control-request-method" headers) →
  decides (if String.eqb (sc_method (sv_scope v)) "OPTIONS"
           then match requested with
                | Some m => if is_ok (check_preflight mw headers m) then Some 204 else Some 403
                | None => Some 204
                end else o)
    (λ r, rejecting (after_origin mw (sc_method (sv_scope v)) headers (F r))) v.
Proof.
  intros Hv HF ->. pose proof (decides_cors_rest mw o F v Hv HF) as Hrest. unfold after_origin.
  destruct (String.eqb _ _); [|by apply decides_rejecting].
  destruct (present _) as [m|]; [|by apply decides_rejecting].
  pose proof (decides_check 403 (check_preflight mw headers m) _ _ v Hv
    (check_preflight_403 mw headers m) Hrest) as Hc.
  by destruct (is_ok _).
Qed.

Lemma decides_cors `{IpAddress} settings o F v headers :
  accepting v → sc_type (sv_scope v) = "http" →
  extract_headers (sc_headers (sv_scope v)) [] = Ok headers →
  (∀ c, decides o F (with_scope (set_cors c (sv_scope v)) v)) →
  decides (match cors_answer settings (sv_scope v) headers with Some st => Some st | None => o end)
    (λ r, CustomCORSASGIMiddleware (cors settings) (F r)) v.
Proof.
  intros Hv Ht Hh HF. set (mw := cors settings). apply decides_http; [done|]. apply decides_put.
  set (u := with_scope (set_cors (Some []) (sv_scope v)) v).
  apply decides_wrap; [apply forwards_cors|done|intros ? ? ?; by apply ends_of_result|].
  unfold cors_answer. fold mw. cbv zeta. set (origin := assoc_get "origin" headers).
  destruct (_is_allowed_origin mw origin) eqn:Ha; simpl negb; cbv iota.
  2:{ eapply (decides_run _ _ (λ _, rejecting (Raise (http_error 403 _))) _ u); [|done|].
      - intros r. apply run_rejecting. unfold _run_cors_logic. cbn [run]. simpl sc_headers.
        rewrite Hh. cbn [of_result mbind prog_bind pbind]. fold origin. rewrite Ha. done.
      - by apply decides_raise. }
  destruct (present origin) as [og|] eqn:Hp.
  - set (u' := with_scope (set_cors (Some (update_headers [("access-control-allow-origin", og)] []))
                             (sv_scope u)) u).
    eapply (decides_run _ _
      (λ r, rejecting (after_origin mw (sc_method (sv_scope u')) headers (F r))) _ u'); [|done|].
    + intros r. apply run_rejecting. unfold _run_cors_logic. cbn [run]. simpl sc_headers.
      rewrite Hh. cbn [of_result mbind prog_bind pbind]. fold origin. rewrite Ha, Hp. done.
    + pose proof (decides_after_origin mw o F u' headers _ Hv HF eq_refl) as Hd.
      simpl sc_method in *. destruct (String.eqb _ _); [|exact Hd].
      destruct (present (assoc_get "access-control-request-method" headers)) as [m|]; [|exact Hd].
      by destruct (is_ok (check_preflight mw headers m)).
  - eapply (decides_run _ _ (λ r, rejecting (response_headers_update (policy_headers mw)
       (if String.eqb (sc_method (sv_scope u)) "OPTIONS"
        then (_ ← send (ResponseStart 204 (plain_headers 204)); send (ResponseBody "" false))
        else F r))) _ u); [|done|].
    + intros r. apply run_rejecting. unfold _run_cors_logic. cbn [run]. simpl sc_headers.
      rewrite Hh. cbn [of_result mbind prog_bind pbind]. fold origin. rewrite Ha, Hp. done.
    + pose proof (decides_cors_rest mw o F u Hv HF) as Hd. apply decides_rejecting.
      simpl sc_method in *. by destruct (String.eqb _ _).
Qed.
(** *** Around the sanitizer *)
Lemma acceptable_extract hs :
  Forall (λ h, acceptable_header h = true) hs → ∀ acc, ∃ headers, extract_headers hs acc = Ok headers.
Proof.
  induction 1 as [|[n w] hs Hh _ IH]; intros acc; simpl; [by eexists|].
  unfold acceptable_header in Hh. rewrite !andb_true_iff in Hh.
  destruct Hh as ((((Hn & Hw) & _) & _) & _). simpl in *. unfold decode_utf8.
  rewrite !is_ascii_utf8 by done. apply IH.
Qed.

Lemma acceptable_no_transfer hs :
  Forall (λ h, acceptable_header h = true) hs →
  Forall (λ h, header_name h ≠ "transfer-encoding") hs.
Proof.
  intros Hraw. eapply Forall_impl; [exact Hraw|]. intros h Hh Heq.
  unfold acceptable_header in Hh. rewrite Heq in Hh.
  change (mem "transfer-encoding" BLOCKLIST) with true in Hh.
  by rewrite andb_false_r in Hh.
Qed.

Lemma keep_allowed_acceptable allowed hs :
  acceptable hs → Forall (λ h, acceptable_header h = true) (keep_allowed allowed hs).
Proof. intros [Hraw _]. eapply Forall_sublist; [apply sublist_filter|done]. Qed.

(** Below the header limits, on decoded headers. *)
Lemma decides_inner `{IpAddress} settings v headers :
  accepting v → sc_type (sv_scope v) = "http" →
  extract_headers (sc_headers (sv_scope v)) [] = Ok headers →
  decides
    (let s := sv_scope v in
     if negb (is_ok (check_content_type (content_types settings) s)) then Some 415
     else if negb (is_ok (check_method (allowed_methods settings) s)) then Some 405
     else match cors_answer settings s headers with
          | Some st => Some st
          | None =>
              if negb (is_ok (check_content_length
                                (max_body_bytes (_select_limit (body_limit settings) (sc_path s))) s))
              then Some 413
              else if reserved (exposure settings) s then Some 404 else None
          end)
    (inner_stack settings) v.
Proof.
  intros Hv Ht Hh. cbv zeta. unfold inner_stack.
  apply decides_http; [done|].
  apply decides_check; [done|by intros e; apply (check_content_type_415 _ _ headers)|].
  apply decides_http; [done|]. apply decides_check; [done|apply check_method_405|].
  apply decides_cors; [done..|]. intros c.
  by apply (decides_body (body_limit settings) (exposure settings)
              (with_scope (set_cors c (sv_scope v)) v) headers).
Qed.

Lemma decides_limits `{IpAddress} settings v hs :
  accepting v → sc_type (sv_scope v) = "http" → sc_headers (sv_scope v) = hs →
  Forall (λ h, acceptable_header h = true) hs →
  decides
    (if negb (is_ok (check_limits (header_limits settings) hs)) then Some 431
     else refused_inside settings (sv_scope v))
    (λ r, RequestHeaderLimitASGIMiddleware (header_limits settings) (inner_stack settings r)) v.
Proof.
  intros Hv Ht <- Hall. destruct (acceptable_extract _ Hall []) as [headers Hh].
  unfold refused_inside. rewrite Hh.
  apply (decides_run _ _ (λ r, rejecting (_ ← of_result (check_limits (header_limits settings)
      (sc_headers (sv_scope v))); inner_stack settings r)) _ v); [|done|].
  { intros r. cbn [run RequestHeaderLimitASGIMiddleware]. by rewrite Ht. }
  apply decides_check; [done| |by apply decides_inner].
  intros e. by apply check_limits_431, acceptable_no_transfer.
Qed.

Lemma decides_sanitized `{IpAddress} settings v :
  accepting v → sc_type (sv_scope v) = "http" →
  decides (refused_after_rate settings (sv_scope v))
    (λ r, HeaderSanitizationASGIMiddleware (extra_allowed settings)
            (RequestHeaderLimitASGIMiddleware (header_limits settings) (inner_stack settings r))) v.
Proof.
  intros Hv Ht. unfold refused_after_rate. set (hs := sc_headers (sv_scope v)).
  set (allowed := allowed_headers (extra_allowed settings)).
  assert (∀ inner, run (HeaderSanitizationASGIMiddleware (extra_allowed settings) inner) v
    = run (rejecting (cleaned ← of_result (sanitize allowed hs [] []);
        PutScope (set_headers cleaned (sv_scope v)) inner)) v) as Hrun.
  { intros inner. unfold HeaderSanitizationASGIMiddleware. cbn [run]. by rewrite Ht. }
  destruct (sanitize_spec allowed hs [] []) as [(H1 & H2 & H3 & E)|[_ [d E]]].
  - eapply decides_run; [intros r; rewrite Hrun, E; reflexivity|done|].
    rewrite E. apply decides_rejecting. cbn [of_result mbind prog_bind pbind].
    apply decides_put. set (kept := [] ++ keep_allowed allowed hs).
    apply (decides_limits settings (with_scope (set_headers kept (sv_scope v)) v) kept); [done..|].
    apply (keep_allowed_acceptable allowed hs). split; done.
  - eapply decides_run; [intros r; rewrite Hrun, E; reflexivity|done|].
    rewrite E. by apply decides_raise.
Qed.
(** *** The outer layers *)
Lemma decides_rate `{IpAddress} settings o F v :
  accepting v → sc_type (sv_scope v) = "http" →
  is_ok (sv_limit v (get_client_ip (sv_scope v))) = true → decides o F v →
  decides (match rate_refusal (sv_limit v) (sv_scope v) with Some st => Some st | None => o end)
    (λ r, RateLimitASGIMiddleware (rate_policy settings) (F r)) v.
Proof.
  intros Hv Ht Hl HF. apply decides_http; [done|]. unfold rate_refusal.
  destruct (is_favicon _); [done|].
  destruct (sv_limit v (get_client_ip (sv_scope v))) as [d|] eqn:E; [|done].
  eapply decides_run; [intros r; cbn [run]; rewrite E; reflexivity|done|].
  cbn [of_result mbind prog_bind pbind]. destruct (RateLimiter.allowed d); simpl negb; cbv iota.
  - apply decides_map_send; [intros m; apply similar_on_start|done..].
  - intros router. unfold answered, rate_limited, http_exception_handler.
    destruct (_ <? 500); simpl; rewrite !Hv; simpl; do 3 eexists;
      (split; [done|]); simpl; by rewrite <-(assoc_L (++)).
Qed.

Lemma decides_security docs o F v :
  accepting v → sc_type (sv_scope v) = "http" → decides o F v →
  decides o (λ r, SecurityHeadersMiddleware docs (F r)) v.
Proof.
  intros Hv Ht HF. apply decides_http; [done|]. destruct (docs && _); [done|].
  apply decides_map_send; [intros m; apply similar_on_start|done..].
Qed.

Lemma decides_context o F v client port :
  accepting v → sc_type (sv_scope v) = "http" → sc_client (sv_scope v) = Some (client, port) →
  (∀ c, decides o F (with_context c (with_scope (set_ctx c (sv_scope v)) v))) →
  decides o (λ r, RequestContextASGIMiddleware (F r)) v.
Proof.
  intros Hv Ht Hc HF. apply decides_http; [done|].
  set (id := take_str 8 (sv_uuid v)).
  set (ctx := Some (mkContext id (sc_method (sv_scope v)) (sc_path (sv_scope v)) client)).
  apply (decides_run _ _ (λ r, map_send (on_start (λ hs, hs ++ [("x-request-id", id)])) (F r)) _
    (with_context ctx (with_scope (set_ctx ctx (sv_scope v)) v))); [|done|].
  { intros r. cbn [run]. by rewrite Hc. }
  apply decides_map_send; [intros m; apply similar_on_start|done|done].
Qed.

Lemma forwards_through {S} : forwards (@send_through S).
Proof. intros s m v Hv. exists s, m. simpl. rewrite Hv. split; [done|]. by destruct m. Qed.

Lemma decides_cleanup o F v :
  accepting v → decides o F v → decides o (λ r, RequestCleanupASGIMiddleware (F r)) v.
Proof.
  intros Hv HF. apply decides_wrap; [apply forwards_through|done| |done].
  intros s' r u. simpl. by rewrite run_of_result.
Qed.

Lemma decides_head o F v :
  accepting v → decides o F v → decides o (λ r, HeadResponseASGIMiddleware (F r)) v.
Proof.
  intros Hv HF. unfold HeadResponseASGIMiddleware.
  apply (decides_run _ _ (λ r, if negb (String.eqb (sc_type (sv_scope v)) "http")
      || negb (String.eqb (sc_method (sv_scope v)) "HEAD") then F r else map_send without_body (F r))
    _ v); [done|done|].
  destruct (_ || _); [done|]. by apply decides_map_send; [apply similar_without_body|..].
Qed.

(** No refusal depends on the request context. *)
Lemma refused_set_ctx `{IpAddress} settings c s :
  refused_after_rate settings (set_ctx c s) = refused_after_rate settings s.
Proof.
  unfold refused_after_rate, refused_inside. simpl sc_headers.
  destruct (sanitize _ _ _ _) as [hs|]; [|done]. simpl sc_headers.
  destruct (is_ok (check_limits _ _)); [|done]. by destruct (extract_headers hs []).
Qed.

Lemma resolve_proxy_type `{IpAddress} mw s :
  sc_type (resolve_proxy mw s) = sc_type s.
Proof.
  unfold resolve_proxy, apply_forwarding. repeat (case_match; try done).
Qed.
End layers.

(** [C12] Admission to the router: behind the policy layers, whatever the router is, a
    request is answered by one complete response with the status of the first layer that
    refuses it — the rate limit (its own status), a malformed header list (400), header
    budgets (431), content type (415), method (405), CORS (403, or 204 for a preflight),
    declared body size (413), a disabled operational route (404), in that order — and a
    request none refuses reaches the router. *)
Theorem policy_order `{IpAddress} `{Starlette} settings v client port :
  accepting v → sc_type (sv_scope v) = "http" →
  let s := resolve_proxy (proxies settings) (sv_scope v) in
  sc_client s = Some (client, port) →
  is_ok (sv_limit v client) = true →
  decides (refusal settings v) (policy_stack settings) v.
Proof.
  intros Hv Ht s Hc Hl. unfold policy_stack, refusal. fold s.
  assert (sc_type s = "http") as Hs by (by unfold s; rewrite resolve_proxy_type).
  apply decides_head; [done|]. apply decides_cleanup; [done|].
  eapply decides_run; [intros r; cbn [run TrustedProxyASGIMiddleware]; reflexivity|done|].
  fold s. eapply decides_context; [done|done|exact Hc|]. intros c.
  apply decides_security; [done..|].
  rewrite <-(refused_set_ctx settings c s).
  change (rate_refusal (sv_limit v) s) with (rate_refusal (sv_limit v) (set_ctx c s)).
  apply (decides_rate settings (refused_after_rate settings (set_ctx c s)) _
    (with_context c (with_scope (set_ctx c s) (with_scope s v)))); [done|done| |].
  - unfold get_client_ip. simpl. by rewrite Hc.
  - by apply (decides_sanitized settings (with_context c (with_scope (set_ctx c s) (with_scope s v)))).
Qed.

#[local] Existing Instance demo_starlette.
#[local] Existing Instance demo_ip.
Definition demo_settings : AppSettings :=
  mkAppSettings _ (mkExposure false false true)
    (mkRequestBodyLimit default_body_limit []) demo_cors ["GET"; "POST"; "OPTIONS"]
    (mkContentTypes ["application/json"] []) default_header_limits []
    (RateLimiter.mkPolicy 60000 200 10000) (mkTrustedProxy [] 4096 100 8192).

Definition demo_request (method path : string) (hs : list header) (allowed : bool) : server :=
  mkServer [] (λ _, Ok tt) []
    (mkScope "http" method path "" hs (Some ("10.0.0.9", 4000)) "http" None None) [] 7
    "0123456789abcdef"
    (λ _, Ok (RateLimiter.mkDecision allowed (if allowed then None else Some 429) 30)) None.

(** Requests refused by eight layers, and one that reaches the router. *)
Definition demo_requests : list server :=
  [demo_request "GET" "/items" [("X-Forwarded-For", "1.1.1.1")] false;
   demo_request "GET" "/items" [("X-Forwarded-For", "1.1.1.1")] true;
   demo_request "POST" "/items" [("Content-Type", "text/plain")] true;
   demo_request "PUT" "/items" [("Content-Type", "application/json; x=y")] true;
   demo_request "GET" "/items" [("Origin", "https://b.example")] true;
   demo_request "OPTIONS" "/items" [("Origin", "https://a.example")] true;
   demo_request "POST" "/items"
     [("Content-Type", "application/json"); ("Content-Length", "1048577")] true;
   demo_request "GET" "/Docs" [] true;
   demo_request "GET" "/items" [] true].

Lemma policy_order_witness :
  refusal demo_settings <$> demo_requests
    = [Some 429; Some 400; Some 415; Some 405; Some 403; Some 204; Some 413; Some 404; None]
  ∧ Forall (λ v, decides (refusal demo_settings v) (policy_stack demo_settings) v) demo_requests.
Proof.
  split; [vm_compute; reflexivity|].
  repeat (constructor; [apply (policy_order demo_settings _ "10.0.0.9" 4000); by intros|]).
  constructor.
Defined.
