(* ===== verification/DatabasePool.v ===== *)
(** * Bounded admission to the connection pool

    [app/common/handlers/database_pool.py]: [Admission] (permits, a bounded queue of
    waiting futures) and the pool hooks built on it.  The operations between two awaits
    are functions; the awaits, and what may happen during them — cancellation, the
    acquisition deadline, closing — are the events of a step function.  SQLAlchemy's own
    pool only contributes events: a record obtained, a failure, a record returned. *)
From S2P Require Import Prelude.
Open Scope Z_scope.

Definition unavailable (code : string) : exn :=
  HTTPException (DatabaseUnavailableError code) 503 "Database temporarily unavailable." [].

(** ** Admission *)
Inductive future := Pending | Granted | Failed (e : exn) | Cancelled.
#[export] Instance future_eq_dec : EqDecision future.
Proof. solve_decision. Defined.

(** Futures by the identity of the call that created them. *)
Abbreviation futures := (gmap nat future) (only parsing).

Record Admission := mkAdmission {
  limit : Z;
  queue_limit : Z;
  active : Z;
  waiters : list nat;
  closed : bool
}.

Definition new_Admission (l q : Z) : Admission := mkAdmission l q 0 [] false.
Definition set_active (n : Z) (a : Admission) : Admission :=
  mkAdmission (limit a) (queue_limit a) n (waiters a) (closed a).
Definition set_waiters (ws : list nat) (a : Admission) : Admission :=
  mkAdmission (limit a) (queue_limit a) (active a) ws (closed a).

(** [waiter.done()] *)
Definition pending (fs : futures) (f : nat) : bool := bool_decide (fs !! f = Some Pending).

(** What [acquire] does before it first awaits. *)
Inductive entry := Admitted_now | Refused (e : exn) | Waits.

Definition acquire (f : nat) (a : Admission) (fs : futures) : entry * Admission * futures :=
  if closed a then (Refused (unavailable "DB_POOL_CLOSED"), a, fs)
  else if active a <? limit a then (Admitted_now, set_active (active a + 1) a, fs)
  else if queue_limit a <=? Z.of_nat (length (waiters a))
  then (Refused (unavailable "DB_POOL_CAPACITY"), a, fs)
  else (Waits, set_waiters (waiters a ++ [f]) a, <[f := Pending]> fs).

Fixpoint hand_over (ws : list nat) (fs : futures) : option (list nat * futures) :=
  match ws with
  | [] => None
  | f :: ws' => if pending fs f then Some (ws', <[f := Granted]> fs) else hand_over ws' fs
  end.

Definition release (a : Admission) (fs : futures) : Admission * futures :=
  match hand_over (waiters a) fs with
  | Some (ws, fs') => (set_waiters ws a, fs')
  | None => (set_active (active a - 1) (set_waiters [] a), fs)
  end.

(** [self.waiters.remove(waiter)] *)
Fixpoint remove (f : nat) (ws : list nat) : list nat :=
  match ws with
  | [] => []
  | g :: ws' => if decide (f = g) then ws' else g :: remove f ws'
  end.

(** The [except BaseException] of [acquire]; the exception is raised again. *)
Definition acquire_failed (f : nat) (a : Admission) (fs : futures) : Admission * futures :=
  if bool_decide (f ∈ waiters a) then (set_waiters (remove f (waiters a)) a, fs)
  else if bool_decide (fs !! f = Some Granted) then release a fs
  else (a, fs).

Definition close (a : Admission) (fs : futures) : Admission * futures :=
  (mkAdmission (limit a) (queue_limit a) (active a) [] true,
   foldl (λ fs f, if pending fs f then <[f := Failed (unavailable "DB_POOL_CLOSED")]> fs else fs)
     fs (waiters a)).

(** ** The pool *)

(** Where a call of [_acquire_record] is suspended. [Waiting]: on its future, with the
    cancellation it was sent; [Getting]: in the native pool, holding a permit;
    [Discarding]: closing a record obtained after the pool closed. *)
Inductive phase := Waiting (cancelled : option exn) | Getting | Discarding.

Record pool := mkPool {
  admission : Admission;
  futs : futures;
  calls : gmap nat phase;
  leased : gset nat;
  results : gmap nat (py nat)
}.

Definition new_pool (l q : Z) : pool := mkPool (new_Admission l q) ∅ ∅ ∅ ∅.

(** [except TimeoutError] of [_acquire_record]: every other exception propagates. *)
Definition translate (e : exn) : exn :=
  match e with TimeoutError => unavailable "DB_POOL_ACQUIRE_TIMEOUT" | _ => e end.

(** A call ends with an exception, the admission state being [r]. *)
Definition fail (c : nat) (e : exn) (r : Admission * futures) (p : pool) : pool :=
  mkPool r.1 r.2 (delete c (calls p)) (leased p) (<[c := Err (translate e)]> (results p)).

Definition set_phase (c : nat) (ph : phase) (p : pool) : pool :=
  mkPool (admission p) (futs p) (<[c := ph]> (calls p)) (leased p) (results p).

Inductive event :=
| Call (c : nat)                          (* _acquire_record starts *)
| Interrupt (c : nat) (expired : bool)    (* the deadline's or somebody's cancellation *)
| Resume (c : nat)                        (* the task wakes on its future *)
| Obtain (c r : nat)                      (* super()._do_get returned a record *)
| GetFails (c : nat) (e : exn)            (* ... or raised *)
| Discarded (c : nat) (e : option exn)    (* record.close returned, or raised *)
| Return (r : nat)                        (* _do_return_conn *)
| Dispose.

(** The exception a cancellation ends in: the deadline's becomes a [TimeoutError] unless
    the task was also cancelled by somebody else. *)
Definition interrupt (expired : bool) (earlier : option exn) : exn :=
  match earlier with
  | Some CancelledError => CancelledError
  | _ => if expired then TimeoutError else CancelledError
  end.

Definition start_call (c : nat) (p : pool) : pool :=
  let '(r, a, fs) := acquire c (admission p) (futs p) in
  match r with
  | Admitted_now => mkPool a fs (<[c := Getting]> (calls p)) (leased p) (results p)
  | Refused e => fail c e (a, fs) p
  | Waits => mkPool a fs (<[c := Waiting None]> (calls p)) (leased p) (results p)
  end.

(** What the awaiting task sees when it runs again, its future being done. *)
Definition wakes_with (cancelled : option exn) (f : future) : py unit :=
  match cancelled, f with
  | Some e, _ => Err e
  | None, Granted => Ok tt
  | None, Failed e => Err e
  | None, _ => Err CancelledError
  end.

Definition resume (c : nat) (cancelled : option exn) (f : future) (p : pool) : pool :=
  match wakes_with cancelled f with
  | Ok _ => set_phase c Getting p
  | Err e => fail c e (acquire_failed c (admission p) (futs p)) p
  end.

Definition obtain (c r : nat) (p : pool) : pool :=
  if closed (admission p) then set_phase c Discarding p
  else mkPool (admission p) (futs p) (delete c (calls p)) (leased p ∪ {[r]})
         (<[c := Ok r]> (results p)).

Definition give_back (c : nat) (e : exn) (p : pool) : pool :=
  fail c e (release (admission p) (futs p)) p.

Definition _do_return_conn (r : nat) (p : pool) : pool :=
  if bool_decide (r ∈ leased p)
  then let '(a, fs) := release (admission p) (futs p) in
       mkPool a fs (calls p) (leased p ∖ {[r]}) (results p)
  else p.

Definition dispose (p : pool) : pool :=
  let '(a, fs) := close (admission p) (futs p) in mkPool a fs (calls p) (leased p) (results p).

Definition step (e : event) (p : pool) : option pool :=
  match e with
  | Call c =>
      if bool_decide (calls p !! c = None ∧ futs p !! c = None ∧ results p !! c = None)
      then Some (start_call c p) else None
  | Interrupt c expired =>
      match calls p !! c with
      | Some (Waiting x) =>
          let fs := if pending (futs p) c then <[c := Cancelled]> (futs p) else futs p in
          Some (mkPool (admission p) fs (<[c := Waiting (Some (interrupt expired x))]> (calls p))
                  (leased p) (results p))
      | _ => None
      end
  | Resume c =>
      match calls p !! c, futs p !! c with
      | Some (Waiting x), Some f => if pending (futs p) c then None else Some (resume c x f p)
      | _, _ => None
      end
  | Obtain c r =>
      match calls p !! c with
      | Some Getting => if bool_decide (r ∈ leased p) then None else Some (obtain c r p)
      | _ => None
      end
  | GetFails c e =>
      match calls p !! c with Some Getting => Some (give_back c e p) | _ => None end
  | Discarded c e =>
      match calls p !! c with
      | Some Discarding => Some (give_back c (default (unavailable "DB_POOL_CLOSED") e) p)
      | _ => None
      end
  | Return r => Some (_do_return_conn r p)
  | Dispose => Some (dispose p)
  end.

(** [recreate]: a fresh admission with the same limits. *)
Definition recreate (p : pool) : pool :=
  new_pool (limit (admission p)) (queue_limit (admission p)).

Fixpoint run_events (es : list event) (p : pool) : option pool :=
  match es with
  | [] => Some p
  | e :: es' => match step e p with Some p' => run_events es' p' | None => None end
  end.

Definition reachable (l q : Z) (p : pool) : Prop := ∃ es, run_events es (new_pool l q) = Some p.
