(* ===== verification/DatabasePoolFacts.v ===== *)
(** * What bounded admission guarantees

    The accounting invariant of [DatabasePool.v], under every interleaving of calls,
    cancellations, deadlines, failures, returns and closing; and that waiting calls are
    served in their order. *)
From S2P Require Import Prelude DatabasePool.
Open Scope Z_scope.

(** A call that holds a permit: between being granted one and giving it back. *)
Definition holds (cs : gmap nat phase) (fs : futures) (c : nat) : Prop :=
  match cs !! c with
  | Some (Waiting _) => fs !! c = Some Granted
  | Some _ => True
  | None => False
  end.

(** The invariant; [k] permits are in the hands of code that is about to release them. *)
Record ok (k : Z) (a : Admission) (fs : futures) (cs : gmap nat phase) (L : gset nat) : Prop := {
  ok_holders : ∃ H : gset nat,
    (∀ c, c ∈ H ↔ holds cs fs c) ∧ active a = Z.of_nat (size H) + Z.of_nat (size L) + k;
  ok_limit : active a ≤ limit a;
  ok_nodup : NoDup (waiters a);
  ok_waiters c : c ∈ waiters a → ∃ x, cs !! c = Some (Waiting x) ∧
    (fs !! c = Some Pending ∧ x = None ∨ fs !! c = Some Cancelled);
  ok_pending c : fs !! c = Some Pending → c ∈ waiters a;
  ok_waiting c x : cs !! c = Some (Waiting x) → is_Some (fs !! c);
  ok_busy c : fs !! c = Some Pending → active a = limit a;
  ok_closed : closed a = true → waiters a = [];
  ok_queue : Z.of_nat (length (waiters a)) ≤ Z.max 0 (queue_limit a)
}.

Definition pool_ok (p : pool) : Prop := ok 0 (admission p) (futs p) (calls p) (leased p).

Lemma pending_true fs f : pending fs f = true ↔ fs !! f = Some Pending.
Proof. unfold pending. apply bool_decide_eq_true. Qed.

Lemma hand_over_spec ws fs :
  match hand_over ws fs with
  | Some (ws', fs') => ∃ pre f, ws = pre ++ f :: ws'
      ∧ Forall (λ g, fs !! g ≠ Some Pending) pre ∧ fs !! f = Some Pending
      ∧ fs' = <[f := Granted]> fs
  | None => Forall (λ g, fs !! g ≠ Some Pending) ws
  end.
Proof.
  induction ws as [|g ws IH]; simpl; [constructor|].
  destruct (pending fs g) eqn:Hg.
  - apply pending_true in Hg. exists [], g. split_and!; [done|constructor|done|done].
  - assert (fs !! g ≠ Some Pending) as Hn by (rewrite <-pending_true; congruence).
    destruct (hand_over ws fs) as [[ws' fs']|]; [|by constructor].
    destruct IH as (pre & f & -> & Hpre & Hf & ->).
    exists (g :: pre), f. split_and!; [done|by constructor|done|done].
Qed.

Lemma holds_waiting_granted cs fs f x :
  cs !! f = Some (Waiting x) → fs !! f ≠ Some Granted → ∀ c,
  holds cs (<[f := Granted]> fs) c ↔ c = f ∨ holds cs fs c.
Proof.
  intros Hf Hn c. unfold holds. destruct (decide (c = f)) as [->|Hc].
  - rewrite Hf, lookup_insert_eq. naive_solver.
  - rewrite lookup_insert_ne by done. naive_solver.
Qed.

(** The permit goes to the oldest call still waiting, or back. *)
Lemma ok_release a fs cs L :
  ok 1 a fs cs L → ok 0 (release a fs).1 (release a fs).2 cs L.
Proof.
  intros [(H & HH & Ha) Hl Hnd Hw Hp Hwt Hb Hc Hq]. unfold release.
  pose proof (hand_over_spec (waiters a) fs) as Hs.
  destruct (hand_over (waiters a) fs) as [[ws fs']|]; simpl.
  - destruct Hs as (pre & f & Hws & Hpre & Hf & ->). rewrite Hws in *.
    destruct (Hw f) as (x & Hcf & _); [set_solver|].
    assert (¬ holds cs fs f) as Hnh by (unfold holds; rewrite Hcf; congruence).
    apply NoDup_app in Hnd as (_ & Hdisj & Hnd). apply NoDup_cons in Hnd as [Hfws Hnd].
    split; simpl.
    + exists ({[f]} ∪ H). split.
      * intros c. rewrite (holds_waiting_granted cs fs f x), elem_of_union, elem_of_singleton, HH;
          [done|done|congruence].
      * rewrite size_union by (rewrite <-HH in Hnh; set_solver). rewrite size_singleton. lia.
    + done.
    + done.
    + intros c Hin. destruct (Hw c) as (y & Hy & Hcase); [set_solver|]. exists y. split; [done|].
      rewrite lookup_insert_ne; [done|]. intros ->. done.
    + intros c Hpc. destruct (decide (c = f)) as [->|Hne]; [by rewrite lookup_insert_eq in Hpc|].
      rewrite lookup_insert_ne in Hpc by done. pose proof (Hp c Hpc) as Hin.
      rewrite Forall_forall in Hpre. set_solver.
    + intros c y Hy. destruct (decide (c = f)) as [->|Hne]; [by rewrite lookup_insert_eq|].
      rewrite lookup_insert_ne by done. eauto.
    + intros c Hpc. by apply (Hb f).
    + intros Hcl. specialize (Hc Hcl). by destruct pre.
    + rewrite length_app in Hq. simpl in Hq. lia.
  - rewrite Forall_forall in Hs.
    assert (∀ c, fs !! c ≠ Some Pending) as Hnone by (intros c Hpc; by apply (Hs c (Hp c Hpc))).
    split; simpl; try done.
    + exists H. split; [done|lia].
    + lia.
    + constructor.
    + intros c Hin. by apply elem_of_nil in Hin.
    + intros c Hpc. by apply Hnone in Hpc.
    + intros c Hpc. by apply Hnone in Hpc.
    + lia.
Qed.

Lemma ok_holder_not_waiting k a fs cs L c :
  ok k a fs cs L → holds cs fs c → c ∉ waiters a.
Proof.
  intros Hok Hh Hin. destruct (ok_waiters _ _ _ _ _ Hok c Hin) as (x & Hx & Hcase).
  unfold holds in Hh. rewrite Hx in Hh. destruct Hcase as [[? _]|?]; congruence.
Qed.

Lemma holds_delete cs fs c d : holds (delete c cs) fs d ↔ d ≠ c ∧ holds cs fs d.
Proof.
  unfold holds. destruct (decide (d = c)) as [->|Hne].
  - rewrite lookup_delete_eq. naive_solver.
  - rewrite lookup_delete_ne by done. naive_solver.
Qed.

Lemma ok_forget k a fs cs L c (h : Z) :
  ok k a fs cs L → c ∉ waiters a →
  (holds cs fs c ∧ h = 1 ∨ ¬ holds cs fs c ∧ h = 0) → ok (k + h) a fs (delete c cs) L.
Proof.
  intros [(H & HH & Ha) Hl Hnd Hw Hp Hwt Hb Hc Hq] Hcw Hh. split; try done.
  - exists (H ∖ {[c]}). split.
    + intros d. rewrite holds_delete, elem_of_difference, not_elem_of_singleton, HH. tauto.
    + destruct Hh as [[Hh ->]|[Hh ->]].
      * assert (c ∈ H) as Hin by (by apply HH).
        assert (size H = S (size (H ∖ {[c]}))) as E.
        { rewrite (union_difference_L {[c]} H) at 1 by set_solver.
          rewrite size_union by set_solver. by rewrite size_singleton. }
        lia.
      * rewrite difference_disjoint_L; [lia|]. rewrite <-HH in Hh. set_solver.
  - intros d Hd. rewrite lookup_delete_ne by set_solver. auto.
  - intros d x. rewrite lookup_delete_Some. intros [_ ?]. eauto.
Qed.

(** A new phase for a call, its future being [f]. *)
Lemma ok_set_phase k a fs cs L c ph :
  ok k a fs cs L → c ∉ waiters a → (∀ x, ph ≠ Waiting x) → holds cs fs c →
  ok k a fs (<[c := ph]> cs) L.
Proof.
  intros [(H & HH & Ha) Hl Hnd Hw Hp Hwt Hb Hc Hq] Hcw Hph Hh. split; try done.
  - exists H. split; [|done]. intros d. rewrite HH. unfold holds.
    destruct (decide (d = c)) as [->|Hne]; [|by rewrite lookup_insert_ne].
    rewrite lookup_insert_eq. fold (holds cs fs c). destruct ph; naive_solver.
  - intros d Hd. rewrite lookup_insert_ne by set_solver. auto.
  - intros d x. rewrite lookup_insert_Some. intros [[_ ?]|[_ ?]]; [by apply Hph in H0|eauto].
Qed.

Lemma remove_spec c ws : NoDup ws → ∀ d, d ∈ remove c ws ↔ d ∈ ws ∧ d ≠ c.
Proof.
  induction 1 as [|g ws Hg Hws IH]; intros d; simpl; [set_solver|].
  case_decide; subst; rewrite ?elem_of_cons, ?IH; [|naive_solver].
  split; [intros Hin; split; [by right|by intros ->]|naive_solver].
Qed.

Lemma remove_sublist c ws : sublist (remove c ws) ws.
Proof. induction ws as [|g ws IH]; simpl; [constructor|]. case_decide; by constructor. Qed.

Lemma ok_remove k a fs cs L c :
  ok k a fs cs L → c ∈ waiters a → fs !! c ≠ Some Pending →
  ok k (set_waiters (remove c (waiters a)) a) fs cs L.
Proof.
  intros [(H & HH & Ha) Hl Hnd Hw Hp Hwt Hb Hc Hq] Hin Hn.
  pose proof (remove_spec c _ Hnd) as Hr. pose proof (remove_sublist c (waiters a)) as Hs.
  split; simpl; try done.
  - by exists H.
  - by eapply sublist_NoDup.
  - intros d [? ?]%Hr. auto.
  - intros d Hd. apply Hr. split; [auto|by intros ->].
  - intros Hcl. rewrite (Hc Hcl) in Hin. set_solver.
  - apply sublist_length in Hs. lia.
Qed.

(** [acquire] gives up: whatever had been granted is handed on. *)
Lemma ok_acquire_failed a fs cs L c x :
  ok 0 a fs cs L → cs !! c = Some (Waiting x) → fs !! c ≠ Some Pending →
  ok 0 (acquire_failed c a fs).1 (acquire_failed c a fs).2 (delete c cs) L.
Proof.
  intros Hok Hc Hn. unfold acquire_failed. case_bool_decide as Hin; simpl.
  - destruct (ok_waiters _ _ _ _ _ Hok c Hin) as (y & _ & Hcase).
    assert (¬ holds cs fs c) as Hh by (unfold holds; rewrite Hc; destruct Hcase as [[? _]|?]; congruence).
    apply (ok_forget 0 _ _ _ _ c 0); [by apply ok_remove| |by right].
    simpl. intros [_ ?]%(remove_spec c _ (ok_nodup _ _ _ _ _ Hok)). done.
  - assert (∀ h, (holds cs fs c ∧ h = 1 ∨ ¬ holds cs fs c ∧ h = 0) →
      ok (0 + h) a fs (delete c cs) L) as Hf by (intros h; by apply ok_forget).
    case_bool_decide as Hg; [apply ok_release|]; apply Hf; unfold holds; rewrite Hc; auto.
Qed.

Lemma lookup_close fs ws c :
  (foldl (λ fs f, if pending fs f then <[f := Failed (unavailable "DB_POOL_CLOSED")]> fs else fs) fs ws
     : futures) !! c
  = if bool_decide (c ∈ ws ∧ fs !! c = Some Pending)
    then Some (Failed (unavailable "DB_POOL_CLOSED")) else fs !! c.
Proof.
  revert fs. induction ws as [|g ws IH]; intros fs; cbn [foldl].
  { by rewrite bool_decide_false by (by intros [?%elem_of_nil _]). }
  rewrite IH. destruct (pending fs g) eqn:Hg; [|].
  - apply pending_true in Hg. destruct (decide (c = g)) as [->|Hne].
    + rewrite lookup_insert_eq, (bool_decide_true (g ∈ g :: ws ∧ _)) by (split; [left|done]).
      by destruct (bool_decide _).
    + rewrite lookup_insert_ne by done.
      rewrite (bool_decide_ext (c ∈ g :: ws ∧ _) (c ∈ ws ∧ fs !! c = Some Pending)); [done|].
      rewrite elem_of_cons. naive_solver.
  - rewrite (bool_decide_ext (c ∈ g :: ws ∧ _) (c ∈ ws ∧ fs !! c = Some Pending)); [done|].
    rewrite elem_of_cons. split; [|naive_solver].
    intros [[->|?] Hp]; [|done]. apply pending_true in Hp. congruence.
Qed.

Lemma ok_close a fs cs L :
  ok 0 a fs cs L → ok 0 (close a fs).1 (close a fs).2 cs L.
Proof.
  intros [(H & HH & Ha) Hl Hnd Hw Hp Hwt Hb Hc Hq]. unfold close. split; simpl; try done.
  - exists H. split; [|done]. intros c. rewrite HH. unfold holds.
    destruct (cs !! c) as [[]|]; [|done..]. rewrite lookup_close. case_bool_decide; naive_solver.
  - constructor.
  - intros c Hin. by apply elem_of_nil in Hin.
  - intros c. rewrite lookup_close. case_bool_decide as Hb'; [done|].
    intros Hpc. exfalso. apply Hb'. auto.
  - intros c x Hx. rewrite lookup_close. case_bool_decide; eauto.
  - intros c. rewrite lookup_close. case_bool_decide as Hb'; [done|].
    intros Hpc. exfalso. apply Hb'. auto.
  - lia.
Qed.

Lemma ok_interrupt k a fs cs L c x y :
  ok k a fs cs L → cs !! c = Some (Waiting x) →
  ok k a (if pending fs c then <[c := Cancelled]> fs else fs) (<[c := Waiting (Some y)]> cs) L.
Proof.
  intros [(H & HH & Ha) Hl Hnd Hw Hp Hwt Hb Hc Hq] Hcx.
  set (fs' := if pending fs c then _ else _).
  assert (∀ d, d ≠ c → fs' !! d = fs !! d) as Hfs
    by (intros d Hd; unfold fs'; destruct (pending fs c); [by rewrite lookup_insert_ne|done]).
  assert (fs' !! c = if pending fs c then Some Cancelled else fs !! c) as Hfc
    by (unfold fs'; destruct (pending fs c); [by rewrite lookup_insert_eq|done]).
  assert (∀ d, fs' !! d = Some Pending → d ≠ c ∧ fs !! d = Some Pending) as Hpend.
  { intros d Hd. destruct (decide (d = c)) as [->|Hne]; [|by rewrite Hfs in Hd].
    rewrite Hfc in Hd. destruct (pending fs c) eqn:E; [done|].
    apply pending_true in Hd. congruence. }
  split; try done.
  - exists H. split; [|done]. intros d. rewrite HH. unfold holds.
    destruct (decide (d = c)) as [->|Hne]; [|by rewrite lookup_insert_ne, Hfs].
    rewrite lookup_insert_eq, Hcx, Hfc. destruct (pending fs c) eqn:E; [|done].
    apply pending_true in E. by rewrite E.
  - intros d Hd. destruct (Hw d Hd) as (z & Hz & Hcase).
    destruct (decide (d = c)) as [->|Hne]; [|rewrite lookup_insert_ne, Hfs by done; eauto].
    rewrite lookup_insert_eq, Hfc. exists (Some y). split; [done|right].
    destruct (pending fs c) eqn:E; [done|]. destruct Hcase as [[Hpc _]|?]; [|done].
    apply pending_true in Hpc. congruence.
  - intros d [_ ?]%Hpend. auto.
  - intros d z. destruct (decide (d = c)) as [->|Hne].
    + intros _. rewrite Hfc. destruct (pending fs c); eauto.
    + rewrite lookup_insert_ne, Hfs by done. eauto.
  - intros d [_ ?]%Hpend. eauto.
Qed.

Lemma ok_unlease a fs cs L r :
  ok 0 a fs cs L → r ∈ L → ok 1 a fs cs (L ∖ {[r]}).
Proof.
  intros [(H & HH & Ha) Hl Hnd Hw Hp Hwt Hb Hc Hq] Hr. split; try done.
  exists H. split; [done|].
  assert (size L = S (size (L ∖ {[r]}))) as E.
  { rewrite (union_difference_L {[r]} L) at 1 by set_solver.
    rewrite size_union by set_solver. by rewrite size_singleton. }
  lia.
Qed.

Lemma ok_lease a fs cs L r :
  ok 1 a fs cs L → r ∉ L → ok 0 a fs cs (L ∪ {[r]}).
Proof.
  intros [(H & HH & Ha) Hl Hnd Hw Hp Hwt Hb Hc Hq] Hr. split; try done.
  exists H. split; [done|]. rewrite size_union, size_singleton by set_solver. lia.
Qed.

(** A call of [_acquire_record] starts. *)
Lemma ok_start_call c p :
  pool_ok p → calls p !! c = None → futs p !! c = None → pool_ok (start_call c p).
Proof.
  intros Hok Hc Hf. pose proof Hok as [(H & HH & Ha) Hl Hnd Hw Hp Hwt Hb Hcl Hq].
  assert (c ∉ waiters (admission p)) as Hcw.
  { intros Hin. destruct (Hw c Hin) as (x & ? & _). congruence. }
  assert (¬ holds (calls p) (futs p) c) as Hnh by (unfold holds; rewrite Hc; tauto).
  unfold start_call, acquire.
  destruct (closed (admission p)) eqn:Hclosed; [|destruct (Z.ltb_spec (active (admission p)) (limit (admission p))) as [Hlt|Hge];
    [|destruct (Z.leb_spec (queue_limit (admission p)) (Z.of_nat (length (waiters (admission p)))))]].
  - unfold pool_ok, fail. simpl. by rewrite delete_id.
  - split; simpl; try done.
    + exists ({[c]} ∪ H). split.
      * intros d. rewrite elem_of_union, elem_of_singleton, HH. unfold holds.
        destruct (decide (d = c)) as [->|Hne]; [rewrite lookup_insert_eq; naive_solver|].
        rewrite lookup_insert_ne by done. naive_solver.
      * rewrite size_union, size_singleton by (rewrite <-HH in Hnh; set_solver). lia.
    + lia.
    + intros d Hd. rewrite lookup_insert_ne by set_solver. auto.
    + intros d x. rewrite lookup_insert_Some. intros [[_ ?]|[_ ?]]; [done|eauto].
    + intros d Hd%Hb. lia.
    + congruence.
  - unfold pool_ok, fail. simpl. by rewrite delete_id.
  - split; simpl; try done.
    + exists H. split; [|done]. intros d. rewrite HH. unfold holds.
      destruct (decide (d = c)) as [->|Hne]; [|by rewrite !lookup_insert_ne].
      rewrite Hc, !lookup_insert_eq. naive_solver.
    + apply NoDup_app. split_and!; [done|set_solver|apply NoDup_singleton].
    + intros d [Hd|Hd%list_elem_of_singleton]%elem_of_app.
      * rewrite !lookup_insert_ne by set_solver. auto.
      * subst d. rewrite !lookup_insert_eq. eauto.
    + intros d. destruct (decide (d = c)) as [->|Hne]; [set_solver|].
      rewrite lookup_insert_ne by done. set_solver.
    + intros d x. destruct (decide (d = c)) as [->|Hne]; [rewrite !lookup_insert_eq; eauto|].
      rewrite !lookup_insert_ne by done. eauto.
    + intros d _. lia.
    + congruence.
    + rewrite length_app. simpl. lia.
Qed.

Lemma ok_give_back c e p ph :
  pool_ok p → calls p !! c = Some ph → (∀ x, ph ≠ Waiting x) → pool_ok (give_back c e p).
Proof.
  intros Hok Hc Hph. assert (holds (calls p) (futs p) c) as Hh.
  { unfold holds. rewrite Hc. destruct ph as [x| |]; [by destruct (Hph x)|done..]. }
  apply ok_release. apply (ok_forget 0 _ _ _ _ c 1); [done| |by left].
  by eapply ok_holder_not_waiting.
Qed.

Lemma pool_step_ok e p p' : step e p = Some p' → pool_ok p → pool_ok p'.
Proof.
  intros Hs Hok. destruct e as [c|c expired|c|c r|c e|c e|r|]; simpl in Hs.
  - case_bool_decide as Hf; simplify_eq. destruct Hf as (? & ? & ?). by apply ok_start_call.
  - destruct (calls p !! c) as [[x| |]|] eqn:Hc; simplify_eq. by eapply ok_interrupt.
  - destruct (calls p !! c) as [[x| |]|] eqn:Hc; simplify_eq.
    destruct (futs p !! c) as [f|] eqn:Hf; simplify_eq.
    destruct (pending (futs p) c) eqn:Hp; simplify_eq.
    assert (futs p !! c ≠ Some Pending) as Hn by (rewrite <-pending_true; congruence).
    unfold resume. destruct (wakes_with x f) as [[]|e] eqn:E.
    + destruct x; simpl in E; [done|]. destruct f; try done.
      assert (holds (calls p) (futs p) c) as Hh by (unfold holds; by rewrite Hc).
      apply ok_set_phase; [done| |done|done]. by eapply ok_holder_not_waiting.
    + by eapply ok_acquire_failed.
  - destruct (calls p !! c) as [[x| |]|] eqn:Hc; simplify_eq.
    case_bool_decide as Hr; simplify_eq.
    assert (holds (calls p) (futs p) c) as Hh by (unfold holds; by rewrite Hc).
    pose proof (ok_holder_not_waiting _ _ _ _ _ _ Hok Hh) as Hw. unfold obtain.
    destruct (closed _); [by apply ok_set_phase|]. apply ok_lease; [|done].
    apply (ok_forget 0 _ _ _ _ c 1); [done..|by left].
  - destruct (calls p !! c) as [[x| |]|] eqn:Hc; simplify_eq. by eapply ok_give_back.
  - destruct (calls p !! c) as [[x| |]|] eqn:Hc; simplify_eq. by eapply ok_give_back.
  - simplify_eq. unfold _do_return_conn. case_bool_decide as Hr; [|done].
    pose proof (ok_release _ _ _ _ (ok_unlease _ _ _ _ _ Hok Hr)) as Hrel.
    by destruct (release (admission p) (futs p)).
  - simplify_eq. unfold dispose. pose proof (ok_close _ _ _ _ Hok) as Hcl.
    by destruct (close (admission p) (futs p)).
Qed.

Lemma new_pool_ok l q : 0 ≤ l → pool_ok (new_pool l q).
Proof.
  intros Hl. split; simpl; try done.
  - exists ∅. split; [|done]. intros c. unfold holds. rewrite lookup_empty. set_solver.
  - constructor.
  - intros c Hin. by apply elem_of_nil in Hin.
  - lia.
Qed.

(** The limits never change. *)
Definition limits (p : pool) : Z * Z := (limit (admission p), queue_limit (admission p)).

Lemma release_limits a fs :
  limit (release a fs).1 = limit a ∧ queue_limit (release a fs).1 = queue_limit a.
Proof. unfold release. by destruct (hand_over _ _) as [[]|]. Qed.

Lemma acquire_failed_limits c a fs :
  limit (acquire_failed c a fs).1 = limit a ∧ queue_limit (acquire_failed c a fs).1 = queue_limit a.
Proof. unfold acquire_failed. repeat case_bool_decide; auto using release_limits. Qed.

Lemma step_limits e p p' : step e p = Some p' → limits p' = limits p.
Proof.
  intros Hs. destruct e; simpl in Hs; repeat case_match; simplify_eq; try done.
  - unfold start_call, acquire. destruct (closed _); [done|].
    destruct (Z.ltb _ _); [done|]. by destruct (Z.leb _ _).
  - unfold resume, limits. case_match; [done|]. simpl.
    by destruct (acquire_failed_limits c (admission p) (futs p)) as [-> ->].
  - unfold obtain. by case_match.
  - unfold give_back, fail, limits. simpl. by destruct (release_limits (admission p) (futs p)) as [-> ->].
  - unfold give_back, fail, limits. simpl. by destruct (release_limits (admission p) (futs p)) as [-> ->].
  - unfold _do_return_conn, limits. case_bool_decide; [|done].
    destruct (release_limits (admission p) (futs p)) as [Hl Hq].
    destruct (release _ _). simpl in *. by rewrite Hl, Hq.
Qed.

Lemma run_events_ok es p p' :
  run_events es p = Some p' → pool_ok p → pool_ok p' ∧ limits p' = limits p.
Proof.
  revert p. induction es as [|e es IH]; intros p; simpl; [by intros [= ->]|].
  destruct (step e p) as [p1|] eqn:Hs; [|done]. intros Hr Hok.
  destruct (IH p1 Hr (pool_step_ok _ _ _ Hs Hok)) as [? ->]. split; [done|]. by eapply step_limits.
Qed.

Lemma pool_reachable_ok l q p :
  0 ≤ l → reachable l q p → pool_ok p ∧ limit (admission p) = l ∧ queue_limit (admission p) = q.
Proof.
  intros Hl [es Hr]. destruct (run_events_ok _ _ _ Hr (new_pool_ok l q Hl)) as [Hok Hlim].
  split; [done|]. by injection Hlim.
Qed.

(** [C26] The pool never lends more connections than its limit: under every interleaving,
    the permits in use are exactly the calls that hold one and the leased connections,
    they never exceed the limit, and the queue never exceeds its own; a call waits only
    while the pool is open and all permits are in use; and when every call has ended and
    every connection has been returned, no permit is in use and no waiter is left. *)
Theorem pool_admission_bounded l q p :
  0 ≤ l → reachable l q p →
  (∃ H : gset nat, (∀ c, c ∈ H ↔ holds (calls p) (futs p) c)
     ∧ active (admission p) = Z.of_nat (size H) + Z.of_nat (size (leased p))) ∧
  active (admission p) ≤ l ∧
  Z.of_nat (length (waiters (admission p))) ≤ Z.max 0 q ∧
  (∀ c, futs p !! c = Some Pending → active (admission p) = l ∧ closed (admission p) = false) ∧
  (calls p = ∅ → leased p = ∅ → active (admission p) = 0 ∧ waiters (admission p) = []).
Proof.
  intros Hl (Hok & Hlim & Hq)%pool_reachable_ok; [|done]. destruct Hok as [(H & HH & Ha)].
  rewrite Hlim, Hq in *. split; [exists H; split; [done|lia]|]. split; [done|]. split; [done|]. split.
  - intros c Hc. split; [eauto|]. destruct (closed _) eqn:E; [|done].
    pose proof (ok_pending0 c Hc) as Hin. rewrite ok_closed0 in Hin by done. by apply elem_of_nil in Hin.
  - intros Hc HL. rewrite HL, size_empty in Ha. assert (H = ∅) as ->.
    { apply elem_of_equiv_empty_L. intros c. rewrite HH, Hc. unfold holds. rewrite lookup_empty. set_solver. }
    rewrite size_empty in Ha. split; [lia|].
    destruct (waiters (admission p)) as [|c ws]; [done|].
    destruct (ok_waiters0 c) as (x & Hx & _); [left|]. by rewrite Hc, lookup_empty in Hx.
Qed.

(** Two permits: two calls admitted, a third waits, the fourth is refused; the third is
    granted the first's permit and then cancelled, so the permit goes back. *)
Definition demo_events : list event :=
  [Call 1; Call 2; Call 3; Call 4; Obtain 1 11; Return 11; Interrupt 3 false; Resume 3; Obtain 2 12].

Lemma pool_admission_bounded_witness :
  match run_events demo_events (new_pool 2 1) with
  | Some p => active (admission p) ≤ 2 ∧ active (admission p) = 1
      ∧ results p !! 4%nat = Some (Err (unavailable "DB_POOL_CAPACITY"))
      ∧ results p !! 3%nat = Some (Err CancelledError)
  | None => False
  end.
Proof.
  destruct (run_events demo_events (new_pool 2 1)) as [p|] eqn:E; [|vm_compute in E; discriminate].
  split.
  - apply (proj1 (proj2 (pool_admission_bounded 2 1 p ltac:(lia) (ex_intro _ demo_events E)))).
  - vm_compute in E. injection E as <-. vm_compute. auto.
Defined.

(** ** Waiting calls are served in order *)

(** How many calls still waiting are ahead of [c]. *)
Fixpoint ahead (c : nat) (fs : futures) (ws : list nat) : nat :=
  match ws with
  | [] => 0
  | g :: ws' => if decide (g = c) then 0 else (if pending fs g then 1 else 0) + ahead c fs ws'
  end%nat.

(** The events in which a permit is given back. *)
Definition gives_back (e : event) (p : pool) : bool :=
  match e with
  | GetFails _ _ | Discarded _ _ => true
  | Return r => bool_decide (r ∈ leased p)
  | Resume c =>
      match calls p !! c with
      | Some (Waiting (Some _)) => bool_decide (futs p !! c = Some Granted)
      | _ => false
      end
  | _ => false
  end.

Fixpoint given_back (es : list event) (p : pool) : nat :=
  match es with
  | [] => 0
  | e :: es' => (if gives_back e p then 1 else 0)
                + match step e p with Some p' => given_back es' p' | None => 0 end
  end%nat.

(** A future that is done stays as it is. *)
Definition settled (fs fs' : futures) : Prop :=
  ∀ c f, fs !! c = Some f → f ≠ Pending → fs' !! c = Some f.

Lemma settled_insert fs c f :
  fs !! c = None ∨ fs !! c = Some Pending → settled fs (<[c := f]> fs).
Proof.
  intros Hc d g Hd Hg. rewrite lookup_insert_ne; [done|]. intros ->. destruct Hc; congruence.
Qed.

Lemma settled_release a fs : settled fs (release a fs).2.
Proof.
  unfold release. pose proof (hand_over_spec (waiters a) fs) as Hs.
  destruct (hand_over _ _) as [[ws fs']|]; [|by intros c f].
  destruct Hs as (pre & f & _ & _ & Hf & ->). apply settled_insert. auto.
Qed.

Lemma step_settled e p p' : step e p = Some p' → settled (futs p) (futs p').
Proof.
  intros Hs. destruct e as [c|c expired|c|c r|c e|c e|r|]; simpl in Hs.
  - case_bool_decide as Hf; simplify_eq. unfold start_call, acquire.
    destruct (closed _); [by intros d f|]. destruct (Z.ltb _ _); [by intros d f|].
    destruct (Z.leb _ _); [by intros d f|]. simpl. apply settled_insert. naive_solver.
  - destruct (calls p !! c) as [[x| |]|]; simplify_eq. simpl.
    destruct (pending (futs p) c) eqn:E; [|by intros d f].
    apply pending_true in E. apply settled_insert. auto.
  - destruct (calls p !! c) as [[x| |]|], (futs p !! c) as [f|]; simplify_eq.
    destruct (pending _ _); simplify_eq. unfold resume. destruct (wakes_with x f); [by intros d g|].
    simpl. unfold acquire_failed. repeat case_bool_decide; [by intros d g|apply settled_release|by intros d g].
  - destruct (calls p !! c) as [[x| |]|]; simplify_eq. case_bool_decide; simplify_eq.
    unfold obtain. by destruct (closed _); intros d f.
  - destruct (calls p !! c) as [[x| |]|]; simplify_eq. apply settled_release.
  - destruct (calls p !! c) as [[x| |]|]; simplify_eq. apply settled_release.
  - simplify_eq. unfold _do_return_conn. case_bool_decide; [|by intros d f].
    pose proof (settled_release (admission p) (futs p)). by destruct (release _ _).
  - simplify_eq. unfold dispose, close. simpl. intros d f Hd Hf. rewrite lookup_close.
    rewrite bool_decide_false; [done|]. intros [_ ?]. congruence.
Qed.

(** *** The position in the queue *)
Lemma ahead_mono c fs fs' ws :
  (∀ g, g ∈ ws → pending fs' g = true → pending fs g = true) →
  (ahead c fs' ws ≤ ahead c fs ws)%nat.
Proof.
  induction ws as [|g ws IH]; intros H; simpl; [lia|]. case_decide; [lia|].
  assert (ahead c fs' ws ≤ ahead c fs ws)%nat by (apply IH; set_solver).
  pose proof (H g ltac:(left)). destruct (pending fs' g), (pending fs g); naive_solver lia.
Qed.

Lemma ahead_snoc c fs ws d : c ∈ ws → ahead c fs (ws ++ [d]) = ahead c fs ws.
Proof.
  induction ws as [|g ws IH]; simpl; [by intros ?%elem_of_nil|].
  intros [->|Hin]%elem_of_cons; [by rewrite !decide_True|]. case_decide; [done|]. by rewrite IH.
Qed.

Lemma ahead_remove c fs ws d : c ≠ d → (ahead c fs (remove d ws) ≤ ahead c fs ws)%nat.
Proof.
  intros Hcd. induction ws as [|g ws IH]; simpl; [lia|].
  destruct (decide (d = g)) as [->|Hd]; simpl; repeat case_decide; subst; try done; try lia.
Qed.

(** A permit given back takes one call ahead of [c] out of the queue. *)
Lemma ahead_release c a fs :
  NoDup (waiters a) → c ∈ waiters a → fs !! c = Some Pending → (release a fs).2 !! c = Some Pending →
  ahead c fs (waiters a) = S (ahead c (release a fs).2 (waiters (release a fs).1)).
Proof.
  intros Hnd Hin Hc. unfold release. pose proof (hand_over_spec (waiters a) fs) as Hs.
  destruct (hand_over _ _) as [[ws fs']|]; simpl.
  - destruct Hs as (pre & f & Hws & Hpre & Hf & ->). rewrite Hws in *. clear Hws. intros Hc'.
    assert (c ≠ f) as Hne by (intros ->; by rewrite lookup_insert_eq in Hc').
    induction Hpre as [|g pre Hg Hpre IH]; simpl in *.
    + rewrite decide_False by done. apply pending_true in Hf. rewrite Hf. simpl. f_equal.
      apply NoDup_cons in Hnd as [Hfws _].
      apply Nat.le_antisymm; apply ahead_mono; intros g Hg; rewrite !pending_true;
        rewrite lookup_insert_ne by (intros ->; done); done.
    + apply NoDup_cons in Hnd as [_ Hnd]. rewrite decide_False by congruence.
      destruct (pending fs g) eqn:Eg; [by apply pending_true in Eg|]. apply IH; [done|].
      apply elem_of_cons in Hin as [->|?]; [congruence|done].
  - rewrite Forall_forall in Hs. by apply Hs in Hin.
Qed.

Lemma step_ahead e p p' c :
  pool_ok p → step e p = Some p' → futs p !! c = Some Pending → futs p' !! c = Some Pending →
  ((if gives_back e p then 1 else 0) + ahead c (futs p') (waiters (admission p'))
     ≤ ahead c (futs p) (waiters (admission p)))%nat.
Proof.
  intros Hok Hs Hc Hc'. pose proof (ok_pending _ _ _ _ _ Hok c Hc) as Hin.
  pose proof (ok_nodup _ _ _ _ _ Hok) as Hnd.
  pose proof (ahead_release c (admission p) (futs p) Hnd Hin Hc) as Hrel.
  destruct e as [d|d expired|d|d r|d e|d e|r|]; simpl in Hs; cbn [gives_back].
  - case_bool_decide as Hf; simplify_eq. destruct Hf as (Hcd & Hfd & _).
    revert Hc'. unfold start_call, acquire.
    destruct (closed _); [done|]. destruct (Z.ltb _ _); [done|]. destruct (Z.leb _ _); [done|].
    simpl. intros _. rewrite ahead_snoc by done. apply ahead_mono. intros g Hg.
    rewrite !pending_true, lookup_insert_ne; [done|]. intros ->.
    destruct (ok_waiters _ _ _ _ _ Hok g Hg) as (x & ? & _). congruence.
  - destruct (calls p !! d) as [[x| |]|]; simplify_eq. simpl in *. apply ahead_mono.
    intros g Hg. rewrite !pending_true. destruct (pending (futs p) d); [|done].
    destruct (decide (d = g)) as [->|?]; [by rewrite lookup_insert_eq|by rewrite lookup_insert_ne].
  - destruct (calls p !! d) as [[x| |]|] eqn:Hd, (futs p !! d) as [f|] eqn:Hfd; simplify_eq.
    destruct (pending _ _) eqn:Hp; simplify_eq.
    assert (c ≠ d) as Hcd by (intros ->; apply pending_true in Hc; congruence).
    revert Hc'. unfold resume. destruct (wakes_with x f) as [[]|e] eqn:Ew; simpl.
    { intros _. destruct x; [done|]. done. }
    unfold acquire_failed. case_bool_decide as Hdw; simpl.
    + intros _. destruct (ok_waiters _ _ _ _ _ Hok d Hdw) as (y & _ & Hcase).
      rewrite Hfd in Hcase. pose proof (ahead_remove c (futs p) (waiters (admission p)) d Hcd).
      destruct x; [rewrite bool_decide_false by naive_solver|]; done.
    + case_bool_decide as Hg; simpl.
      * intros Hc'. rewrite (Hrel Hc'). destruct x; [case_bool_decide; lia|]. by simplify_eq/=.
      * intros _. destruct x; [case_bool_decide; [congruence|]|]; simpl; lia.
  - destruct (calls p !! d) as [[x| |]|]; simplify_eq. case_bool_decide; simplify_eq.
    unfold obtain. by destruct (closed _).
  - destruct (calls p !! d) as [[x| |]|]; simplify_eq. simpl in *. rewrite Hrel by done. lia.
  - destruct (calls p !! d) as [[x| |]|]; simplify_eq. simpl in *. rewrite Hrel by done. lia.
  - simplify_eq. revert Hc'. unfold _do_return_conn. case_bool_decide; [|done].
    destruct (release _ _) as [a fs]. simpl in *. intros Hc'. rewrite Hrel by done. lia.
  - simplify_eq. revert Hc'. unfold dispose, close. simpl. rewrite lookup_close.
    by rewrite bool_decide_true.
Qed.

Lemma release_pending a fs c :
  fs !! c = Some Pending →
  (release a fs).2 !! c = Some Pending ∨ (release a fs).2 !! c = Some Granted.
Proof.
  intros Hc. unfold release. pose proof (hand_over_spec (waiters a) fs) as Hs.
  destruct (hand_over _ _) as [[ws fs']|]; [|by left]. destruct Hs as (pre & f & _ & _ & _ & ->).
  simpl. destruct (decide (f = c)) as [->|?];
    [rewrite lookup_insert_eq|rewrite lookup_insert_ne by done]; auto.
Qed.

(** A waiting call that is neither interrupted nor closed out is granted a permit next. *)
Lemma step_waiting e p p' c :
  step e p = Some p' → futs p !! c = Some Pending →
  (∀ b, e ≠ Interrupt c b) → e ≠ Dispose →
  futs p' !! c = Some Pending ∨ futs p' !! c = Some Granted.
Proof.
  intros Hs Hc Hi Hd. destruct e as [d|d expired|d|d r|d e|d e|r|]; simpl in Hs; try done.
  - case_bool_decide as Hf; simplify_eq. unfold start_call, acquire.
    destruct (closed _); [by left|]. destruct (Z.ltb _ _); [by left|].
    destruct (Z.leb _ _); [by left|]. simpl. rewrite lookup_insert_ne; [by left|naive_solver].
  - destruct (calls p !! d) as [[x| |]|]; simplify_eq. simpl. left.
    assert (c ≠ d) by (intros ->; by destruct (Hi expired)).
    destruct (pending _ _); [by rewrite lookup_insert_ne|done].
  - destruct (calls p !! d) as [[x| |]|], (futs p !! d) as [f|]; simplify_eq.
    destruct (pending _ _); simplify_eq. unfold resume. destruct (wakes_with x f); [by left|].
    simpl. unfold acquire_failed. case_bool_decide; [by left|].
    case_bool_decide; [by apply release_pending|by left].
  - destruct (calls p !! d) as [[x| |]|]; simplify_eq. case_bool_decide; simplify_eq.
    unfold obtain. left. by destruct (closed _).
  - destruct (calls p !! d) as [[x| |]|]; simplify_eq. by apply release_pending.
  - destruct (calls p !! d) as [[x| |]|]; simplify_eq. by apply release_pending.
  - simplify_eq. unfold _do_return_conn. case_bool_decide; [|by left].
    pose proof (release_pending (admission p) (futs p) c Hc). by destruct (release _ _).
Qed.

Lemma run_settled es p p' : run_events es p = Some p' → settled (futs p) (futs p').
Proof.
  revert p. induction es as [|e es IH]; intros p; simpl; [by intros [= ->] c f|].
  destruct (step e p) as [p1|] eqn:Hs; [|done]. intros Hr c f Hc Hf.
  apply (IH p1 Hr); [|done]. by eapply step_settled.
Qed.

Lemma run_waiting es p p' c :
  pool_ok p → run_events es p = Some p' → futs p !! c = Some Pending →
  (∀ b, Interrupt c b ∉ es) → Dispose ∉ es →
  futs p' !! c = Some Granted ∨
  futs p' !! c = Some Pending ∧
  (given_back es p + ahead c (futs p') (waiters (admission p'))
     ≤ ahead c (futs p) (waiters (admission p)))%nat.
Proof.
  revert p. induction es as [|e es IH]; intros p Hok; cbn [run_events given_back].
  { intros [= ->] Hc _ _. by right. }
  destruct (step e p) as [p1|] eqn:Hs; [|done]. intros Hr Hc Hi Hd.
  rewrite not_elem_of_cons in Hd. destruct Hd as [Hd1 Hd2].
  destruct (step_waiting e p p1 c Hs Hc) as [Hc1|Hc1].
  { intros b ->. by apply (Hi b); left. } { by intros ->. }
  - pose proof (step_ahead e p p1 c Hok Hs Hc Hc1).
    destruct (IH p1 (pool_step_ok _ _ _ Hs Hok) Hr Hc1) as [?|[? ?]]; [|done|by left|right].
    { intros b Hb. by apply (Hi b); right. } split; [done|lia].
  - left. by apply (run_settled es p1 p' Hr).
Qed.

(** [C28] Nobody who waits starves: a call waiting behind [n] others is granted a permit
    as soon as [n+1] permits have been given back, whatever else happens meanwhile — later
    calls never overtake it — unless it is itself interrupted or the pool is closed; and
    while it waits, somebody holds a permit or a connection. *)
Theorem waiting_call_is_served l q p es p' c :
  0 < l → reachable l q p → futs p !! c = Some Pending →
  ((∃ d, holds (calls p) (futs p) d) ∨ leased p ≠ ∅) ∧
  (run_events es p = Some p' → (∀ b, Interrupt c b ∉ es) → Dispose ∉ es →
   (ahead c (futs p) (waiters (admission p)) < given_back es p)%nat →
   futs p' !! c = Some Granted).
Proof.
  intros Hl (Hok & Hlim & _)%pool_reachable_ok Hc; [|lia]. split.
  - destruct (ok_holders _ _ _ _ _ Hok) as (H & HH & Ha).
    pose proof (ok_busy _ _ _ _ _ Hok c Hc). destruct (decide (leased p = ∅)) as [HL|]; [left|by right].
    rewrite HL, size_empty in Ha. destruct (set_choose_L H) as [d Hd].
    + intros ->. rewrite size_empty in Ha. lia.
    + exists d. by apply HH.
  - intros Hr Hi Hd Hn. destruct (run_waiting es p p' c Hok Hr Hc Hi Hd) as [?|[_ ?]]; [done|lia].
Qed.

(** One permit, two calls waiting; a newcomer is refused, the first one waiting is served
    after the first return and the second after the next. *)
Lemma waiting_call_is_served_witness :
  match run_events [Call 1; Obtain 1 11; Call 2; Call 3; Call 4] (new_pool 1 2) with
  | Some p => ahead 3 (futs p) (waiters (admission p)) = 1%nat
      ∧ match run_events [Return 11; Resume 2; Call 5; GetFails 2 OSError] p with
        | Some p' => futs p' !! 3%nat = Some Granted
        | None => False
        end
  | None => False
  end.
Proof.
  destruct (run_events [Call 1; Obtain 1 11; Call 2; Call 3; Call 4] (new_pool 1 2))
    as [p|] eqn:E; [|vm_compute in E; discriminate].
  assert (reachable 1 2 p) as Hr by (eexists; exact E).
  vm_compute in E. injection E as <-. split; [vm_compute; reflexivity|].
  match goal with |- match ?r with _ => _ end => destruct r as [p'|] eqn:E'; [|vm_compute in E'; discriminate] end.
  eapply (proj2 (waiting_call_is_served 1 2 _ _ p' 3 ltac:(lia) Hr ltac:(vm_compute; reflexivity))).
  - exact E'.
  - intros b Hb. repeat (apply elem_of_cons in Hb as [Hb|Hb]; [discriminate|]). by apply elem_of_nil in Hb.
  - intros Hb. repeat (apply elem_of_cons in Hb as [Hb|Hb]; [discriminate|]). by apply elem_of_nil in Hb.
  - apply Nat.ltb_lt. vm_compute. reflexivity.
Defined.
