(* ===== verification/Lifecycle.v ===== *)
(** * Service lifecycle

    [app/common/handlers/lifecycle_handler.py]: the registry, startup with rollback,
    quiescing and shutdown as a state machine.  Starting and stopping a service are the
    awaits of the handler: their outcomes are events, so a stop may fail, a start may be
    cancelled, and quiescing or registration may happen in between. *)
From S2P Require Import Prelude.
Open Scope Z_scope.

(** ** The handler *)

(** What the handler is awaiting: the start of the [i]-th service, or the stop of one it
    has taken off the list, during a rollback or a shutdown. *)
Inductive phase :=
| Idle
| Starting (i : nat)
| RollingBack (e : exn) (svc : string)
| Stopping (svc : string).

(** What services and callers observe. *)
Inductive action :=
| Started (svc : string)
| StartFailed (svc : string) (e : exn)
| StopCalled (svc : string)
| StartupReturned (r : py unit)
| ShutdownReturned (r : py unit).

Record handler := mkHandler {
  services : list string;               (* services by name, in registration order *)
  service_names : gset string;
  started_services : list string;
  startup_started : bool;
  startup_completed : bool;
  shutdown_started : bool;
  quiescing : bool;
  shutdown_failed : bool;
  doing : phase;
  history : list action
}.

Definition new_handler : handler :=
  mkHandler [] ∅ [] false false false false false Idle [].

(** [if check_timeout_seconds <= 0: raise ValueError], on thousandths of a second. *)
Definition LifecycleHandler (check_timeout_ms : Z) : py handler :=
  if check_timeout_ms <=? 0
  then Err (ValueError "check_timeout_seconds must be greater than zero") else Ok new_handler.

Definition set_doing (ph : phase) (h : handler) : handler :=
  mkHandler (services h) (service_names h) (started_services h) (startup_started h)
    (startup_completed h) (shutdown_started h) (quiescing h) (shutdown_failed h) ph (history h).
Definition set_started (l : list string) (h : handler) : handler :=
  mkHandler (services h) (service_names h) l (startup_started h)
    (startup_completed h) (shutdown_started h) (quiescing h) (shutdown_failed h) (doing h) (history h).
Definition set_failed (b : bool) (h : handler) : handler :=
  mkHandler (services h) (service_names h) (started_services h) (startup_started h)
    (startup_completed h) (shutdown_started h) (quiescing h) b (doing h) (history h).
Definition set_startup (started completed : bool) (h : handler) : handler :=
  mkHandler (services h) (service_names h) (started_services h) started
    completed (shutdown_started h) (quiescing h) (shutdown_failed h) (doing h) (history h).
Definition set_shutdown (b : bool) (h : handler) : handler :=
  mkHandler (services h) (service_names h) (started_services h) (startup_started h)
    (startup_completed h) b (quiescing h) (shutdown_failed h) (doing h) (history h).
Definition set_quiescing (b : bool) (h : handler) : handler :=
  mkHandler (services h) (service_names h) (started_services h) (startup_started h)
    (startup_completed h) (shutdown_started h) b (shutdown_failed h) (doing h) (history h).
Definition record (a : action) (h : handler) : handler :=
  mkHandler (services h) (service_names h) (started_services h) (startup_started h)
    (startup_completed h) (shutdown_started h) (quiescing h) (shutdown_failed h) (doing h)
    (history h ++ [a]).

Definition is_alive (h : handler) : bool := negb (shutdown_started h).
Definition is_ready (h : handler) : bool :=
  startup_completed h && negb (shutdown_started h) && negb (quiescing h).

(** *** Registration *)
Definition register_one (h : handler) (name : string) : handler :=
  if bool_decide (name ∈ service_names h) then h
  else mkHandler (services h ++ [name]) ({[name]} ∪ service_names h) (started_services h)
         (startup_started h) (startup_completed h) (shutdown_started h) (quiescing h)
         (shutdown_failed h) (doing h) (history h).
Definition register (names : list string) (h : handler) : handler := foldl register_one h names.

(** *** Quiescing: [outcome] is what each service's own [quiesce] does, if it has one (a
    synchronous call, whose exceptions are all [Exception]s). *)
Definition quiesce_one (outcome : string → option (py unit)) (h : handler) (svc : string) : handler :=
  match outcome svc with
  | Some (Err _) => set_failed true h
  | _ => h
  end.
Definition quiesce (outcome : string → option (py unit)) (h : handler) : handler :=
  foldl (quiesce_one outcome) (set_quiescing true h) (started_services h).

(** *** Stopping *)

(** [list.pop()] *)
Fixpoint pop (l : list string) : option (list string * string) :=
  match l with
  | [] => None
  | x :: l' => match pop l' with Some (r, y) => Some (x :: r, y) | None => Some ([], x) end
  end.

Definition shutdown_finish (h : handler) : handler :=
  record (ShutdownReturned (Ok tt)) (set_doing Idle (set_startup false false h)).
Definition rollback_finish (e : exn) (h : handler) : handler :=
  record (StartupReturned (Err e))
    (set_doing Idle (set_startup false (startup_completed h) h)).

(** One turn of the loop of [_stop_started_services]: the last service is taken off the
    list and its [stop] awaited, or the loop ends and its caller goes on. *)
Definition stop_next (waiting : string → phase) (finish : handler → handler) (h : handler) : handler :=
  match pop (started_services h) with
  | Some (rest, svc) => record (StopCalled svc) (set_doing (waiting svc) (set_started rest h))
  | None => finish h
  end.

(** *** Startup *)

(** The next [svc.start()] of the loop, or the end of [startup]. *)
Definition start_next (i : nat) (h : handler) : handler :=
  if decide (i < length (services h))%nat then set_doing (Starting i) h
  else record (StartupReturned (Ok tt)) (set_doing Idle (set_startup (startup_started h) true h)).

Definition startup (h : handler) : handler :=
  if startup_started h then h
  else start_next 0
         (set_started [] (set_startup true false (set_shutdown false
            (set_failed false (set_quiescing false h))))).

(** [svc.start()] returned or raised. *)
Definition start_returns (i : nat) (r : py unit) (h : handler) : handler :=
  let svc := default EmptyString (services h !! i) in
  match r with
  | Ok _ => start_next (S i) (record (Started svc) (set_started (started_services h ++ [svc]) h))
  | Err e =>
      let h := record (StartFailed svc e) h in
      if is_Exception e then stop_next (RollingBack e) (rollback_finish e) h
      else record (StartupReturned (Err e)) (set_doing Idle h)
  end.

Definition shutdown (outcome : string → option (py unit)) (h : handler) : handler :=
  if shutdown_started h then h
  else stop_next Stopping shutdown_finish (quiesce outcome (set_shutdown true h)).

(** [svc.stop()] returned or raised: only a cancellation leaves the loop. *)
Definition stop_returns (r : py unit) (waiting : string → phase) (finish : handler → handler)
    (abort : exn → handler → handler) (h : handler) : handler :=
  match r with
  | Ok _ => stop_next waiting finish h
  | Err e => if is_Exception e then stop_next waiting finish (set_failed true h) else abort e h
  end.

(** *** Events *)
Inductive event :=
| Register (names : list string)
| Startup
| StartReturns (r : py unit)
| Quiesce (outcome : string → option (py unit))
| Shutdown (outcome : string → option (py unit))     (* by the owner of the lifespan *)
| StopReturns (r : py unit).

Definition step (e : event) (h : handler) : option handler :=
  match e, doing h with
  | Register names, _ => Some (register names h)
  | Startup, _ => Some (startup h)
  | Quiesce outcome, _ => Some (quiesce outcome h)
  | Shutdown outcome, Idle => Some (shutdown outcome h)
  | StartReturns r, Starting i => Some (start_returns i r h)
  | StopReturns r, RollingBack e svc =>
      Some (stop_returns r (RollingBack e) (rollback_finish e)
              (λ e h, record (StartupReturned (Err e)) (set_doing Idle h)) h)
  | StopReturns r, Stopping svc =>
      Some (stop_returns r Stopping shutdown_finish
              (λ e h, record (ShutdownReturned (Err e)) (set_doing Idle h)) h)
  | _, _ => None
  end.

Fixpoint run_events (es : list event) (h : handler) : option handler :=
  match es with
  | [] => Some h
  | e :: es' => match step e h with Some h' => run_events es' h' | None => None end
  end.
Definition reachable (h : handler) : Prop := ∃ es, run_events es new_handler = Some h.

(** ** Readiness checks *)
Record ReadinessCheckResult := mkCheck {
  check_name : string;
  is_up : bool;
  response_time : Z
}.

(** [asyncio.wait_for(service.check(), timeout)]: a boolean, an exception, or no answer
    in time (a [TimeoutError]); with the clock before and after. *)
Definition _check_service (name : string) (answer : py bool) (t0 t1 : Z) : py ReadinessCheckResult :=
  match answer with
  | Ok healthy => Ok (mkCheck name healthy (Z.max 0 (t1 - t0)))
  | Err e => if is_Exception e then Ok (mkCheck name false (Z.max 0 (t1 - t0))) else Err e
  end.

(** The categories logged. *)
Definition check_category (answer : py bool) : option string :=
  match answer with
  | Ok true => None
  | Ok false => Some "false_return"
  | Err TimeoutError => Some "timeout"
  | Err _ => Some "exception"
  end.

Fixpoint collect {A} (l : list (py A)) : py (list A) :=
  match l with
  | [] => Ok []
  | r :: l' => a ← r; rest ← collect l'; Ok (a :: rest)
  end.

Definition check_services (h : handler) (answer : string → py bool) (clock : string → Z * Z)
  : py (list ReadinessCheckResult) :=
  collect ((λ s, _check_service s (answer s) (clock s).1 (clock s).2) <$> services h).

Definition check_service (h : handler) (name : string) (answer : string → py bool)
    (clock : string → Z * Z) : py (option ReadinessCheckResult) :=
  if bool_decide (name ∈ services h)
  then r ← _check_service name (answer name) (clock name).1 (clock name).2; Ok (Some r)
  else Ok None.

Definition are_all_services_healthy (h : handler) (answer : string → py bool)
    (clock : string → Z * Z) : py bool :=
  results ← check_services h answer clock; Ok (forallb is_up results).

(** The lag of the event loop: the largest delay past [interval], in thousandths of the
    clock's unit. *)
Definition get_event_loop_lag (interval : Z) (samples : list (Z * Z)) : Z :=
  let delays := (λ se : Z * Z, Z.max 0 (se.2 - se.1 - interval)) <$> samples in
  foldr Z.max 0 delays * 1000.
