(* ===== verification/LifecycleFacts.v ===== *)
(** * What the lifecycle guarantees

    Services are stopped in the reverse order of their starts, whatever fails; readiness
    means that every service registered before startup is running; shutdown and rollback
    always finish. *)
From S2P Require Import Prelude Lifecycle.
Open Scope Z_scope.

Lemma pop_snoc l x : pop (l ++ [x]) = Some (l, x).
Proof. induction l as [|y l IH]; simpl; [done|]. by rewrite IH. Qed.

Lemma pop_spec l :
  match pop l with Some (rest, x) => l = rest ++ [x] | None => l = [] end.
Proof.
  induction l as [|y l IH]; simpl; [done|]. destruct (pop l) as [[rest x]|]; by subst.
Qed.

(** ** The stack of running services *)

(** Replaying a history on the services running before it: a stop must be that of the
    last one started. *)
Fixpoint replay (acts : list action) (l : list string) : option (list string) :=
  match acts with
  | [] => Some l
  | Started s :: acts' => replay acts' (l ++ [s])
  | StopCalled s :: acts' =>
      match pop l with
      | Some (rest, x) => if decide (x = s) then replay acts' rest else None
      | None => None
      end
  | _ :: acts' => replay acts' l
  end.

Lemma replay_app acts acts' l :
  replay (acts ++ acts') l = match replay acts l with Some l' => replay acts' l' | None => None end.
Proof.
  revert l. induction acts as [|a acts IH]; intros l; simpl; [done|].
  destruct a; auto. destruct (pop l) as [[rest x]|]; [|done]. by case_decide.
Qed.

Record ok (h : handler) : Prop := {
  ok_replay : replay (history h) [] = Some (started_services h);
  ok_fresh : startup_started h = false →
    doing h = Idle ∧ started_services h = [] ∧ startup_completed h = false;
  ok_nodup : NoDup (services h);
  ok_names n : n ∈ service_names h ↔ n ∈ services h;
  ok_starting i : doing h = Starting i →
    (i < length (services h))%nat ∧ started_services h = take i (services h)
    ∧ startup_completed h = false;
  ok_rolling e s : doing h = RollingBack e s → startup_completed h = false;
  ok_stopping s : doing h = Stopping s → shutdown_started h = true;
  ok_ready : startup_completed h = true → shutdown_started h = false →
    started_services h `prefix_of` services h
}.

Lemma ok_register names h : ok h → ok (register names h).
Proof.
  unfold register. revert h. induction names as [|n names IH]; intros h Hok; simpl; [done|].
  apply IH. unfold register_one. case_bool_decide as Hn; [done|].
  destruct Hok as [Hr Hf Hnd Hnm Hs Hro Hst Hre]. split; simpl; try done.
  - apply NoDup_app. split_and!; [done| |apply NoDup_singleton].
    rewrite Hnm in Hn. set_solver.
  - intros m. rewrite elem_of_union, elem_of_singleton, elem_of_app, Hnm, list_elem_of_singleton. tauto.
  - intros i (Hi & Ht & Hc)%Hs. rewrite length_app, take_app_le by lia. split; [lia|done].
  - intros Hc Hsd. by apply prefix_app_r, Hre.
Qed.

Lemma quiesce_fields outcome h :
  let h' := quiesce outcome h in
  history h' = history h ∧ started_services h' = started_services h ∧ services h' = services h
  ∧ service_names h' = service_names h ∧ startup_started h' = startup_started h
  ∧ startup_completed h' = startup_completed h ∧ shutdown_started h' = shutdown_started h
  ∧ doing h' = doing h ∧ quiescing h' = true.
Proof.
  assert (∀ l h1, let h2 := foldl (quiesce_one outcome) h1 l in
    history h2 = history h1 ∧ started_services h2 = started_services h1 ∧ services h2 = services h1
    ∧ service_names h2 = service_names h1 ∧ startup_started h2 = startup_started h1
    ∧ startup_completed h2 = startup_completed h1 ∧ shutdown_started h2 = shutdown_started h1
    ∧ doing h2 = doing h1 ∧ quiescing h2 = quiescing h1) as Hgen.
  { induction l as [|s l IH]; intros h1; simpl; [done|].
    destruct (IH (quiesce_one outcome h1 s)) as (-> & -> & -> & -> & -> & -> & -> & -> & ->).
    unfold quiesce_one. by destruct (outcome s) as [[|]|]. }
  exact (Hgen (started_services h) (set_quiescing true h)).
Qed.

Lemma ok_quiesce outcome h : ok h → ok (quiesce outcome h).
Proof.
  intros [Hr Hf Hnd Hnm Hs Hro Hst Hre].
  destruct (quiesce_fields outcome h) as (E1 & E2 & E3 & E4 & E5 & E6 & E7 & E8 & _).
  split; rewrite ?E1, ?E2, ?E3, ?E4, ?E5, ?E6, ?E7, ?E8; done.
Qed.


(** What does not depend on the phase. *)
Record core (h : handler) : Prop := {
  core_replay : replay (history h) [] = Some (started_services h);
  core_nodup : NoDup (services h);
  core_names n : n ∈ service_names h ↔ n ∈ services h
}.

Lemma ok_core h : ok h → core h.
Proof. intros []. by split. Qed.

Lemma core_record a h :
  core h → match a with Started _ | StopCalled _ => False | _ => True end → core (record a h).
Proof.
  intros [Hr Hnd Hnm] Ha. split; [|done..]. simpl. rewrite replay_app, Hr. by destruct a.
Qed.

Lemma ok_stop_rolling e h :
  core h → startup_started h = true → startup_completed h = false →
  ok (stop_next (RollingBack e) (rollback_finish e) h).
Proof.
  intros Hcore Hst Hco. pose proof Hcore as [Hr Hnd Hnm]. unfold stop_next.
  pose proof (pop_spec (started_services h)) as Hp.
  destruct (pop (started_services h)) as [[rest s]|].
  - split; simpl; try done; try congruence.
    rewrite replay_app, Hr. simpl. rewrite Hp, pop_snoc. by rewrite decide_True.
  - unfold rollback_finish. split; simpl; try done; try congruence.
    by rewrite replay_app, Hr.
Qed.

Lemma ok_stop_stopping h :
  core h → shutdown_started h = true → (startup_started h = true ∨ started_services h = []) →
  ok (stop_next Stopping shutdown_finish h).
Proof.
  intros Hcore Hsd Hst. pose proof Hcore as [Hr Hnd Hnm]. unfold stop_next.
  pose proof (pop_spec (started_services h)) as Hp.
  destruct (pop (started_services h)) as [[rest s]|].
  - destruct Hst as [Hst|Hst]; [|rewrite Hst in Hp; by destruct rest].
    split; simpl; try done; try congruence.
    rewrite replay_app, Hr. simpl. rewrite Hp, pop_snoc. by rewrite decide_True.
  - unfold shutdown_finish. split; simpl; try done; try congruence.
    by rewrite replay_app, Hr.
Qed.

(** The loop of [startup], [i] services being started. *)
Lemma ok_start_next i h :
  core h → startup_started h = true → startup_completed h = false →
  started_services h = take i (services h) → (i ≤ length (services h))%nat →
  ok (start_next i h).
Proof.
  intros [Hr Hnd Hnm] Hst Hco Ht Hi. unfold start_next. case_decide as Hlt.
  - split; simpl; try done; try congruence. by intros j [= <-].
  - rewrite take_ge in Ht by lia. split; simpl; try done; try congruence.
    + by rewrite replay_app, Hr.
    + intros _ _. by rewrite Ht.
Qed.

Lemma lifecycle_step_ok e h h' : step e h = Some h' → ok h → ok h'.
Proof.
  intros Hs Hok. pose proof (ok_core h Hok) as Hcore.
  destruct e as [names| |r|outcome|outcome|r]; simpl in Hs.
  - simplify_eq. by apply ok_register.
  - simplify_eq. unfold startup. destruct (startup_started h) eqn:Hst; [done|].
    destruct (ok_fresh _ Hok Hst) as (Hd & Hl & Hc). destruct Hcore as [Hr Hnd Hnm].
    apply ok_start_next; simpl; try done; [|lia]. split; simpl; try done. by rewrite Hr, Hl.
  - destruct (doing h) as [|i| |] eqn:Hd; simplify_eq.
    destruct (ok_starting _ Hok i Hd) as (Hi & Ht & Hc).
    assert (startup_started h = true) as Hst.
    { destruct (startup_started h) eqn:E; [done|]. destruct (ok_fresh _ Hok E). congruence. }
    unfold start_returns. destruct (lookup_lt_is_Some_2 (services h) i Hi) as [s Hsi].
    rewrite Hsi. simpl. destruct r as [[]|e].
    + apply ok_start_next; simpl; try done.
      * destruct Hcore as [Hr Hnd Hnm]. split; simpl; try done. by rewrite replay_app, Hr.
      * by rewrite Ht, (take_S_r _ _ s).
    + destruct (is_Exception e).
      * apply ok_stop_rolling; [by apply core_record|done..].
      * pose proof (core_record (StartupReturned (Err e)) _ (core_record (StartFailed s e) h Hcore I) I) as [Hr Hnd Hnm].
        split; simpl in *; try done; congruence.
  - simplify_eq. by apply ok_quiesce.
  - destruct (doing h) as [| | |] eqn:Hd; simplify_eq. unfold shutdown.
    destruct (shutdown_started h) eqn:Hsd; [done|].
    destruct (quiesce_fields outcome (set_shutdown true h)) as (E1 & E2 & E3 & E4 & E5 & E6 & E7 & E8 & _).
    apply ok_stop_stopping.
    + destruct Hcore as [Hr Hnd Hnm]. split; rewrite ?E1, ?E2, ?E3, ?E4; done.
    + by rewrite E7.
    + rewrite E5, E2. simpl. destruct (startup_started h) eqn:E; [by left|right].
      by destruct (ok_fresh _ Hok E) as (_ & ? & _).
  - assert (doing h ≠ Idle → startup_started h = true) as Hst.
    { intros Hd. destruct (startup_started h) eqn:E; [done|]. by destruct (ok_fresh _ Hok E). }
    assert (core (set_failed true h)) as Hcf by (by destruct Hcore; split).
    destruct (doing h) as [|i|e s|s] eqn:Hd; simplify_eq; unfold stop_returns.
    + pose proof (ok_rolling _ Hok e s Hd) as Hc.
      destruct r as [[]|e']; [|destruct (is_Exception e')].
      * apply ok_stop_rolling; auto.
      * apply ok_stop_rolling; auto.
      * pose proof (core_record (StartupReturned (Err e')) h Hcore I) as [Hr Hnd Hnm].
        specialize (Hst ltac:(done)). split; simpl in *; try done; congruence.
    + pose proof (ok_stopping _ Hok s Hd) as Hc.
      destruct r as [[]|e']; [|destruct (is_Exception e')].
      * apply ok_stop_stopping; auto.
      * apply ok_stop_stopping; auto.
      * pose proof (core_record (ShutdownReturned (Err e')) h Hcore I) as [Hr Hnd Hnm].
        specialize (Hst ltac:(done)). split; simpl in *; try done; congruence.
Qed.

Lemma lifecycle_reachable_ok h : reachable h → ok h.
Proof.
  intros [es Hr]. assert (ok new_handler) as H0.
  { split; simpl; try done; [constructor|set_solver]. }
  revert H0 Hr. generalize new_handler. induction es as [|e es IH]; intros h0 H0; simpl.
  - by intros [= ->].
  - destruct (step e h0) as [h1|] eqn:E; [|done]. apply IH. by eapply lifecycle_step_ok.
Qed.

Lemma lifecycle_run_app es1 es2 h :
  run_events (es1 ++ es2) h = match run_events es1 h with Some h1 => run_events es2 h1 | None => None end.
Proof. revert h. induction es1 as [|e es1 IH]; intros h; simpl; [done|]. by destruct (step e h). Qed.

(** ** The stopping loop ends *)
Definition failed_stop (r : py unit) : bool := negb (is_ok r).
(** Only a cancellation interrupts the loop. *)
Definition benign (r : py unit) : Prop := match r with Err e => is_Exception e = true | _ => True end.

Definition stops (l : list string) : list action := StopCalled <$> reverse l.

(** [h'] after the services [l] have been stopped from [h], [failed] telling if one failed. *)
Definition stopped_from (h h' : handler) (l : list string) (failed : bool) : Prop :=
  started_services h' = [] ∧ history h' = history h ++ stops l
  ∧ shutdown_failed h' = shutdown_failed h || failed
  ∧ services h' = services h ∧ startup_completed h' = startup_completed h
  ∧ shutdown_started h' = shutdown_started h ∧ quiescing h' = quiescing h.

Section loop.
Context (waiting : string → phase) (finish : handler → handler) (abort : exn → handler → handler).
Hypothesis awaited : ∀ s h r, doing h = waiting s →
  step (StopReturns r) h = Some (stop_returns r waiting finish abort h).

Lemma run_stop_next rs h :
  length rs = length (started_services h) → Forall benign rs →
  ∃ h', run_events (StopReturns <$> rs) (stop_next waiting finish h) = Some (finish h')
    ∧ stopped_from h h' (started_services h) (existsb failed_stop rs).
Proof.
  revert h. induction rs as [|r rs IH]; intros h Hlen Hrs; unfold stop_next;
    pose proof (pop_spec (started_services h)) as Hp;
    destruct (pop (started_services h)) as [[rest s]|]; rewrite Hp in Hlen |- *.
  - rewrite length_app in Hlen. simpl in Hlen. lia.
  - exists h. split; [done|]. unfold stopped_from, stops. simpl.
    by rewrite Hp, app_nil_r, orb_false_r.
  - apply Forall_cons in Hrs as [Hr Hrs]. rewrite length_app in Hlen. simpl in Hlen.
    set (h1 := record (StopCalled s) (set_doing (waiting s) (set_started rest h))).
    rewrite fmap_cons. cbn [run_events]. rewrite (awaited s) by done.
    set (h2 := if failed_stop r then set_failed true h1 else h1).
    assert (stop_returns r waiting finish abort h1 = stop_next waiting finish h2) as ->.
    { unfold stop_returns, h2, failed_stop. destruct r as [[]|e]; [done|]. simpl in *. by rewrite Hr. }
    destruct (IH h2) as (h' & -> & H1 & H2 & H3 & H4 & H5 & H6 & H7); [|done|].
    { unfold h2. destruct (failed_stop r); simpl; lia. }
    exists h'. split; [done|]. unfold stopped_from. rewrite H1, H2, H3, H4, H5, H6, H7.
    assert (started_services h2 = rest ∧ history h2 = history h ++ [StopCalled s]
      ∧ shutdown_failed h2 = shutdown_failed h || failed_stop r) as (-> & -> & ->).
    { unfold h2. destruct (failed_stop r); simpl; by rewrite ?orb_true_r, ?orb_false_r. }
    unfold stops. rewrite reverse_app, fmap_app. simpl. rewrite <-(assoc_L (++)), orb_assoc.
    unfold h2. by destruct (failed_stop r).
  - done.
Qed.
End loop.

Lemma stop_returns_stopping s h r :
  doing h = Stopping s →
  step (StopReturns r) h = Some (stop_returns r Stopping shutdown_finish
    (λ e h, record (ShutdownReturned (Err e)) (set_doing Idle h)) h).
Proof. intros Hd. simpl. by rewrite Hd. Qed.

Lemma stop_returns_rolling e s h r :
  doing h = RollingBack e s →
  step (StopReturns r) h = Some (stop_returns r (RollingBack e) (rollback_finish e)
    (λ e h, record (StartupReturned (Err e)) (set_doing Idle h)) h).
Proof. intros Hd. simpl. by rewrite Hd. Qed.

(** ** What a completed startup has started *)

(** The services [l] stay registered, and run whenever startup is completed and no
    shutdown has begun. *)
Definition covers (l : list string) (h : handler) : Prop :=
  l ⊆ services h
  ∧ (startup_completed h = true → shutdown_started h = false → l ⊆ started_services h).

Lemma covers_pending l h : l ⊆ services h → startup_completed h = false → covers l h.
Proof. intros Hl Hc. split; [done|]. congruence. Qed.

Lemma covers_shutdown l h : l ⊆ services h → shutdown_started h = true → covers l h.
Proof. intros Hl Hc. split; [done|]. congruence. Qed.

Lemma covers_start_next l i h :
  l ⊆ services h → startup_completed h = false →
  started_services h = take i (services h) → covers l (start_next i h).
Proof.
  intros Hl Hc Ht. unfold start_next. case_decide; [by apply covers_pending|].
  split; [done|]. intros _ _. simpl. by rewrite Ht, take_ge by lia.
Qed.

Lemma covers_rolling l e h :
  l ⊆ services h → startup_completed h = false →
  covers l (stop_next (RollingBack e) (rollback_finish e) h).
Proof. intros Hl Hc. unfold stop_next. destruct (pop _) as [[rest s]|]; by apply covers_pending. Qed.

Lemma covers_stopping l h :
  l ⊆ services h → shutdown_started h = true → covers l (stop_next Stopping shutdown_finish h).
Proof. intros Hl Hc. unfold stop_next. destruct (pop _) as [[rest s]|]; by apply covers_shutdown. Qed.

Lemma covers_register l names h : covers l h → covers l (register names h).
Proof.
  unfold register. revert h. induction names as [|n names IH]; intros h Hl; simpl; [done|].
  apply IH. unfold register_one. case_bool_decide; [done|]. destruct Hl as [Hl Hr].
  split; [|exact Hr]. simpl. set_solver.
Qed.

Lemma covers_step l e h h' : step e h = Some h' → ok h → covers l h → covers l h'.
Proof.
  intros Hs Hok Hl. pose proof Hl as [Hin Hrun].
  destruct e as [names| |r|outcome|outcome|r]; simpl in Hs.
  - simplify_eq. by apply covers_register.
  - simplify_eq. unfold startup. destruct (startup_started h); [done|].
    by apply covers_start_next.
  - destruct (doing h) as [|i| |] eqn:Hd; simplify_eq.
    destruct (ok_starting _ Hok i Hd) as (Hi & Ht & Hc). unfold start_returns.
    destruct (lookup_lt_is_Some_2 (services h) i Hi) as [s Hsi]. rewrite Hsi. simpl.
    destruct r as [[]|e]; [|destruct (is_Exception e)].
    + apply covers_start_next; simpl; [done..|]. by rewrite Ht, (take_S_r _ _ s).
    + by apply covers_rolling.
    + by apply covers_pending.
  - simplify_eq. destruct (quiesce_fields outcome h) as (_ & E2 & E3 & _ & _ & E6 & E7 & _).
    unfold covers. by rewrite E2, E3, E6, E7.
  - destruct (doing h); simplify_eq. unfold shutdown. destruct (shutdown_started h); [done|].
    destruct (quiesce_fields outcome (set_shutdown true h)) as (_ & _ & E3 & _ & _ & _ & E7 & _).
    apply covers_stopping; [by rewrite E3|by rewrite E7].
  - destruct (doing h) as [|i|e s|s] eqn:Hd; simplify_eq; unfold stop_returns.
    + pose proof (ok_rolling _ Hok e s Hd) as Hc.
      destruct r as [[]|e']; [|destruct (is_Exception e')];
        [by apply covers_rolling..|by apply covers_pending].
    + pose proof (ok_stopping _ Hok s Hd) as Hc.
      destruct r as [[]|e']; [|destruct (is_Exception e')];
        [by apply covers_stopping..|by apply covers_shutdown].
Qed.

Lemma covers_run l es h h' : run_events es h = Some h' → ok h → covers l h → covers l h'.
Proof.
  revert h. induction es as [|e es IH]; intros h; simpl; [by intros [= ->]|].
  destruct (step e h) as [h1|] eqn:E; [|done]. intros Hr Hok Hl. eapply IH; [exact Hr| |].
  - by eapply lifecycle_step_ok.
  - by eapply covers_step.
Qed.

(** [C32] Services are stopped in the reverse order of their starts: in every reachable
    state the history of starts and stops is a stack whose content is the list of running
    services — each stop is that of the last service started and not yet stopped. When the
    handler reports ready, no operation is pending, the running services are those
    registered first, in the order of their registration, and every service registered at
    any earlier moment before startup had completed is among them. *)
Theorem lifecycle_ordered es h :
  run_events es new_handler = Some h →
  replay (history h) [] = Some (started_services h) ∧
  NoDup (services h) ∧
  (startup_started h = false → started_services h = []) ∧
  (is_ready h = true → doing h = Idle ∧ started_services h `prefix_of` services h ∧
     ∀ es1 es2 h1, es = es1 ++ es2 → run_events es1 new_handler = Some h1 →
       startup_completed h1 = false → services h1 ⊆ started_services h).
Proof.
  intros Hrun. pose proof (lifecycle_reachable_ok h (ex_intro _ es Hrun)) as [Hr Hf Hnd Hnm Hs Hro Hst Hre].
  split_and!; [done|done|by intros (_ & ? & _)%Hf|].
  unfold is_ready. rewrite !andb_true_iff, !negb_true_iff. intros [[Hc Hsd] _]. split_and!; [|auto|].
  - destruct (doing h) as [|i|e s|s] eqn:Hd; [done| | |].
    + destruct (Hs i eq_refl) as (_ & _ & ?). congruence.
    + specialize (Hro e s eq_refl). congruence.
    + specialize (Hst s eq_refl). congruence.
  - intros es1 es2 h1 -> Hrun1 Hc1. rewrite lifecycle_run_app, Hrun1 in Hrun.
    apply (covers_run (services h1) es2 h1 h); [done| | |done|done].
    + apply lifecycle_reachable_ok. by exists es1.
    + by apply covers_pending.
Qed.

(** [C33] Teardown always finishes, whatever the services do: [shutdown] tries to stop
    every running service once, last started first, even when stops fail (which is
    remembered), and then returns with nothing running; and when a service fails to
    start, [startup] stops those started before it the same way, raises that service's
    error and can be tried again. *)
Theorem teardown_completes h outcome rs :
  reachable h → Forall benign rs →
  (doing h = Idle → shutdown_started h = false → length rs = length (started_services h) →
   ∃ h', run_events (Shutdown outcome :: (StopReturns <$> rs)) h = Some h'
     ∧ doing h' = Idle ∧ started_services h' = [] ∧ is_alive h' = false ∧ is_ready h' = false
     ∧ history h' = history h ++ stops (started_services h) ++ [ShutdownReturned (Ok tt)]
     ∧ (existsb failed_stop rs = true → shutdown_failed h' = true)) ∧
  (∀ i s e, doing h = Starting i → services h !! i = Some s → is_Exception e = true →
   length rs = i →
   ∃ h', run_events (StartReturns (Err e) :: (StopReturns <$> rs)) h = Some h'
     ∧ doing h' = Idle ∧ started_services h' = [] ∧ startup_started h' = false
     ∧ is_ready h' = false
     ∧ history h' = history h ++ StartFailed s e :: stops (take i (services h))
                      ++ [StartupReturned (Err e)]).
Proof.
  intros Hr%lifecycle_reachable_ok Hrs. split.
  - intros Hd Hsd Hlen. cbn [run_events step]. rewrite Hd. unfold shutdown. rewrite Hsd.
    destruct (quiesce_fields outcome (set_shutdown true h)) as (E1 & E2 & E3 & E4 & E5 & E6 & E7 & E8 & E9).
    destruct (run_stop_next Stopping shutdown_finish _ stop_returns_stopping rs
      (quiesce outcome (set_shutdown true h))) as (h' & -> & H1 & H2 & H3 & H4 & H5 & H6 & H7);
      [by rewrite E2|done|].
    exists (shutdown_finish h'). split; [done|]. simpl. rewrite H1, H2, E1, E2.
    unfold is_alive, is_ready. simpl. rewrite H6, E7. split_and!; try done.
    + by rewrite <-(assoc_L (++)).
    + intros Hf. by rewrite H3, Hf, orb_true_r.
  - intros i s e Hd Hs He Hlen. cbn [run_events step]. rewrite Hd. unfold start_returns.
    rewrite Hs. simpl. rewrite He. destruct (ok_starting _ Hr i Hd) as (Hi & Ht & Hc).
    destruct (run_stop_next (RollingBack e) (rollback_finish e) _ (stop_returns_rolling e) rs
      (record (StartFailed s e) h)) as (h' & -> & H1 & H2 & H3 & H4 & H5 & H6 & H7); [|done|].
    { simpl. rewrite Ht, length_take. lia. }
    exists (rollback_finish e h'). split; [done|]. simpl. rewrite H1, H2. simpl.
    unfold is_ready. simpl. rewrite H5. simpl. rewrite Hc, Ht. split_and!; try done.
    by rewrite <-!(assoc_L (++)).
Qed.

(** Two services; a first startup whose second start fails, a second that succeeds, and
    a shutdown during which the first stop fails. *)
Definition demo_events : list event :=
  [Register ["database"; "cleanup"; "database"]; Startup; StartReturns (Ok tt);
   StartReturns (Err OSError); StopReturns (Ok tt);
   Startup; StartReturns (Ok tt); StartReturns (Ok tt)].

Lemma lifecycle_ordered_witness :
  match run_events demo_events new_handler with
  | Some h => is_ready h = true ∧ started_services h = ["database"; "cleanup"]
      ∧ replay (history h) [] = Some (started_services h)
      ∧ (is_ready h = true → ["database"; "cleanup"] ⊆ started_services h)
  | None => False
  end.
Proof.
  destruct (run_events demo_events new_handler) as [h|] eqn:E; [|vm_compute in E; discriminate].
  split; [|split; [|split]].
  - vm_compute in E. by injection E as <-.
  - vm_compute in E. by injection E as <-.
  - apply (lifecycle_ordered demo_events h E).
  - intros Hready. destruct (lifecycle_ordered demo_events h E) as (_ & _ & _ & H).
    destruct (run_events (take 1 demo_events) new_handler) as [h1|] eqn:E1; [|vm_compute in E1; discriminate].
    pose proof (proj2 (proj2 (H Hready)) (take 1 demo_events) (drop 1 demo_events) h1 eq_refl E1) as H1.
    vm_compute in E1. injection E1 as <-. exact (H1 eq_refl).
Defined.

Lemma teardown_completes_witness :
  match run_events demo_events new_handler with
  | Some h => ∃ h', run_events (Shutdown (λ _, None)
        :: (StopReturns <$> [Err TimeoutError; Ok tt])) h = Some h'
      ∧ doing h' = Idle ∧ started_services h' = [] ∧ is_alive h' = false ∧ is_ready h' = false
      ∧ history h' = history h ++ stops (started_services h) ++ [ShutdownReturned (Ok tt)]
      ∧ (existsb failed_stop [Err TimeoutError; Ok tt] = true → shutdown_failed h' = true)
  | None => False
  end.
Proof.
  destruct (run_events demo_events new_handler) as [h|] eqn:E; [|vm_compute in E; discriminate].
  apply (proj1 (teardown_completes h (λ _, None) [Err TimeoutError; Ok tt]
    (ex_intro _ demo_events E) ltac:(by repeat constructor)));
    vm_compute in E; by injection E as <-.
Defined.
