(* ===== verification/RequestWork.v ===== *)
(** * Request admission and drain

    [app/common/handlers/request_work.py]: which requests are admitted, which work is
    tracked, and [drain], which waits for it until the drain deadline and then cancels
    what is left.  The two awaits of [drain] are phases; the completion of a task, its
    registration by the request deadline and the passing of time are events.  Times are
    integers of clock ticks. *)
From S2P Require Import Prelude.
Open Scope Z_scope.

(** Where [drain] is: in [asyncio.wait(pending, timeout)], whose timeout expires at
    [until], or gathering what it has cancelled. *)
Inductive drain_phase :=
| NotDraining
| WaitingFor (pending : gset nat) (until : Z)
| Gathering (unfinished : gset nat)
| Drained.

Record work := mkWork {
  drain_ticks : Z;                     (* drain_seconds *)
  draining_at : option Z;
  failed : bool;
  tasks : gset nat;                    (* the tracked tasks not yet discarded *)
  running : gset nat;                  (* tasks that are not done *)
  cancelled : gset nat;                (* tasks sent a cancellation *)
  drain_at : drain_phase;
  now : Z
}.

Definition new_work (d t : Z) : work := mkWork d None false ∅ ∅ ∅ NotDraining t.

Definition active (w : work) : gset nat := tasks w ∩ running w.

Definition resume (w : work) : py work :=
  if decide (active w = ∅)
  then Ok (mkWork (drain_ticks w) None false ∅ (running w) (cancelled w) NotDraining (now w))
  else Err (RuntimeError "Cannot resume while previous request work is active.").

Definition quiesce (w : work) : work :=
  mkWork (drain_ticks w) (Some (default (now w) (draining_at w))) (failed w) (tasks w) (running w)
    (cancelled w) (drain_at w) (now w).

Definition track (t : nat) (w : work) : work :=
  mkWork (drain_ticks w) (draining_at w) (failed w) ({[t]} ∪ tasks w) ({[t]} ∪ running w)
    (cancelled w) (drain_at w) (now w).

Definition remaining (w : work) : Z :=
  match draining_at w with
  | None => drain_ticks w
  | Some t0 => Z.max 0 (drain_ticks w - (now w - t0))
  end.

Definition set_phase (ph : drain_phase) (w : work) : work :=
  mkWork (drain_ticks w) (draining_at w) (failed w) (tasks w) (running w) (cancelled w) ph (now w).

(** The test of the loop of [drain]. *)
Definition drain_loop (w : work) : work :=
  if decide (active w = ∅) then set_phase Drained w
  else set_phase (WaitingFor (active w) (now w + remaining w)) w.

Definition drain (w : work) : work := drain_loop (quiesce w).

(** [asyncio.wait] returned: every task is done, or the timeout has expired. *)
Definition wait_returns (pending : gset nat) (w : work) : work :=
  let unfinished := pending ∩ running w in
  if decide (unfinished = ∅) then drain_loop w
  else mkWork (drain_ticks w) (draining_at w) true (tasks w) (running w)
         (unfinished ∪ cancelled w) (Gathering unfinished) (now w).

(** [RequestAdmission.__call__]: refused with 503 once draining, tracked otherwise. *)
Definition arrive (t : nat) (w : work) : bool * work :=
  match draining_at w with
  | Some _ => (false, w)
  | None => (true, track t w)
  end.

(** A task ends; later its callback, or [RequestAdmission]'s [finally], discards it. *)
Definition finish (t : nat) (w : work) : work :=
  mkWork (drain_ticks w) (draining_at w) (failed w) (tasks w) (running w ∖ {[t]})
    (cancelled w) (drain_at w) (now w).
Definition discard (t : nat) (w : work) : work :=
  mkWork (drain_ticks w) (draining_at w) (failed w) (tasks w ∖ {[t]}) (running w)
    (cancelled w) (drain_at w) (now w).
Definition advance (d : Z) (w : work) : work :=
  mkWork (drain_ticks w) (draining_at w) (failed w) (tasks w) (running w) (cancelled w)
    (drain_at w) (now w + d).

(** ** Events *)
Inductive event :=
| Request (t : nat)            (* an HTTP request reaches [RequestAdmission] *)
| Track (parent t : nat)       (* the deadline of an admitted request tracks its work *)
| Done (t : nat)
| Discard (t : nat)
| Tick (d : Z)
| Quiesce
| Drain                        (* [drain] is called *)
| WaitReturns
| GatherReturns
| Resume.

Definition fresh (t : nat) (w : work) : bool := bool_decide (t ∉ tasks w ∪ running w).

Definition step (e : event) (w : work) : option work :=
  match e with
  | Request t => if fresh t w then Some (arrive t w).2 else None
  | Track parent t =>
      if bool_decide (parent ∈ active w) && fresh t w then Some (track t w) else None
  | Done t => if bool_decide (t ∈ running w) then Some (finish t w) else None
  | Discard t => if bool_decide (t ∈ tasks w) then Some (discard t w) else None
  | Tick d => if d <? 0 then None else Some (advance d w)
  | Quiesce => Some (quiesce w)
  | Drain => match drain_at w with NotDraining | Drained => Some (drain w) | _ => None end
  | WaitReturns =>
      match drain_at w with
      | WaitingFor pending until =>
          if bool_decide (pending ∩ running w = ∅) || (until <=? now w)
          then Some (wait_returns pending w) else None
      | _ => None
      end
  | GatherReturns =>
      match drain_at w with
      | Gathering unfinished =>
          if bool_decide (unfinished ∩ running w = ∅) then Some (set_phase Drained w) else None
      | _ => None
      end
  | Resume =>
      match drain_at w with
      | NotDraining | Drained => match resume w with Ok w' => Some w' | Err _ => Some w end
      | _ => None
      end
  end.

Fixpoint run_events (es : list event) (w : work) : option work :=
  match es with
  | [] => Some w
  | e :: es' => match step e w with Some w' => run_events es' w' | None => None end
  end.
Definition reachable (d t : Z) (w : work) : Prop := ∃ es, run_events es (new_work d t) = Some w.

(** ** The invariant *)
Record ok (w : work) : Prop := {
  ok_draining : drain_at w ≠ NotDraining → draining_at w ≠ None;
  ok_until pending until t0 :
    drain_at w = WaitingFor pending until → draining_at w = Some t0 →
    until ≤ Z.max (now w) (t0 + drain_ticks w);
  ok_drained : drain_at w = Drained → failed w = false → active w = ∅;
  ok_gathering u : drain_at w = Gathering u → failed w = true ∧ u ⊆ cancelled w
}.

Lemma ok_drain_loop w : draining_at w ≠ None → ok (drain_loop w).
Proof.
  intros Hd. unfold drain_loop. destruct (decide (active w = ∅)) as [He|Hne]; split; simpl; try done.
  intros pending until t0 [= <- <-] Ht0. unfold remaining. rewrite Ht0. lia.
Qed.

Lemma active_shrinks w w' :
  tasks w' ⊆ tasks w → running w' ⊆ running w → active w = ∅ → active w' = ∅.
Proof. unfold active. set_solver. Qed.

Lemma work_step_ok e w w' : step e w = Some w' → ok w → ok w'.
Proof.
  intros Hs Hok. pose proof Hok as [Hd Hu Hdr Hg]. destruct e as [t|parent t|t|t|d| | | | |]; simpl in Hs.
  - destruct (fresh t w); simplify_eq. unfold arrive. destruct (draining_at w) eqn:E; simpl; [done|].
    assert (drain_at w = NotDraining) as Hn.
    { destruct (drain_at w); [done|by destruct Hd..]. }
    split; simpl; rewrite ?Hn; done.
  - destruct (bool_decide (parent ∈ active w)) eqn:Hp; [|done]. apply bool_decide_eq_true in Hp.
    destruct (fresh t w); simplify_eq/=. split; simpl; try done.
    intros Hda Hf. specialize (Hdr Hda Hf). set_solver.
  - case_bool_decide; simplify_eq. split; simpl; try done. intros Hda Hf.
    apply (active_shrinks w); [done|simpl; set_solver|auto].
  - case_bool_decide; simplify_eq. split; simpl; try done. intros Hda Hf.
    apply (active_shrinks w); [simpl; set_solver|done|auto].
  - destruct (Z.ltb_spec d 0); simplify_eq. split; simpl; try done.
    intros pending until t0 Hw Ht0. specialize (Hu _ _ _ Hw Ht0). lia.
  - simplify_eq. split; simpl; try done. intros pending until t0 Hw [= <-].
    assert (drain_at w ≠ NotDraining) as Hn by (by rewrite Hw). specialize (Hd Hn).
    destruct (draining_at w) as [t1|]; [|done]. simpl. eauto.
  - destruct (drain_at w); simplify_eq; by apply ok_drain_loop.
  - destruct (drain_at w) as [|pending until| |] eqn:Hw; simplify_eq.
    destruct (_ || _); simplify_eq. unfold wait_returns.
    destruct (decide (_ = ∅)) as [He|Hne]; [apply ok_drain_loop; auto|].
    split; simpl; try done; [intros _; auto|]. intros u [= <-]. split; [done|set_solver].
  - destruct (drain_at w) as [| |u|] eqn:Hw; simplify_eq. case_bool_decide; simplify_eq.
    destruct (Hg u eq_refl) as [Hf _]. split; simpl; try done; [intros _; by apply Hd|congruence].
  - assert (∀ w1, resume w = Ok w1 → ok w1) as Hres.
    { unfold resume. case_decide; [|done]. intros w1 [= <-]. by split. }
    destruct (drain_at w) eqn:Hw; simplify_eq; destruct (resume w) eqn:E; simplify_eq; eauto.
Qed.

Lemma work_reachable_ok d t w : reachable d t w → ok w.
Proof.
  intros [es Hr]. assert (ok (new_work d t)) as H0 by (by split).
  revert H0 Hr. generalize (new_work d t). induction es as [|e es IH]; intros w0 H0; simpl.
  - by intros [= ->].
  - destruct (step e w0) as [w1|] eqn:E; [|done]. apply IH. by eapply work_step_ok.
Qed.

Lemma run_events_app es es' w :
  run_events (es ++ es') w
  = match run_events es w with Some w' => run_events es' w' | None => None end.
Proof.
  revert w. induction es as [|e es IH]; intros w; simpl; [done|]. by destruct (step e w).
Qed.

(** The unfinished tasks end, in any order. *)
Lemma run_done l w :
  NoDup l → (∀ t, t ∈ l → t ∈ running w) →
  ∃ w', run_events (Done <$> l) w = Some w' ∧ drain_at w' = drain_at w
    ∧ ∀ t, t ∈ running w' ↔ t ∈ running w ∧ t ∉ l.
Proof.
  revert w. induction l as [|t l IH]; intros w Hnd Hl; cbn [fmap list_fmap run_events].
  { exists w. set_solver. }
  apply NoDup_cons in Hnd as [Ht Hnd]. simpl. rewrite bool_decide_true by set_solver.
  destruct (IH (finish t w)) as (w' & -> & Hda & Hr); [done|simpl; set_solver|].
  exists w'. split_and!; [done|done|]. intros u. rewrite Hr. simpl. set_solver.
Qed.

Definition cancelling (w w' : work) : Prop :=
  ∃ u, drain_at w' = Gathering u ∧ failed w' = true ∧ u ⊆ cancelled w' ∧ u ⊆ running w'
    ∧ ∀ l, NoDup l → (∀ t, t ∈ l ↔ t ∈ u) →
      ∃ w'', run_events ((Done <$> l) ++ [GatherReturns]) w' = Some w'' ∧ drain_at w'' = Drained.

Lemma cancelling_gathering w w' u :
  drain_at w' = Gathering u → failed w' = true → u ⊆ cancelled w' → u ⊆ running w' → cancelling w w'.
Proof.
  intros Hg Hf Hc Hr. exists u. split_and!; try done. intros l Hnd Hl.
  destruct (run_done l w' Hnd) as (w1 & E & Hd & H1); [set_solver|].
  rewrite run_events_app, E. cbn [run_events step]. rewrite Hd, Hg.
  rewrite bool_decide_true by (apply elem_of_equiv_empty_L; set_solver). by eexists.
Qed.

(** [asyncio.wait] past its timeout: the drain is over, or cancels, or waits once more. *)
Lemma wait_returns_cases w pending until :
  drain_at w = WaitingFor pending until → until ≤ now w →
  step WaitReturns w = Some (wait_returns pending w) ∧
  (drain_at (wait_returns pending w) = Drained ∨ cancelling w (wait_returns pending w)
   ∨ wait_returns pending w = set_phase (WaitingFor (active w) (now w + remaining w)) w ∧ active w ≠ ∅).
Proof.
  intros Hw Hu. cbn [step]. rewrite Hw, (proj2 (Z.leb_le _ _) Hu), orb_true_r. split; [done|].
  unfold wait_returns. destruct (decide (pending ∩ running w = ∅)) as [He|Hne].
  - unfold drain_loop. destruct (decide (active w = ∅)); [by left|by right; right].
  - right; left. eapply cancelling_gathering; simpl; [done|done|set_solver|set_solver].
Qed.

(** [C34] Draining: once it has begun no request is admitted; the wait never outlasts the
    drain deadline — when it has passed, at most two returns of [asyncio.wait] end the
    drain or cancel exactly the work still running, after which the drain returns as soon
    as that work has ended, in whatever order; and a drain that returns without recording
    a failure leaves no tracked work running, for good: none starts until [resume]. *)
Theorem drain_is_bounded d t w :
  reachable d t w →
  (∀ r, draining_at w ≠ None → arrive r w = (false, w)) ∧
  (drain_at w = Drained → failed w = false → active w = ∅) ∧
  (∀ pending until t0, drain_at w = WaitingFor pending until → draining_at w = Some t0 →
   until ≤ Z.max (now w) (t0 + drain_ticks w)) ∧
  (∀ pending until, drain_at w = WaitingFor pending until →
   ∃ n w', (1 ≤ n ≤ 2)%nat
     ∧ run_events (Tick (Z.max (until - now w) (remaining w)) :: replicate n WaitReturns) w = Some w'
     ∧ (drain_at w' = Drained ∨ cancelling w w')).
Proof.
  intros Hok%work_reachable_ok. pose proof Hok as [Hd Hu Hdr Hg]. split_and!; [|done|done|].
  - intros r Hn. unfold arrive. by destruct (draining_at w).
  - intros pending until Hw. set (k := Z.max _ _).
    assert (step (Tick k) w = Some (advance k w)) as Hk.
    { simpl. assert (0 ≤ remaining w); [|destruct (Z.ltb_spec k 0); [lia|done]].
      unfold remaining. assert (drain_at w ≠ NotDraining) as Hn by (by rewrite Hw). specialize (Hd Hn).
      destruct (draining_at w); [lia|done]. }
    destruct (wait_returns_cases (advance k w) pending until Hw) as [H1 Hc]; [simpl; lia|].
    destruct Hc as [Hc|[Hc|[Hc Hne]]].
    + exists 1%nat. eexists. split; [lia|]. cbn [replicate run_events]. rewrite Hk, H1. eauto.
    + exists 1%nat. eexists. split; [lia|]. cbn [replicate run_events]. rewrite Hk, H1. eauto.
    + exists 2%nat. set (w2 := wait_returns pending (advance k w)) in *.
      assert (drain_at w ≠ NotDraining) as Hn by (by rewrite Hw). specialize (Hd Hn).
      destruct (draining_at w) as [t0|] eqn:Ht0; [|done].
      assert (remaining (advance k w) = 0) as Hr.
      { assert (remaining w ≤ k) as Hle by lia. unfold remaining in Hle |- *. simpl.
        rewrite Ht0 in *. lia. }
      destruct (wait_returns_cases w2 (active (advance k w)) (now (advance k w) + 0)) as [H2 Hc2].
      { by rewrite Hc, <-Hr at 1. } { rewrite Hc. simpl. lia. }
      exists (wait_returns (active (advance k w)) w2). split; [lia|].
      cbn [replicate run_events]. rewrite Hk, H1, H2. split; [done|].
      destruct Hc2 as [?|[(u & ?)|[Hc2 Hne2]]]; [by left|right; by exists u|].
      exfalso. rewrite Hc in Hc2, Hne2. unfold wait_returns in Hc2.
      destruct (decide _) as [He|]; [|done]. apply Hne. unfold active in *. simpl in *. set_solver.
Qed.

(** Two requests, one tracking its work; drained after the first has ended, the second
    outlasting the deadline and ending when cancelled; a third request is refused. *)
Definition demo_events : list event :=
  [Request 1; Request 2; Track 2 3; Done 1; Discard 1; Tick 10; Drain; Request 4; Tick 5].

Lemma drain_is_bounded_witness :
  match run_events demo_events (new_work 20 0) with
  | Some w => drain_at w = WaitingFor {[2%nat; 3%nat]} 30
      ∧ (∃ n w', (1 ≤ n ≤ 2)%nat
          ∧ run_events (Tick (Z.max (30 - now w) (remaining w)) :: replicate n WaitReturns) w = Some w'
          ∧ (drain_at w' = Drained ∨ cancelling w w'))
      ∧ arrive 5 w = (false, w)
  | None => False
  end.
Proof.
  destruct (run_events demo_events (new_work 20 0)) as [w|] eqn:E; [|vm_compute in E; discriminate].
  assert (drain_at w = WaitingFor {[2%nat; 3%nat]} 30) as Hw
    by (vm_compute in E; injection E as <-; vm_compute; reflexivity).
  destruct (drain_is_bounded 20 0 w (ex_intro _ demo_events E)) as (H1 & _ & _ & H2).
  split; [exact Hw|]. split; [exact (H2 _ _ Hw)|]. apply H1. vm_compute in E. by injection E as <-.
Defined.
