(* ===== verification/Readiness.v ===== *)
(** * Database readiness

    [app/common/handlers/database_readiness.py] and the service of
    [app/config/database.py] that owns it: one probe at a time shared by its callers, a
    short-lived cached answer, and [stop], which cancels the probe and waits for it.  The
    awaits are events; times are integers of clock ticks. *)
From S2P Require Import Prelude.
Open Scope Z_scope.

Record readiness := mkReadiness {
  cache : Z;
  active : option nat;                  (* self._active *)
  cached : option (bool * Z);
  stopped : bool;
  running : gset nat;                   (* probes in flight *)
  ended : gmap nat (option bool);       (* probes whose callback has not run; None: cancelled *)
  cancelled : gset nat;                 (* probes sent a cancellation *)
  stopping : option (option nat);       (* the task [stop] awaits *)
  now : Z;
  next : nat;
  seen : list (bool * Z)                (* results, when their callback ran *)
}.

(** [__init__], in milliseconds. *)
Definition DatabaseReadiness (timeout_ms cache_ms : Z) : py readiness :=
  if (timeout_ms <=? 0) || (cache_ms <? 0)
  then Err (ValueError "Invalid database readiness policy.")
  else Ok (mkReadiness cache_ms None None true ∅ ∅ ∅ None 0 0 []).

Definition resume (r : readiness) : readiness :=
  mkReadiness (cache r) (active r) None false (running r) (ended r) (cancelled r) (stopping r)
    (now r) (next r) (seen r).

(** What [check] answers, or the probe it awaits. *)
Inductive answer := Says (b : bool) | Awaits (task : nat).

Definition check (r : readiness) : answer * readiness :=
  if stopped r then (Says false, r)
  else match active r with
  | Some t => (Awaits t, r)
  | None =>
      match cached r with
      | Some (b, expiry) =>
          if now r <? expiry then (Says b, r)
          else (Awaits (next r),
                mkReadiness (cache r) (Some (next r)) (cached r) (stopped r) ({[next r]} ∪ running r)
                  (ended r) (cancelled r) (stopping r) (now r) (S (next r)) (seen r))
      | None =>
          (Awaits (next r),
           mkReadiness (cache r) (Some (next r)) (cached r) (stopped r) ({[next r]} ∪ running r)
             (ended r) (cancelled r) (stopping r) (now r) (S (next r)) (seen r))
      end
  end.

(** [_probe]: every [Exception], a timeout included, is a failed probe. *)
Definition _probe (query : py unit) : option bool :=
  match query with
  | Ok _ => Some true
  | Err e => if is_Exception e then Some false else None
  end.

Definition probe_ends (t : nat) (query : py unit) (r : readiness) : readiness :=
  mkReadiness (cache r) (active r) (cached r) (stopped r) (running r ∖ {[t]})
    (<[t := _probe query]> (ended r)) (cancelled r) (stopping r) (now r) (next r) (seen r).

(** [_finished], the done callback of a probe. *)
Definition _finished (t : nat) (result : option bool) (r : readiness) : readiness :=
  let active' := if bool_decide (active r = Some t) then None else active r in
  match result with
  | Some healthy =>
      mkReadiness (cache r) active'
        (if stopped r then cached r else Some (healthy, now r + cache r)) (stopped r) (running r)
        (delete t (ended r)) (cancelled r) (stopping r) (now r) (next r) (seen r ++ [(healthy, now r)])
  | None =>
      mkReadiness (cache r) active' (cached r) (stopped r) (running r)
        (delete t (ended r)) (cancelled r) (stopping r) (now r) (next r) (seen r)
  end.

(** [stop] until its await, and after it. *)
Definition stop (r : readiness) : readiness :=
  mkReadiness (cache r) (active r) None true (running r) (ended r)
    (match active r with Some t => {[t]} ∪ cancelled r | None => cancelled r end)
    (Some (active r)) (now r) (next r) (seen r).
Definition stop_returns (r : readiness) : readiness :=
  mkReadiness (cache r) None (cached r) (stopped r) (running r) (ended r) (cancelled r) None
    (now r) (next r) (seen r).

Definition advance (d : Z) (r : readiness) : readiness :=
  mkReadiness (cache r) (active r) (cached r) (stopped r) (running r) (ended r) (cancelled r)
    (stopping r) (now r + d) (next r) (seen r).

Inductive event :=
| Resume                                 (* by the owner, not during a stop *)
| Check
| ProbeEnds (t : nat) (query : py unit)  (* only a cancelled probe ends with [CancelledError] *)
| Finished (t : nat)
| Stop
| StopReturns
| Tick (d : Z).

Definition step (e : event) (r : readiness) : option readiness :=
  match e with
  | Resume => if bool_decide (stopping r = None) then Some (resume r) else None
  | Check => Some (check r).2
  | ProbeEnds t query =>
      if bool_decide (t ∈ running r) && (bool_decide (_probe query ≠ None) || bool_decide (t ∈ cancelled r))
      then Some (probe_ends t query r) else None
  | Finished t =>
      match ended r !! t with Some result => Some (_finished t result r) | None => None end
  | Stop => if bool_decide (stopping r = None) then Some (stop r) else None
  | StopReturns =>
      match stopping r with
      | Some (Some t) => if bool_decide (t ∈ running r) then None else Some (stop_returns r)
      | Some None => Some (stop_returns r)
      | None => None
      end
  | Tick d => if d <? 0 then None else Some (advance d r)
  end.

Fixpoint run_events (es : list event) (r : readiness) : option readiness :=
  match es with
  | [] => Some r
  | e :: es' => match step e r with Some r' => run_events es' r' | None => None end
  end.

Definition reachable (timeout_ms cache_ms : Z) (r : readiness) : Prop :=
  ∃ es r0, DatabaseReadiness timeout_ms cache_ms = Ok r0 ∧ run_events es r0 = Some r.

(** ** The service *)

(** [init_db]: the migration check under its deadline, then the probe is enabled; on any
    failure everything acquired is given back.  [revision] is the outcome of the check;
    the engine's [dispose] is the action recorded. *)
Inductive service_action := Resumed | Stopped | Disposed.
Definition init_db (revision : py unit) : list service_action * py unit :=
  match revision with
  | Ok _ => ([Resumed], Ok tt)
  | Err e => ([Stopped; Disposed], Err e)
  end.
Definition close_db : list service_action := [Stopped; Disposed].

(** ** The invariant *)
Record ok (r : readiness) : Prop := {
  ok_running t : t ∈ running r → active r = Some t ∧ (t < next r)%nat;
  ok_ended t : is_Some (ended r !! t) → (t < next r)%nat ∧ t ∉ running r;
  ok_active t : active r = Some t → (t < next r)%nat;
  ok_cached b expiry : cached r = Some (b, expiry) →
    (b, expiry - cache r) ∈ seen r ∧ stopped r = false;
  ok_seen b time : (b, time) ∈ seen r → time ≤ now r;
  ok_stopping x : stopping r = Some x → stopped r = true ∧ ∀ t, t ∈ running r → x = Some t
}.

Lemma ok_start_probe r :
  ok r → active r = None → stopped r = false →
  ok (mkReadiness (cache r) (Some (next r)) (cached r) (stopped r) ({[next r]} ∪ running r)
        (ended r) (cancelled r) (stopping r) (now r) (S (next r)) (seen r)).
Proof.
  intros [Hr He Ha Hc Hs Hst] Hact Hsd. split; simpl; try done.
  - intros t [->%elem_of_singleton|Hin]%elem_of_union; [split; [done|lia]|].
    destruct (Hr t Hin). congruence.
  - intros t Ht. destruct (He t Ht) as [? ?]. split; [lia|].
    rewrite elem_of_union, elem_of_singleton. intros [->|?]; [lia|done].
  - intros t [= <-]. lia.
  - intros x Hx. destruct (Hst x Hx). congruence.
Qed.

Lemma readiness_step_ok e r r' : step e r = Some r' → ok r → ok r'.
Proof.
  intros Hs Hok. pose proof Hok as [Hr He Ha Hc Hse Hst].
  destruct e as [| |t query|t| | |d]; simpl in Hs.
  - case_bool_decide as Hn; simplify_eq. split; simpl; try done. intros t. by rewrite Hn.
  - simplify_eq. unfold check. destruct (stopped r) eqn:Hsd; [done|].
    destruct (active r) eqn:Hact; [done|].
    destruct (cached r) as [[b x]|] eqn:Hca; [destruct (now r <? x); [done|]|];
      rewrite <-Hsd, <-Hca; by apply ok_start_probe.
  - destruct (bool_decide (t ∈ running r)) eqn:Ht; [|done]. apply bool_decide_eq_true in Ht.
    destruct (_ || _); simplify_eq/=. split; simpl; try done.
    + intros u Hu. apply Hr. set_solver.
    + intros u. destruct (decide (u = t)) as [->|Hne].
      * intros _. destruct (Hr t Ht). split; [done|set_solver].
      * rewrite lookup_insert_ne by done. intros Hu. destruct (He u Hu). split; [done|set_solver].
    + intros x Hx. destruct (Hst x Hx) as [? Hx']. split; [done|]. intros u Hu. apply Hx'. set_solver.
  - destruct (ended r !! t) as [result|] eqn:Ht; simplify_eq.
    destruct (He t) as [_ Hnr]; [by eexists|].
    assert (∀ u, u ∈ running r → (if bool_decide (active r = Some t) then None else active r) = Some u ∧ (u < next r)%nat) as Hrun.
    { intros u Hu. destruct (Hr u Hu) as [Hau ?]. split; [|done]. rewrite Hau.
      rewrite bool_decide_false; [done|]. intros [= ->]. done. }
    assert (∀ u, (if bool_decide (active r = Some t) then None else active r) = Some u → (u < next r)%nat) as Hact
      by (intros u; case_bool_decide; [done|auto]).
    assert (∀ u, is_Some (delete t (ended r) !! u) → (u < next r)%nat ∧ u ∉ running r) as Hen.
    { intros u [x [_ Hx]%lookup_delete_Some]. apply He. eauto. }
    destruct result as [healthy|]; split; simpl; try done.
    + intros b x Hx. destruct (stopped r) eqn:Hsd; [by destruct (Hc b x Hx)|].
      injection Hx as <- <-. split; [|done]. apply elem_of_app. right.
      apply list_elem_of_singleton. f_equal. lia.
    + intros b x [Hin|Hin%list_elem_of_singleton]%elem_of_app; [by eapply Hse|].
      injection Hin as <- <-. lia.
  - case_bool_decide as Hn; simplify_eq. split; simpl; try done.
    intros x [= <-]. split; [done|]. intros t Ht. by destruct (Hr t Ht).
  - assert (∀ x, stopping r = Some x → (∀ t, x = Some t → t ∉ running r) → ok (stop_returns r)) as Hret.
    { intros x Hx Hn. destruct (Hst x Hx) as [_ Hx']. split; simpl; try done.
      intros u Hu. by destruct (Hn u (Hx' u Hu)). }
    destruct (stopping r) as [[t|]|] eqn:Hx; [| |done].
    + case_bool_decide as Hnr; simplify_eq. apply (Hret _ eq_refl). by intros u [= <-].
    + simplify_eq. by apply (Hret _ eq_refl).
  - destruct (Z.ltb_spec d 0); simplify_eq. split; simpl; try done.
    intros b x Hin. specialize (Hse b x Hin). lia.
Qed.

Lemma readiness_reachable_ok timeout_ms cache_ms r :
  reachable timeout_ms cache_ms r → ok r ∧ cache r = cache_ms.
Proof.
  intros (es & r0 & H0 & Hr). unfold DatabaseReadiness in H0.
  destruct (_ || _); simplify_eq. set (r0 := mkReadiness _ _ _ _ _ _ _ _ _ _ _) in Hr.
  assert (ok r0 ∧ cache r0 = cache_ms) as Hok.
  { split; [|done]. split; simpl; try done.
    - intros t [x Hx]. by rewrite lookup_empty in Hx.
    - intros b x Hx. by apply elem_of_nil in Hx. }
  clearbody r0. revert r0 Hok Hr. induction es as [|e es IH]; intros r0 [Hok Hc]; simpl.
  - by intros [= ->].
  - destruct (step e r0) as [r1|] eqn:E; [|done]. apply IH. split; [by eapply readiness_step_ok|].
    rewrite <-Hc. destruct e; simpl in E; repeat case_match; simplify_eq; try done.
    + unfold check. repeat case_match; done.
    + unfold _finished. by case_match.
Qed.

(** Readiness answers are fresh and probes are shared: under every interleaving at
    most one probe is in flight and it is the one callers await; a check that answers at
    once says what a probe reported less than the cache time ago, or [false] once
    stopped; and while a stop awaits, or after it, nothing is cached and no probe
    outlives it. *)
Theorem readiness_is_fresh timeout_ms cache_ms r :
  reachable timeout_ms cache_ms r →
  (∀ t u, t ∈ running r → u ∈ running r → t = u) ∧
  (∀ t, t ∈ running r → stopped r = false → (check r).1 = Awaits t) ∧
  (∀ b, (check r).1 = Says b →
     stopped r = true ∧ b = false ∨ ∃ time, (b, time) ∈ seen r ∧ time ≤ now r < time + cache_ms) ∧
  (stopped r = true → cached r = None ∧ (check r).1 = Says false) ∧
  (∀ r', step StopReturns r = Some r' → running r' = ∅ ∧ active r' = None).
Proof.
  intros [[Hr He Ha Hc Hse Hst] Hca]%readiness_reachable_ok. split_and!.
  - intros t u Ht Hu. destruct (Hr t Ht), (Hr u Hu). congruence.
  - intros t Ht Hsd. destruct (Hr t Ht) as [Hat _]. unfold check. by rewrite Hsd, Hat.
  - intros b. unfold check. destruct (stopped r) eqn:Hsd; simpl; [intros [= <-]; by left|].
    destruct (active r); [done|]. destruct (cached r) as [[b' x]|] eqn:Hcd; [|done].
    destruct (Z.ltb_spec (now r) x); [|done]. intros [= <-]. right.
    destruct (Hc b' x eq_refl) as [Hin _]. exists (x - cache r). split; [done|].
    specialize (Hse _ _ Hin). lia.
  - intros Hsd. split; [|unfold check; by rewrite Hsd].
    destruct (cached r) as [[b x]|] eqn:Hcd; [|done]. destruct (Hc b x eq_refl). congruence.
  - intros r' Hs. simpl in Hs. destruct (stopping r) as [x|] eqn:Hx; [|done].
    destruct (Hst x eq_refl) as [_ Hx'].
    assert (running r = ∅) as Hemp.
    { apply elem_of_equiv_empty_L. intros t Ht. rewrite (Hx' t Ht) in Hs.
      by rewrite bool_decide_true in Hs. }
    destruct x as [t|]; [|by simplify_eq]. rewrite bool_decide_false in Hs by (rewrite Hemp; set_solver).
    by simplify_eq.
Qed.

(** A probe shared by two checks, its answer cached and then expired; the next probe is
    cancelled by a stop. *)
Definition demo_events : list event :=
  [Resume; Check; Check; Tick 5; ProbeEnds 0 (Ok tt); Finished 0; Tick 9].
Definition demo_end : list event :=
  [Tick 1; Check; Stop; Check; ProbeEnds 1 (Err CancelledError); Finished 1].

Lemma readiness_is_fresh_witness :
  match DatabaseReadiness 1000 10 with
  | Ok r0 =>
      match run_events demo_events r0, run_events (demo_events ++ demo_end) r0 with
      | Some r, Some r' =>
          (check r).1 = Says true
          ∧ (∃ time, (true, time) ∈ seen r ∧ time ≤ now r < time + 10)
          ∧ cached r' = None
      | _, _ => False
      end
  | Err _ => False
  end.
Proof.
  destruct (DatabaseReadiness 1000 10) as [r0|] eqn:E0; [|discriminate].
  destruct (run_events demo_events r0) as [r|] eqn:E;
    [|vm_compute in E0; injection E0 as <-; vm_compute in E; discriminate].
  destruct (run_events (demo_events ++ demo_end) r0) as [r'|] eqn:E';
    [|vm_compute in E0; injection E0 as <-; vm_compute in E'; discriminate].
  assert ((check r).1 = Says true ∧ stopped r' = true) as [H1 H2].
  { vm_compute in E0. injection E0 as <-. vm_compute in E, E'.
    injection E as <-. injection E' as <-. done. }
  split; [exact H1|split].
  - destruct (readiness_is_fresh 1000 10 r) as (_ & _ & H3 & _); [by exists demo_events, r0|].
    destruct (H3 true H1) as [[_ ?]|?]; [discriminate|done].
  - apply (readiness_is_fresh 1000 10 r'); [by exists (demo_events ++ demo_end), r0|done].
Defined.
