(* ===== verification/EnvSettings.v ===== *)
(** * Settings

    [app/config/environment.py] and the policy of [app/config/database_transport.py]: the
    settings as a table of fields with their defaults, types and validators, loading from
    the process environment field by field, the relations checked between fields, and
    what a rejected configuration reports.  Pydantic's own conversions, the URL parsers,
    the time zone database and TLS certificates are parameters. *)
From S2P Require Import Prelude PyText UnicodeText HeaderPolicy.
From S2P Require RateLimiter.
Open Scope Z_scope.

Record http_url := mkUrl {
  url_text : string;                 (* str(AnyHttpUrl(value)) *)
  url_username : option string;
  url_password : option string;
  url_path : option string;
  url_query : option string;
  url_fragment : option string;
  url_port : option Z
}.

(** What the settings ask of libraries and of the system. *)
Class Environment := {
  pydantic_int : string → option Z;
  pydantic_pattern : string → string → bool;              (* pattern, text *)
  any_http_url : string → option http_url;
  make_url : string → option (string * list string);      (* driver, query options *)
  zone_info : string → bool;
  load_certificates : option string → bool                (* ssl.create_default_context *)
}.

(** ** The transport policy *)
Record DatabasePolicy := mkDatabasePolicy {
  connection_limit : Z;
  queue_limit : Z;
  acquire_timeout_ms : Z;
  connect_timeout_ms : Z;
  ssl_enabled : bool;
  ca_file : option string
}.

Definition within (lo hi v : Z) : bool := (lo <=? v) && (v <=? hi).

(** [__post_init__] *)
Definition new_DatabasePolicy (p : DatabasePolicy) : py DatabasePolicy :=
  if within 1 1000 (connection_limit p) && within 0 10000 (queue_limit p)
     && within 1 2147483647 (acquire_timeout_ms p) && within 1 2147483647 (connect_timeout_ms p)
  then Ok p else Err (ValueError "Invalid database capacity or deadline policy.").

Definition default_policy : DatabasePolicy := mkDatabasePolicy 10 50 1000 10000 false None.

Section settings.
Context `{Environment, IpAddress} (network_text : network → string).

(** Whether connections use TLS. *)
Definition tls_context (p : DatabasePolicy) : py bool :=
  if negb (ssl_enabled p) then
    match ca_file p with
    | Some _ => Err (ValueError "DB_SSL_CA_FILE requires DB_SSL=true.")
    | None => Ok false
    end
  else if load_certificates (ca_file p) then Ok true
  else Err (ValueError "Unable to load valid database CA certificates.").

Definition supported_url (url : string) : bool :=
  match make_url url with
  | Some (driver, query) =>
      String.eqb driver "mysql+asyncmy" && forallb (λ k, String.eqb k "charset") query
  | None => false
  end.

(** ** Values and validators *)
Inductive value :=
| VStr (s : string)
| VInt (z : Z)
| VBool (b : bool)
| VList (l : list string)
| VNone.

Definition invalid {A} (msg : string) : py A := Err (ValueError msg).

(** [if entry not in items: items.append(entry)] *)
Definition append_new (items : list string) (entry : string) : list string :=
  if bool_decide (entry ∈ items) then items else items ++ [entry].

Fixpoint parse_entries (items entries : list string) : py (list string) :=
  match entries with
  | [] => Ok items
  | entry :: entries' =>
      if String.eqb (ustrip entry) "" then invalid "list entries must be non-empty strings"
      else parse_entries (append_new items (ustrip entry)) entries'
  end.

Definition parse_list (v : value) : py (list string) :=
  match v with
  | VStr s => parse_entries [] (if String.eqb (ustrip s) "" then [] else split_on ","%char s)
  | VList l => parse_entries [] l
  | _ => invalid "must be a comma-separated list"
  end.

(** [list(dict.fromkeys(values))] *)
Definition unique (values : list string) : list string := foldl append_new [] values.

Definition remove_slash (s : string) : string :=
  let n := (String.length s - 1)%nat in
  if String.eqb (drop_str n s) "/" then String.substring 0 n s else s.

Definition exact_origin (v : string) : bool :=
  match any_http_url v with
  | Some u =>
      String.eqb (remove_slash (url_text u)) v
      && bool_decide (url_username u = None) && bool_decide (url_password u = None)
      && bool_decide (url_path u = Some "/") && bool_decide (url_query u = None)
      && bool_decide (url_fragment u = None) && negb (bool_decide (url_port u = Some 0))
      && negb (mem_char "*"%char v)
  | None => false
  end.

Definition validate_origins (values : list string) : py (list string) :=
  if forallb exact_origin values then Ok values
  else invalid "use exact HTTP(S) origins without paths, credentials, queries, fragments, or wildcards".

Definition HTTP_METHODS : list string :=
  ["GET"; "POST"; "PUT"; "PATCH"; "DELETE"; "HEAD"; "OPTIONS"].

Definition validate_methods (values : list string) : py (list string) :=
  if existsb (λ v, negb (mem v HTTP_METHODS)) values
  then invalid "use uppercase supported HTTP methods" else Ok values.

(** [re.fullmatch('[a-z0-9-]+', value)] *)
Definition header_char (c : ascii) : bool :=
  is_lower_alpha c || is_digit c || Ascii.eqb c "-"%char.
Definition setting_header (v : string) : bool :=
  negb (String.eqb v "") && str_all header_char v
  && negb (mem v FORBIDDEN_HEADERS) && negb (String.eqb v "connection").

Definition validate_headers (values : list string) : py (list string) :=
  let normalized := unique (ulower <$> values) in
  if forallb setting_header normalized then Ok normalized
  else invalid "use supported HTTP header names; forwarding/hop-by-hop headers are reserved".

(** [re.fullmatch('T+/T+', value)], [T] being the token characters: no slash among them. *)
Definition token_char (c : ascii) : bool :=
  is_lower_alpha c || is_digit c || mem_char c "!#$&^_.+-".
Definition media_type (v : string) : bool :=
  match split_on "/"%char v with
  | [a; b] => negb (String.eqb a "") && str_all token_char a && negb (String.eqb b "") && str_all token_char b
  | _ => false
  end.

Definition validate_content_types (values : list string) : py (list string) :=
  let normalized := unique (ulower <$> values) in
  if forallb media_type normalized then Ok normalized
  else invalid "use exact media types without parameters or wildcards".

Fixpoint proxy_texts (values : list string) : py (list string) :=
  match values with
  | [] => Ok []
  | v :: values' => n ← proxy_network v; rest ← proxy_texts values'; Ok (network_text n :: rest)
  end.
Definition validate_proxies (values : list string) : py (list string) :=
  texts ← proxy_texts values; Ok (unique texts).

Definition strict_boolean (v : value) : py bool :=
  match v with
  | VBool b => Ok b
  | VStr s => if String.eqb s "true" then Ok true else if String.eqb s "false" then Ok false
              else invalid "must be true or false"
  | _ => invalid "must be true or false"
  end.

(** [strict_integer], then Pydantic's conversion of decimal digits. *)
Definition strict_integer (v : value) : py Z :=
  match v with
  | VInt z => Ok z
  | VStr s => if is_decimal s then parse_int s
              else invalid "must be a whole number within the documented range"
  | _ => invalid "must be a whole number within the documented range"
  end.

Definition DEFAULT_API_PUBLISHED_PORT : Z := 8000.
Definition DEFAULT_MYSQL_PUBLISHED_PORT : Z := 3310.

Definition validate_published_port (default_port : Z) (v : value) : py Z :=
  match v with
  | VStr s => if String.eqb s "" then Ok default_port
              else if is_decimal s then parse_int s
              else invalid "must be an integer port from 1 through 65535"
  | VInt z => Ok z
  | _ => invalid "must be an integer port from 1 through 65535"
  end.

(** ** Fields *)
Inductive list_rule := Origins | Methods | Headers | ContentTypes | Proxies.

Inductive kind :=
| KText (min : Z) (max : option Z) (pattern : option string)
| KOptionalText (min : Z)
| KTimezone
| KLiteral (choices : list string)
| KPort (lo hi : Z)                              (* Pydantic's own integer *)
| KPublishedPort (default_port lo hi : Z)
| KInteger (lo hi : Z)
| KBoolean
| KList (min max : Z) (rule : list_rule).

Definition bounded (lo hi z : Z) : py value :=
  if within lo hi z then Ok (VInt z) else invalid "out of range".

Definition apply_rule (rule : list_rule) (l : list string) : py (list string) :=
  match rule with
  | Origins => validate_origins l
  | Methods => validate_methods l
  | Headers => validate_headers l
  | ContentTypes => validate_content_types l
  | Proxies => validate_proxies l
  end.

(** The validators before, the type with its constraints, and the validators after. *)
Definition validate (k : kind) (v : value) : py value :=
  match k, v with
  | KText min max pattern, VStr s =>
      if (min <=? ulen s) && match max with Some m => ulen s <=? m | None => true end
         && match pattern with Some p => pydantic_pattern p s | None => true end
      then Ok (VStr s) else invalid "text"
  | KOptionalText _, VNone => Ok VNone
  | KOptionalText min, VStr s => if min <=? ulen s then Ok (VStr s) else invalid "text"
  | KTimezone, VStr s =>
      if zone_info s then Ok (VStr s) else invalid "must be a valid IANA timezone identifier"
  | KLiteral choices, VStr s => if mem s choices then Ok (VStr s) else invalid "literal"
  | KPort lo hi, VStr s =>
      match pydantic_int s with Some z => bounded lo hi z | None => invalid "integer" end
  | KPort lo hi, VInt z => bounded lo hi z
  | KPublishedPort d lo hi, _ => z ← validate_published_port d v; bounded lo hi z
  | KInteger lo hi, _ => z ← strict_integer v; bounded lo hi z
  | KBoolean, _ => b ← strict_boolean v; Ok (VBool b)
  | KList min max rule, _ =>
      l ← parse_list v;
      if within min max (Z.of_nat (length l)) then l ← apply_rule rule l; Ok (VList l)
      else invalid "list length"
  | _, _ => invalid "type"
  end.

Abbreviation data := (list (string * value)) (only parsing).

Record field := mkField {
  f_name : string;
  f_kind : kind;
  f_default : option (data → value)     (* None: required *)
}.

Definition required (n : string) (k : kind) : field := mkField n k None.
Definition optional (n : string) (k : kind) (v : value) : field := mkField n k (Some (λ _, v)).

Definition operational_default (d : data) : value :=
  match assoc_get "ENV" d with
  | Some (VStr s) => VBool (negb (String.eqb s "production"))
  | _ => VBool true
  end.
Definition operational (n : string) : field := mkField n KBoolean (Some operational_default).

(** [r'^\d+\.\d+\.\d+$'] *)
Definition SEMVER_REGEX : string := "^\d+\.\d+\.\d+$".
Definition int_max : Z := 2147483647.
Definition all_methods : list string := ["GET"; "POST"; "PUT"; "DELETE"; "PATCH"; "HEAD"; "OPTIONS"].

(** The class body, in order. *)
Definition Settings : list field :=
  [required "APP_NAME" (KText 1 (Some 120) None);
   required "APP_VERSION" (KText 0 None (Some SEMVER_REGEX));
   required "ENV" (KLiteral ["development"; "production"; "test"]);
   optional "LOG_LEVEL" (KLiteral ["DEBUG"; "INFO"; "WARN"; "ERROR"]) (VStr "INFO");
   optional "HOST" (KText 0 None None) (VStr "0.0.0.0");
   required "PORT" (KPort 1 65535);
   optional "API_PUBLISHED_PORT" (KPublishedPort DEFAULT_API_PUBLISHED_PORT 1 65535)
     (VInt DEFAULT_API_PUBLISHED_PORT);
   optional "MYSQL_PUBLISHED_PORT" (KPublishedPort DEFAULT_MYSQL_PUBLISHED_PORT 1 65535)
     (VInt DEFAULT_MYSQL_PUBLISHED_PORT);
   required "DATABASE_URL" (KText 5 None None);
   optional "DB_POOL_CONNECTION_LIMIT" (KInteger 1 1000) (VInt 10);
   optional "DB_POOL_QUEUE_LIMIT" (KInteger 0 10000) (VInt 50);
   optional "DB_POOL_ACQUIRE_TIMEOUT_MS" (KInteger 1 int_max) (VInt 1000);
   optional "DB_CONNECT_TIMEOUT_MS" (KInteger 1 int_max) (VInt 10000);
   optional "DB_READINESS_TIMEOUT_MS" (KInteger 1 int_max) (VInt 1000);
   optional "DB_READINESS_CACHE_MS" (KInteger 0 int_max) (VInt 1000);
   optional "DB_MIGRATION_CHECK_TIMEOUT_MS" (KInteger 1 int_max) (VInt 5000);
   optional "DB_SSL" KBoolean (VBool false);
   optional "DB_SSL_CA_FILE" (KOptionalText 1) VNone;
   optional "TIMEZONE" KTimezone (VStr "Etc/UTC");
   operational "DOCS_ENABLED";
   operational "DIAGNOSTICS_ENABLED";
   operational "METRICS_ENABLED";
   optional "CORS_ORIGINS" (KList 1 100 Origins) (VList ["http://localhost:3000"]);
   optional "CORS_METHODS" (KList 1 7 Methods) (VList all_methods);
   optional "CORS_ALLOWED_HEADERS" (KList 0 100 Headers)
     (VList ["content-type"; "authorization"; "x-requested-with"; "idempotency-key"]);
   optional "CORS_EXPOSED_HEADERS" (KList 0 100 Headers) (VList ["authorization"; "set-cookie"]);
   optional "CORS_CREDENTIALS" KBoolean (VBool true);
   optional "CORS_MAX_AGE_SECONDS" (KInteger 0 86400) (VInt 86400);
   optional "TRUST_PROXY" (KList 0 100 Proxies) (VList []);
   optional "RATE_LIMIT_WINDOW_MS" (KInteger 1 86400000) (VInt RateLimiter.DEFAULT_WINDOW_MS);
   optional "RATE_LIMIT_MAX" (KInteger 1 10000) (VInt RateLimiter.DEFAULT_MAX_REQUESTS);
   optional "RATE_LIMIT_MAX_CLIENTS" (KInteger 1 100000) (VInt RateLimiter.DEFAULT_MAX_CLIENTS);
   optional "IDEMPOTENCY_MAX_RESPONSE_BYTES" (KInteger 1 65536) (VInt 65536);
   optional "IDEMPOTENCY_CLEANUP_BATCH_SIZE" (KInteger 1 1000) (VInt 100);
   optional "IDEMPOTENCY_CLEANUP_MAX_BATCHES" (KInteger 1 100) (VInt 10);
   optional "REQUEST_TIMEOUT_MS" (KInteger 1 int_max) (VInt 10000);
   optional "HTTP_DRAIN_TIMEOUT_MS" (KInteger 1 int_max) (VInt 25000);
   optional "SHUTDOWN_TIMEOUT_MS" (KInteger 1 int_max) (VInt 30000);
   optional "REQUEST_FIRST_BODY_TIMEOUT_MS" (KInteger 1 int_max) (VInt 5000);
   optional "REQUEST_CHUNK_TIMEOUT_MS" (KInteger 1 int_max) (VInt 2000);
   optional "HTTP_MAX_BODY_BYTES" (KInteger 1 1073741824) (VInt 1048576);
   optional "HTTP_MAX_HEADER_COUNT" (KInteger 1 10000) (VInt 100);
   optional "HTTP_MAX_SINGLE_HEADER_BYTES" (KInteger 1 1048576) (VInt 4096);
   optional "HTTP_MAX_TOTAL_HEADER_BYTES" (KInteger 1 16777216) (VInt 8192);
   optional "HTTP_ALLOWED_METHODS" (KList 1 7 Methods) (VList HTTP_METHODS);
   optional "HTTP_ALLOWED_CONTENT_TYPES" (KList 1 100 ContentTypes)
     (VList ["application/json"; "multipart/form-data"])].

(** ** Loading *)

(** The value of a field: from the environment, else its default. *)
Definition raw_value (env : string → option string) (d : data) (f : field) : option value :=
  match env (f_name f) with
  | Some s => Some (VStr s)
  | None => (λ g, g d) <$> f_default f
  end.

(** Fields are validated in order; those that fail are reported and are not among the
    data later defaults see. *)
Fixpoint validate_fields (fs : list field) (env : string → option string) (d : data)
    (errors : list string) : data * list string :=
  match fs with
  | [] => (d, errors)
  | f :: fs' =>
      match raw_value env d f with
      | Some raw =>
          match validate (f_kind f) raw with
          | Ok v => validate_fields fs' env (d ++ [(f_name f, v)]) errors
          | Err _ => validate_fields fs' env d (errors ++ [f_name f])
          end
      | None => validate_fields fs' env d (errors ++ [f_name f])
      end
  end.

Definition get_int (d : data) (n : string) : Z :=
  match assoc_get n d with Some (VInt z) => z | _ => 0 end.
Definition get_list (d : data) (n : string) : list string :=
  match assoc_get n d with Some (VList l) => l | _ => [] end.
Definition get_bool (d : data) (n : string) : bool :=
  match assoc_get n d with Some (VBool b) => b | _ => false end.
Definition get_text (d : data) (n : string) : option string :=
  match assoc_get n d with Some (VStr s) => Some s | _ => None end.

Definition validate_http_relationships (d : data) : py unit :=
  if 10000 <? get_int d "IDEMPOTENCY_CLEANUP_BATCH_SIZE" * get_int d "IDEMPOTENCY_CLEANUP_MAX_BATCHES"
  then invalid "Idempotency cleanup must not exceed 10000 rows per sweep"
  else if negb (supported_url (default EmptyString (get_text d "DATABASE_URL")))
  then invalid "DATABASE_URL must use mysql+asyncmy; only the charset URL option is supported"
  else if get_int d "SHUTDOWN_TIMEOUT_MS" <=? get_int d "HTTP_DRAIN_TIMEOUT_MS"
  then invalid "HTTP_DRAIN_TIMEOUT_MS must be less than SHUTDOWN_TIMEOUT_MS"
  else if match get_text d "DB_SSL_CA_FILE" with
          | Some file => negb (get_bool d "DB_SSL") || String.eqb (ustrip file) ""
          | None => false
          end
  then invalid "DB_SSL_CA_FILE requires DB_SSL=true and a non-empty path"
  else if get_bool d "DB_SSL"
          && negb (is_ok (p ← new_DatabasePolicy (mkDatabasePolicy 10 50 1000 10000 true
                                                    (get_text d "DB_SSL_CA_FILE"));
                          tls_context p))
  then invalid "Invalid database TLS configuration or CA certificates"
  else if get_int d "HTTP_MAX_TOTAL_HEADER_BYTES" <? get_int d "HTTP_MAX_SINGLE_HEADER_BYTES"
  then invalid "HTTP_MAX_SINGLE_HEADER_BYTES must not exceed HTTP_MAX_TOTAL_HEADER_BYTES"
  else if get_int d "REQUEST_TIMEOUT_MS"
          <? Z.max (get_int d "REQUEST_FIRST_BODY_TIMEOUT_MS") (get_int d "REQUEST_CHUNK_TIMEOUT_MS")
  then invalid "body wait deadlines must not exceed REQUEST_TIMEOUT_MS"
  else if negb (forallb (λ m, mem m (get_list d "HTTP_ALLOWED_METHODS")) (get_list d "CORS_METHODS"))
  then invalid "CORS_METHODS must be a subset of HTTP_ALLOWED_METHODS"
  else
    _ ← RateLimiter.new_policy (get_int d "RATE_LIMIT_WINDOW_MS") (get_int d "RATE_LIMIT_MAX")
          (get_int d "RATE_LIMIT_MAX_CLIENTS");
    Ok tt.

(** [Settings(...)]: the settings, or the names reported. *)
Definition new_Settings (env : string → option string) : result (list string) data :=
  match validate_fields Settings env [] [] with
  | (d, []) =>
      match validate_http_relationships d with
      | Ok _ => Ok d
      | Err _ => Err ["configuration"]
      end
  | (_, errors) => Err errors
  end.

(** [load_settings]: [dotenv] is the contents of the [.env] file, which an explicit test
    run ignores; a variable of the process wins over the file's. *)
Definition load_settings (process dotenv : string → option string) : result (list string) data :=
  let isolated := bool_decide (process "QUICKAPI_TEST_RUN" = Some "true")
                  && bool_decide (process "ENV" = Some "test") in
  new_Settings (λ n, match process n with
                     | Some s => Some s
                     | None => if isolated then None else dotenv n
                     end).

(** [configured_policy] *)
Definition configured_policy (d : data) : py DatabasePolicy :=
  new_DatabasePolicy (mkDatabasePolicy (get_int d "DB_POOL_CONNECTION_LIMIT")
    (get_int d "DB_POOL_QUEUE_LIMIT") (get_int d "DB_POOL_ACQUIRE_TIMEOUT_MS")
    (get_int d "DB_CONNECT_TIMEOUT_MS") (get_bool d "DB_SSL") (get_text d "DB_SSL_CA_FILE")).

(** [build_database_engine], up to the pool it configures. *)
Definition build_database_engine (url : string) (policy : DatabasePolicy) : py DatabasePolicy :=
  match make_url url with
  | None => Err (ValueError "Could not parse SQLAlchemy URL")
  | Some _ =>
      _ ← tls_context policy;
      if supported_url url then Ok policy
      else Err (ValueError "MySQL requires asyncmy; only the charset URL option is supported.")
  end.

(** What a rejected configuration prints: the fields, or a JSON line in production. *)
Inductive report := JsonReport (fields : list string) | TextReport (issues : Z) (fields : list string).
Definition print_env_error_and_exit (process dotenv : string → option string) (errors : list string)
  : report :=
  let mode := match process "ENV" with Some m => Some m | None => dotenv "ENV" end in
  if bool_decide (mode = Some "production") then JsonReport errors
  else TextReport (Z.of_nat (length errors)) errors.
End settings.
