(* ===== verification/EnvSettingsFacts.v ===== *)
(** * What accepted and rejected settings guarantee

    Accepted settings satisfy every bound and relation the components they configure
    rely on; a rejected configuration reports field names and nothing else; list settings
    are normalised and read back. *)
From S2P Require Import Prelude PyText UnicodeText HeaderPolicy FingerprintFacts CorsFacts EnvSettings.
From S2P Require RateLimiter.
Open Scope Z_scope.

(** ** Lists *)
Definition entry_ok (s : string) : Prop := ustrip s = s ∧ s ≠ "".

Lemma append_new_NoDup items entry : NoDup items → NoDup (append_new items entry).
Proof.
  intros Hi. unfold append_new. case_bool_decide; [done|].
  apply NoDup_app. split_and!; [done|set_solver|apply NoDup_singleton].
Qed.

Lemma append_new_elem items entry x : x ∈ append_new items entry ↔ x ∈ items ∨ x = entry.
Proof. unfold append_new. case_bool_decide; set_solver. Qed.

Lemma parse_entries_ok entries items l :
  parse_entries items entries = Ok l → NoDup items → Forall entry_ok items →
  NoDup l ∧ Forall entry_ok l.
Proof.
  revert items. induction entries as [|e entries IH]; intros items; simpl; [by intros [= ->]|].
  destruct (String.eqb_spec (ustrip e) ""); [done|]. intros Hp Hi Hf. apply (IH _ Hp).
  - by apply append_new_NoDup.
  - rewrite Forall_forall in Hf |- *. intros x [Hx| ->]%append_new_elem; [auto|].
    split; [by rewrite ustrip_idemp|done].
Qed.

(** Entries that are normal already, and new, are kept. *)
Lemma parse_entries_normal l items :
  Forall entry_ok l → NoDup (items ++ l) → parse_entries items l = Ok (items ++ l).
Proof.
  revert items. induction l as [|e l IH]; intros items Hl Hnd; simpl; [by rewrite app_nil_r|].
  apply Forall_cons in Hl as [[He Hne] Hl]. rewrite He.
  destruct (String.eqb_spec e ""); [done|].
  assert (append_new items e = items ++ [e]) as ->.
  { unfold append_new. rewrite bool_decide_false; [done|].
    intros Hin. apply NoDup_app in Hnd as (_ & Hd & _). apply (Hd e Hin). left. }
  rewrite IH; [by rewrite <-(assoc_L (++))|done|by rewrite <-(assoc_L (++))].
Qed.

Lemma parse_entries_strip entries items :
  parse_entries items (ustrip <$> entries) = parse_entries items entries.
Proof.
  revert items. induction entries as [|e entries IH]; intros items; simpl; [done|].
  rewrite ustrip_idemp. destruct (String.eqb _ _); [done|apply IH].
Qed.

Lemma split_on_space r : ustrip <$> split_on ","%char (" " +:+ r) = ustrip <$> split_on ","%char r.
Proof.
  change (split_on ","%char (" " +:+ r)) with
    (match split_on ","%char r with w :: ws => String " "%char w :: ws | [] => [" "] end).
  pose proof (split_on_nonempty ","%char r). destruct (split_on ","%char r) as [|w ws]; [done|].
  rewrite !fmap_cons. by rewrite <-(ustrip_space w).
Qed.

(** Splitting what [join] has put together, up to the space it adds after each comma. *)
Lemma split_join_entries l :
  Forall (λ s, entry_ok s ∧ mem_char ","%char s = false) l → l ≠ [] →
  ustrip <$> split_on ","%char (join ", " l) = l.
Proof.
  induction 1 as [|t l [[Ht _] Hc] Hl IH]; [done|]. intros _. destruct l as [|u l].
  - simpl. rewrite <-(str_app_nil t) at 1. rewrite split_on_app by done. simpl.
    by rewrite str_app_nil, Ht.
  - specialize (IH ltac:(done)). change (join ", " (t :: u :: l)) with (t +:+ String ","%char (" " +:+ join ", " (u :: l))).
    rewrite split_on_app by done.
    change (split_on ","%char (String ","%char (" " +:+ join ", " (u :: l))))
      with ("" :: split_on ","%char (" " +:+ join ", " (u :: l))).
    cbv iota. rewrite str_app_nil, fmap_cons, Ht, split_on_space. by f_equal.
Qed.

(** List settings: what [parse_list] accepts is a list of distinct, stripped,
    non-empty entries, on which it is the identity; and written out as a comma-separated
    text (its entries holding no comma) it reads back the same. *)
Theorem list_settings_round_trip v l :
  parse_list v = Ok l →
  NoDup l ∧ Forall entry_ok l ∧ parse_list (VList l) = Ok l ∧
  (Forall (λ s, mem_char ","%char s = false) l → parse_list (VStr (join ", " l)) = Ok l).
Proof.
  intros Hp. assert (NoDup l ∧ Forall entry_ok l) as [Hnd Hf].
  { unfold parse_list in Hp. destruct v; try done;
      eapply parse_entries_ok; (apply Hp || constructor). }
  assert (parse_entries [] l = Ok l) as Hl by (by apply parse_entries_normal).
  split_and!; [done|done|done|]. intros Hc. unfold parse_list.
  destruct l as [|e l']; [done|].
  assert (Forall (λ s, entry_ok s ∧ mem_char ","%char s = false) (e :: l')) as Ht
    by (by apply Forall_and).
  pose proof (split_join_entries (e :: l') Ht ltac:(done)) as Hs.
  destruct (String.eqb_spec (ustrip (join ", " (e :: l'))) "") as [He|_].
  - exfalso. pose proof (ustrip_empty_no_comma _ He) as Hno.
    rewrite <-(str_app_nil (join _ _)) in Hs. rewrite split_on_app in Hs by done. simpl in Hs.
    rewrite str_app_nil in Hs. injection Hs as Hs _. change (join ", " (e :: l')) with (join ", " (e :: l')) in Hs.
    apply Forall_cons in Hf as [[_ Hne] _]. apply Hne. by rewrite <-Hs.
  - by rewrite <-parse_entries_strip, Hs.
Qed.

(** ** Accepted settings *)
Section accepted.
Context `{Environment, IpAddress} (network_text : network → string).

Lemma validate_fields_errors fs env d errors :
  ∃ more, (validate_fields network_text fs env d errors).2 = errors ++ more
    ∧ ∀ n, n ∈ more → n ∈ f_name <$> fs.
Proof.
  revert d errors. induction fs as [|f fs IH]; intros d errors; simpl.
  { exists []. rewrite app_nil_r. split; [done|by intros n ?%elem_of_nil]. }
  assert (∀ d errors, ∃ more, (validate_fields network_text fs env d (errors ++ [f_name f])).2
    = errors ++ more ∧ ∀ n, n ∈ more → n ∈ f_name f :: (f_name <$> fs)) as Hfail.
  { intros d1 errors1. destruct (IH d1 (errors1 ++ [f_name f])) as (more & -> & Hm).
    exists (f_name f :: more). rewrite <-(assoc_L (++)). split; [done|].
    intros n [->|Hn]%elem_of_cons; [left|right; auto]. }
  destruct (raw_value env d f) as [raw|]; [|apply Hfail].
  destruct (validate _ _ raw) as [v|]; [|apply Hfail].
  destruct (IH (d ++ [(f_name f, v)]) errors) as (more & -> & Hm). exists more.
  split; [done|]. intros n Hn. right. auto.
Qed.

Lemma validate_fields_ok fs env d errors d' :
  validate_fields network_text fs env d errors = (d', []) →
  ∃ added, d' = d ++ added ∧ added.*1 = f_name <$> fs ∧
    ∀ f, f ∈ fs → ∃ raw v, (f_name f, v) ∈ added ∧ validate network_text (f_kind f) raw = Ok v.
Proof.
  revert d errors. induction fs as [|f fs IH]; intros d errors; simpl.
  { intros [= <- _]. exists []. rewrite app_nil_r. split_and!; [done|done|by intros f ?%elem_of_nil]. }
  assert (∀ d, validate_fields network_text fs env d (errors ++ [f_name f]) = (d', []) → False) as Hfail.
  { intros d1 Hv. destruct (validate_fields_errors fs env d1 (errors ++ [f_name f])) as (more & Hm & _).
    rewrite Hv in Hm. by destruct errors. }
  destruct (raw_value env d f) as [raw|]; [|by intros ?%Hfail].
  destruct (validate _ _ raw) as [v|] eqn:Hv; [|by intros ?%Hfail].
  intros (added & -> & Hk & Hf)%IH. exists ((f_name f, v) :: added).
  rewrite <-(assoc_L (++)). split_and!; [done|by rewrite fmap_cons, Hk|].
  intros g [->|Hg]%elem_of_cons.
  - exists raw, v. split; [left|done].
  - destruct (Hf g Hg) as (raw' & v' & Hin & ?). exists raw', v'. split; [by right|done].
Qed.

Lemma Settings_NoDup : NoDup (f_name <$> Settings).
Proof. apply (bool_decide_unpack _). vm_compute. done. Qed.

Lemma new_Settings_ok env d :
  new_Settings network_text env = Ok d →
  validate_http_relationships d = Ok tt ∧
  ∀ f, f ∈ Settings → ∃ raw v, assoc_get (f_name f) d = Some v
    ∧ validate network_text (f_kind f) raw = Ok v.
Proof.
  unfold new_Settings.
  destruct (validate_fields network_text Settings env [] []) as [d' errors] eqn:Hv.
  destruct errors; [|done]. destruct (validate_http_relationships d') as [[]|] eqn:Hr; [|done].
  intros [= <-]. split; [done|]. apply validate_fields_ok in Hv as (added & -> & Hk & Hf).
  intros f Hin. destruct (Hf f Hin) as (raw & v & Hv & ?). exists raw, v. split; [|done].
  apply assoc_get_in_NoDup; [|done]. simpl. rewrite Hk. apply Settings_NoDup.
Qed.

(** *** What each type of field accepts *)
Definition integer_range (k : kind) : option (Z * Z) :=
  match k with
  | KPort lo hi | KPublishedPort _ lo hi | KInteger lo hi => Some (lo, hi)
  | _ => None
  end.

Lemma bounded_ok lo hi z v : bounded lo hi z = Ok v → v = VInt z ∧ lo ≤ z ≤ hi.
Proof.
  unfold bounded. destruct (within lo hi z) eqn:E; [|done]. intros [= <-].
  unfold within in E. by reflect_bools.
Qed.

Lemma validate_integer k lo hi raw v :
  integer_range k = Some (lo, hi) → validate network_text k raw = Ok v →
  ∃ z, v = VInt z ∧ lo ≤ z ≤ hi.
Proof.
  destruct k; simpl; try done; intros [= <- <-].
  - destruct raw; try done; [|by intros ?%bounded_ok; eauto].
    destruct (pydantic_int s); [by intros ?%bounded_ok; eauto|done].
  - destruct (validate_published_port _ _); [by intros ?%bounded_ok; eauto|done].
  - destruct (strict_integer _); [by intros ?%bounded_ok; eauto|done].
Qed.

Lemma validate_list min max rule raw v :
  validate network_text (KList min max rule) raw = Ok v →
  ∃ l l', v = VList l ∧ min ≤ Z.of_nat (length l') ≤ max ∧ apply_rule network_text rule l' = Ok l.
Proof.
  simpl. destruct (parse_list raw) as [l'|]; simpl; [|done].
  unfold within. destruct (_ && _) eqn:E; [|done]. reflect_bools.
  destruct (apply_rule _ rule l') as [l|] eqn:Hr; simpl; [|done]. intros [= <-]. eauto 10.
Qed.

Lemma validate_methods_ok l l' : validate_methods l' = Ok l → l = l' ∧ Forall (λ m, m ∈ HTTP_METHODS) l.
Proof.
  unfold validate_methods. destruct (existsb _ l') eqn:E; [done|]. intros [= <-]. split; [done|].
  apply Forall_forall. intros m Hm. destruct (mem m HTTP_METHODS) eqn:Hmem; [by apply bool_decide_eq_true in Hmem|].
  exfalso. rewrite <-not_true_iff_false in E. apply E, existsb_exists. exists m.
  rewrite Hmem. split; [by apply list_elem_of_In|done].
Qed.

Lemma validate_headers_ok l l' :
  validate_headers l' = Ok l → Forall (λ h, setting_header h = true) l.
Proof.
  unfold validate_headers. destruct (forallb _ _) eqn:E; [|done]. intros [= <-].
  apply Forall_forall. intros h Hh. rewrite forallb_forall in E. by apply E, list_elem_of_In.
Qed.

(** The relations between fields, one by one. *)
Lemma relationships_ok d :
  validate_http_relationships d = Ok tt →
  get_int d "IDEMPOTENCY_CLEANUP_BATCH_SIZE" * get_int d "IDEMPOTENCY_CLEANUP_MAX_BATCHES" ≤ 10000
  ∧ supported_url (default EmptyString (get_text d "DATABASE_URL")) = true
  ∧ get_int d "HTTP_DRAIN_TIMEOUT_MS" < get_int d "SHUTDOWN_TIMEOUT_MS"
  ∧ ((∀ file, get_text d "DB_SSL_CA_FILE" = Some file → get_bool d "DB_SSL" = true ∧ ustrip file ≠ "")
     ∧ (get_bool d "DB_SSL" = true → load_certificates (get_text d "DB_SSL_CA_FILE") = true))
  ∧ get_int d "HTTP_MAX_SINGLE_HEADER_BYTES" ≤ get_int d "HTTP_MAX_TOTAL_HEADER_BYTES"
  ∧ get_int d "REQUEST_FIRST_BODY_TIMEOUT_MS" ≤ get_int d "REQUEST_TIMEOUT_MS"
  ∧ get_int d "REQUEST_CHUNK_TIMEOUT_MS" ≤ get_int d "REQUEST_TIMEOUT_MS"
  ∧ Forall (λ m, m ∈ get_list d "HTTP_ALLOWED_METHODS") (get_list d "CORS_METHODS")
  ∧ ∃ p, RateLimiter.new_policy (get_int d "RATE_LIMIT_WINDOW_MS") (get_int d "RATE_LIMIT_MAX")
          (get_int d "RATE_LIMIT_MAX_CLIENTS") = Ok p.
Proof.
  unfold validate_http_relationships.
  destruct (Z.ltb_spec 10000 (get_int d "IDEMPOTENCY_CLEANUP_BATCH_SIZE" * get_int d "IDEMPOTENCY_CLEANUP_MAX_BATCHES")); [done|].
  destruct (supported_url _) eqn:Hu; simpl; [|done].
  destruct (Z.leb_spec (get_int d "SHUTDOWN_TIMEOUT_MS") (get_int d "HTTP_DRAIN_TIMEOUT_MS")); [done|].
  destruct (match get_text d "DB_SSL_CA_FILE" with Some _ => _ | None => _ end) eqn:Hca; [done|].
  destruct (get_bool d "DB_SSL" && _) eqn:Htls; [done|].
  destruct (Z.ltb_spec (get_int d "HTTP_MAX_TOTAL_HEADER_BYTES") (get_int d "HTTP_MAX_SINGLE_HEADER_BYTES")); [done|].
  destruct (Z.ltb_spec (get_int d "REQUEST_TIMEOUT_MS")
    (Z.max (get_int d "REQUEST_FIRST_BODY_TIMEOUT_MS") (get_int d "REQUEST_CHUNK_TIMEOUT_MS"))); [done|].
  destruct (forallb _ _) eqn:Hm; simpl; [|done].
  destruct (RateLimiter.new_policy _ _ _) as [p|]; [|done]. intros _.
  split_and!; try done; try lia.
  - intros file E. rewrite E in Hca. apply orb_false_iff in Hca as [Hs%negb_false_iff Hb].
    split; [done|]. by apply String.eqb_neq.
  - intros Hssl. rewrite Hssl in Htls. simpl in Htls. unfold tls_context in Htls. simpl in Htls.
    by destruct (load_certificates _).
  - apply Forall_forall. intros m Hin. rewrite forallb_forall in Hm.
    apply list_elem_of_In, Hm in Hin. by apply bool_decide_eq_true in Hin.
  - by exists p.
Qed.
End accepted.

(** Membership in the table, by evaluation. *)
Ltac in_table := unfold Settings; repeat (first [left | right]).

(** The integer settings with the ranges the documentation gives for them. *)
Definition documented_ranges : list (string * (Z * Z)) :=
  [("PORT", (1, 65535)); ("API_PUBLISHED_PORT", (1, 65535)); ("MYSQL_PUBLISHED_PORT", (1, 65535));
   ("DB_POOL_CONNECTION_LIMIT", (1, 1000)); ("DB_POOL_QUEUE_LIMIT", (0, 10000));
   ("DB_POOL_ACQUIRE_TIMEOUT_MS", (1, 2147483647)); ("DB_CONNECT_TIMEOUT_MS", (1, 2147483647));
   ("DB_READINESS_TIMEOUT_MS", (1, 2147483647)); ("DB_READINESS_CACHE_MS", (0, 2147483647));
   ("DB_MIGRATION_CHECK_TIMEOUT_MS", (1, 2147483647)); ("CORS_MAX_AGE_SECONDS", (0, 86400));
   ("RATE_LIMIT_WINDOW_MS", (1, 86400000)); ("RATE_LIMIT_MAX", (1, 10000));
   ("RATE_LIMIT_MAX_CLIENTS", (1, 100000)); ("IDEMPOTENCY_MAX_RESPONSE_BYTES", (1, 65536));
   ("IDEMPOTENCY_CLEANUP_BATCH_SIZE", (1, 1000)); ("IDEMPOTENCY_CLEANUP_MAX_BATCHES", (1, 100));
   ("REQUEST_TIMEOUT_MS", (1, 2147483647)); ("HTTP_DRAIN_TIMEOUT_MS", (1, 2147483647));
   ("SHUTDOWN_TIMEOUT_MS", (1, 2147483647)); ("REQUEST_FIRST_BODY_TIMEOUT_MS", (1, 2147483647));
   ("REQUEST_CHUNK_TIMEOUT_MS", (1, 2147483647)); ("HTTP_MAX_BODY_BYTES", (1, 1073741824));
   ("HTTP_MAX_HEADER_COUNT", (1, 10000)); ("HTTP_MAX_SINGLE_HEADER_BYTES", (1, 1048576));
   ("HTTP_MAX_TOTAL_HEADER_BYTES", (1, 16777216))].

(** A header name a list setting may hold. *)
Definition announceable (h : string) : Prop :=
  h ≠ "" ∧ h ≠ "connection" ∧ h ∉ FORBIDDEN_HEADERS
  ∧ str_all (λ c, is_lower_alpha c || is_digit c || Ascii.eqb c "-"%char) h = true.

Record consistent `{Environment} (d : list (string * value)) : Prop := {
  co_ranges : Forall (λ r, ∃ z, assoc_get r.1 d = Some (VInt z) ∧ r.2.1 ≤ z ≤ r.2.2) documented_ranges;
  co_mode : ∃ mode, get_text d "ENV" = Some mode ∧ mode ∈ ["development"; "production"; "test"];
  co_name : ∃ name, get_text d "APP_NAME" = Some name ∧ 1 ≤ ulen name ≤ 120;
  co_methods : get_list d "HTTP_ALLOWED_METHODS" ≠ []
    ∧ Forall (λ m, m ∈ ["GET"; "POST"; "PUT"; "PATCH"; "DELETE"; "HEAD"; "OPTIONS"])
        (get_list d "HTTP_ALLOWED_METHODS");
  co_cors_methods : get_list d "CORS_METHODS" ≠ []
    ∧ Forall (λ m, m ∈ get_list d "HTTP_ALLOWED_METHODS") (get_list d "CORS_METHODS");
  co_allowed : Forall announceable (get_list d "CORS_ALLOWED_HEADERS");
  co_exposed : Forall announceable (get_list d "CORS_EXPOSED_HEADERS");
  co_sweep : get_int d "IDEMPOTENCY_CLEANUP_BATCH_SIZE" * get_int d "IDEMPOTENCY_CLEANUP_MAX_BATCHES" ≤ 10000;
  co_database : ∃ url options, get_text d "DATABASE_URL" = Some url
    ∧ make_url url = Some ("mysql+asyncmy", options) ∧ Forall (λ o, o = "charset") options;
  co_drain : get_int d "HTTP_DRAIN_TIMEOUT_MS" < get_int d "SHUTDOWN_TIMEOUT_MS";
  co_ca_file file : get_text d "DB_SSL_CA_FILE" = Some file → get_bool d "DB_SSL" = true ∧ ustrip file ≠ "";
  co_tls : get_bool d "DB_SSL" = true → load_certificates (get_text d "DB_SSL_CA_FILE") = true;
  co_header : get_int d "HTTP_MAX_SINGLE_HEADER_BYTES" ≤ get_int d "HTTP_MAX_TOTAL_HEADER_BYTES";
  co_first_wait : get_int d "REQUEST_FIRST_BODY_TIMEOUT_MS" ≤ get_int d "REQUEST_TIMEOUT_MS";
  co_chunk_wait : get_int d "REQUEST_CHUNK_TIMEOUT_MS" ≤ get_int d "REQUEST_TIMEOUT_MS";
  co_slots : get_int d "RATE_LIMIT_MAX" * get_int d "RATE_LIMIT_MAX_CLIENTS" ≤ 2000000;
  co_limiter : ∃ lim, RateLimiter.new_limiter (get_int d "RATE_LIMIT_WINDOW_MS") (get_int d "RATE_LIMIT_MAX")
                        (get_int d "RATE_LIMIT_MAX_CLIENTS") = Ok lim;
  co_engine : ∃ p, configured_policy d = Ok p
    ∧ build_database_engine (default EmptyString (get_text d "DATABASE_URL")) p = Ok p
}.

Section consistency.
Context `{Environment, IpAddress} (network_text : network → string) (env : string → option string)
  (d : list (string * value)).
Hypothesis Hd : new_Settings network_text env = Ok d.

(** The stored value of a field of the table. *)
Lemma stored f : f ∈ Settings →
  ∃ raw v, assoc_get (f_name f) d = Some v ∧ validate network_text (f_kind f) raw = Ok v.
Proof. intros Hf. by apply (proj2 (new_Settings_ok network_text env d Hd)). Qed.

Lemma documented_in_table :
  Forall (λ r, Exists (λ f, f_name f = r.1 ∧ integer_range (f_kind f) = Some r.2) Settings) documented_ranges.
Proof.
  unfold documented_ranges, Settings.
  repeat (apply Forall_cons; split; [repeat (first [apply Exists_cons_hd; split; reflexivity | apply Exists_cons_tl])|]).
  by apply Forall_nil.
Qed.

Lemma documented_hold :
  Forall (λ r, ∃ z, assoc_get r.1 d = Some (VInt z) ∧ r.2.1 ≤ z ≤ r.2.2) documented_ranges.
Proof.
  eapply Forall_impl; [exact documented_in_table|]. intros [n [lo hi]] Hex. simpl in *.
  apply Exists_exists in Hex as (f & Hf & Hn & Hr). destruct (stored f Hf) as (raw & v & Hv & Hok).
  destruct (validate_integer _ _ _ _ _ _ Hr Hok) as (z & -> & Hz). exists z. by rewrite <-Hn.
Qed.

Lemma documented_range n lo hi : (n, (lo, hi)) ∈ documented_ranges → lo ≤ get_int d n ≤ hi.
Proof.
  intros Hin. pose proof documented_hold as Hall. rewrite Forall_forall in Hall.
  destruct (Hall _ Hin) as (z & Hz & ?). unfold get_int. simpl in Hz. by rewrite Hz.
Qed.

Lemma stored_list n min max rule v : optional n (KList min max rule) v ∈ Settings →
  ∃ l, apply_rule network_text rule l = Ok (get_list d n) ∧ min ≤ Z.of_nat (length l).
Proof.
  intros Hin. destruct (stored _ Hin) as (raw & v' & Hv & Hok). simpl in Hv, Hok.
  apply validate_list in Hok as (l & l' & -> & ? & ?). exists l'. unfold get_list. rewrite Hv. split; [done|lia].
Qed.

Lemma methods_hold n v : optional n (KList 1 7 Methods) v ∈ Settings →
  get_list d n ≠ [] ∧ Forall (λ m, m ∈ HTTP_METHODS) (get_list d n).
Proof.
  intros (l & Hl & Hn)%stored_list. apply validate_methods_ok in Hl as [-> Hl]. split; [|done].
  by destruct l.
Qed.

Lemma headers_hold n v : optional n (KList 0 100 Headers) v ∈ Settings →
  Forall announceable (get_list d n).
Proof.
  intros (l & Hl%validate_headers_ok & _)%stored_list. eapply Forall_impl; [exact Hl|]. intros h Hh.
  unfold setting_header in Hh. rewrite !andb_true_iff in Hh. destruct Hh as [[[Hne Hc] Hf] Hcon].
  split_and!; [by destruct (String.eqb_spec h "")|by destruct (String.eqb_spec h "connection")| |exact Hc].
  apply negb_true_iff, bool_decide_eq_false in Hf. exact Hf.
Qed.

Lemma database_hold : ∃ url options, get_text d "DATABASE_URL" = Some url
  ∧ make_url url = Some ("mysql+asyncmy", options) ∧ Forall (λ o, o = "charset") options.
Proof.
  pose proof (new_Settings_ok _ _ _ Hd) as [(_ & Hu & _)%relationships_ok _].
  destruct (stored (required "DATABASE_URL" (KText 5 None None))) as (raw & v & Hv & Hok); [in_table|].
  simpl in Hv, Hok. destruct raw as [s| | | |]; try done. destruct (_ && _); [|done].
  injection Hok as <-. exists s. unfold get_text in *. rewrite Hv in Hu |- *. simpl in Hu.
  unfold supported_url in Hu. destruct (make_url s) as [[driver options]|]; [|done].
  apply andb_true_iff in Hu as [->%String.eqb_eq Ho]. exists options. split_and!; [done|done|].
  apply Forall_forall. intros o Ho'%list_elem_of_In. rewrite forallb_forall in Ho. by apply String.eqb_eq, Ho.
Qed.

Lemma text_hold n k : required n k ∈ Settings → (∀ raw v, validate network_text k raw = Ok v → ∃ s, v = VStr s ∧ raw = VStr s) →
  ∃ s, get_text d n = Some s ∧ validate network_text k (VStr s) = Ok (VStr s).
Proof.
  intros Hin Hk. destruct (stored _ Hin) as (raw & v & Hv & Hok). destruct (Hk _ _ Hok) as (s & -> & ->).
  exists s. unfold get_text. simpl in Hv. by rewrite Hv.
Qed.

Lemma engine_hold : ∃ p, configured_policy d = Ok p
  ∧ build_database_engine (default EmptyString (get_text d "DATABASE_URL")) p = Ok p.
Proof.
  pose proof (new_Settings_ok _ _ _ Hd) as [(_ & Hu & _ & Hssl & _)%relationships_ok _].
  unfold configured_policy, new_DatabasePolicy, within. simpl.
  pose proof (documented_range "DB_POOL_CONNECTION_LIMIT" 1 1000 ltac:(set_solver)).
  pose proof (documented_range "DB_POOL_QUEUE_LIMIT" 0 10000 ltac:(set_solver)).
  pose proof (documented_range "DB_POOL_ACQUIRE_TIMEOUT_MS" 1 2147483647 ltac:(set_solver)).
  pose proof (documented_range "DB_CONNECT_TIMEOUT_MS" 1 2147483647 ltac:(set_solver)).
  rewrite !(proj2 (Z.leb_le _ _)) by lia. simpl. eexists. split; [done|].
  unfold build_database_engine. rewrite Hu. unfold supported_url in Hu.
  destruct (make_url _) as [[driver query]|]; [|done]. unfold tls_context. simpl.
  destruct (get_bool d "DB_SSL") eqn:E; simpl; [by rewrite (proj2 Hssl eq_refl)|].
  destruct (get_text d "DB_SSL_CA_FILE") as [file|]; [|done]. by destruct (proj1 Hssl file eq_refl).
Qed.
End consistency.

(** [C35] Accepted settings are consistent: every integer setting is stored and within the
    range documented for it, spelled out number by number; the mode is one of the three
    and the application has a name of at most 120 characters; the server accepts at least
    one method, all of them HTTP methods, and CORS announces a non-empty subset of them;
    neither CORS header list holds a forbidden or hop-by-hop name; a sweep removes at most
    10000 rows; the database URL selects [mysql+asyncmy] with no option but the character
    set; a CA file is given only with TLS and is not blank, and with TLS the certificates
    load; the drain ends before the forced exit, neither body wait outlasts its request,
    and a single header fits the budget; the rate limiter's storage stays within 2000000
    slots; and the rate limiter and the database engine can always be built. *)
Theorem settings_are_consistent `{Environment, IpAddress} network_text env d :
  new_Settings network_text env = Ok d → consistent d.
Proof.
  intros Hd. pose proof (new_Settings_ok _ _ _ Hd) as [Hrel _].
  apply relationships_ok in Hrel as (Hsw & Hu & Hdr & [Hca Htls] & Hsh & Hfb & Hch & Hcm & p & Hp).
  assert (∃ mode, get_text d "ENV" = Some mode
    ∧ validate network_text (KLiteral ["development"; "production"; "test"]) (VStr mode) = Ok (VStr mode)) as (mode & Hm & Hmode).
  { apply (text_hold network_text env d Hd); [in_table|]. intros [s| | | |] v; simpl; try done.
    destruct (mem _ _); [|done]. intros [= <-]. by exists s. }
  assert (∃ name, get_text d "APP_NAME" = Some name
    ∧ validate network_text (KText 1 (Some 120) None) (VStr name) = Ok (VStr name)) as (name & Hn & Hname).
  { apply (text_hold network_text env d Hd); [in_table|]. intros [s| | | |] v; simpl; try done.
    destruct (_ && _); [|done]. intros [= <-]. by exists s. }
  split.
  - by apply (documented_hold network_text env).
  - exists mode. split; [done|]. simpl in Hmode. destruct (mem mode _) eqn:E; [|done].
    by apply bool_decide_eq_true in E.
  - exists name. split; [done|]. simpl in Hname. destruct ((1 <=? ulen name) && _ && _) eqn:E; [|done].
    by reflect_bools.
  - eapply (methods_hold network_text env d Hd); in_table.
  - split; [|exact Hcm]. eapply (methods_hold network_text env d Hd). in_table.
  - eapply (headers_hold network_text env d Hd). in_table.
  - eapply (headers_hold network_text env d Hd). in_table.
  - exact Hsw.
  - by apply (database_hold network_text env).
  - exact Hdr.
  - exact Hca.
  - exact Htls.
  - exact Hsh.
  - exact Hfb.
  - exact Hch.
  - unfold RateLimiter.new_policy in Hp. destruct (_ && _); [|done]. unfold RateLimiter.validate_storage in Hp.
    simpl in Hp. destruct (Z.ltb_spec RateLimiter.MAX_TIMESTAMP_SLOTS
      (get_int d "RATE_LIMIT_MAX" * get_int d "RATE_LIMIT_MAX_CLIENTS")) as [|Hle]; [done|exact Hle].
  - unfold RateLimiter.new_limiter. rewrite Hp. by eexists.
  - by apply (engine_hold network_text env).
Qed.

(** *** An environment to run on *)
#[local] Instance demo_environment : Environment := {
  pydantic_int s := match parse_int s with Ok z => Some z | Err _ => None end;
  pydantic_pattern _ _ := true;
  any_http_url v := Some (mkUrl (v +:+ "/") None None (Some "/") None None None);
  make_url s := if starts_with "mysql+asyncmy:" s then Some ("mysql+asyncmy", ["charset"]) else None;
  zone_info s := String.eqb s "Etc/UTC";
  load_certificates _ := true
}.
#[local] Existing Instance demo_ip.

Definition demo_text : @network demo_ip → string := λ n, n.
Definition demo_env : list (string * string) :=
  [("APP_NAME", "QuickAPI"); ("APP_VERSION", "1.0.0"); ("ENV", "production"); ("PORT", "8000");
   ("DATABASE_URL", "mysql+asyncmy://user@host/items"); ("DB_SSL", "true");
   ("CORS_METHODS", "GET, POST,GET"); ("TRUST_PROXY", "10.0.0.1"); ("API_PUBLISHED_PORT", "")].
Definition lookup_env (l : list (string * string)) (n : string) : option string := assoc_get n l.

Lemma settings_are_consistent_witness :
  match new_Settings demo_text (lookup_env demo_env) with
  | Ok d => get_list d "CORS_METHODS" = ["GET"; "POST"] ∧ get_bool d "DOCS_ENABLED" = false
      ∧ Forall (λ m, m ∈ get_list d "HTTP_ALLOWED_METHODS") (get_list d "CORS_METHODS")
  | Err _ => False
  end.
Proof.
  destruct (new_Settings demo_text (lookup_env demo_env)) as [d|] eqn:E; [|vm_compute in E; discriminate].
  split; [|split].
  - vm_compute in E. injection E as <-. vm_compute. reflexivity.
  - vm_compute in E. injection E as <-. vm_compute. reflexivity.
  - exact (proj2 (co_cors_methods d (settings_are_consistent demo_text (lookup_env demo_env) d E))).
Defined.

Lemma list_settings_round_trip_witness :
  parse_list (VStr " GET, POST,GET ") = Ok ["GET"; "POST"]
  ∧ parse_list (VStr (join ", " ["GET"; "POST"])) = Ok ["GET"; "POST"].
Proof.
  split; [vm_compute; reflexivity|].
  apply (list_settings_round_trip (VStr " GET, POST,GET ") ["GET"; "POST"]); [vm_compute; reflexivity|].
  repeat constructor.
Defined.

(** ** Rejected settings *)
Section rejected.
Context `{Environment, IpAddress} (network_text : network → string).

Lemma missing_reported fs env d errors f :
  f ∈ fs → f_default f = None → env (f_name f) = None →
  f_name f ∈ (validate_fields network_text fs env d errors).2.
Proof.
  intros Hin Hdef Henv. revert d errors. induction fs as [|g fs IH]; intros d errors; [by apply elem_of_nil in Hin|].
  apply elem_of_cons in Hin as [<-|Hin].
  - simpl. unfold raw_value. rewrite Henv, Hdef. simpl.
    destruct (validate_fields_errors network_text fs env d (errors ++ [f_name f])) as (more & -> & _).
    set_solver.
  - simpl. destruct (raw_value _ _ _); [destruct (validate _ _ _)|]; by apply IH.
Qed.
End rejected.

(** A rejected configuration is reported by field names only, whatever the values
    (secrets among them) are: at least one name, every required variable that is missing
    among them when a field is at fault, and the single name [configuration] when only a
    relation between fields is. *)
Theorem rejected_settings_report_names `{Environment, IpAddress} network_text env errors :
  new_Settings network_text env = Err errors →
  errors ≠ [] ∧
  (errors = ["configuration"] ∨
   Forall (λ n, n ∈ f_name <$> Settings) errors ∧
   ∀ f, f ∈ Settings → f_default f = None → env (f_name f) = None → f_name f ∈ errors).
Proof.
  unfold new_Settings. intros Hn.
  pose proof (validate_fields_errors network_text Settings env [] []) as (more & Hm & Hin).
  pose proof (λ f, missing_reported network_text Settings env [] [] f) as Hmiss.
  destruct (validate_fields network_text Settings env [] []) as [d errs]. simpl in *.
  destruct errs as [|e errs].
  - destruct (validate_http_relationships d); simplify_eq. split; [done|by left].
  - injection Hn as <-. split; [done|right]. split; [|exact Hmiss].
    rewrite Hm. by apply Forall_forall.
Qed.

Lemma rejected_settings_report_names_witness :
  new_Settings demo_text (lookup_env [("ENV", "staging"); ("PORT", "99999")])
    = Err ["APP_NAME"; "APP_VERSION"; "ENV"; "PORT"; "DATABASE_URL"]
  ∧ ["APP_NAME"; "APP_VERSION"; "ENV"; "PORT"; "DATABASE_URL"] ≠ [].
Proof.
  assert (new_Settings demo_text (lookup_env [("ENV", "staging"); ("PORT", "99999")])
    = Err ["APP_NAME"; "APP_VERSION"; "ENV"; "PORT"; "DATABASE_URL"]) as E by (vm_compute; reflexivity).
  split; [exact E|].
  apply (proj1 (rejected_settings_report_names demo_text _ _ E)).
Defined.
