(* ===== verification/Outcome.v ===== *)
(** * Request outcomes

    [app/common/middleware/request_outcome.py] and its two subscribers,
    [request_logger.py] and [prometheus_metrics.py]: what is observed of a request, the
    single settlement of its outcome and who is told, the label of its route, and what is
    logged and counted.  An observation is one object shared by the middleware's closures,
    by the layers that subscribe and by [abort_request]; its history is a sequence of
    operations on it.  Starlette's route matching is a parameter. *)
From S2P Require Import Prelude PyText Asgi RequestPolicy.
Open Scope Z_scope.

Inductive verdict := Completed | Aborted.
#[export] Instance verdict_eq_dec : EqDecision verdict.
Proof. solve_decision. Defined.

Record RequestOutcome := mkOutcome {
  outcome : verdict;
  oc_method : string;
  oc_route : string;
  duration : Z;
  headers_sent : bool;
  oc_status : option Z
}.

(** ** The label of a route *)
Inductive match_result := MNone | MPartial | MFull.

(** Starlette's routes, by identity; [canonical] is a [FlexibleRoute]'s own path. *)
Inductive route :=
| RoutePath (id endpoint : nat) (path : string) (canonical : option string)
| MountPath (id : nat) (path : string) (routes : list route)
| OtherRoute (id : nat).

(** What the scope records of the route that ran. *)
Record terminal := mkTerminal { t_route : option nat; t_endpoint : option nat }.

Section template.
(** [route.matches(scope)], on the path the route sees: the match and the path below. *)
Context (matches : route → string → match_result * string).

Definition is_terminal (t : terminal) (id endpoint : nat) : bool :=
  bool_decide (t_route t = Some id) || bool_decide (t_endpoint t = Some endpoint).

Definition route_label (t : terminal) (prefix : string) (r : route) : option string :=
  match r with
  | RoutePath id endpoint path canonical =>
      if is_terminal t id endpoint then Some (prefix +:+ default path canonical) else None
  | _ => None
  end.

Definition unmatched : string := "<unmatched>".

(** Mounts are followed by recursion on the depth of the route table. *)
Fixpoint template (fuel : nat) (routes : list route) (path : string) (t : terminal)
    (prefix : string) (partial : option route) : option string :=
  match fuel with
  | O => None
  | S fuel =>
      match routes with
      | [] => Some (default unmatched (r ← partial; route_label t prefix r))
      | r :: routes' =>
          let '(m, child) := matches r path in
          match m with
          | MFull =>
              match r with
              | MountPath _ mount_path below => template fuel below child t (prefix +:+ mount_path) None
              | _ => Some (default unmatched (route_label t prefix r))
              end
          | MPartial =>
              template fuel routes' path t prefix (match partial with Some p => Some p | None => Some r end)
          | MNone => template fuel routes' path t prefix partial
          end
      end
  end.

Fixpoint route_size (r : route) : nat :=
  match r with
  | MountPath _ _ below => S (list_sum (route_size <$> below) + length below)
  | _ => 1
  end.
Definition table_size (routes : list route) : nat :=
  S (list_sum (route_size <$> routes) + length routes).

Definition route_template (routes : list route) (incoming : string) (t : terminal) : string :=
  default unmatched (template (table_size routes) routes incoming t "" None).

(** ** Observations *)
Record observation := mkObservation {
  incoming_method : string;
  incoming_path : string;
  started_at : Z;
  status : option Z;
  result : option RequestOutcome;
  callbacks : list string;                 (* subscribed and not yet told, in order *)
  subscribers : gset string;
  told : list (string * RequestOutcome)    (* the callbacks run, in order *)
}.

Definition new_observation (s : scope) (now : Z) : observation :=
  mkObservation (sc_method s) (sc_path s) now None None [] ∅ [].

Definition subscribe (key : string) (o : observation) : observation :=
  if bool_decide (key ∈ subscribers o) then o
  else match result o with
  | Some r =>
      mkObservation (incoming_method o) (incoming_path o) (started_at o) (status o) (result o)
        (callbacks o) ({[key]} ∪ subscribers o) (told o ++ [(key, r)])
  | None =>
      mkObservation (incoming_method o) (incoming_path o) (started_at o) (status o) (result o)
        (callbacks o ++ [key]) ({[key]} ∪ subscribers o) (told o)
  end.

Definition known_methods : list string := ["GET"; "POST"; "PUT"; "PATCH"; "DELETE"; "HEAD"; "OPTIONS"].

Definition settle (routes : list route) (t : terminal) (now : Z) (v : verdict) (o : observation)
  : observation :=
  match result o with
  | Some _ => o
  | None =>
      let r := mkOutcome v
                 (if one_of (incoming_method o) known_methods then incoming_method o else "<other>")
                 (route_template routes (incoming_path o) t) (now - started_at o)
                 (bool_decide (status o ≠ None)) (status o) in
      mkObservation (incoming_method o) (incoming_path o) (started_at o) (status o) (Some r)
        [] (subscribers o) (told o ++ ((λ key, (key, r)) <$> callbacks o))
  end.

Definition set_status (st : Z) (o : observation) : observation :=
  mkObservation (incoming_method o) (incoming_path o) (started_at o) (Some st) (result o)
    (callbacks o) (subscribers o) (told o).

(** ** The operations on an observation *)
Inductive operation :=
| Subscribe (key : string)
| Received (r : py message)               (* what [receive] returned or raised *)
| Sent (m : message) (r : py unit)        (* what [send] of a message returned or raised *)
| AbortRequest                            (* [abort_request], from the deadline *)
| Unwound.                                (* the [finally] of the middleware *)

Definition apply (routes : list route) (t : terminal) (now : Z) (op : operation) (o : observation)
  : observation :=
  match op with
  | Subscribe key => subscribe key o
  | Received (Ok RequestDisconnect) => settle routes t now Aborted o
  | Received (Ok _) => o
  | Received (Err e) => if is_transport_error e then settle routes t now Aborted o else o
  | Sent (ResponseStart st _) (Ok _) => set_status st o
  | Sent (ResponseBody _ more) (Ok _) => if more then o else settle routes t now Completed o
  | Sent _ (Ok _) => o
  | Sent _ (Err e) => if is_transport_error e then settle routes t now Aborted o else o
  | AbortRequest | Unwound => settle routes t now Aborted o
  end.

(** A history: each operation with the clock and the terminal scope it sees. *)
Definition history : Type := list (operation * (Z * terminal)).
Definition observe (routes : list route) (h : history) (o : observation) : observation :=
  foldl (λ o '(op, (now, t)), apply routes t now op o) o h.

(** The scope's observation, when there is one: [abort_request] settles it, and the middleware
    makes one for an HTTP request that has none. *)
Definition abort_request (routes : list route) (t : terminal) (now : Z) (existing : option observation)
  : option observation :=
  settle routes t now Aborted <$> existing.
Definition enter_middleware (s : scope) (now : Z) (existing : option observation) : option observation :=
  if negb (String.eqb (sc_type s) "http") then existing
  else match existing with Some _ => existing | None => Some (new_observation s now) end.

(** A layer subscribes to it, behind a middleware of its own when it stands alone. *)
Definition observe_request (s : scope) (now : Z) (key : string) (existing : option observation) : option observation :=
  if negb (String.eqb (sc_type s) "http") then existing
  else match existing with
  | Some o => Some (subscribe key o)
  | None => subscribe key <$> enter_middleware s now None
  end.

Lemma observe_request_subscribes s now key existing :
  sc_type s = "http" →
  ∃ o, observe_request s now key existing = Some o ∧ key ∈ subscribers o
       ∧ observe_request s now key (Some o) = Some o.
Proof.
  intros Hs. unfold observe_request, enter_middleware. rewrite Hs. cbn [negb String.eqb].
  assert (∀ o, key ∈ subscribers (subscribe key o) ∧ subscribe key (subscribe key o) = subscribe key o) as Hk.
  { intros o. assert (key ∈ subscribers (subscribe key o)) as Hin.
    { unfold subscribe. case_bool_decide as Hd; [done|]. destruct (result o); cbn; set_solver. }
    split; [done|]. unfold subscribe at 1. by rewrite bool_decide_eq_true_2. }
  destruct existing as [o|]; cbn; eexists; (split; [done|]); (split; [apply Hk|]); by rewrite (proj2 (Hk _)).
Qed.
End template.

(** ** What is logged and counted *)
Definition shorten_path (path : string) (max_len : Z) : string :=
  if max_len <? ulen path then take_str (Z.to_nat (max_len - 1)) path +:+ "…" else path.

Definition record_level (r : RequestOutcome) : log_level :=
  match oc_status r with
  | Some st =>
      if 500 <=? st then LError
      else if bool_decide (outcome r = Aborted) || (400 <=? st) then LWarning else LDebug
  | None => if bool_decide (outcome r = Aborted) then LWarning else LDebug
  end.

Definition excluded_paths : list string := ["/health"; "/ready"; "/info"; "/system"; "/metrics"].

(** The counters of [app/config/metrics.py], by their labels. *)
Record metrics := mkMetrics {
  request_count : gmap (string * string * string) Z;
  request_aborted : gmap (string * string) Z;
  request_duration : list (string * string * string * Z)
}.

Definition record_metrics (r : RequestOutcome) (m : metrics) : metrics :=
  match outcome r with
  | Aborted =>
      let k := (oc_method r, oc_route r) in
      mkMetrics (request_count m)
        (<[k := default 0 (request_aborted m !! k) + 1]> (request_aborted m)) (request_duration m)
  | Completed =>
      let k := (oc_method r, oc_route r, match oc_status r with Some st => pretty st | None => "None" end) in
      mkMetrics (<[k := default 0 (request_count m !! k) + 1]> (request_count m))
        (request_aborted m) (request_duration m ++ [(k, duration r)])
  end.

Lemma table_size_cons r routes : table_size (r :: routes) = (S (route_size r) + table_size routes)%nat.
Proof. unfold table_size. rewrite fmap_cons. simpl. lia. Qed.

Lemma route_size_mount id path below : route_size (MountPath id path below) = table_size below.
Proof. done. Qed.

(** ** The recursion of [route_template] ends: the fuel is never exhausted. *)
Lemma template_total matches fuel routes path t prefix partial :
  (table_size routes ≤ fuel)%nat → is_Some (template matches fuel routes path t prefix partial).
Proof.
  revert routes path prefix partial.
  induction fuel as [|fuel IH]; intros routes path prefix partial Hf; [unfold table_size in Hf; lia|].
  cbn [template]. destruct routes as [|r routes]; [by eexists|].
  rewrite table_size_cons in Hf.
  destruct (matches r path) as [[] child]; [apply IH; lia|apply IH; lia|].
  destruct r as [| id mount below|]; [by eexists| |by eexists].
  apply IH. rewrite route_size_mount in Hf. lia.
Qed.

(** ** Settlement *)
Definition decides_outcome (op : operation) : option verdict :=
  match op with
  | Received (Ok RequestDisconnect) => Some Aborted
  | Received (Err e) | Sent _ (Err e) => if is_transport_error e then Some Aborted else None
  | Sent (ResponseBody _ false) (Ok _) => Some Completed
  | AbortRequest | Unwound => Some Aborted
  | _ => None
  end.

(** The first decisive operation, and the status of the last response started before. *)
Fixpoint first_verdict (ops : list operation) (status : option Z) : verdict * option Z :=
  match ops with
  | [] => (Aborted, status)
  | op :: ops' =>
      match decides_outcome op with
      | Some v => (v, status)
      | None => first_verdict ops'
                  (match op with Sent (ResponseStart st _) (Ok _) => Some st | _ => status end)
      end
  end.

(** The keys subscribed, in the order of their first subscription. *)
Definition subscriptions (ops : list operation) : list string :=
  foldl (λ l op, match op with
                 | Subscribe k => if bool_decide (k ∈ l) then l else l ++ [k]
                 | _ => l end) [] ops.

Section settlement.
Context (matches : route → string → match_result * string) (routes : list route).

(** After the operations [ops]. *)
Record settled_ok (ops : list operation) (o : observation) : Prop := {
  so_keys : (told o).*1 ++ callbacks o = subscriptions ops;
  so_subscribers k : k ∈ subscribers o ↔ k ∈ subscriptions ops;
  so_pending : result o = None → told o = [];
  so_told r : result o = Some r → callbacks o = [] ∧ Forall (λ x, x.2 = r) (told o)
}.

Lemma subscriptions_snoc ops op :
  subscriptions (ops ++ [op])
  = match op with
    | Subscribe k => if bool_decide (k ∈ subscriptions ops) then subscriptions ops
                     else subscriptions ops ++ [k]
    | _ => subscriptions ops
    end.
Proof. unfold subscriptions. by rewrite foldl_snoc. Qed.

Lemma settle_ok ops t now v o : settled_ok ops o → settled_ok ops (settle matches routes t now v o).
Proof.
  intros [Hk Hs Hp Ht]. unfold settle. destruct (result o) eqn:Hr; [by split; rewrite ?Hr|].
  specialize (Hp eq_refl). rewrite Hp in *. simpl in Hk. split; simpl; try done.
  - rewrite app_nil_r, <-list_fmap_compose. by rewrite <-Hk, list_fmap_id.
  - intros r [= <-]. split; [done|]. apply Forall_forall. intros x (k & -> & _)%list_elem_of_fmap. done.
Qed.

Lemma settled_ok_more ops op o :
  (∀ k, op ≠ Subscribe k) → settled_ok ops o → settled_ok (ops ++ [op]) o.
Proof.
  intros Hop [Hk Hs Hp Ht]. assert (subscriptions (ops ++ [op]) = subscriptions ops) as E.
  { rewrite subscriptions_snoc. destruct op; try done. by destruct (Hop key). }
  split; rewrite ?E; done.
Qed.

Lemma apply_ok ops op t now o :
  settled_ok ops o → settled_ok (ops ++ [op]) (apply matches routes t now op o).
Proof.
  intros Hok. destruct op as [key|r|m r| |]; simpl.
  - destruct Hok as [Hk Hs Hp Ht]. unfold subscribe.
    assert (∀ b, bool_decide (key ∈ subscribers o) = b → bool_decide (key ∈ subscriptions ops) = b) as Hb.
    { intros b <-. apply bool_decide_ext. by rewrite Hs. }
    pose proof (subscriptions_snoc ops (Subscribe key)) as E. simpl in E.
    destruct (bool_decide (key ∈ subscribers o)) eqn:Hin.
    { rewrite (Hb true eq_refl) in E. split; rewrite ?E; done. }
    rewrite (Hb false eq_refl) in E.
    assert (∀ k, k ∈ {[key]} ∪ subscribers o ↔ k ∈ subscriptions (ops ++ [Subscribe key])) as Hs'.
    { intros k. rewrite E, elem_of_union, elem_of_singleton, elem_of_app, list_elem_of_singleton, Hs. tauto. }
    destruct (result o) as [r|] eqn:Hr.
    + destruct (Ht r eq_refl) as [Hcb Hall]. rewrite Hcb in Hk. rewrite app_nil_r in Hk.
      split; simpl; try done.
      * by rewrite fmap_app, E, <-Hk, Hcb, app_nil_r.
      * intros r' [= <-]. split; [done|]. apply Forall_app. by repeat constructor.
    + split; simpl; try done.
      by rewrite E, <-Hk, (assoc_L (++)).
  - apply settled_ok_more; [done|]. destruct r as [[]|e]; try done; [by apply settle_ok|].
    destruct (is_transport_error e); [by apply settle_ok|done].
  - apply settled_ok_more; [done|]. destruct r as [[]|e].
    + destruct m; try done; [|by destruct more_body; [done|apply settle_ok]].
      destruct Hok as [Hk Hs Hp Ht]. by split.
    + destruct m; (destruct (is_transport_error e); [by apply settle_ok|done]).
  - apply settled_ok_more; [done|]. by apply settle_ok.
  - apply settled_ok_more; [done|]. by apply settle_ok.
Qed.

Lemma observe_snoc h x o :
  observe matches routes (h ++ [x]) o
  = let '(op, (now, t)) := x in apply matches routes t now op (observe matches routes h o).
Proof. unfold observe. by rewrite foldl_snoc. Qed.

Lemma observe_ok h s t0 :
  settled_ok h.*1 (observe matches routes h (new_observation s t0)).
Proof.
  induction h as [|[op [now t]] h IH] using rev_ind.
  - split; simpl; try done. intros k. split; [by intros ?%elem_of_empty|by intros ?%elem_of_nil].
  - rewrite observe_snoc, fmap_app. by apply apply_ok.
Qed.

(** Once settled, always the same result. *)
Lemma apply_settled op t now o r :
  result o = Some r → result (apply matches routes t now op o) = Some r.
Proof.
  intros Hr. assert (∀ v, result (settle matches routes t now v o) = Some r) as Hset
    by (intros v; unfold settle; by rewrite Hr).
  destruct op as [key|[[]|e]|m r'| |]; simpl; auto.
  - unfold subscribe. destruct (bool_decide _); [done|]. by rewrite Hr.
  - by destruct (is_transport_error e).
  - destruct m, r' as [[]|e]; auto; try (by destruct (is_transport_error e)); by destruct more_body.
Qed.

Lemma observe_settled h o r :
  result o = Some r → result (observe matches routes h o) = Some r.
Proof.
  intros Hr. induction h as [|[op [now t]] h IH] using rev_ind; [done|].
  rewrite observe_snoc. by apply apply_settled.
Qed.

(** The fields no operation changes before the result. *)
Lemma observe_verdict h now t o :
  result o = None →
  ∃ r, result (observe matches routes (h ++ [(Unwound, (now, t))]) o) = Some r
    ∧ (outcome r, oc_status r) = first_verdict h.*1 (status o)
    ∧ headers_sent r = bool_decide (oc_status r ≠ None).
Proof.
  revert o. induction h as [|[op [now1 t1]] h IH]; intros o Hr.
  { simpl. unfold settle. rewrite Hr. simpl. by eexists. }
  change (observe matches routes (((op, (now1, t1)) :: h) ++ [(Unwound, (now, t))]) o)
    with (observe matches routes (h ++ [(Unwound, (now, t))])
            (apply matches routes t1 now1 op o)).
  assert (∀ v, ∃ r, result (observe matches routes (h ++ [(Unwound, (now, t))])
      (settle matches routes t1 now1 v o)) = Some r ∧ (outcome r, oc_status r) = (v, status o)
      ∧ headers_sent r = bool_decide (oc_status r ≠ None)) as Hset.
  { intros v. set (o1 := settle matches routes t1 now1 v o).
    assert (∃ r, result o1 = Some r ∧ (outcome r, oc_status r) = (v, status o)
      ∧ headers_sent r = bool_decide (oc_status r ≠ None)) as (r & H1 & H2).
    { unfold o1, settle. rewrite Hr. by eexists. }
    exists r. split; [by apply observe_settled|done]. }
  destruct op as [key|[[]|e]|m r| |]; cbn [fmap list_fmap fst apply first_verdict decides_outcome];
    try (by apply Hset); try (by apply IH).
  - assert (result (subscribe key o) = None ∧ status (subscribe key o) = status o) as [H1 H2].
    { unfold subscribe. destruct (bool_decide _); [done|]. by rewrite Hr. }
    destruct (IH _ H1) as (r & ? & Hv & ?). exists r. by rewrite Hv, H2.
  - destruct (is_transport_error e); [apply Hset|by apply IH].
  - destruct m as [| |st hs| |], r as [[]|e]; cbn [apply decides_outcome];
      try (by apply IH); try (destruct (is_transport_error e); [apply Hset|by apply IH]).
    + destruct more_body; [by apply IH|apply Hset].
    + destruct more_body, (is_transport_error e); first [apply Hset|by apply IH].
Qed.
End settlement.

(** Every request is settled exactly once, and everybody who subscribed is told
    exactly once: whatever the order of transport results, subscriptions and aborts, once
    the middleware has unwound the observation has one outcome — completed if the last
    body message was accepted before any disconnection, transport failure or abort, else
    aborted, with the status of the response started before that — which never changes
    again, and each subscriber, in the order of subscription, has been told that outcome
    and nothing else, those who subscribed after the settlement included. *)
Theorem outcome_settled_once matches routes s t0 h now t later :
  let o := observe matches routes ((h ++ [(Unwound, (now, t))]) ++ later) (new_observation s t0) in
  ∃ r, result o = Some r
    ∧ (outcome r, oc_status r) = first_verdict h.*1 None
    ∧ headers_sent r = bool_decide (oc_status r ≠ None)
    ∧ told o = (λ k, (k, r)) <$> subscriptions ((h ++ [(Unwound, (now, t))]) ++ later).*1
    ∧ callbacks o = [].
Proof.
  intros o. destruct (observe_ok matches routes ((h ++ [(Unwound, (now, t))]) ++ later) s t0)
    as [Hk _ _ Ht]. fold o in Hk, Ht.
  assert (∃ r, result o = Some r ∧ (outcome r, oc_status r) = first_verdict h.*1 None
    ∧ headers_sent r = bool_decide (oc_status r ≠ None)) as (r & Hr & Hv & Hh).
  { destruct (observe_verdict matches routes h now t (new_observation s t0) eq_refl) as (r & Hr & Hv & Hh).
    exists r. split; [|done]. unfold o, observe. rewrite foldl_app. by apply observe_settled. }
  exists r. destruct (Ht r Hr) as [Hc Hall]. split_and!; try done.
  rewrite Hc, app_nil_r in Hk. rewrite <-Hk. clear -Hall.
  induction Hall as [|[k r'] l Hx _ IH]; [done|]. simpl in *. subst. f_equal. exact IH.
Qed.

(** A mounted item route; the response starts, the client disconnects before its end, and
    the metrics subscribe late. *)
Definition demo_routes : list route :=
  [RoutePath 1 10 "/ready" (Some "/ready");
   MountPath 2 "/api" [RoutePath 3 30 "/v1/items/{item_id}/" (Some "/v1/items/{item_id}")]].
Definition demo_matches (r : route) (path : string) : match_result * string :=
  match r with
  | MountPath _ p _ => if starts_with p path then (MFull, drop_str (String.length p) path) else (MNone, path)
  | RoutePath 1 _ _ _ => (if String.eqb path "/ready" then MFull else MNone, path)
  | _ => (MFull, path)
  end.
Definition demo_history : history :=
  let t := mkTerminal (Some 3%nat) None in
  [(Subscribe "logging", (5, t)); (Sent (ResponseStart 200 []) (Ok tt), (6, t));
   (Sent (ResponseBody "a" true) (Ok tt), (7, t)); (Received (Ok RequestDisconnect), (8, t));
   (Sent (ResponseBody "b" false) (Ok tt), (9, t))].

Definition demo_incoming : scope :=
  mkScope "http" "GET" "/api/v1/items/a" "" [] None "http" None None.

Lemma outcome_settled_once_example :
  told (observe demo_matches demo_routes
          ((demo_history ++ [(Unwound, (10, mkTerminal None None))])
             ++ [(Subscribe "metrics", (11, mkTerminal None None))]) (new_observation demo_incoming 3))
  = [("logging", mkOutcome Aborted "GET" "/api/v1/items/{item_id}" 5 true (Some 200));
     ("metrics", mkOutcome Aborted "GET" "/api/v1/items/{item_id}" 5 true (Some 200))].
Proof. vm_compute. reflexivity. Qed.
