(* ===== verification/Deadline.v ===== *)
(** * The request deadline

    [app/common/middleware/request_timeout.py]: [_RequestDeadline], in which four tasks
    share one request — the application's work, the reader of the server's channel, the
    two watchers and [run] itself.  Everything between two awaits is one operation on the
    shared state; what an await can end with is an event, so that the theorems hold for
    every interleaving and every timing. *)
From S2P Require Import Prelude PyText Asgi RequestPolicy Values Models Database.
From S2P Require HeaderPolicy RequestWork.
Open Scope Z_scope.

(** ** State *)

(** Who sent a message that reached the server. *)
Inductive source := FromApp | FromDeadline.

(** The application: between two awaits, in [receive_body] waiting for a message or for
    the interruption, in the server's [send], or done. *)
Inductive work_state :=
| Running
| Receiving
| AwaitingInterruption
| Sending (m : message)
| WorkDone (r : py unit).

Inductive reader_state := Reading | Putting (m : message) | ReaderDone (r : py unit).

(** [run]: in [asyncio.wait], awaiting the work, sending the 408 response (the messages
    left), or returned. *)
Inductive run_state :=
| Waiting
| AwaitingWork
| Responding (left_to_send : list message)
| Returned (r : py unit).

Record deadline := mkDeadline {
  work : work_state;
  cancelled : bool;                       (* the work was sent a cancellation *)
  reader : reader_state;
  incoming : option message;              (* the queue of size one *)
  interrupted : bool;
  completed : bool;
  started : bool;
  closed : bool;
  disconnected : bool;
  body_started : bool;
  body_complete : bool;
  timeout_detail : option string;
  activity : RequestActivity;
  running : run_state;
  aborted : bool;                         (* [abort_request] was called *)
  wire : list (source * message)
}.

(** [__init__]: the activity's expiry is the earlier of its own and the request's. *)
Definition new_deadline (a : RequestActivity) (now total : Z) : deadline :=
  let expiry := match expires_at a with Some t => Z.min t (now + total) | None => now + total end in
  mkDeadline Running false Reading None false false false false false false false None
    (mkActivity (Some expiry) (abandoned a) (owns_mutation a)) Waiting false [].

(** [RequestTimeoutASGIMiddleware.__init__]: every timeout is positive. *)
Definition RequestTimeoutASGIMiddleware (first_body chunk total : Z) : py (Z * Z * Z) :=
  if (first_body <=? 0) || (chunk <=? 0) || (total <=? 0)
  then Err (ValueError "must be finite and greater than zero") else Ok (first_body, chunk, total).

(** The middleware keeps every request's work until it settles, and tells the admission
    controller of it; the second operation is the callback of a settled task. *)
Record pending_work := mkPending { owner : option RequestWork.work; pending : gset nat }.
Definition track_work (t : nat) (p : pending_work) : pending_work :=
  mkPending (RequestWork.track t <$> owner p) ({[t]} ∪ pending p).
Definition discard_work (t : nat) (p : pending_work) : pending_work :=
  mkPending (owner p) (pending p ∖ {[t]}).

Definition set_work (w : work_state) (d : deadline) : deadline :=
  mkDeadline w (cancelled d) (reader d) (incoming d) (interrupted d) (completed d) (started d)
    (closed d) (disconnected d) (body_started d) (body_complete d) (timeout_detail d) (activity d)
    (running d) (aborted d) (wire d).
Definition set_cancelled (d : deadline) : deadline :=
  mkDeadline (work d) true (reader d) (incoming d) (interrupted d) (completed d) (started d)
    (closed d) (disconnected d) (body_started d) (body_complete d) (timeout_detail d) (activity d)
    (running d) (aborted d) (wire d).
Definition set_reader (r : reader_state) (q : option message) (d : deadline) : deadline :=
  mkDeadline (work d) (cancelled d) r q (interrupted d) (completed d) (started d)
    (closed d) (disconnected d) (body_started d) (body_complete d) (timeout_detail d) (activity d)
    (running d) (aborted d) (wire d).
Definition set_completed (d : deadline) : deadline :=
  mkDeadline (work d) (cancelled d) (reader d) (incoming d) (interrupted d) true (started d)
    (closed d) (disconnected d) (body_started d) (body_complete d) (timeout_detail d) (activity d)
    (running d) (aborted d) (wire d).
Definition set_started (d : deadline) : deadline :=
  mkDeadline (work d) (cancelled d) (reader d) (incoming d) (interrupted d) (completed d) true
    (closed d) (disconnected d) (body_started d) (body_complete d) (timeout_detail d) (activity d)
    (running d) (aborted d) (wire d).
Definition set_closed (d : deadline) : deadline :=
  mkDeadline (work d) (cancelled d) (reader d) (incoming d) (interrupted d) (completed d) (started d)
    true (disconnected d) (body_started d) (body_complete d) (timeout_detail d) (activity d)
    (running d) (aborted d) (wire d).
Definition set_activity (a : RequestActivity) (d : deadline) : deadline :=
  mkDeadline (work d) (cancelled d) (reader d) (incoming d) (interrupted d) (completed d) (started d)
    (closed d) (disconnected d) (body_started d) (body_complete d) (timeout_detail d) a
    (running d) (aborted d) (wire d).
Definition set_running (r : run_state) (d : deadline) : deadline :=
  mkDeadline (work d) (cancelled d) (reader d) (incoming d) (interrupted d) (completed d) (started d)
    (closed d) (disconnected d) (body_started d) (body_complete d) (timeout_detail d) (activity d)
    r (aborted d) (wire d).
Definition set_aborted (d : deadline) : deadline :=
  mkDeadline (work d) (cancelled d) (reader d) (incoming d) (interrupted d) (completed d) (started d)
    (closed d) (disconnected d) (body_started d) (body_complete d) (timeout_detail d) (activity d)
    (running d) true (wire d).
Definition put_wire (s : source) (m : message) (d : deadline) : deadline :=
  mkDeadline (work d) (cancelled d) (reader d) (incoming d) (interrupted d) (completed d) (started d)
    (closed d) (disconnected d) (body_started d) (body_complete d) (timeout_detail d) (activity d)
    (running d) (aborted d) (wire d ++ [(s, m)]).

(** Abandon the activity and set the interruption, as a disconnection does. *)
Definition lose_client (d : deadline) : deadline :=
  mkDeadline (work d) (cancelled d) (reader d) (incoming d) true (completed d) (started d)
    (closed d) true (body_started d) (body_complete d) (timeout_detail d)
    (abandon "Request disconnected." (activity d)) (running d) (aborted d) (wire d).

(** ** The reader *)
(** What [receive] answered [read_messages]. *)
Definition read_message (r : py message) (d : deadline) : deadline :=
  match r with
  | Ok RequestDisconnect =>
      set_reader (ReaderDone (Ok tt)) (incoming d) (if completed d then d else lose_client d)
  | Ok m =>
      match incoming d with
      | None => set_reader Reading (Some m) d
      | Some _ => set_reader (Putting m) (incoming d) d
      end
  | Err e =>
      if is_transport_error e
      then set_reader (ReaderDone (Ok tt)) (incoming d) (lose_client d)
      else set_reader (ReaderDone (Err e)) (incoming d) d
  end.

(** ** The application's [receive] *)

(** A call of [receive_body]: an answer at once, or a wait. *)
Definition receive_body (d : deadline) : option message * deadline :=
  if closed d || disconnected d then (Some RequestDisconnect, d)
  else if body_complete d then (None, set_work AwaitingInterruption d)
  else (None, set_work Receiving d).

Definition more_body (m : message) : bool :=
  match m with RequestBody _ more => more | ResponseBody _ more => more | _ => false end.

Definition received (m : message) (d : deadline) : deadline :=
  mkDeadline Running (cancelled d)
    (match reader d with Putting _ => Reading | r => r end)
    (match reader d with Putting m' => Some m' | _ => None end) (interrupted d) (completed d)
    (started d) (closed d) (disconnected d) true (negb (more_body m)) (timeout_detail d)
    (activity d) (running d) (aborted d) (wire d).

(** The budget of one body message ran out: the application sees a cancellation. *)
Definition budget_expired (d : deadline) : deadline :=
  let detail := if body_started d then "Request chunk timeout exceeded."
                else "Request first body timeout exceeded." in
  mkDeadline Running (cancelled d) (reader d) (incoming d) true (completed d) (started d)
    (closed d) (disconnected d) (body_started d) (body_complete d) (Some detail)
    (abandon detail (activity d)) (running d) (aborted d) (wire d).

(** ** The application's [send] *)

(** A call of [send_response]: dropped, or passed to the server. *)
Definition send_response (m : message) (d : deadline) : deadline :=
  if closed d || disconnected d || completed d then d
  else set_work (Sending m)
         (match m with ResponseStart _ _ => set_started d | _ => d end).

(** The server's [send] returned or raised. *)
Definition sent (m : message) (r : py unit) (d : deadline) : deadline :=
  let d := set_work Running d in
  match r with
  | Ok _ =>
      let d := put_wire FromApp m d in
      match m with ResponseBody _ false => set_completed d | _ => d end
  | Err e => if is_transport_error e then lose_client d else d
  end.

(** ** [run] *)
Definition work_done (d : deadline) : bool :=
  match work d with WorkDone _ => true | _ => false end.
Definition reader_done (d : deadline) : bool :=
  match reader d with ReaderDone _ => true | _ => false end.

(** [if not self.activity.owns_mutation: work.cancel()] *)
Definition cancel_work (d : deadline) : deadline :=
  if owns_mutation (activity d) || work_done d then d else set_cancelled d.

(** The [finally] of [run]. *)
Definition finally (r : py unit) (d : deadline) : deadline :=
  let d := set_closed d in
  let d := if work_done d then d else set_activity (abandon "Request interrupted." (activity d)) d in
  let d := if cancelled d then d else cancel_work d in
  set_running (Returned r) d.

Definition stream_deadline (detail : string) : exn := RuntimeError detail.

(** The messages of the 408 response, by the server's rendering of it. *)
Definition timeout_response `{Starlette} (cors : scope) (detail : string) (ts : Z) : list message :=
  let body := json_error 408 detail ts in
  [apply_cors_response_headers cors (ResponseStart 408 (raw_headers [] body));
   ResponseBody body false].

Section run.
Context `{Starlette}.

(** What [run] does when its [asyncio.wait] returns; [scope] and [ts] are what the response
    is rendered with. *)
Definition decide_run (s : scope) (ts : Z) (d : deadline) : deadline :=
  if completed d then set_running AwaitingWork d
  else if disconnected d then finally (Ok tt) (cancel_work (set_closed (set_aborted d)))
  else if bool_decide (timeout_detail d ≠ None) || negb (work_done d || reader_done d || interrupted d)
  then
    let detail := default RESPONSE_DEADLINE_MESSAGE (timeout_detail d) in
    let d := cancel_work (set_activity (abandon detail (activity d)) (set_closed d)) in
    if started d then finally (Err (stream_deadline detail)) (set_aborted d)
    else set_running (Responding (timeout_response s detail ts)) d
  else
    match reader d with
    | ReaderDone (Err e) => finally (Err e) d
    | _ => set_running AwaitingWork d
    end.

(** The server's [send] of a message of the 408 response. *)
Definition responded (r : py unit) (d : deadline) : deadline :=
  match running d, r with
  | Responding (m :: rest), Ok _ =>
      let d := put_wire FromDeadline m d in
      match rest with [] => finally (Ok tt) d | _ => set_running (Responding rest) d end
  | _, Err e => finally (Err e) d
  | _, _ => d
  end.

(** The work's done callback: the error it logs. *)
Definition observe_work (d : deadline) : option exn :=
  match work d with
  | WorkDone (Err e) =>
      match e with
      | CancelledError | HTTPException RequestExpired _ _ _ => None
      | _ => if closed d then Some e else None
      end
  | _ => None
  end.

(** ** Events *)
Inductive event :=
| Reads (r : py message)                  (* the server's [receive] *)
| Receives                                (* the application calls [receive_body] *)
| Gets                                    (* ... and is given the queued message *)
| BudgetExpires
| GetsInterruption
| Sends (m : message)                     (* the application calls [send_response] *)
| SendReturns (r : py unit)
| Owns (b : bool)                         (* the mutation takes or gives back ownership *)
| Ends (r : py unit)                      (* the application returns or raises *)
| WaitReturns (s : scope) (ts : Z)        (* [asyncio.wait], by completion or timeout *)
| WorkAwaited                             (* [await work] *)
| ResponseSent (r : py unit)
| RunCancelled (e : exn).                 (* [run] itself is cancelled from outside; in
                                             [await work] that cancels the work *)

Definition step (e : event) (d : deadline) : option deadline :=
  match e with
  | Reads r =>                 (* the reader is cancelled when [run] returns *)
      match reader d, running d with
      | Reading, Returned _ => None
      | Reading, _ => Some (read_message r d)
      | _, _ => None
      end
  | Receives => match work d with Running => Some (receive_body d).2 | _ => None end
  | Gets => match work d, incoming d with Receiving, Some m => Some (received m d) | _, _ => None end
  | BudgetExpires => match work d with Receiving => Some (budget_expired d) | _ => None end
  | GetsInterruption =>
      match work d with
      | AwaitingInterruption => if interrupted d then Some (set_work Running d) else None
      | _ => None
      end
  | Sends m => match work d with Running => Some (send_response m d) | _ => None end
  | SendReturns r => match work d with Sending m => Some (sent m r d) | _ => None end
  | Owns b =>
      match work d with
      | Running => let a := activity d in
                   Some (set_activity (mkActivity (expires_at a) (abandoned a) b) d)
      | _ => None
      end
  | Ends r =>
      (* a cancellation may end the work at any of its awaits *)
      match work d with
      | Running => Some (set_work (WorkDone r) d)
      | WorkDone _ => None
      | _ => if cancelled d then Some (set_work (WorkDone r) d) else None
      end
  | WaitReturns s ts => match running d with Waiting => Some (decide_run s ts d) | _ => None end
  | WorkAwaited =>
      match running d, work d with
      | AwaitingWork, WorkDone r => Some (finally r d)
      | _, _ => None
      end
  | ResponseSent r => match running d with Responding (_ :: _) => Some (responded r d) | _ => None end
  | RunCancelled e =>
      match running d with
      | Returned _ => None
      | AwaitingWork => Some (if work_done d then finally (Err e) d else set_cancelled d)
      | _ => Some (finally (Err e) d)
      end
  end.

Fixpoint run_events (es : list event) (d : deadline) : option deadline :=
  match es with
  | [] => Some d
  | e :: es' => match step e d with Some d' => run_events es' d' | None => None end
  end.
Definition reachable (d : deadline) : Prop :=
  ∃ es a now total, run_events es (new_deadline a now total) = Some d.
End run.

(** ** The invariant *)
Definition is_start (m : message) : bool := match m with ResponseStart _ _ => true | _ => false end.
#[export] Instance source_eq_dec : EqDecision source.
Proof. solve_decision. Defined.
Definition from_deadline (w : list (source * message)) : list message :=
  (filter (λ x, x.1 = FromDeadline) w).*2.

Section facts.
Context `{Starlette}.

Record ok (d : deadline) : Prop := {
  ok_started m : (FromApp, m) ∈ wire d → is_start m = true → started d = true;
  ok_sending m : work d = Sending m → is_start m = true → started d = true;
  ok_responding l : running d = Responding l → closed d = true ∧ started d = false ∧ l ≠ [];
  ok_answered : from_deadline (wire d) ≠ [] → closed d = true ∧ started d = false;
  ok_response : ∃ s detail ts rest, from_deadline (wire d) ++ rest = timeout_response s detail ts
    ∧ match running d with
      | Responding l => rest = l
      | Waiting | AwaitingWork => from_deadline (wire d) = []
      | Returned _ => True
      end;
  ok_lost : closed d = true → work_done d = false → abandoned (activity d) ≠ None;
  ok_disconnected : disconnected d = true → abandoned (activity d) ≠ None;
  ok_finished r : running d = Returned r → closed d = true
}.

Lemma abandon_some reason a : abandoned (abandon reason a) ≠ None.
Proof. unfold abandon. destruct (abandoned a) eqn:E; simpl; congruence. Qed.

Lemma from_deadline_app w x :
  from_deadline (w ++ [x]) = from_deadline w ++ (if decide (x.1 = FromDeadline) then [x.2] else []).
Proof.
  unfold from_deadline. rewrite filter_app, fmap_app. f_equal. rewrite filter_cons.
  by case_decide.
Qed.

(** What the operations of the other tasks leave alone. *)
Definition same_run (d d' : deadline) : Prop :=
  running d' = running d ∧ closed d' = closed d ∧ from_deadline (wire d') = from_deadline (wire d).

Lemma ok_same_run d d' :
  ok d → same_run d d' →
  (started d' = started d ∨ started d' = true ∧ closed d = false) →
  (∀ m, (FromApp, m) ∈ wire d' → is_start m = true → started d' = true) →
  (∀ m, work d' = Sending m → is_start m = true → started d' = true) →
  (work_done d = true → work_done d' = true) →
  (abandoned (activity d) ≠ None → abandoned (activity d') ≠ None) →
  (disconnected d' = true → disconnected d = true ∨ abandoned (activity d') ≠ None) →
  ok d'.
Proof.
  intros [H1 H2 H3 H4 H5 H6 H7 H8] (Er & Ec & Ew) Hst Hw Hs Hwd Hab Hdi. split; try done.
  - intros l Hl. rewrite Er in Hl. destruct (H3 l Hl) as (Hc & Hns & ?). rewrite Ec.
    split_and!; [done| |done]. destruct Hst as [->|[_ ?]]; congruence.
  - rewrite Ew, Ec. intros Hf. destruct (H4 Hf) as [Hc Hns]. split; [done|].
    destruct Hst as [->|[_ ?]]; congruence.
  - rewrite Ew, Er. done.
  - rewrite Ec. intros Hc Hnd. apply Hab, H6; [done|].
    destruct (work_done d) eqn:E; [|done]. rewrite (Hwd eq_refl) in Hnd. done.
  - intros Hd. destruct (Hdi Hd) as [?|?]; [|done]. auto.
  - intros r. rewrite Er, Ec. apply H8.
Qed.

(** What the parts of [run] do to the invariant. *)
Lemma ok_cancel d : ok d → ok (cancel_work d).
Proof. intros [H1 H2 H3 H4 H5 H6 H7 H8]. unfold cancel_work. destruct (_ || _); by split. Qed.

Lemma ok_closing d :
  ok d → (work_done d = false → abandoned (activity d) ≠ None) → ok (set_closed d).
Proof.
  intros [H1 H2 H3 H4 H5 H6 H7 H8] Ha. split; simpl; try done.
  - intros l Hl. by destruct (H3 l Hl) as (_ & ? & ?).
  - intros Hf. by destruct (H4 Hf).
Qed.

Lemma ok_activity d a :
  ok d → (abandoned (activity d) ≠ None → abandoned a ≠ None) → ok (set_activity a d).
Proof. intros [H1 H2 H3 H4 H5 H6 H7 H8] Ha. split; simpl; auto. Qed.

Lemma ok_aborted d : ok d → ok (set_aborted d).
Proof. intros [H1 H2 H3 H4 H5 H6 H7 H8]. by split. Qed.

Lemma ok_returned r d : ok d → closed d = true → ok (set_running (Returned r) d).
Proof.
  intros [H1 H2 H3 H4 (s & detail & ts & rest & E & _) H6 H7 H8] Hc. split; simpl; try done.
  by exists s, detail, ts, rest.
Qed.

Lemma ok_awaiting d : ok d → running d = Waiting → ok (set_running AwaitingWork d).
Proof.
  intros [H1 H2 H3 H4 (s & detail & ts & rest & E & Hr) H6 H7 H8] Hw. split; simpl; try done.
  rewrite Hw in Hr. by exists s, detail, ts, rest.
Qed.

Lemma abandon_keeps reason a : abandoned a ≠ None → abandoned (abandon reason a) ≠ None.
Proof. intros _. apply abandon_some. Qed.

Lemma ok_finally r d : ok d → ok (finally r d).
Proof.
  intros Hok. unfold finally. cbv zeta.
  set (d1 := if work_done (set_closed d) then set_closed d
             else set_activity (abandon "Request interrupted." (activity (set_closed d))) (set_closed d)).
  assert (ok d1) as H1.
  { unfold d1. destruct (work_done (set_closed d)) eqn:E.
    - apply ok_closing; [done|]. change (work_done (set_closed d)) with (work_done d) in E. congruence.
    - change (set_activity (abandon "Request interrupted." (activity (set_closed d))) (set_closed d))
        with (set_closed (set_activity (abandon "Request interrupted." (activity d)) d)).
      apply ok_closing; [apply ok_activity; [done|apply abandon_keeps]|]. intros _. apply abandon_some. }
  assert (closed d1 = true) as Hc by (unfold d1; by destruct (work_done (set_closed d))).
  apply ok_returned; (destruct (cancelled d1); [done|]); [by apply ok_cancel|].
  unfold cancel_work. by destruct (_ || _).
Qed.

Lemma finally_set_running r x d : finally r (set_running x d) = finally r d.
Proof.
  unfold finally. cbv zeta. unfold cancel_work, work_done, set_running, set_closed, set_activity. simpl.
  destruct (work d); simpl; destruct (cancelled d); simpl; try done;
    unfold abandon; destruct (abandoned (activity d)); simpl; by destruct (owns_mutation (activity d)).
Qed.

Lemma timeout_response_nonempty s detail ts : timeout_response s detail ts ≠ [].
Proof. done. Qed.

Lemma cancel_work_same d :
  running (cancel_work d) = running d ∧ closed (cancel_work d) = closed d
  ∧ started (cancel_work d) = started d ∧ wire (cancel_work d) = wire d.
Proof. unfold cancel_work. by destruct (_ || _). Qed.

Lemma ok_decide s ts d : ok d → running d = Waiting → ok (decide_run s ts d).
Proof.
  intros Hok Hw. unfold decide_run. destruct (completed d); [by apply ok_awaiting|].
  destruct (disconnected d) eqn:Hd.
  { apply ok_finally, ok_cancel, ok_closing; [by apply ok_aborted|].
    intros _. by apply (ok_disconnected _ Hok). }
  destruct (bool_decide _ || _).
  - set (detail := default RESPONSE_DEADLINE_MESSAGE (timeout_detail d)). cbv zeta.
    set (d1 := set_activity (abandon detail (activity d)) (set_closed d)).
    assert (ok d1) as H1.
    { change d1 with (set_closed (set_activity (abandon detail (activity d)) d)).
      apply ok_closing; [apply ok_activity; [done|apply abandon_keeps]|]. intros _. apply abandon_some. }
    pose proof (ok_cancel d1 H1) as H2. destruct (cancel_work_same d1) as (Er & Ec & Es & Ew).
    destruct (started (cancel_work d1)) eqn:Hs; [by apply ok_finally, ok_aborted|].
    destruct H2 as [G1 G2 G3 G4 (s0 & de & t0 & rest & E & Hr) G6 G7 G8].
    rewrite Er in Hr. simpl in Hr. rewrite Hw in Hr. split; simpl; try done.
    + intros l [= <-]. rewrite Ec, Hs. split_and!; [done|done|apply timeout_response_nonempty].
    + exists s, detail, ts, (timeout_response s detail ts). by rewrite Hr.
  - destruct (reader d) as [| |[|e]]; [by apply ok_awaiting..|by apply ok_finally].
Qed.

Lemma ok_responded r d : ok d → ok (responded r d).
Proof.
  intros Hok. unfold responded.
  destruct (running d) as [| |[|m rest]|] eqn:Hr, r as [[]|e]; try done; try (by apply ok_finally).
  assert (ok (set_running (Responding rest) (put_wire FromDeadline m d)) ∨ rest = []) as Hmid.
  { destruct Hok as [H1 H2 H3 H4 (s & de & ts & rest' & E & Hl) H6 H7 H8]. rewrite Hr in Hl. subst rest'.
    destruct (H3 _ Hr) as (Hc & Hs & _). destruct rest as [|m2 rest]; [by right|left].
    split; simpl; try done.
    - intros m' [Hin|Hin%list_elem_of_singleton]%elem_of_app; [by apply H1|done].
    - by intros l [= <-].
    - exists s, de, ts, (m2 :: rest). rewrite from_deadline_app. simpl. rewrite <-(assoc_L (++)).
      by split. }
  destruct rest as [|m2 rest]; [|by destruct Hmid].
  clear Hmid. assert (ok (set_running (Returned (Ok tt)) (put_wire FromDeadline m d))) as Hput.
  { destruct Hok as [H1 H2 H3 H4 (s & de & ts & rest' & E & Hl) H6 H7 H8]. rewrite Hr in Hl. subst rest'.
    destruct (H3 _ Hr) as (Hc & Hs & _). split; simpl; try done.
    - intros m' [Hin|Hin%list_elem_of_singleton]%elem_of_app; [by apply H1|done].
    - exists s, de, ts, []. rewrite from_deadline_app. simpl. by rewrite app_nil_r. }
  rewrite <-(finally_set_running _ (Returned (Ok tt))). by apply ok_finally.
Qed.

(** The application's and the reader's operations. *)
Ltac frame := repeat split; simpl; auto; try done.

Lemma ok_read r d : ok d → ok (read_message r d).
Proof.
  intros Hok. pose proof (ok_started _ Hok). pose proof (ok_sending _ Hok).
  assert (∀ x q b, ok (set_reader x q (if b : bool then d else lose_client d))) as Hlose.
  { intros x q b. destruct b; apply (ok_same_run d); try done; try (by left);
      intros _; [apply abandon_some|right; apply abandon_some]. }
  assert (∀ x q, ok (set_reader x q d)) as Hset by (intros x q; apply (Hlose x q true)).
  unfold read_message. destruct r as [m|e].
  - destruct m; try (destruct (incoming d); apply Hset). apply (Hlose _ _ (completed d)).
  - destruct (is_transport_error e); [apply (Hlose _ _ false)|apply Hset].
Qed.

Lemma ok_set_work w d :
  ok d → (∀ m, w = Sending m → is_start m = true → started d = true) →
  (work_done d = true → ∃ r, w = WorkDone r) → ok (set_work w d).
Proof.
  intros Hok Hw Hd. pose proof (ok_started _ Hok). apply (ok_same_run d); try done; auto.
  unfold work_done. simpl. intros E. by destruct (Hd E) as [r ->].
Qed.

Lemma ok_app_send m d : ok d → work d = Running → ok (send_response m d).
Proof.
  intros Hok Hw. unfold send_response. destruct (_ || _) eqn:E; [done|].
  apply orb_false_iff in E as [[Hc _]%orb_false_iff _].
  pose proof (ok_started _ Hok). destruct m as [| |st hs| |];
    try (apply ok_set_work; [done|by intros m [= <-]|unfold work_done; by rewrite Hw]).
  apply (ok_same_run d); try done; auto.
  unfold work_done. by rewrite Hw.
Qed.

Lemma ok_sent m r d : ok d → work d = Sending m → ok (sent m r d).
Proof.
  intros Hok Hw. pose proof (ok_started _ Hok) as Hst. pose proof (ok_sending _ Hok m Hw) as Hse.
  assert (ok (set_work Running d)) as Hrun.
  { apply ok_set_work; [done|done|unfold work_done; by rewrite Hw]. }
  assert (∀ b : bool, ok (if b then set_completed (put_wire FromApp m (set_work Running d))
                          else put_wire FromApp m (set_work Running d))) as Hput.
  { intros b. apply (ok_same_run (set_work Running d)); [done| |by left; destruct b| | |done|..].
    - assert (from_deadline (wire (put_wire FromApp m (set_work Running d))) = from_deadline (wire d)) as Ef.
      { simpl. rewrite from_deadline_app. simpl. by rewrite app_nil_r. }
      by destruct b.
    - assert (∀ m', (FromApp, m') ∈ wire d ++ [(FromApp, m)] → is_start m' = true → started d = true) as Hin.
      { intros m' [Hin|Hin%list_elem_of_singleton]%elem_of_app; [by apply Hst|].
        injection Hin as ->. exact Hse. }
      by destruct b.
    - by destruct b.
    - by destruct b.
    - destruct b; by left. }
  unfold sent. destruct r as [[]|e].
  - destruct m as [| | |body more|]; try apply (Hput false). destruct more; [apply (Hput false)|apply (Hput true)].
  - destruct (is_transport_error e); [|done]. apply (ok_same_run (set_work Running d)); try done.
    + by left.
    + intros _. apply abandon_some.
    + intros _. right. apply abandon_some.
Qed.

Lemma deadline_step_ok e d d' : step e d = Some d' → ok d → ok d'.
Proof.
  intros Hs Hok. pose proof (ok_started _ Hok) as Hst.
  destruct e as [r| | | | |m|r|b|r|s ts| |r|e]; simpl in Hs.
  - destruct (reader d); [|done..]. destruct (running d); simplify_eq; by apply ok_read.
  - destruct (work d) eqn:Hw; simplify_eq. unfold receive_body.
    destruct (closed d || disconnected d); [done|].
    destruct (body_complete d); (apply ok_set_work; [done|done|unfold work_done; by rewrite Hw]).
  - destruct (work d) eqn:Hw; try done. destruct (incoming d) as [m|]; simplify_eq.
    apply (ok_same_run d); try done; auto. unfold work_done. by rewrite Hw.
  - destruct (work d) eqn:Hw; simplify_eq. unfold budget_expired.
    apply (ok_same_run d); try done; auto; [unfold work_done; by rewrite Hw|].
    intros _. apply abandon_some.
  - destruct (work d) eqn:Hw; try done. destruct (interrupted d); simplify_eq.
    apply ok_set_work; [done|done|unfold work_done; by rewrite Hw].
  - destruct (work d) eqn:Hw; simplify_eq. by apply ok_app_send.
  - destruct (work d) eqn:Hw; simplify_eq. by apply ok_sent.
  - destruct (work d) eqn:Hw; simplify_eq. by apply ok_activity.
  - assert (ok (set_work (WorkDone r) d)) as Hdone by (apply ok_set_work; [done|done|eauto]).
    destruct (work d), (cancelled d); by simplify_eq.
  - destruct (running d) eqn:Hr; simplify_eq. by apply ok_decide.
  - destruct (running d), (work d); simplify_eq. by apply ok_finally.
  - destruct (running d) as [| |[|m l]|]; simplify_eq. by apply ok_responded.
  - assert (ok (set_cancelled d)) as Hc by (destruct Hok; by split).
    destruct (running d); simplify_eq; try by apply ok_finally.
    destruct (work_done d); [by apply ok_finally|done].
Qed.

Lemma deadline_reachable_ok d : reachable d → ok d.
Proof.
  intros (es & a & now & total & Hr).
  assert (ok (new_deadline a now total)) as H0.
  { split; simpl; try done; [by intros m ?%elem_of_nil|].
    by exists (mkScope "" "" "" "" [] None "" None None), "", 0, (timeout_response (mkScope "" "" "" "" [] None "" None None) "" 0). }
  revert H0 Hr. generalize (new_deadline a now total).
  induction es as [|e es IH]; intros d0 H0; simpl; [by intros [= ->]|].
  destruct (step e d0) as [d1|] eqn:E; [|done]. apply IH. by eapply deadline_step_ok.
Qed.
End facts.

(** [C7] One response per request: once any message of the deadline's response has been
    sent, the application has not started and will not start a response, and what the
    deadline has sent is a beginning of one 408 response; and before it has given up, it
    has sent nothing — in every interleaving of the application, the reader, the
    timeouts and the disconnection. *)
Theorem deadline_never_answers_twice `{Starlette} d :
  reachable d →
  (from_deadline (wire d) ≠ [] →
     started d = false ∧ closed d = true ∧ ∀ m, (FromApp, m) ∈ wire d → is_start m = false) ∧
  (∃ s detail ts, from_deadline (wire d) `prefix_of` timeout_response s detail ts) ∧
  (closed d = false → from_deadline (wire d) = []).
Proof.
  intros [H1 H2 H3 H4 (s & detail & ts & rest & E & _) H6 H7 H8]%deadline_reachable_ok. split_and!.
  - intros Hf. destruct (H4 Hf) as [Hc Hs]. split_and!; [done|done|]. intros m Hm.
    destruct (is_start m) eqn:Em; [|done]. rewrite (H1 m Hm Em) in Hs. done.
  - exists s, detail, ts, rest. done.
  - intros Hc. destruct (from_deadline (wire d)) eqn:Ef; [done|]. destruct H4; [done|congruence].
Qed.

(** *** Cancellations *)
Lemma abandon_owns reason a : owns_mutation (abandon reason a) = owns_mutation a.
Proof. unfold abandon. by destruct (abandoned a). Qed.

(** Cancelled only when no mutation is owned. *)
Definition spares (d d' : deadline) : Prop :=
  cancelled d = false → cancelled d' = true → owns_mutation (activity d) = false.

Lemma spares_same d d' : cancelled d' = cancelled d → spares d d'.
Proof. intros E H1 H2. congruence. Qed.

Lemma spares_cancel d d0 :
  cancelled d = cancelled d0 → owns_mutation (activity d) = owns_mutation (activity d0) →
  spares d0 (cancel_work d).
Proof.
  intros Ec Eo H1. unfold cancel_work. rewrite Eo.
  destruct (owns_mutation (activity d0)); [simpl; congruence|done].
Qed.

Lemma spares_finally r d d0 :
  spares d0 d → owns_mutation (activity d) = owns_mutation (activity d0) → spares d0 (finally r d).
Proof.
  intros Hsp Eo H1 H2. destruct (cancelled d) eqn:Ec; [by apply Hsp|].
  revert H2. unfold finally. cbv zeta. change (work_done (set_closed d)) with (work_done d).
  set (d1 := if work_done d then set_closed d else _).
  assert (cancelled d1 = false ∧ owns_mutation (activity d1) = owns_mutation (activity d0)) as [E1 E2].
  { unfold d1. destruct (work_done d); simpl; [by split|]. by rewrite abandon_owns. }
  rewrite E1. unfold cancel_work. rewrite E2.
  destruct (owns_mutation (activity d0)); [simpl; congruence|done].
Qed.

Lemma spares_decide `{Starlette} s ts d : spares d (decide_run s ts d).
Proof.
  unfold decide_run. destruct (completed d); [by apply spares_same|].
  destruct (disconnected d).
  { apply spares_finally; [by apply spares_cancel|]. unfold cancel_work. by destruct (_ || _). }
  destruct (bool_decide _ || _).
  - cbv zeta. set (detail := default RESPONSE_DEADLINE_MESSAGE (timeout_detail d)).
    set (d1 := set_activity (abandon detail (activity (set_closed d))) (set_closed d)).
    assert (spares d (cancel_work d1)) as H1 by (apply spares_cancel; [done|apply abandon_owns]).
    destruct (started _); [|exact H1]. apply spares_finally; [exact H1|].
    etrans; [|exact (abandon_owns detail (activity d))]. simpl. unfold cancel_work.
    by destruct (_ || _).
  - destruct (reader d) as [| |[|e]]; try (by apply spares_same).
    by apply spares_finally; [apply spares_same|].
Qed.

Lemma step_spares `{Starlette} e d d' :
  step e d = Some d' → (∀ x, e ≠ RunCancelled x) → spares d d'.
Proof.
  intros Hs Hx. destruct e as [r| | | | |m|r|b|r|s ts| |r|e]; simpl in Hs; try (by destruct (Hx e)).
  - destruct (reader d); [|done..]. apply spares_same.
    destruct (running d); simplify_eq; unfold read_message;
      (destruct r as [[]|e]; simpl; try (by destruct (incoming d)); try (by destruct (completed d));
       by destruct (is_transport_error e)).
  - destruct (work d); simplify_eq. apply spares_same. unfold receive_body.
    by destruct (closed d || disconnected d), (body_complete d).
  - destruct (work d); try done. destruct (incoming d); simplify_eq. by apply spares_same.
  - destruct (work d); simplify_eq. by apply spares_same.
  - destruct (work d); try done. destruct (interrupted d); simplify_eq. by apply spares_same.
  - destruct (work d); simplify_eq. apply spares_same. unfold send_response.
    destruct (_ || _); [done|]. by destruct m.
  - destruct (work d) as [| | |m|]; simplify_eq. apply spares_same. unfold sent.
    destruct r as [[]|e]; [destruct m as [| | |body []|]; done|by destruct (is_transport_error e)].
  - destruct (work d); simplify_eq. by apply spares_same.
  - apply spares_same. by destruct (work d), (cancelled d) eqn:E; simplify_eq.
  - destruct (running d); simplify_eq. apply spares_decide.
  - destruct (running d), (work d); simplify_eq. by apply spares_finally; [apply spares_same|].
  - destruct (running d) as [| |[|m l]|] eqn:Er; simplify_eq. unfold responded. rewrite Er.
    destruct r as [[]|e].
    + destruct l; [by apply spares_finally; [apply spares_same|]|by apply spares_same].
    + by apply spares_finally; [apply spares_same|].
Qed.

(** [C10] Once the deadline has given the response up or returned, with the work still
    running, the work's next [assert_active] raises [RequestExpired], at whatever clock
    reading, so that no check the work has yet to make lets it go on to a commit; a commit
    that is past its final check is not revoked. And the deadline never cancels the work
    while it owns a mutation (only a cancellation of the whole request does). *)
Theorem lost_response_expires_activity `{Starlette} d :
  reachable d →
  (closed d = true ∨ (∃ r, running d = Returned r) → work_done d = false →
   ∀ now, ∃ reason, activity_assert now (activity d) = (Err (request_expired reason), activity d)) ∧
  (∀ e d', step e d = Some d' → cancelled d = false → cancelled d' = true →
   owns_mutation (activity d) = false ∨ ∃ x, e = RunCancelled x).
Proof.
  intros Hok%deadline_reachable_ok. split.
  - intros Hc Hw now. assert (closed d = true) as Hcl.
    { destruct Hc as [?|[r Hr]]; [done|by apply (ok_finished _ Hok r)]. }
    pose proof (ok_lost _ Hok Hcl Hw) as Ha. unfold activity_assert.
    destruct (abandoned (activity d)) as [reason|]; [by exists reason|done].
  - intros e d' Hs H1 H2. destruct e as [r| | | | |m|r|b|r|s ts| |r|e];
      try (left; by eapply step_spares; [exact Hs|..]). right. by exists e.
Qed.

(** The request ran out of time: a body deadline passed, or nothing had happened when the
    total deadline did. *)
Definition out_of_time (d : deadline) : Prop :=
  completed d = false ∧ disconnected d = false ∧
  (timeout_detail d ≠ None ∨ work_done d = false ∧ reader_done d = false ∧ interrupted d = false).

Lemma finally_fields r d :
  running (finally r d) = Returned r ∧ wire (finally r d) = wire d ∧ aborted (finally r d) = aborted d.
Proof.
  unfold finally. cbv zeta. change (work_done (set_closed d)) with (work_done d).
  set (d1 := if work_done d then set_closed d else _).
  assert (wire d1 = wire d ∧ aborted d1 = aborted d) as [E1 E2] by (unfold d1; by destruct (work_done d)).
  destruct (cancelled d1); simpl; [by rewrite E1, E2|].
  unfold cancel_work. destruct (_ || _); simpl; by rewrite E1, E2.
Qed.

(** [C30] A request that runs out of time is answered: if its response has not started,
    exactly one complete 408 response with the deadline's detail reaches the server and
    the request returns; if it has, nothing more is sent and the request raises, so that
    the server closes the incomplete response.  It takes at most three steps of [run],
    whatever the application is doing. *)
Theorem expired_request_is_answered `{Starlette} s ts d :
  running d = Waiting → out_of_time d →
  let detail := default RESPONSE_DEADLINE_MESSAGE (timeout_detail d) in
  if started d
  then ∃ d', run_events [WaitReturns s ts] d = Some d'
         ∧ running d' = Returned (Err (stream_deadline detail))
         ∧ wire d' = wire d ∧ aborted d' = true
  else ∃ d', run_events [WaitReturns s ts; ResponseSent (Ok tt); ResponseSent (Ok tt)] d = Some d'
         ∧ running d' = Returned (Ok tt)
         ∧ wire d' = wire d ++ ((λ m, (FromDeadline, m)) <$> timeout_response s detail ts).
Proof.
  intros Hr (Hc & Hd & Ht) detail.
  set (d1 := cancel_work (set_activity (abandon detail (activity (set_closed d))) (set_closed d))).
  assert (decide_run s ts d = if started d1 then finally (Err (stream_deadline detail)) (set_aborted d1)
    else set_running (Responding (timeout_response s detail ts)) d1) as E.
  { unfold decide_run. rewrite Hc, Hd. fold detail.
    destruct (bool_decide_reflect (timeout_detail d ≠ None)) as [|Hn]; [done|].
    destruct Ht as [?|(-> & -> & ->)]; [done|]. done. }
  assert (started d1 = started d ∧ wire d1 = wire d) as [Es Ew]
    by (unfold d1, cancel_work; by destruct (_ || _)).
  cbn [run_events step]. rewrite Hr, E, Es. destruct (started d).
  - eexists. split; [done|].
    destruct (finally_fields (Err (stream_deadline detail)) (set_aborted d1)) as (-> & -> & ->).
    by simpl.
  - assert (∃ m1 m2, timeout_response s detail ts = [m1; m2]) as (m1 & m2 & ->) by (do 2 eexists; done).
    eexists. split; [done|]. unfold responded. cbn [running set_running put_wire].
    match goal with |- context [finally (Ok tt) ?x] => destruct (finally_fields (Ok tt) x) as (-> & -> & _) end.
    simpl. by rewrite Ew, <-(assoc_L (++)).
Qed.

#[local] Existing Instance HeaderPolicy.demo_starlette.
Definition demo_activity : RequestActivity := mkActivity None None false.
Definition demo_incoming : scope := mkScope "http" "POST" "/items" "" [] None "http" None None.

(** The application owns a mutation and waits for the body, whose first part is late. *)
Definition demo_late : list event :=
  [Owns true; Receives; BudgetExpires; WaitReturns demo_incoming 7; ResponseSent (Ok tt)].

Lemma deadline_never_answers_twice_witness :
  match run_events demo_late (new_deadline demo_activity 0 100) with
  | Some d => from_deadline (wire d) ≠ [] ∧ cancelled d = false
      ∧ started d = false ∧ closed d = true ∧ ∀ m, (FromApp, m) ∈ wire d → is_start m = false
  | None => False
  end.
Proof.
  destruct (run_events demo_late (new_deadline demo_activity 0 100)) as [d|] eqn:E;
    [|vm_compute in E; discriminate].
  assert (from_deadline (wire d) ≠ [] ∧ cancelled d = false) as [Hf Hc]
    by (vm_compute in E; injection E as <-; vm_compute; split; [discriminate|reflexivity]).
  split; [exact Hf|split; [exact Hc|]].
  apply (proj1 (deadline_never_answers_twice d
    (ex_intro _ demo_late (ex_intro _ demo_activity (ex_intro _ 0 (ex_intro _ 100 E))))) Hf).
Defined.

Lemma lost_response_expires_activity_witness :
  match run_events demo_late (new_deadline demo_activity 0 100) with
  | Some d => ∃ reason, activity_assert 50 (activity d) = (Err (request_expired reason), activity d)
  | None => False
  end.
Proof.
  destruct (run_events demo_late (new_deadline demo_activity 0 100)) as [d|] eqn:E;
    [|vm_compute in E; discriminate].
  apply (proj1 (lost_response_expires_activity d
    (ex_intro _ demo_late (ex_intro _ demo_activity (ex_intro _ 0 (ex_intro _ 100 E)))))).
  - left. vm_compute in E. by injection E as <-.
  - vm_compute in E. by injection E as <-.
Defined.

Lemma expired_request_is_answered_witness :
  match run_events [Owns true; Receives; BudgetExpires] (new_deadline demo_activity 0 100) with
  | Some d =>
      ∃ d', run_events [WaitReturns demo_incoming 7; ResponseSent (Ok tt); ResponseSent (Ok tt)] d = Some d'
        ∧ running d' = Returned (Ok tt)
        ∧ wire d' = wire d ++ ((λ m, (FromDeadline, m)) <$>
            timeout_response demo_incoming "Request first body timeout exceeded." 7)
  | None => False
  end.
Proof.
  refine (expired_request_is_answered demo_incoming 7
    (budget_expired (set_work Receiving (set_activity (mkActivity (Some 100) None true)
       (new_deadline demo_activity 0 100)))) _ _).
  - vm_compute. reflexivity.
  - split; [vm_compute; reflexivity|split; [vm_compute; reflexivity|]].
    left. vm_compute. discriminate.
Defined.
