(* ===== verification/Router.v ===== *)
(** * Routing

    [app/common/handlers/flexible_router.py]: case- and slash-insensitive routes, the
    dispatch of HEAD to the GET handlers, and the registration of the two slash forms of a
    path; [app/api/api_routes.py], [v1_routes.py] and the route declarations of the two
    controllers: the table of the application.  Starlette's own matching is the class
    [StarletteRouting], with the documented meaning of a full and of a partial match. *)
From S2P Require Import Prelude PyText Asgi RequestPolicy Outcome.
Open Scope Z_scope.

(** ** Routes *)

(** What Starlette and FastAPI call a route: an [APIRoute] of a [FlexibleRouter], another
    [APIRoute], a plain [Route] of the framework, or something that is not a [Route]. *)
Inductive route_kind := Flexible | Api | Framework | NotARoute.
#[export] Instance route_kind_eq_dec : EqDecision route_kind.
Proof. solve_decision. Defined.

Record path_regex := mkRegex { pattern : string; ignorecase : bool }.
#[export] Instance path_regex_eq_dec : EqDecision path_regex.
Proof. solve_decision. Defined.

Record api_route := mkRoute {
  rt_kind : route_kind;
  rt_path : string;
  endpoint : string;
  rt_methods : list string;                (* empty: every method *)
  regex : path_regex
}.
#[export] Instance api_route_eq_dec : EqDecision api_route.
Proof. solve_decision. Defined.

Definition canonical_path (r : api_route) : string :=
  let p := rstrip_char "/" (rt_path r) in if String.eqb p "" then "/" else p.

(** [FlexibleRoute.__init__], over the pattern Starlette compiles the path to. *)
Definition FlexibleRoute (compile_path : string → string) (path name : string)
    (methods : list string) : api_route :=
  mkRoute Flexible path name methods (mkRegex (compile_path path) true).

(** [removesuffix('$')] *)
Definition remove_dollar (p : string) : string :=
  match String.get (String.length p - 1) p with
  | Some c => if Ascii.eqb c "$"%char then String.substring 0 (String.length p - 1) p else p
  | None => p
  end.

Definition configure_framework_route (r : api_route) : api_route :=
  match rt_kind r with
  | Framework => mkRoute Framework (rt_path r) (endpoint r) (rt_methods r)
                   (mkRegex (remove_dollar (pattern (regex r)) +:+ "/?$") true)
  | _ => r
  end.
Definition configure_framework_routes (routes : list api_route) : list api_route :=
  configure_framework_route <$> routes.

(** ** Matching *)
Definition is_route (r : api_route) : bool := negb (bool_decide (rt_kind r = NotARoute)).
Definition has_method (m : string) (r : api_route) : bool := one_of m (rt_methods r).
Definition allows (m : string) (r : api_route) : bool :=
  has_method m r || bool_decide (rt_methods r = []).

Definition set_method (m : string) (s : scope) : scope :=
  mkScope (sc_type s) m (sc_path s) (sc_root s) (sc_headers s) (sc_client s) (sc_scheme s)
    (sc_cors s) (sc_ctx s).

(** [Route.matches] looks for the path and then at the method; a [Mount] looks at the path
    only.  The text stands for the child scope. *)
Class StarletteRouting := {
  super_matches : api_route → scope → match_result * string;
  path_found : api_route → scope → option string;
  path_found_method r m s : path_found r (set_method m s) = path_found r s;
  super_matches_law r s :
    super_matches r s
    = match path_found r s with
      | None => (MNone, EmptyString)
      | Some child =>
          (if negb (is_route r) || allows (sc_method s) r then MFull else MPartial, child)
      end
}.

#[export] Instance match_result_eq_dec : EqDecision match_result.
Proof. solve_decision. Defined.

Section matching.
Context `{StarletteRouting} (routes : list api_route).

(** [for route in routes: if ...: return]: has an element satisfied the test? *)
Fixpoint any_route (f : api_route → option bool) (l : list api_route) : option bool :=
  match l with
  | [] => Some false
  | r :: l' => b ← f r; if b : bool then Some true else any_route f l'
  end.

(** [FlexibleRoute.matches]; [fuel] bounds the depth of the recursion between routes. *)
Fixpoint matches (fuel : nat) (r : api_route) (s : scope) : option (match_result * string) :=
  match fuel with
  | O => None
  | S fuel =>
      let '(m, child) := super_matches r s in
      if bool_decide (rt_kind r = Flexible) && bool_decide (m = MPartial)
         && String.eqb (sc_method s) "HEAD" && has_method "GET" r
      then
        explicit ← any_route
          (λ r', if is_route r' && negb (bool_decide (r' = r)) && has_method "HEAD" r'
                 then (λ x, bool_decide (x.1 = MFull)) <$> matches fuel r' s
                 else Some false) routes;
        Some (if explicit : bool then m else MFull, child)
      else Some (m, child)
  end.

(** The route a request is given to: the first full match, else the first partial one. *)
Definition find_match (m : match_result) (s : scope) (l : list api_route) : option api_route :=
  find (λ r, bool_decide (fst <$> matches 2 r s = Some m)) l.
Definition select (s : scope) : option (api_route * match_result) :=
  match find_match MFull s routes with
  | Some r => Some (r, MFull)
  | None => (λ r, (r, MPartial)) <$> find_match MPartial s routes
  end.

(** [FlexibleRoute.handle]: the endpoint runs, or Starlette refuses the method. *)
Definition handle (r : api_route) (s : scope) : bool :=
  if String.eqb (sc_method s) "HEAD" && negb (has_method "HEAD" r) && has_method "GET" r
  then true
  else allows (sc_method s) r.
End matching.

(** ** Registration *)
Record registration := mkRegistration {
  rg_path : string;
  rg_endpoint : string;
  rg_methods : list string;
  in_schema : bool
}.

(** [FlexibleRouter.add_api_route]: the calls of [super().add_api_route]. *)
Definition add_api_route (copied : bool) (g : registration) : list registration :=
  if copied || String.eqb (rg_path g) "/" then [g]
  else
    let canonical := rstrip_char "/" (rg_path g) in
    [mkRegistration canonical (rg_endpoint g) (rg_methods g) (in_schema g);
     mkRegistration (canonical +:+ "/") (rg_endpoint g) (rg_methods g) false].

Definition declare (l : list registration) : list registration := l ≫= add_api_route false.

(** The class of a router's routes. *)
Inductive route_class := APIRoute | ApplicationRoute | FlexibleClass (c : route_class).
Definition _flexible_route_class (c : route_class) : route_class :=
  match c with FlexibleClass _ => c | _ => FlexibleClass c end.

(** *** The application's table *)
Definition get (path name : string) : registration := mkRegistration path name ["GET"] true.

(** [system_controller.py] *)
Definition favicon : registration := mkRegistration "/favicon.ico" "favicon" ["GET"; "HEAD"] false.
Definition root : registration := get "/" "root".
Definition live_probe : registration := get "/health" "live_probe".
Definition ready_probe : registration := get "/ready" "ready_probe".
Definition info : registration := get "/info" "info".
Definition system : registration := get "/system" "system".
Definition metrics : registration := get "/metrics" "metrics".

(** [item_controller.py] *)
Definition create : registration := mkRegistration "" "create" ["POST"] true.
Definition get_all : registration := get "" "get_all".
Definition get_one : registration := get "/{id}" "get".
Definition update : registration := mkRegistration "/{id}" "update" ["PATCH"] true.
Definition replace : registration := mkRegistration "/{id}" "replace" ["PUT"] true.
Definition delete_one : registration := mkRegistration "/{id}/delete" "delete" ["POST"] true.

Definition system_router : list registration := declare [favicon; root; live_probe; ready_probe].
Definition diagnostics_router : list registration := declare [info; system].
Definition metrics_router : list registration := declare [metrics].
Definition items_router : list registration :=
  declare [create; get_all; get_one; update; replace; delete_one].

(** [include_router] copies the routes under a prefix. *)
Definition include_router (prefix : string) (l : list registration) : list registration :=
  l ≫= λ g, add_api_route true
              (mkRegistration (prefix +:+ rg_path g) (rg_endpoint g) (rg_methods g) (in_schema g)).

Definition create_router (diagnostics_enabled metrics_enabled : bool) : list registration :=
  include_router "" system_router
  ++ (if diagnostics_enabled then include_router "" diagnostics_router else [])
  ++ (if metrics_enabled then include_router "" metrics_router else [])
  ++ include_router "/api" (include_router "/v1" (include_router "/items" items_router)).

(** The routes made of the registrations. *)
Definition table (compile_path : string → string) (l : list registration) : list api_route :=
  (λ g, FlexibleRoute compile_path (rg_path g) (rg_endpoint g) (rg_methods g)) <$> l.

(** ** HEAD and GET *)
Section dispatch.
Context `{StarletteRouting} (routes : list api_route).

(** Some route declares HEAD and has the path of the request. *)
Definition explicit_head (s : scope) : bool :=
  existsb (λ r, is_route r && has_method "HEAD" r && bool_decide (path_found r s ≠ None)) routes.

(** What a match of [r] is, in closed form. *)
Definition serves (r : api_route) (s : scope) : bool :=
  negb (is_route r) || allows (sc_method s) r
  || (bool_decide (rt_kind r = Flexible) && String.eqb (sc_method s) "HEAD"
      && has_method "GET" r && negb (explicit_head s)).

Lemma any_route_existsb f g l :
  (∀ r, r ∈ l → f r = Some (g r)) → any_route f l = Some (existsb g l).
Proof.
  induction l as [|r l IH]; intros Hf; [done|]. simpl. rewrite Hf by set_solver. simpl.
  destruct (g r); [done|]. apply IH. set_solver.
Qed.

Lemma matches_head n r s :
  has_method "HEAD" r = true → sc_method s = "HEAD" →
  matches routes (S n) r s = Some (super_matches r s).
Proof.
  intros Hr Hs. simpl. rewrite super_matches_law, Hs. unfold allows. rewrite Hr. simpl.
  rewrite orb_true_r. destruct (path_found r s); simpl; by rewrite andb_false_r.
Qed.

Lemma explicit_other r s :
  has_method "HEAD" r = false →
  existsb (λ r', is_route r' && negb (bool_decide (r' = r)) && has_method "HEAD" r'
    && bool_decide (path_found r' s ≠ None)) routes = explicit_head s.
Proof.
  intros Hr. unfold explicit_head. induction routes as [|r' l IH]; simpl; [done|].
  rewrite IH. f_equal. destruct (bool_decide_reflect (r' = r)) as [->|]; simpl.
  - rewrite Hr. by rewrite !andb_false_r.
  - by rewrite andb_true_r.
Qed.

Lemma matches_spec n r s :
  matches routes (S (S n)) r s
  = Some match path_found r s with
         | None => (MNone, EmptyString)
         | Some child => (if serves r s then MFull else MPartial, child)
         end.
Proof.
  pose proof (matches_head n) as Hhead. revert Hhead. generalize (S n). intros k Hhead.
  cbn [matches]. rewrite super_matches_law. destruct (path_found r s) as [child|];
    [|simpl; by rewrite andb_false_r].
  unfold serves. destruct (negb (is_route r) || allows (sc_method s) r) eqn:Ea.
  { by rewrite andb_false_r. }
  cbn [bool_decide decide_rel orb].
  destruct (bool_decide_reflect (rt_kind r = Flexible)) as [Hk|]; [|done].
  rewrite bool_decide_true by done. simpl andb.
  destruct (String.eqb (sc_method s) "HEAD") eqn:Hm; [|done]. apply String.eqb_eq in Hm.
  destruct (has_method "GET" r); [|done]. simpl andb.
  assert (has_method "HEAD" r = false) as Hh.
  { apply orb_false_iff in Ea as [_ Ea]. unfold allows in Ea. rewrite Hm in Ea.
    by apply orb_false_iff in Ea as [? _]. }
  rewrite (any_route_existsb _ (λ r', is_route r' && negb (bool_decide (r' = r))
    && has_method "HEAD" r' && bool_decide (path_found r' s ≠ None))).
  - rewrite (explicit_other r s Hh). simpl. by destruct (explicit_head s).
  - intros r' _. destruct (is_route r' && negb (bool_decide (r' = r)) && has_method "HEAD" r') eqn:E;
      [|done]. apply andb_true_iff in E as [E Hr'].
    rewrite (Hhead r' s Hr' Hm), super_matches_law. unfold allows. rewrite Hm, Hr'.
    rewrite orb_true_r. by destruct (path_found r' s).
Qed.

Lemma find_match_spec m s l :
  find_match routes m s l
  = find (λ r, match path_found r s with
               | None => bool_decide (m = MNone)
               | Some _ => bool_decide (m = if serves r s then MFull else MPartial)
               end) l.
Proof.
  unfold find_match. induction l as [|r l IH]; [done|]. cbn [find]. rewrite IH, matches_spec. simpl.
  assert (∀ x : match_result, bool_decide (Some x = Some m) = bool_decide (m = x)) as E
    by (intros x; apply bool_decide_ext; naive_solver).
  by destruct (path_found r s); simpl; rewrite E.
Qed.

(** Every GET route is flexible or declares HEAD as well. *)
Definition get_routes_flexible : Prop :=
  ∀ r, r ∈ routes → has_method "GET" r = true → rt_kind r = Flexible ∨ has_method "HEAD" r = true.

Lemma find_ext (f g : api_route → bool) l :
  (∀ r, r ∈ l → f r = g r) → find f l = find g l.
Proof.
  induction l as [|r l IH]; intros Hfg; [done|]. simpl. rewrite Hfg by set_solver.
  rewrite IH; [done|set_solver].
Qed.

Lemma head_serves_get r s :
  get_routes_flexible → r ∈ routes → sc_method s = "HEAD" → explicit_head s = false →
  path_found r s ≠ None → serves r s = serves r (set_method "GET" s).
Proof.
  intros Hflex Hr Hm He Hp. unfold serves, allows. rewrite Hm, He.
  change (sc_method (set_method "GET" s)) with "GET".
  destruct (is_route r) eqn:Hk; [|done]. cbn [negb orb].
  assert (has_method "HEAD" r = false) as Hh.
  { destruct (has_method "HEAD" r) eqn:E; [|done]. exfalso.
    assert (explicit_head s = true); [|congruence].
    apply existsb_exists. exists r. rewrite Hk, E, bool_decide_true by done.
    split; [by apply list_elem_of_In|done]. }
  rewrite Hh. cbn [String.eqb Ascii.eqb Bool.eqb andb orb].
  destruct (bool_decide_reflect (rt_methods r = [])) as [E|].
  { by rewrite !orb_true_r. }
  destruct (has_method "GET" r) eqn:Hg; [|by rewrite !andb_false_r, !orb_false_r].
  destruct (Hflex r Hr Hg) as [->|?]; [|congruence]. done.
Qed.

Lemma select_spec m r s :
  select routes s = Some (r, m) → r ∈ routes ∧ ∃ child, path_found r s = Some child
    ∧ serves r s = bool_decide (m = MFull).
Proof.
  unfold select. rewrite !find_match_spec.
  destruct (find _ routes) as [r'|] eqn:E.
  - intros [= <- <-]. apply find_some in E as [Hin E]. apply list_elem_of_In in Hin.
    destruct (path_found r' s) as [child|]; [|by case_bool_decide]. split; [done|]. exists child.
    split; [done|]. destruct (serves r' s); [done|by case_bool_decide].
  - intros E2. destruct (find _ routes) as [r'|] eqn:E3 in E2; [|done]. simplify_eq/=.
    apply find_some in E3 as [Hin E3]. apply list_elem_of_In in Hin.
    destruct (path_found r s) as [child|]; [|done]. split; [done|]. exists child.
    split; [done|]. destruct (serves r s); [by case_bool_decide|done].
Qed.

Lemma select_get s :
  get_routes_flexible → sc_method s = "HEAD" → explicit_head s = false →
  select routes s = select routes (set_method "GET" s).
Proof.
  intros Hflex Hm He. unfold select.
  assert (∀ m, find_match routes m s routes = find_match routes m (set_method "GET" s) routes) as E.
  { intros m. rewrite !find_match_spec. apply find_ext. intros r Hr. rewrite path_found_method.
    destruct (path_found r s) eqn:Hp; [|done]. by rewrite <-(head_serves_get r s) by (done || congruence). }
  by rewrite !E.
Qed.

Lemma handle_get r s :
  r ∈ routes → is_route r = true → sc_method s = "HEAD" → explicit_head s = false →
  path_found r s ≠ None → handle r s = handle r (set_method "GET" s).
Proof.
  intros Hr Hk Hm He Hp. unfold handle. rewrite Hm. cbn.
  assert (has_method "HEAD" r = false) as Hh.
  { destruct (has_method "HEAD" r) eqn:E; [|done]. exfalso.
    assert (explicit_head s = true); [|congruence].
    apply existsb_exists. exists r. rewrite Hk, E, bool_decide_true by done.
    split; [by apply list_elem_of_In|done]. }
  unfold allows. rewrite Hh. by destruct (has_method "GET" r).
Qed.
End dispatch.

(** [C39] HEAD is answered as GET is: with a table whose GET routes are flexible, a HEAD
    request goes to the route GET goes to, which runs or refuses it as it does GET —
    unless some route declares HEAD for the path, in which case, wherever it was
    registered, the request goes to a route that takes HEAD itself and runs.  The routes'
    mutual search ends at depth two. *)
Theorem head_follows_get `{StarletteRouting} routes s :
  get_routes_flexible routes → sc_method s = "HEAD" →
  (∀ n r, is_Some (matches routes 2 r s) ∧ matches routes (2 + n) r s = matches routes 2 r s) ∧
  if explicit_head routes s
  then ∃ r, select routes s = Some (r, MFull)
         ∧ (is_route r = true → allows "HEAD" r = true ∧ handle r s = true)
  else select routes s = select routes (set_method "GET" s)
       ∧ ∀ r m, select routes s = Some (r, m) → is_route r = true →
           handle r s = handle r (set_method "GET" s) ∧ handle r s = bool_decide (m = MFull).
Proof.
  intros Hflex Hm. split.
  { intros n r. change (2 + n)%nat with (S (S n)). rewrite !matches_spec. split; [by eexists|done]. }
  destruct (explicit_head routes s) eqn:He.
  - assert (∃ r, select routes s = Some (r, MFull)) as [r Hr].
    { unfold select. rewrite find_match_spec.
      destruct (find _ routes) as [r|] eqn:E; [by exists r|]. exfalso.
      apply existsb_exists in He as (r & Hin & Hr). reflect_bools.
      pose proof (find_none _ _ E r Hin) as Hn. cbv beta in Hn.
      destruct (path_found r s); [|done]. unfold serves, allows in Hn. rewrite Hm in Hn.
      destruct (has_method "HEAD" r); [|naive_solver]. rewrite orb_true_r in Hn. by case_bool_decide. }
    exists r. split; [done|]. intros Hk. apply select_spec in Hr as (_ & child & _ & Hs).
    unfold serves in Hs. rewrite Hk, He, !andb_false_r, orb_false_r, Hm in Hs. simpl in Hs.
    split; [done|]. unfold handle. rewrite Hm. destruct (_ && _); [done|exact Hs].
  - split; [by apply select_get|]. intros r m Hr Hk.
    destruct (select_spec routes m r s Hr) as (Hin & child & Hp & Hs).
    assert (path_found r s ≠ None) as Hp' by congruence.
    rewrite <-(handle_get routes) by done. split; [done|].
    rewrite <-Hs. rewrite (head_serves_get routes r s) by done.
    rewrite (handle_get routes) by done. unfold handle, serves. rewrite Hk. simpl.
    by rewrite !andb_false_r, orb_false_r.
Qed.

(** ** Registration *)

(** Both slash forms are registered, and a declaration is documented once. *)
Lemma declared_forms g :
  rg_path g ≠ "/" →
  rg_path <$> add_api_route false g
    = [rstrip_char "/" (rg_path g); rstrip_char "/" (rg_path g) +:+ "/"]
  ∧ rg_endpoint <$> add_api_route false g = [rg_endpoint g; rg_endpoint g].
Proof. intros Hp. unfold add_api_route. by rewrite (proj2 (String.eqb_neq _ _) Hp). Qed.

Lemma declared_once l :
  length (filter (λ g, in_schema g = true) (declare l)) = length (filter (λ g, in_schema g = true) l).
Proof.
  unfold declare. induction l as [|g l IH]; [done|]. cbn [mbind list_bind].
  rewrite filter_app, length_app, IH, filter_cons. unfold add_api_route.
  destruct (false || String.eqb (rg_path g) "/"); rewrite !filter_cons; simpl;
    by destruct (decide (in_schema g = true)).
Qed.

(** Copying a router's routes makes no further aliases. *)
Lemma copied_once prefix l :
  include_router prefix l
  = (λ g, mkRegistration (prefix +:+ rg_path g) (rg_endpoint g) (rg_methods g) (in_schema g)) <$> l.
Proof. induction l as [|g l IH]; [done|]. rewrite fmap_cons, <-IH. done. Qed.

Lemma table_flexible compile_path l : get_routes_flexible (table compile_path l).
Proof. intros r (g & -> & _)%list_elem_of_fmap _. by left. Qed.

(** ** An example: paths are compared without case, parameters are not interpreted. *)
#[local] Instance demo_routing : StarletteRouting.
Proof.
  refine {| path_found r s :=
              if String.eqb (lower (pattern (regex r))) (lower (sc_path s)) then Some "" else None;
            super_matches r s :=
              if String.eqb (lower (pattern (regex r))) (lower (sc_path s))
              then (if negb (is_route r) || allows (sc_method s) r then MFull else MPartial, "")
              else (MNone, EmptyString) |}; [done|].
  intros r s. by destruct (String.eqb _ _).
Defined.

Definition demo_table : list api_route := table (λ p, p) (create_router true true).
Definition demo_head (path : string) : scope := mkScope "http" "HEAD" path "" [] None "http" None None.

Lemma head_follows_get_witness :
  select demo_table (demo_head "/API/v1/Items/") = select demo_table (set_method "GET" (demo_head "/API/v1/Items/"))
  ∧ (∃ r, select demo_table (demo_head "/favicon.ico") = Some (r, MFull)
          ∧ (is_route r = true → allows "HEAD" r = true ∧ handle r (demo_head "/favicon.ico") = true))
  ∧ endpoint <$> (fst <$> select demo_table (demo_head "/API/v1/Items/")) = Some "get_all"
  ∧ snd <$> select demo_table (demo_head "/api/v1/items/{id}/delete") = Some MPartial.
Proof.
  split; [|split; [|split; vm_compute; reflexivity]].
  - exact (proj1 (proj2 (head_follows_get demo_table (demo_head "/API/v1/Items/")
      (table_flexible _ _) eq_refl))).
  - exact (proj2 (head_follows_get demo_table (demo_head "/favicon.ico") (table_flexible _ _) eq_refl)).
Defined.
