(* ===== verification/Float64.v ===== *)
(** * Python floats

    IEEE 754 doubles, by the executable specification of the standard library
    ([Floats.SpecFloat]): the conversions, clamps and roundings the diagnostics apply, and
    the fact that they keep a number inside its declared range whatever it was — an
    infinity and a NaN included. *)
From Stdlib Require Import Floats.SpecFloat.
From S2P Require Import Prelude PyText Values.
Open Scope Z_scope.

Abbreviation float := spec_float (only parsing).
Definition fzero : float := S754_zero false.

(** [float(z)]; [OverflowError] past the largest double. *)
Definition float_of_int (z : Z) : py float :=
  match binary_normalize 53 1024 z 0 false with
  | S754_infinity _ => Err ArithmeticError
  | f => Ok f
  end.
Definition hundred : float := binary_normalize 53 1024 100 0 false.

(** [max(0.0, x)] and [min(100.0, x)]: the first argument unless the second is beyond it. *)
Definition max_zero (x : float) : float := if SFltb fzero x then x else fzero.
Definition min_hundred (x : float) : float := if SFltb x hundred then x else hundred.

(** [round(x, 3)]: the double nearest to the nearest multiple of a thousandth. *)
Definition round3 (x : float) : float :=
  match x with
  | S754_finite s m e =>
      match div_half_even (Z.pos m * 1000 * 2 ^ Z.max 0 e) (2 ^ Z.max 0 (- e)) with
      | Zpos n => SFdiv 53 1024 (S754_finite s n 0) (S754_finite false 1000 0)
      | _ => S754_zero s
      end
  | _ => x
  end.

Definition nonneg (x : float) : bool := SFleb fzero x.

Lemma nonneg_max_zero x : nonneg (max_zero x) = true.
Proof.
  unfold nonneg, max_zero. destruct (SFltb fzero x) eqn:E; [|done].
  unfold SFltb, SFleb in *. by destruct (SFcompare fzero x) as [[]|].
Qed.

Lemma percentage_range x :
  nonneg x = true → nonneg (min_hundred x) = true ∧ SFleb (min_hundred x) hundred = true.
Proof.
  intros Hx. unfold min_hundred. destruct (SFltb x hundred) eqn:E.
  - split; [done|]. unfold SFltb, SFleb in *. by destruct (SFcompare x hundred) as [[]|].
  - by split; vm_compute.
Qed.

(** *** Quotients of positive numbers are not negative. *)
Lemma shr_1_nonneg r : 0 ≤ shr_m r → 0 ≤ shr_m (shr_1 r).
Proof. destruct r as [[|[p|p|]|[p|p|]] a b]; simpl; lia. Qed.

Lemma shr_nonneg r e n : 0 ≤ shr_m r → 0 ≤ shr_m (shr r e n).1.
Proof.
  intros Hr. unfold shr. destruct n as [|p|]; [done| |done]. simpl.
  revert r Hr. induction p as [p IH|p IH|]; intros r Hr; simpl; auto using shr_1_nonneg.
Qed.

Lemma shr_fexp_nonneg m e l : 0 ≤ m → 0 ≤ shr_m (shr_fexp 53 1024 m e l).1.
Proof. intros Hm. apply shr_nonneg. by destruct l as [|[]]. Qed.

Lemma binary_round_nonneg m e l : 0 ≤ m → nonneg (binary_round_aux 53 1024 false m e l) = true.
Proof.
  intros Hm. unfold binary_round_aux.
  destruct (shr_fexp 53 1024 m e l) as [r1 e1] eqn:E1.
  destruct (shr_fexp 53 1024 (round_nearest_even (shr_m r1) (loc_of_shr_record r1)) e1 loc_Exact)
    as [r2 e2] eqn:E2.
  assert (0 ≤ shr_m r1) as H1 by (pose proof (shr_fexp_nonneg m e l Hm) as H; by rewrite E1 in H).
  assert (0 ≤ round_nearest_even (shr_m r1) (loc_of_shr_record r1)) as H3.
  { unfold round_nearest_even. destruct (loc_of_shr_record r1) as [|[]]; try destruct (Z.even _); lia. }
  assert (0 ≤ shr_m r2) as H2.
  { pose proof (shr_fexp_nonneg _ e1 loc_Exact H3) as H. by rewrite E2 in H. }
  destruct (shr_m r2); [done| |lia]. by destruct (_ <=? _).
Qed.

Lemma SFdiv_nonneg m1 e1 m2 e2 :
  nonneg (SFdiv 53 1024 (S754_finite false m1 e1) (S754_finite false m2 e2)) = true.
Proof.
  unfold SFdiv. destruct (SFdiv_core_binary 53 1024 (Z.pos m1) e1 (Z.pos m2) e2) as [[mz ez] lz] eqn:E.
  apply binary_round_nonneg. revert E. unfold SFdiv_core_binary. cbv zeta.
  match goal with |- context [Z.div_eucl ?m _] => assert (0 ≤ m) as Hm end.
  { destruct (_ - Z.min _ _); [lia| |lia]. apply Z.shiftl_nonneg. lia. }
  revert Hm. match goal with |- context [Z.div_eucl ?m _] => generalize m end. intros n Hn.
  destruct (Z.div_eucl n (Z.pos m2)) as [q r] eqn:E. intros [= <- <- <-].
  assert (Z.div n (Z.pos m2) = q) as <- by (unfold Z.div; by rewrite E). by apply Z.div_pos.
Qed.

Lemma nonneg_round3 x : nonneg x = true → nonneg (round3 x) = true.
Proof.
  intros Hx. destruct x as [s|s| |s m e]; [by destruct s|done|done|]. destruct s; [done|].
  unfold round3. destruct (div_half_even _ _) as [|n|n]; [done| |done]. apply SFdiv_nonneg.
Qed.
