(* ===== verification/SystemService.v ===== *)
(** * The system endpoints

    [app/api/system/]: the liveness and readiness probes, the runtime identity and the
    diagnostics ([services/system_service.py], [services/system_data.py]), the response
    models ([models/]) and the endpoints that answer with them
    ([controllers/system_controller.py]).  What the host answers — the operating system,
    [platform], [resource], [tracemalloc] — is a record of values or of what a call
    raises.  Floats are
    the IEEE doubles of [Float64]. *)
From Stdlib Require Import Floats.SpecFloat.
From S2P Require Import Prelude PyText Values Float64 Lifecycle.
Open Scope Z_scope.

(** [a or b] on texts. *)
Definition or_else (a b : string) : string := if String.eqb a "" then b else a.

(** ** Data *)
Record CpuData := mkCpu { cores : Z; model : string; load_average : float * float * float }.
Record MemoryData := mkMemory {
  total_bytes : Z; available_bytes : Z; used_bytes : Z; percentage : float
}.
Record ProcessData := mkProcess {
  rss_bytes : Z; heap_total_bytes : Z; heap_used_bytes : Z; external_bytes : Z;
  active_handles : Z
}.
Record OsData := mkOs { os_platform : string; os_release : string }.
Definition diagnostics : Type := CpuData * MemoryData * ProcessData * OsData.
Record SystemData := mkSystem {
  uptime : float;
  timestamp : Z;                           (* milliseconds *)
  event_loop_lag : float;
  db : string;
  cpu : CpuData;
  memory : MemoryData;
  process : ProcessData;
  os : OsData
}.

(** ** The host *)
Record host := mkHost {
  getloadavg : option (py (float * float * float));
  meminfo : py string;                     (* the octets of /proc/meminfo *)
  sysconf : option (string → py Z);
  resource : option (py Z);                (* [int(ru_maxrss)], if the module exists *)
  traced_memory : option (Z * Z);          (* current and peak, while tracing *)
  cpu_count : option Z;
  processor : string;
  system_name : string;
  release_name : string
}.

Definition _load_average (h : host) : py (float * float * float) :=
  match getloadavg h with
  | None => Ok (fzero, fzero, fzero)
  | Some (Ok (first, second, third)) => Ok (max_zero first, max_zero second, max_zero third)
  | Some (Err e) => if is_OSError e then Ok (fzero, fzero, fzero) else Err e
  end.

(** *** Memory *)

(** The parts of a text between the characters of a class. *)
Fixpoint split_when (P : ascii → bool) (s : string) : list string :=
  match s with
  | EmptyString => [EmptyString]
  | String c s' =>
      if P c then EmptyString :: split_when P s'
      else match split_when P s' with
           | part :: rest => String c part :: rest
           | [] => [String c EmptyString]
           end
  end.
Definition is_line_break (c : ascii) : bool := in_range 10 13 c || in_range 28 30 c.
Definition splitlines (s : string) : list string := split_when is_line_break s.
Definition words (s : string) : list string :=
  filter (λ w, w ≠ EmptyString) (split_when is_space s).
Definition isdigit (s : string) : bool := negb (String.eqb s "") && str_all is_digit s.

(** The entries of the comprehension, in the order of the lines. *)
Fixpoint mem_entries (lines : list string) (acc : gmap string Z) : py (gmap string Z) :=
  match lines with
  | [] => Ok acc
  | line :: lines' =>
      match words line with
      | name :: digits :: _ =>
          if isdigit digits
          then n ← parse_int digits; mem_entries lines' (<[rstrip_char ":" name := n * 1024]> acc)
          else mem_entries lines' acc
      | _ => mem_entries lines' acc
      end
  end.

Definition _memory_from_proc (text : py string) : py (option (Z * Z)) :=
  match (octets ← text; t ← decode_ascii octets; mem_entries (splitlines t) ∅) with
  | Err e => if is_OSError e || is_ValueError e then Ok None else Err e
  | Ok entries =>
      let available := match entries !! "MemAvailable" with
                       | Some n => Some n
                       | None => entries !! "MemFree"
                       end in
      match entries !! "MemTotal", available with
      | Some total, Some available =>
          Ok (Some (Z.max 0 total, Z.min (Z.max 0 available) (Z.max 0 total)))
      | _, _ => Ok None
      end
  end.

Definition _memory_from_sysconf (call : option (string → py Z)) : py (option (Z * Z)) :=
  match call with
  | None => Ok None
  | Some sysconf =>
      match (page_size ← sysconf "SC_PAGE_SIZE"; pages ← sysconf "SC_PHYS_PAGES";
             available ← sysconf "SC_AVPHYS_PAGES"; Ok (page_size, pages, available)) with
      | Err e => if is_OSError e || is_ValueError e then Ok None else Err e
      | Ok (page_size, pages, available_pages) =>
          if Z.min (Z.min page_size pages) available_pages <? 0 then Ok None
          else
            let total := page_size * pages in
            Ok (Some (total, Z.min (page_size * available_pages) total))
      end
  end.

(** [used * 100.0 / total] *)
Definition used_percent (used total : Z) : py float :=
  u ← float_of_int used; t ← float_of_int total; Ok (SFdiv 53 1024 (SFmul 53 1024 u hundred) t).

Definition _memory_diagnostics (h : host) : py MemoryData :=
  proc ← _memory_from_proc (meminfo h);
  found ← match proc with Some m => Ok (Some m) | None => _memory_from_sysconf (sysconf h) end;
  let '(total, available) := default (0, 0) found in
  let used := Z.max 0 (total - available) in
  percentage ← (if total =? 0 then Ok fzero
                else x ← used_percent used total; Ok (min_hundred (max_zero x)));
  Ok (mkMemory total available used percentage).

(** *** The process *)
Definition _rss_bytes (max_rss : Z) (system : string) : Z :=
  let value := Z.max 0 max_rss in
  if String.eqb system "Darwin" then value else value * 1024.

Definition _process_rss_bytes (h : host) : py Z :=
  match resource h with
  | None => Ok 0
  | Some (Ok max_rss) => Ok (_rss_bytes max_rss (system_name h))
  | Some (Err e) =>
      if is_OSError e || is_ValueError e || bool_decide (e = AttributeError) then Ok 0 else Err e
  end.

Definition _sync_diagnostics (h : host) : py diagnostics :=
  let '(current, peak) := default (0, 0) (traced_memory h) in
  load ← _load_average h;
  mem ← _memory_diagnostics h;
  rss ← _process_rss_bytes h;
  Ok (mkCpu (Z.max 1 (match cpu_count h with Some n => if n =? 0 then 1 else n | None => 1 end))
        (or_else (processor h) "unknown") load,
      mem,
      mkProcess rss (Z.max 0 peak) (Z.max 0 current) 0 0,
      mkOs (or_else (system_name h) "unknown") (or_else (release_name h) "unknown")).

Definition _fallback_diagnostics : diagnostics :=
  (mkCpu 1 "unknown" (fzero, fzero, fzero), mkMemory 0 0 0 fzero, mkProcess 0 0 0 0 0,
   mkOs "unknown" "unknown").

(** ** The diagnostics service *)
Definition SystemDiagnosticsService (timeout : Z) : py Z :=
  if timeout <=? 0 then Err (ValueError "timeout_seconds must be greater than zero") else Ok timeout.

(** The outcomes of the awaits: [wait_for] raises [TimeoutError] when time is up. *)
Definition _event_loop_lag (lag : py float) : py float :=
  match lag with
  | Ok x => Ok (max_zero x)
  | Err e => if is_Exception e then Ok fzero else Err e
  end.

Definition _database_status (result : py (option ReadinessCheckResult)) : py string :=
  match result with
  | Ok (Some r) => Ok (if is_up r then "connected" else "disconnected")
  | Ok None => Ok "disconnected"
  | Err e => if is_Exception e then Ok "disconnected" else Err e
  end.

(** [wait_for(to_thread(_sync_diagnostics))]: [late] when it does not end in time. *)
Definition diagnose (late : option exn) (h : host) : py diagnostics :=
  match late with Some e => Err e | None => _sync_diagnostics h end.

Definition collect (late : option exn) (h : host) (check : py (option ReadinessCheckResult))
    (lag : py float) (unfinished : nat) (elapsed : float) (now_ms : Z) : py SystemData :=
  d ← match diagnose late h with
      | Ok d => Ok d
      | Err e => if is_Exception e then Ok _fallback_diagnostics else Err e
      end;
  let '(c, m, p, o) := d in
  let p := mkProcess (rss_bytes p) (heap_total_bytes p) (heap_used_bytes p) (external_bytes p)
             (Z.of_nat unfinished) in
  status ← _database_status check;
  l ← _event_loop_lag lag;
  Ok (mkSystem (round3 (max_zero elapsed)) now_ms (round3 (max_zero l)) status c m p o).

(** ** The response models *)
Definition nonempty (s : string) : bool := negb (String.eqb s "").

Definition CpuDiagnostics (c : CpuData) : bool :=
  (1 <=? cores c) && nonempty (model c)
  && (let '(a, b, d) := load_average c in nonneg a && nonneg b && nonneg d).
Definition MemoryDiagnostics (m : MemoryData) : bool :=
  (0 <=? total_bytes m) && (0 <=? available_bytes m) && (0 <=? used_bytes m)
  && nonneg (percentage m) && SFleb (percentage m) hundred.
Definition ProcessDiagnostics (p : ProcessData) : bool :=
  (0 <=? rss_bytes p) && (0 <=? heap_total_bytes p) && (0 <=? heap_used_bytes p)
  && (0 <=? external_bytes p) && (0 <=? active_handles p).
Definition OsDiagnostics (o : OsData) : bool := nonempty (os_platform o) && nonempty (os_release o).
Definition SystemResponse (d : SystemData) : py SystemData :=
  if nonneg (uptime d) && (0 <=? timestamp d) && nonneg (event_loop_lag d)
     && bool_decide (db d ∈ ["connected"; "disconnected"])
     && CpuDiagnostics (cpu d) && MemoryDiagnostics (memory d) && ProcessDiagnostics (process d)
     && OsDiagnostics (os d)
  then Ok d else Err (PydanticError "SystemResponse" "invalid diagnostics").

(** Times: seconds from UTC of the zone, if there is one, and the instant. *)
Record datetime := mkDatetime { utcoffset : option Z; instant : Z }.
Definition is_utc (t : datetime) : bool := bool_decide (utcoffset t = Some 0).

Record HealthData := mkHealth { h_alive : bool; h_uptime : float; h_timestamp : datetime }.
Record HealthResponse := mkHealthResponse {
  hr_alive : bool; hr_status : string; hr_uptime : float; hr_timestamp : datetime
}.
Definition validate_health_state (r : HealthResponse) : py HealthResponse :=
  if negb (String.eqb (hr_status r) (if hr_alive r then "alive" else "dead"))
  then Err (ValueError "status must correspond to alive")
  else if negb (is_utc (hr_timestamp r))
  then Err (ValueError "timestamp must be timezone-aware and in UTC") else Ok r.
Definition new_HealthResponse (r : HealthResponse) : py HealthResponse :=
  if nonneg (hr_uptime r) && bool_decide (hr_status r ∈ ["alive"; "dead"])
  then validate_health_state r else Err (PydanticError "HealthResponse" "invalid field").
Definition from_alive (d : HealthData) : py HealthResponse :=
  new_HealthResponse (mkHealthResponse (h_alive d) (if h_alive d then "alive" else "dead")
                        (h_uptime d) (h_timestamp d)).

Record ReadyResponse := mkReady { rd_ready : bool; rd_status : string; rd_timestamp : datetime }.
Definition validate_contract (r : ReadyResponse) : py ReadyResponse :=
  if negb (is_utc (rd_timestamp r)) then Err (ValueError "timestamp must be timezone-aware UTC")
  else if negb (String.eqb (rd_status r) (if rd_ready r then "ready" else "not_ready"))
  then Err (ValueError "ready and status contradict each other") else Ok r.
Definition from_state (ready : bool) (now : datetime) : py ReadyResponse :=
  validate_contract (mkReady ready (if ready then "ready" else "not_ready") now).

(** ** The probes *)

(** [live]: [timedelta(seconds=...)], in the units of an instant, is a parameter. *)
Definition live (timedelta : float → Z) (h : handler) (initialized_at : datetime) (elapsed : float)
  : HealthData :=
  let uptime := round3 elapsed in
  mkHealth (is_alive h) uptime
    (mkDatetime (utcoffset initialized_at) (instant initialized_at + timedelta uptime)).
Definition live_probe (timedelta : float → Z) (h : handler) (initialized_at : datetime)
    (elapsed : float) : py HealthResponse := from_alive (live timedelta h initialized_at elapsed).

(** [ready]: the state of the application is read before the services are checked. *)
Definition ready (h : handler) (answer : string → py bool) (clock : string → Z * Z) : py bool :=
  let app_ready := is_ready h in
  results ← check_services h answer clock;
  Ok (app_ready && forallb is_up results).

Definition ready_probe (h : handler) (answer : string → py bool) (clock : string → Z * Z)
    (now : datetime) : py (Z * ReadyResponse) :=
  r ← ready h answer clock;
  payload ← from_state r now;
  Ok (if rd_ready payload then 200 else 503, payload).

(** [/system] *)
Definition system (late : option exn) (h : host) (check : py (option ReadinessCheckResult))
    (lag : py float) (unfinished : nat) (elapsed : float) (now_ms : Z) : py SystemData :=
  d ← collect late h check lag unfinished elapsed now_ms; SystemResponse d.

(** *** The runtime identity *)
Record identity := mkIdentity {
  hostname : string; pid : Z; python_version : string; sys_version : string; machine : string;
  sys_platform : string
}.
Record InfoData := mkInfo {
  i_name : string; i_version : string; i_environment : string; i_hostname : string; i_pid : Z;
  i_python_version : string; i_platform : string; i_architecture : string;
  i_started_at : datetime; i_timezone : string
}.

Definition info (name version env timezone : string) (i : identity) (h : host) (started_at : datetime)
  : InfoData :=
  mkInfo name version env (hostname i) (pid i)
    (or_else (python_version i) (default EmptyString (head (words (sys_version i)))))
    (or_else (system_name h) (sys_platform i)) (or_else (machine i) "unknown") started_at timezone.

(** [InfoResponse]: the version pattern and the time zone database are parameters. *)
Definition InfoResponse (semver is_zone : string → bool) (d : InfoData) : py InfoData :=
  if semver (i_version d) && bool_decide (i_environment d ∈ ["development"; "production"; "test"])
     && (0 <? i_pid d) && nonempty (i_python_version d) && nonempty (i_platform d)
     && nonempty (i_architecture d) && nonempty (i_timezone d)
     && is_utc (i_started_at d) && is_zone (i_timezone d)
  then Ok d else Err (PydanticError "InfoResponse" "invalid field").

(** ** Lemmas *)
(** ** Diagnostics are valid whatever the host answers *)

(** What both sources of memory figures guarantee. *)
Definition memory_pair_ok (m : Z * Z) : Prop := 0 ≤ m.2 ≤ m.1.

Lemma memory_from_proc_ok text m : _memory_from_proc text = Ok (Some m) → memory_pair_ok m.
Proof.
  unfold _memory_from_proc, memory_pair_ok. destruct (mbind _ text) as [entries|e];
    [|by destruct (_ || _)].
  destruct (entries !! "MemTotal") as [total|], (entries !! "MemAvailable") as [available|];
    [| |done|]; try (destruct (entries !! "MemFree") as [available|]; [|done]);
    try done; intros [= <-]; simpl; lia.
Qed.

Lemma memory_from_sysconf_ok call m : _memory_from_sysconf call = Ok (Some m) → memory_pair_ok m.
Proof.
  unfold _memory_from_sysconf, memory_pair_ok. destruct call as [sysconf|]; [|done].
  destruct (sysconf "SC_PAGE_SIZE") as [p|e]; simpl; [|by destruct (_ || _)].
  destruct (sysconf "SC_PHYS_PAGES") as [n|e]; simpl; [|by destruct (_ || _)].
  destruct (sysconf "SC_AVPHYS_PAGES") as [a|e]; simpl; [|by destruct (_ || _)].
  destruct (Z.ltb_spec (Z.min (Z.min p n) a) 0); [done|]. intros [= <-]. simpl. nia.
Qed.

Definition memory_ok (m : MemoryData) : Prop :=
  MemoryDiagnostics m = true ∧ available_bytes m ≤ total_bytes m
  ∧ used_bytes m = total_bytes m - available_bytes m.

Lemma memory_ok_intro total available p :
  memory_pair_ok (total, available) → nonneg p = true → SFleb p hundred = true →
  memory_ok (mkMemory total available (Z.max 0 (total - available)) p).
Proof.
  unfold memory_pair_ok, memory_ok, MemoryDiagnostics. simpl. intros Hm Hp Hh. rewrite Hp, Hh.
  split_and!; [|lia|lia]. rewrite !(proj2 (Z.leb_le _ _)) by lia. done.
Qed.

Lemma memory_diagnostics_ok h m : _memory_diagnostics h = Ok m → memory_ok m.
Proof.
  unfold _memory_diagnostics. destruct (_memory_from_proc (meminfo h)) as [proc|] eqn:Ep; [|done].
  cbn [mbind result_bind].
  destruct (match proc with Some m => _ | None => _ end) as [found|] eqn:Ef; [|done].
  cbn [mbind result_bind].
  assert (memory_pair_ok (default (0, 0) found)) as Hok.
  { destruct proc as [pr|]; simplify_eq/=; [by eapply memory_from_proc_ok|].
    destruct found as [f|]; [by eapply memory_from_sysconf_ok|by unfold memory_pair_ok]. }
  destruct (default (0, 0) found) as [total available].
  destruct (total =? 0).
  - intros [= <-]. by apply memory_ok_intro.
  - destruct (used_percent _ _) as [x|]; [|done]. intros [= <-].
    destruct (percentage_range (max_zero x) (nonneg_max_zero x)). by apply memory_ok_intro.
Qed.

Lemma or_else_nonempty a b : nonempty b = true → nonempty (or_else a b) = true.
Proof. unfold nonempty, or_else. by destruct (String.eqb a "") eqn:E; rewrite ?E. Qed.

Definition diagnostics_ok (d : diagnostics) : Prop :=
  let '(c, m, p, o) := d in
  CpuDiagnostics c = true ∧ memory_ok m ∧ ProcessDiagnostics p = true ∧ OsDiagnostics o = true.

Lemma load_average_ok h a b c :
  _load_average h = Ok (a, b, c) → nonneg a && nonneg b && nonneg c = true.
Proof.
  unfold _load_average. destruct (getloadavg h) as [[[[x y] z]|e]|].
  - intros [= <- <- <-]. by rewrite !nonneg_max_zero.
  - destruct (is_OSError e); [|done]. by intros [= <- <- <-].
  - by intros [= <- <- <-].
Qed.

Lemma rss_ok h n : _process_rss_bytes h = Ok n → 0 ≤ n.
Proof.
  unfold _process_rss_bytes, _rss_bytes. destruct (resource h) as [[z|e]|].
  - intros [= <-]. destruct (String.eqb _ _); lia.
  - destruct (_ || _); [|done]. by intros [= <-].
  - by intros [= <-].
Qed.

Lemma sync_diagnostics_ok h d : _sync_diagnostics h = Ok d → diagnostics_ok d.
Proof.
  unfold _sync_diagnostics. destruct (default (0, 0) (traced_memory h)) as [current peak].
  destruct (_load_average h) as [[[a b] c]|] eqn:El; [|done]. cbn [mbind result_bind].
  destruct (_memory_diagnostics h) as [m|] eqn:Em; [|done]. cbn [mbind result_bind].
  destruct (_process_rss_bytes h) as [rss|] eqn:Er; [|done]. intros [= <-]. split_and!.
  - unfold CpuDiagnostics. simpl. rewrite or_else_nonempty by done.
    rewrite (load_average_ok h) by done. by rewrite (proj2 (Z.leb_le _ _)) by lia.
  - by eapply memory_diagnostics_ok.
  - apply rss_ok in Er. unfold ProcessDiagnostics. simpl. by rewrite !(proj2 (Z.leb_le _ _)) by lia.
  - unfold OsDiagnostics. simpl. by rewrite !or_else_nonempty.
Qed.

(** What [collect] gathers, if it was not cancelled. *)
Lemma collect_ok late h check lag n elapsed now_ms :
  match collect late h check lag n elapsed now_ms with
  | Ok d =>
      diagnostics_ok (cpu d, memory d, process d, os d)
      ∧ nonneg (uptime d) = true ∧ nonneg (event_loop_lag d) = true ∧ timestamp d = now_ms
      ∧ (db d = "connected" ∧ (∃ r, check = Ok (Some r) ∧ is_up r = true)
         ∨ db d = "disconnected" ∧ ¬ ∃ r, check = Ok (Some r) ∧ is_up r = true)
  | Err e => is_Exception e = false
  end.
Proof.
  unfold collect.
  match goal with |- context [mbind _ ?x] => destruct x as [d|e] eqn:Ed end.
  2: { destruct (diagnose late h) as [|e']; [done|]. by destruct (is_Exception e') eqn:He; simplify_eq/=. }
  assert (diagnostics_ok d) as Hd.
  { unfold diagnose in Ed. destruct late as [e|].
    - destruct (is_Exception e); [|done]. injection Ed as <-. by vm_compute.
    - destruct (_sync_diagnostics h) as [d'|e] eqn:Es; simplify_eq/=; [by eapply sync_diagnostics_ok|].
      destruct (is_Exception e); [|done]. injection Ed as <-. by vm_compute. }
  cbn [mbind result_bind]. destruct d as [[[c m] p] o]. destruct Hd as (Hc & Hm & Hp & Ho).
  destruct (_database_status check) as [st|e] eqn:Es.
  2: { unfold _database_status in Es. destruct check as [[]|e']; [done..|].
       destruct (is_Exception e') eqn:He; [done|]. injection Es as <-. exact He. }
  destruct (_event_loop_lag lag) as [l|e] eqn:El.
  2: { unfold _event_loop_lag in El. destruct lag as [|e']; [done|].
       destruct (is_Exception e') eqn:He; [done|]. injection El as <-. exact He. }
  cbn [mbind result_bind]. split_and!; simpl; auto using nonneg_round3, nonneg_max_zero.
  - split_and!; try done. revert Hp. unfold ProcessDiagnostics. simpl. intros Hp. reflect_bools.
    by rewrite !(proj2 (Z.leb_le _ _)) by lia.
  - unfold _database_status in Es. destruct check as [[r|]|e].
    + destruct (is_up r) eqn:Hr; injection Es as <-; [left; eauto|right]. split; [done|].
      intros (r' & [= <-] & Hr'). congruence.
    + injection Es as <-. right. split; [done|]. by intros (r' & ? & _).
    + destruct (is_Exception e); [|done]. injection Es as <-. right. split; [done|].
      by intros (r' & ? & _).
Qed.

(** [C40] Diagnostics never fail and are never absurd: whatever the host's calls answer,
    raise or leave out — a malformed [/proc/meminfo], negative counters, infinite or
    undefined loads, a late thread — [/system] answers, unless it is itself cancelled,
    with figures its response model accepts: no negative number, a percentage between 0
    and 100, memory available within the total and used memory the difference; and the
    database is said to be connected exactly when its check was up. *)
Theorem diagnostics_always_valid late h check lag unfinished elapsed now_ms :
  0 ≤ now_ms →
  match system late h check lag unfinished elapsed now_ms with
  | Ok d =>
      SystemResponse d = Ok d
      ∧ available_bytes (memory d) ≤ total_bytes (memory d)
      ∧ used_bytes (memory d) = total_bytes (memory d) - available_bytes (memory d)
      ∧ (db d = "connected" ↔ ∃ r, check = Ok (Some r) ∧ is_up r = true)
  | Err e => is_Exception e = false
  end.
Proof.
  intros Hnow. unfold system. pose proof (collect_ok late h check lag unfinished elapsed now_ms) as Hc.
  destruct (collect _ _ _ _ _ _ _) as [d|e]; [|exact Hc]. cbn [mbind result_bind].
  destruct Hc as ((Hcpu & (Hm & Ha & Hu) & Hp & Ho) & Hup & Hl & Ht & Hdb).
  assert (SystemResponse d = Ok d) as E.
  { unfold SystemResponse. rewrite Hup, Hl, Hcpu, Hm, Hp, Ho, Ht, (proj2 (Z.leb_le 0 now_ms)) by done.
    rewrite bool_decide_true; [done|]. destruct Hdb as [[-> _]|[-> _]]; set_solver. }
  rewrite E. split_and!; [done..|]. destruct Hdb as [[-> H]|[-> H]]; naive_solver.
Qed.

(** ** The probes *)
Lemma check_services_spec h answer clock :
  (∀ s, s ∈ services h → ∃ r, _check_service s (answer s) (clock s).1 (clock s).2 = Ok r) →
  ∃ l, check_services h answer clock = Ok l
    ∧ (forallb is_up l = true ↔ ∀ s, s ∈ services h → answer s = Ok true).
Proof.
  unfold check_services. generalize (services h). intros l. induction l as [|s l IH]; intros Hl.
  { exists []. simpl. split; [done|]. split; [set_solver|done]. }
  destruct (Hl s) as [r Hr]; [set_solver|]. destruct IH as (l' & E & Hup); [set_solver|].
  exists (r :: l'). rewrite fmap_cons. cbn [Lifecycle.collect]. rewrite Hr, E. split; [done|].
  cbn [forallb]. rewrite andb_true_iff, Hup.
  assert (is_up r = true ↔ answer s = Ok true) as Hs.
  { unfold _check_service in Hr. destruct (answer s) as [b|e]; [injection Hr as <-; simpl; naive_solver|].
    destruct (is_Exception e); [|done]. injection Hr as <-. simpl. naive_solver. }
  rewrite Hs. set_solver.
Qed.

(** Readiness is exact and never fails open: unless it is cancelled, the readiness
    probe answers 200 exactly when startup has completed, nothing is quiescing or
    stopped, and every registered service has answered its check with true in time —
    a check that raises, times out or answers false makes it 503 — and the payload
    agrees with the status. *)
Theorem ready_probe_exact h answer clock now :
  is_utc now = true →
  (∀ s, s ∈ services h → answer s ≠ Err CancelledError) →
  ∃ status payload, ready_probe h answer clock now = Ok (status, payload)
    ∧ (status = 200 ∨ status = 503)
    ∧ (status = 200 ↔ startup_completed h = true ∧ shutdown_started h = false ∧ quiescing h = false
         ∧ ∀ s, s ∈ services h → answer s = Ok true)
    ∧ (status = 200 ↔ rd_ready payload = true)
    ∧ rd_status payload = (if rd_ready payload then "ready" else "not_ready").
Proof.
  intros Hnow Hc.
  destruct (check_services_spec h answer clock) as (l & El & Hup).
  { intros s Hs. unfold _check_service. specialize (Hc s Hs). destruct (answer s) as [b|e]; [eauto|].
    destruct e; simpl; eauto. done. }
  unfold ready_probe, ready. rewrite El. cbn [mbind result_bind].
  set (b := is_ready h && forallb is_up l).
  assert (b = true ↔ startup_completed h = true ∧ shutdown_started h = false ∧ quiescing h = false
         ∧ ∀ s, s ∈ services h → answer s = Ok true) as Hb.
  { unfold b, is_ready. rewrite !andb_true_iff, !negb_true_iff, Hup. tauto. }
  unfold from_state, validate_contract. cbn [rd_timestamp rd_status rd_ready]. rewrite Hnow, String.eqb_refl.
  cbn [negb mbind result_bind rd_ready]. do 2 eexists. split; [done|]. cbn [rd_ready rd_status].
  rewrite <-Hb. destruct b; split_and!; try done; auto.
Qed.

(** ** Examples *)
Definition nl : string := String (ascii_of_nat 10) EmptyString.
Definition demo_host : host :=
  mkHost (Some (Ok (S754_nan, S754_finite true 3 (-2), S754_infinity false)))
    (Ok ("MemTotal:       1000 kB" +:+ nl +:+ "MemFree: 4 kB" +:+ nl +:+ "MemAvailable: 2000 kB"
         +:+ nl +:+ "HugePages_Total: -1" +:+ nl))
    None (Some (Err AttributeError)) (Some (-5, 7)) (Some 0) "" "Linux" "".

(** A host that answers nonsense, and a check that is late. *)
Lemma diagnostics_always_valid_witness :
  match system None demo_host (Err TimeoutError) (Ok S754_nan) 3 (S754_finite false 3 (-1)) 17 with
  | Ok d =>
      SystemResponse d = Ok d
      ∧ available_bytes (memory d) ≤ total_bytes (memory d)
      ∧ used_bytes (memory d) = total_bytes (memory d) - available_bytes (memory d)
      ∧ (db d = "connected" ↔
           ∃ r, (Err TimeoutError : py (option ReadinessCheckResult)) = Ok (Some r) ∧ is_up r = true)
  | Err e => is_Exception e = false
  end
  ∧ total_bytes ∘ memory <$> system None demo_host (Err TimeoutError) (Ok S754_nan) 3 fzero 17
    = Ok 1024000
  ∧ memory <$> system None (mkHost None (Ok ("MemTotal: 3 kB" +:+ nl +:+ "MemFree: 1 kB")) None None None None "" "" "") (Err TimeoutError) (Ok S754_nan) 3 fzero 17
    = Ok (mkMemory 3072 1024 2048 (SFdiv 53 1024 (SFmul 53 1024 (S754_finite false 1 11) hundred)
            (S754_finite false 3 10))).
Proof.
  split; [|split; vm_compute; reflexivity].
  exact (diagnostics_always_valid None demo_host (Err TimeoutError) (Ok S754_nan) 3
           (S754_finite false 3 (-1)) 17 ltac:(lia)).
Defined.

Definition demo_handler : handler :=
  mkHandler ["database"; "cleanup"] {["database"; "cleanup"]} ["database"; "cleanup"] true true false
    false false Idle [].

Lemma ready_probe_exact_witness :
  (∃ status payload,
     ready_probe demo_handler (λ s, if String.eqb s "cleanup" then Err TimeoutError else Ok true)
       (λ _, (0, 0)) (mkDatetime (Some 0) 5) = Ok (status, payload)
     ∧ (status = 200 ∨ status = 503))
  ∧ fst <$> ready_probe demo_handler (λ s, if String.eqb s "cleanup" then Err TimeoutError else Ok true)
              (λ _, (0, 0)) (mkDatetime (Some 0) 5) = Ok 503
  ∧ fst <$> ready_probe demo_handler (λ _, Ok true) (λ _, (0, 0)) (mkDatetime (Some 0) 5) = Ok 200.
Proof.
  split; [|split; vm_compute; reflexivity].
  destruct (ready_probe_exact demo_handler
    (λ s, if String.eqb s "cleanup" then Err TimeoutError else Ok true) (λ _, (0, 0))
    (mkDatetime (Some 0) 5) eq_refl) as (status & payload & E & Hs & _);
    [intros s _; simpl; by destruct (String.eqb s "cleanup")|].
  by exists status, payload.
Defined.

(** [round(2.6755, 3)] and [round(0.0625, 3)], as Python rounds them. *)
Example round3_examples :
  round3 (S754_finite false 6024690401514881 (-51)) = S754_finite false 6023564501608038 (-51)
  ∧ round3 (S754_finite false 4503599627370496 (-56)) = SFdiv 53 1024 (S754_finite false 62 0) (S754_finite false 1000 0).
Proof. split; vm_compute; reflexivity. Qed.
