(* ===== verification/Json.v ===== *)
(** * JSON documents

    The values [json.loads] builds, Python's equality on them, and the decoder itself with
    the two hooks the release tooling installs ([scripts/security_policy.py]):
    [unique_fields] refuses an object that repeats a name and [invalid_constant] the
    constants that are not JSON.  Also the accessors every validator of [scripts/] uses —
    [mapping], [sequence], [text] and [dict.get]. *)
From Stdlib Require Import Floats.SpecFloat.
From S2P Require Import Prelude PyText Values Float64 JsonText UnicodeText.
Open Scope Z_scope.

(** ** Values *)
Inductive json :=
| JNull
| JBool (b : bool)
| JInt (z : Z)
| JFloat (f : float)
| JStr (s : string)
| JList (l : list json)
| JObj (l : list (string * json)).

(** *** Equality: numbers by value, [True] being one; objects whatever their order. *)
Definition float_is (z : Z) (f : float) : bool :=
  match f with
  | S754_zero _ => z =? 0
  | S754_finite s m e =>
      if 0 <=? e then z =? signed s (Z.pos m * 2 ^ e) else z * 2 ^ (- e) =? signed s (Z.pos m)
  | _ => false
  end.

Definition number_eq (a b : json) : bool :=
  let int x := match x with JBool b => Some (Z.b2z b) | JInt z => Some z | _ => None end in
  match int a, int b with
  | Some x, Some y => x =? y
  | Some x, None => match b with JFloat f => float_is x f | _ => false end
  | None, Some y => match a with JFloat f => float_is y f | _ => false end
  | None, None => match a, b with JFloat f, JFloat g => SFeqb f g | _, _ => false end
  end.

Fixpoint py_eq (a b : json) {struct a} : bool :=
  match a, b with
  | JNull, JNull => true
  | JStr s, JStr t => String.eqb s t
  | JList l, JList k =>
      (fix go (l k : list json) : bool :=
         match l, k with
         | [], [] => true
         | x :: l', y :: k' => py_eq x y && go l' k'
         | _, _ => false
         end) l k
  | JObj l, JObj k =>
      (length l =? length k)%nat
      && (fix go (l : list (string * json)) : bool :=
            match l with
            | [] => true
            | (n, x) :: l' => match assoc_get n k with Some y => py_eq x y | None => false end && go l'
            end) l
  | _, _ => number_eq a b
  end.

(** ** Accessors *)
Abbreviation object := (list (string * json)) (only parsing).

(** [d.get(k)] and [d.get(k, default)] *)
Definition get (k : string) (d : object) : json := default JNull (assoc_get k d).
Definition get_or (k : string) (dflt : json) (d : object) : json := default dflt (assoc_get k d).

Definition mapping (v : json) : py object :=
  match v with JObj d => Ok d | _ => Err (ValueError "Expected an object.") end.
Definition sequence (v : json) : py (list json) :=
  match v with JList l => Ok l | _ => Err (ValueError "Expected a list.") end.
Definition text (v : json) : py string :=
  match v with
  | JStr s => if is_blank s || (2048 <? ulen s) then Err (ValueError "Expected bounded nonempty text.")
              else Ok s
  | _ => Err (ValueError "Expected bounded nonempty text.")
  end.

(** [v == 'text'], [v is True], [if v:] *)
Definition is_text (s : string) (v : json) : bool :=
  match v with JStr t => String.eqb t s | _ => false end.
Definition is_true (v : json) : bool := match v with JBool b => b | _ => false end.
Definition truthy (v : json) : bool :=
  match v with
  | JNull => false
  | JBool b => b
  | JInt z => negb (z =? 0)
  | JFloat f => negb (float_is 0 f)
  | JStr s => negb (String.eqb s "")
  | JList l => negb (bool_decide (length l = 0%nat))
  | JObj d => negb (bool_decide (length d = 0%nat))
  end.

(** [v in {...}] of a set of texts: lists and objects are not hashable. *)
Definition in_texts (v : json) (l : list string) : py bool :=
  match v with
  | JStr s => Ok (bool_decide (s ∈ l))
  | JList _ | JObj _ => Err (TypeError "unhashable type")
  | _ => Ok false
  end.

(** [for x in l: f(x)] collecting the results. *)
Fixpoint mapM_py {A B} (f : A → py B) (l : list A) : py (list B) :=
  match l with
  | [] => Ok []
  | x :: l' => y ← f x; ys ← mapM_py f l'; Ok (y :: ys)
  end.

(** ** The hooks *)
Record hooks := mkHooks {
  object_pairs_hook : list (string * json) → py json;
  parse_constant : string → py json
}.

Fixpoint unique_fields_go (pairs : list (string * json)) (value : object) : py json :=
  match pairs with
  | [] => Ok (JObj value)
  | (name, field) :: pairs' =>
      if bool_decide (name ∈ value.*1) then Err (ValueError "Duplicate JSON field.")
      else unique_fields_go pairs' (value ++ [(name, field)])
  end.
Definition unique_fields (pairs : list (string * json)) : py json := unique_fields_go pairs [].
Definition invalid_constant (value : string) : py json :=
  Err (ValueError ("Invalid JSON constant: " +:+ value)).
Definition strict_hooks : hooks := mkHooks unique_fields invalid_constant.

(** Without hooks: the last of the repeated fields, and the float constants. *)
Definition plain_hooks : hooks :=
  mkHooks (λ pairs, Ok (JObj (foldl (λ d p, assoc_set p.1 p.2 d) [] pairs)))
    (λ c, Ok (JFloat (if String.eqb c "NaN" then S754_nan
                      else S754_infinity (starts_with "-" c)))).

(** ** The decoder *)
Definition syntax {A} : py A := Err (ValueError "Expecting value").

(** *** Strings *)
Definition hex_value (c : ascii) : Z :=
  if is_digit c then octet c - 48
  else if in_range 97 102 c then octet c - 87 else octet c - 55.

(** Four hexadecimal digits, and what follows. *)
Definition hex4 (s : string) : option (Z * string) :=
  match s with
  | String a (String b (String c (String d r))) =>
      if is_hex a && is_hex b && is_hex c && is_hex d
      then Some (4096 * hex_value a + 256 * hex_value b + 16 * hex_value c + hex_value d, r)
      else None
  | _ => None
  end.

(** The UTF-8 encoding of a code point. *)
Definition utf8 (z : Z) : string :=
  octets (if z <? 128 then [z]
          else if z <? 2048 then [192 + z / 64; 128 + z mod 64]
          else if z <? 65536 then [224 + z / 4096; 128 + z / 64 mod 64; 128 + z mod 64]
          else [240 + z / 262144; 128 + z / 4096 mod 64; 128 + z / 64 mod 64; 128 + z mod 64]).

Definition high_surrogate (z : Z) : bool := (55296 <=? z) && (z <=? 56319).
Definition low_surrogate (z : Z) : bool := (56320 <=? z) && (z <=? 57343).

(** After a backslash and a [u]: the text of the escape, joining a surrogate pair. *)
Definition unicode_escape (s : string) : option (string * string) :=
  '(z, r) ← hex4 s;
  match (if high_surrogate z then
           match r with
           | String a (String b r') =>
               if Ascii.eqb a backslash_char && Ascii.eqb b "u"%char then hex4 r' else None
           | _ => None
           end
         else None) with
  | Some (z2, r2) =>
      if low_surrogate z2 then Some (utf8 (65536 + (z - 55296) * 1024 + (z2 - 56320)), r2)
      else Some (utf8 z, r)
  | None => Some (utf8 z, r)
  end.

Definition escape_text (c : ascii) : option string :=
  if Ascii.eqb c quote_char || Ascii.eqb c backslash_char || Ascii.eqb c "/"%char
  then Some (String c EmptyString)
  else if Ascii.eqb c "b"%char then Some (octets [8])
  else if Ascii.eqb c "f"%char then Some (octets [12])
  else if Ascii.eqb c "n"%char then Some (octets [10])
  else if Ascii.eqb c "r"%char then Some (octets [13])
  else if Ascii.eqb c "t"%char then Some (octets [9])
  else None.

(** After the opening quote: the string and what follows the closing quote. *)
Fixpoint parse_string (fuel : nat) (s : string) : option (string * string) :=
  match fuel, s with
  | S fuel, String c r =>
      if Ascii.eqb c quote_char then Some (EmptyString, r)
      else if Ascii.eqb c backslash_char then
        match r with
        | String e r1 =>
            '(t, r2) ← (if Ascii.eqb e "u"%char then unicode_escape r1
                        else (λ t, (t, r1)) <$> escape_text e);
            '(rest, r3) ← parse_string fuel r2; Some (t +:+ rest, r3)
        | EmptyString => None
        end
      else if octet c <? 32 then None
      else '(rest, r1) ← parse_string fuel r; Some (String c rest, r1)
  | _, _ => None
  end.

(** *** Numbers *)
Fixpoint take_digits (s : string) : string * string :=
  match s with
  | String c r => if is_digit c then let '(d, t) := take_digits r in (String c d, t) else (EmptyString, s)
  | EmptyString => (EmptyString, s)
  end.
Definition digits_value (s : string) : Z := default 0 (parse_digits 0 false s).

(** The double nearest to [±n * 10^e]. *)
Definition float_of_decimal (neg : bool) (n e : Z) : float :=
  match n with
  | Zpos m =>
      match e with
      | Zneg k => SFdiv 53 1024 (S754_finite neg m 0) (S754_finite false (10 ^ k) 0)
      | _ => binary_normalize 53 1024 (signed neg (n * 10 ^ e)) 0 neg
      end
  | _ => S754_zero neg
  end.

(** A fraction and an exponent, if they are there. *)
Definition parse_fraction (s : string) : option (string * string) :=
  match s with
  | String c r =>
      if Ascii.eqb c "."%char
      then let '(d, t) := take_digits r in if String.eqb d "" then None else Some (d, t)
      else None
  | EmptyString => None
  end.
Definition parse_exponent (s : string) : option (Z * string) :=
  match s with
  | String c r =>
      if Ascii.eqb c "e"%char || Ascii.eqb c "E"%char then
        let '(neg, r) := match r with
                         | String x r' => if Ascii.eqb x "-"%char then (true, r')
                                          else if Ascii.eqb x "+"%char then (false, r') else (false, r)
                         | EmptyString => (false, r)
                         end in
        let '(d, t) := take_digits r in
        if String.eqb d "" then None else Some (signed neg (digits_value d), t)
      else None
  | EmptyString => None
  end.

Definition parse_number (s : string) : py (json * string) :=
  let '(neg, r) := match s with
                   | String c r => if Ascii.eqb c "-"%char then (true, r) else (false, s)
                   | EmptyString => (false, s)
                   end in
  let '(int, t) := match r with
                   | String c r' => if Ascii.eqb c "0"%char then ("0", r') else take_digits r
                   | EmptyString => (EmptyString, r)
                   end in
  if String.eqb int "" then syntax
  else
    let frac := parse_fraction t in
    let t1 := default t (snd <$> frac) in
    let exp := parse_exponent t1 in
    let t2 := default t1 (snd <$> exp) in
    match frac, exp with
    | None, None =>
        if 4300 <? blen int then Err (ValueError "Exceeds the limit (4300 digits)")
        else Ok (JInt (signed neg (digits_value int)), t)
    | _, _ =>
        let f := default EmptyString (fst <$> frac) in
        Ok (JFloat (float_of_decimal neg (digits_value (int +:+ f))
                      (default 0 (fst <$> exp) - blen f)), t2)
    end.

(** *** Values *)
Definition of_option {A} (o : option A) : py A := match o with Some a => Ok a | None => syntax end.

Section decoder.
Context (h : hooks).

(** One value, from its first character; [fuel] bounds the nesting and the members. *)
Fixpoint parse_value (fuel : nat) (s : string) : py (json * string) :=
  match fuel with
  | O => syntax
  | S fuel =>
      match s with
      | EmptyString => syntax
      | String c r =>
          let word w v := match scan_word w s with Some t => Ok (v, t) | None => syntax end in
          if Ascii.eqb c quote_char then
            '(t, r') ← of_option (parse_string (String.length r) r); Ok (JStr t, r')
          else if Ascii.eqb c "{"%char then
            match skip_ws r with
            | String d t =>
                if Ascii.eqb d "}"%char then v ← object_pairs_hook h []; Ok (v, t)
                else '(pairs, t') ← parse_members fuel (String d t);
                     v ← object_pairs_hook h pairs; Ok (v, t')
            | EmptyString => syntax
            end
          else if Ascii.eqb c "["%char then
            match skip_ws r with
            | String d t =>
                if Ascii.eqb d "]"%char then Ok (JList [], t)
                else '(l, t') ← parse_items fuel (String d t); Ok (JList l, t')
            | EmptyString => syntax
            end
          else if Ascii.eqb c "n"%char then word "null" JNull
          else if Ascii.eqb c "t"%char then word "true" (JBool true)
          else if Ascii.eqb c "f"%char then word "false" (JBool false)
          else match scan_word "NaN" s, scan_word "Infinity" s, scan_word "-Infinity" s with
          | Some t, _, _ => v ← parse_constant h "NaN"; Ok (v, t)
          | _, Some t, _ => v ← parse_constant h "Infinity"; Ok (v, t)
          | _, _, Some t => v ← parse_constant h "-Infinity"; Ok (v, t)
          | _, _, _ => parse_number s
          end
      end
  end
with parse_members (fuel : nat) (s : string) : py (list (string * json) * string) :=
  match fuel with
  | O => syntax
  | S fuel =>
      match s with
      | String c r =>
          if Ascii.eqb c quote_char then
            '(name, t) ← of_option (parse_string (String.length r) r);
            match skip_ws t with
            | String d t1 =>
                if Ascii.eqb d ":"%char then
                  '(v, t2) ← parse_value fuel (skip_ws t1);
                  match skip_ws t2 with
                  | String e t3 =>
                      if Ascii.eqb e ","%char then
                        '(rest, t4) ← parse_members fuel (skip_ws t3); Ok ((name, v) :: rest, t4)
                      else if Ascii.eqb e "}"%char then Ok ([(name, v)], t3)
                      else syntax
                  | EmptyString => syntax
                  end
                else syntax
            | EmptyString => syntax
            end
          else syntax
      | EmptyString => syntax
      end
  end
with parse_items (fuel : nat) (s : string) : py (list json * string) :=
  match fuel with
  | O => syntax
  | S fuel =>
      '(v, t) ← parse_value fuel s;
      match skip_ws t with
      | String e t1 =>
          if Ascii.eqb e ","%char then
            '(rest, t2) ← parse_items fuel (skip_ws t1); Ok (v :: rest, t2)
          else if Ascii.eqb e "]"%char then Ok ([v], t1)
          else syntax
      | EmptyString => syntax
      end
  end.

(** [json.loads(text, object_pairs_hook=..., parse_constant=...)]; every recursive call
    has consumed a character or is the last before one does. *)
Definition json_loads (s : string) : py json :=
  '(v, t) ← parse_value (2 * String.length s + 2) (skip_ws s);
  if String.eqb (skip_ws t) "" then Ok v else Err (ValueError "Extra data").
End decoder.

(** [read_json] of the octets of a file. *)
Definition read_json (file : py string) : py json :=
  octets ← file; s ← decode_utf8 octets; json_loads strict_hooks s.

(** ** The fuel is enough *)
Abbreviation len := String.length (only parsing).

Lemma skip_ws_len s : (len (skip_ws s) ≤ len s)%nat.
Proof.
  unfold skip_ws. induction s as [|c s IH]; simpl; [done|].
  destruct (json_space c); simpl; lia.
Qed.

Lemma scan_word_len w s t : w ≠ EmptyString → scan_word w s = Some t → (len t < len s)%nat.
Proof.
  unfold scan_word. intros Hw. destruct (starts_with w s) eqn:E; [|done]. intros [= <-].
  rewrite length_drop_str. destruct w; [done|]. destruct s; [done|]. simpl. lia.
Qed.

Lemma hex4_len s z r : hex4 s = Some (z, r) → (len r < len s)%nat.
Proof.
  unfold hex4. destruct s as [|a [|b [|c [|d s]]]]; try done. simpl.
  destruct (_ && _); [|done]. intros [= _ <-]. lia.
Qed.

Lemma unicode_escape_len s t r : unicode_escape s = Some (t, r) → (len r < len s)%nat.
Proof.
  unfold unicode_escape. destruct (hex4 s) as [[z r1]|] eqn:E1; [|done]. apply hex4_len in E1. simpl.
  destruct (high_surrogate z); [|by intros [= _ <-]].
  destruct r1 as [|a [|b r2]]; try by intros [= _ <-].
  destruct (_ && _); [|by intros [= _ <-]].
  destruct (hex4 r2) as [[z2 r3]|] eqn:E2; [|by intros [= _ <-]].
  apply hex4_len in E2. simpl in *. destruct (low_surrogate z2); intros [= _ <-]; simpl; lia.
Qed.

Lemma parse_string_len n s t r : parse_string n s = Some (t, r) → (len r < len s)%nat.
Proof.
  revert s t r. induction n as [|n IH]; intros s t r; [done|]. simpl. destruct s as [|c s]; [done|].
  destruct (Ascii.eqb c quote_char); [intros [= _ <-]; simpl; lia|].
  destruct (Ascii.eqb c backslash_char).
  - destruct s as [|e s]; [done|].
    destruct (Ascii.eqb e "u"%char).
    + destruct (unicode_escape s) as [[t1 r1]|] eqn:E; [|done]. apply unicode_escape_len in E. simpl.
      destruct (parse_string n r1) as [[t2 r2]|] eqn:E2; [|done]. apply IH in E2.
      intros [= _ <-]. simpl. lia.
    + destruct (escape_text e); [|done]. simpl.
      destruct (parse_string n s) as [[t2 r2]|] eqn:E2; [|done]. apply IH in E2.
      intros [= _ <-]. simpl. lia.
  - destruct (octet c <? 32); [done|].
    destruct (parse_string n s) as [[t2 r2]|] eqn:E2; [|done]. apply IH in E2.
    intros [= _ <-]. simpl. lia.
Qed.

Lemma take_digits_len s : (len (take_digits s).2 + len (take_digits s).1 = len s)%nat.
Proof.
  induction s as [|c s IH]; [done|]. simpl. destruct (is_digit c); [|simpl; lia].
  destruct (take_digits s). simpl in *. lia.
Qed.

Lemma parse_fraction_len s d t : parse_fraction s = Some (d, t) → (len t < len s)%nat.
Proof.
  unfold parse_fraction. destruct s as [|c s]; [done|]. destruct (Ascii.eqb c "."%char); [|done].
  pose proof (take_digits_len s) as Hl. destruct (take_digits s) as [d' t'].
  destruct (String.eqb d' ""); [done|]. intros [= _ <-]. simpl in *. lia.
Qed.

Lemma parse_exponent_len s d t : parse_exponent s = Some (d, t) → (len t < len s)%nat.
Proof.
  unfold parse_exponent. destruct s as [|c s]; [done|]. destruct (_ || _); [|done].
  match goal with |- context [match ?x with (neg, r) => _ end] =>
    assert (len x.2 ≤ len s)%nat as Hx; [|destruct x as [neg r]] end.
  { destruct s as [|x s]; [done|]. destruct (Ascii.eqb x "-"%char); [simpl; lia|].
    destruct (Ascii.eqb x "+"%char); simpl; lia. }
  pose proof (take_digits_len r) as Hl. destruct (take_digits r) as [d' t'].
  destruct (String.eqb d' ""); [done|]. intros [= _ <-]. simpl in *. lia.
Qed.

Lemma parse_number_len s v t : parse_number s = Ok (v, t) → (len t < len s)%nat.
Proof.
  unfold parse_number.
  match goal with |- context [match ?x with (neg, r) => _ end] =>
    assert (len x.2 ≤ len s)%nat as Hx; [|destruct x as [neg r]; simpl in Hx] end.
  { destruct s as [|c s]; [done|]. destruct (Ascii.eqb c "-"%char); simpl; lia. }
  match goal with |- context [match ?x with (int, t) => _ end] =>
    assert (len x.2 + len x.1 = len r)%nat as Hy; [|destruct x as [int t0]; simpl in Hy] end.
  { destruct r as [|c r]; [done|]. destruct (Ascii.eqb c "0"%char); [simpl; lia|apply take_digits_len]. }
  destruct (String.eqb int "") eqn:Ei; [done|].
  assert (len t0 < len s)%nat as Ht by (destruct int; [done|simpl in *; lia]).
  destruct (parse_fraction t0) as [[f t1]|] eqn:Ef; simpl.
  - apply parse_fraction_len in Ef.
    destruct (parse_exponent t1) as [[e t2]|] eqn:Ee; simpl; intros [= _ <-]; [|lia].
    apply parse_exponent_len in Ee. lia.
  - destruct (parse_exponent t0) as [[e t2]|] eqn:Ee; simpl.
    + apply parse_exponent_len in Ee. intros [= _ <-]. lia.
    + destruct (4300 <? blen int); [done|]. intros [= _ <-]. lia.
Qed.

Section fuel.
Context (h : hooks).

(** One step of a parse that succeeded: the result of the call it waits for, with the
    length of what that call leaves. *)
Ltac parse_step :=
  match goal with
  | H : mbind _ ?x = Ok _ |- _ =>
      let E := fresh "E" in destruct x as [?|?] eqn:E; cbn [mbind result_bind] in H; [|done]
  | H : (let '(_, _) := ?x in _) = Ok _ |- _ => destruct x as [? ?]
  | H : of_option ?x = Ok _ |- _ =>
      let E := fresh "E" in destruct x as [[? ?]|] eqn:E; simpl in H; [simplify_eq|done]
  | H : match skip_ws ?s with EmptyString => _ | String _ _ => _ end = Ok _ |- _ =>
      let E := fresh "E" in
      pose proof (skip_ws_len s); destruct (skip_ws s) as [|? ?] eqn:E; simpl in *; [done|]
  | H : (if ?b then _ else _) = Ok _ |- _ => destruct b
  | H : syntax = Ok _ |- _ => done
  | H : Ok _ = Ok _ |- _ => injection H; clear H; intros; subst
  | H : parse_string _ _ = Some _ |- _ => apply parse_string_len in H
  | H : parse_number _ = Ok _ |- _ => apply parse_number_len in H
  | H : match scan_word ?w ?s with Some _ => _ | None => _ end = Ok _ |- _ =>
      let E := fresh "E" in destruct (scan_word w s) eqn:E; try apply scan_word_len in E; try done
  end.

(** Lengths from the induction hypotheses and of what blanks leave. *)
Ltac parse_lens IHv IHm IHi :=
  repeat match goal with
  | E : parse_value _ _ _ = Ok _ |- _ => apply IHv in E
  | E : parse_members _ _ _ = Ok _ |- _ => apply IHm in E
  | E : parse_items _ _ _ = Ok _ |- _ => apply IHi in E
  end;
  simpl in *;
  repeat match goal with
  | H : context [len (skip_ws ?x)] |- _ =>
      lazymatch goal with
      | _ : (len (skip_ws x) ≤ len x)%nat |- _ => fail
      | _ => pose proof (skip_ws_len x)
      end
  end; try done; try lia.

Lemma parse_len n :
  (∀ s v t, parse_value h n s = Ok (v, t) → (len t < len s)%nat)
  ∧ (∀ s v t, parse_members h n s = Ok (v, t) → (len t < len s)%nat)
  ∧ (∀ s v t, parse_items h n s = Ok (v, t) → (len t < len s)%nat).
Proof.
  induction n as [|n (IHv & IHm & IHi)]; [done|]. split_and!; intros s v t H.
  - simpl in H. destruct s as [|c r]; [done|]. cbv zeta in H.
    repeat parse_step; parse_lens IHv IHm IHi.
  - simpl in H. destruct s as [|c r]; [done|]. repeat parse_step; parse_lens IHv IHm IHi.
  - simpl in H. repeat parse_step; parse_lens IHv IHm IHi.
Qed.

(** Past twice the length, more fuel changes nothing. *)
Lemma parse_fuel n :
  (∀ s m, (2 * len s + 1 ≤ n ≤ m)%nat → parse_value h m s = parse_value h n s)
  ∧ (∀ s m, (2 * len s + 1 ≤ n ≤ m)%nat → parse_members h m s = parse_members h n s)
  ∧ (∀ s m, (2 * len s + 2 ≤ n ≤ m)%nat → parse_items h m s = parse_items h n s).
Proof.
  induction n as [|n (IHv & IHm & IHi)]; [split_and!; intros; lia|].
  destruct (parse_len n) as (Lv & Lm & Li).
  split_and!; intros s [|m] Hm; try lia; simpl.
  - destruct s as [|c r]; [done|]. simpl in Hm. pose proof (skip_ws_len r) as Hr. cbv zeta.
    destruct (Ascii.eqb c quote_char); [done|].
    destruct (Ascii.eqb c "{"%char).
    { destruct (skip_ws r) as [|d t]; [done|]. simpl in Hr.
      by rewrite (IHm (String d t) m) by (simpl; lia). }
    destruct (Ascii.eqb c "["%char); [|done].
    destruct (skip_ws r) as [|d t]; [done|]. simpl in Hr.
    by rewrite (IHi (String d t) m) by (simpl; lia).
  - destruct s as [|c r]; [done|]. simpl in Hm. destruct (Ascii.eqb c quote_char); [|done].
    destruct (parse_string (len r) r) as [[name t]|] eqn:E; [|done]. apply parse_string_len in E.
    simpl. pose proof (skip_ws_len t) as Ht. destruct (skip_ws t) as [|d t1]; [done|]. simpl in Ht.
    destruct (Ascii.eqb d ":"%char); [|done]. pose proof (skip_ws_len t1).
    rewrite (IHv (skip_ws t1) m) by lia.
    destruct (parse_value h n (skip_ws t1)) as [[v t2]|] eqn:Ev; [|done]. apply Lv in Ev. simpl.
    pose proof (skip_ws_len t2) as Ht2. destruct (skip_ws t2) as [|e t3]; [done|]. simpl in Ht2.
    pose proof (skip_ws_len t3). by rewrite (IHm (skip_ws t3) m) by lia.
  - rewrite (IHv s m) by lia.
    destruct (parse_value h n s) as [[v t]|] eqn:Ev; [|done]. apply Lv in Ev. simpl.
    pose proof (skip_ws_len t) as Ht. destruct (skip_ws t) as [|e t1]; [done|]. simpl in Ht.
    pose proof (skip_ws_len t1). by rewrite (IHi (skip_ws t1) m) by lia.
Qed.

(** The fuel of [json_loads] is never what decides. *)
Lemma json_loads_fuel s m :
  (2 * len s + 2 ≤ m)%nat →
  json_loads h s
  = '(v, t) ← parse_value h m (skip_ws s);
    if String.eqb (skip_ws t) "" then Ok v else Err (ValueError "Extra data").
Proof.
  intros Hm. unfold json_loads. pose proof (skip_ws_len s).
  by rewrite (proj1 (parse_fuel (2 * len s + 2)) (skip_ws s) m) by lia.
Qed.
End fuel.

Example json_examples :
  json_loads strict_hooks (q "{ 'a': [1, -2.5e1, true, null, '\u00e9\ud83d\ude00\n'], 'b': {} }")
    = Ok (JObj [("a", JList [JInt 1; JFloat (binary_normalize 53 1024 (-25) 0 false); JBool true; JNull;
                             JStr (octets [195; 169; 240; 159; 152; 128; 10])]); ("b", JObj [])])
  ∧ is_ok (json_loads strict_hooks (q "{'a': 1, 'a': 1}")) = false
  ∧ is_ok (json_loads strict_hooks "[NaN]") = false
  ∧ json_loads plain_hooks (q "{'a': 1, 'b': 2, 'a': -Infinity}")
    = Ok (JObj [("a", JFloat (S754_infinity true)); ("b", JInt 2)])
  ∧ json_loads plain_hooks "1e400" = Ok (JFloat (S754_infinity false))
  ∧ json_loads plain_hooks "0.1" = Ok (JFloat (S754_finite false 7205759403792794 (-56)))
  ∧ py_eq (JObj [("a", JInt 1); ("b", JList [])]) (JObj [("b", JList []); ("a", JFloat (binary_normalize 53 1024 1 0 false))]) = true
  ∧ existsb (λ s, is_ok (json_loads plain_hooks (q s)))
      [""; "01"; "1."; "[1,]"; "{'a':1,}"; "{a:1}"; "'x"; "'\x'"; "[1 2]"; "{}{}"; "-"; "1e"; "[1"] = false.
Proof. repeat split; vm_compute; reflexivity. Qed.
