(* ===== verification/SecurityPolicy.v ===== *)
(** * The vulnerability gate

    [scripts/security_policy.py]: pinned requirements, the policy of dated exceptions and
    the evaluation of a Trivy report against both; [scripts/ci_gate.py]: the gate over the
    results of the required jobs.  Everything that is not exactly what is expected is
    refused, so the theorems say what a decision to allow proves about the raw documents.
    Times are microseconds since 1970 in UTC; the decimal digits beyond ASCII, which
    [\d] and [int] accept, are a parameter. *)
From Stdlib Require Import Floats.SpecFloat.
From S2P Require Import Prelude PyText Values Float64 UnicodeText Json.
Open Scope Z_scope.

Definition SCOPE : list string :=
  ["vulnerabilityId"; "packageName"; "installedVersion"; "packagePath"; "target"; "type"].
Definition nl : string := octets [10].
Definition SEVERITIES : list string := ["UNKNOWN"; "LOW"; "MEDIUM"; "HIGH"; "CRITICAL"].

Definition invalid {A} (msg : string) : py A := Err (ValueError msg).
Definition is_int (z : Z) (v : json) : bool := py_eq v (JInt z).

(** ** Names and versions *)
Definition is_separator (c : ascii) : bool :=
  Ascii.eqb c "-"%char || Ascii.eqb c "_"%char || Ascii.eqb c "."%char.

(** [re.sub(r'[-_.]+', '-', name)]; [inside] a run of separators. *)
Fixpoint collapse (inside : bool) (s : string) : string :=
  match s with
  | EmptyString => EmptyString
  | String c s' =>
      if is_separator c then (if inside then collapse true s' else String "-" (collapse true s'))
      else String c (collapse false s')
  end.
Definition normalize (name : string) : string := ulower (collapse false name).

Definition package_version (package : object) (kind : string) : py string :=
  version ← text (get "Version" package);
  if String.eqb kind "debian" then
    match get_or "Epoch" (JInt 0) package with
    | JInt epoch =>
        if epoch <? 0 then invalid "Invalid Debian package epoch."
        else
          version ← match get "Release" package with
                    | JNull => Ok version
                    | release => r ← text release; Ok (version +:+ "-" +:+ r)
                    end;
          Ok (if epoch =? 0 then version else pretty epoch +:+ ":" +:+ version)
    | _ => invalid "Invalid Debian package epoch."
    end
  else Ok version.

(** ** Requirements *)
Definition is_name_char (c : ascii) : bool :=
  is_digit c || is_lower_alpha c || is_upper_alpha c || is_separator c.
Definition is_version_char (c : ascii) : bool :=
  is_digit c || is_lower_alpha c || is_upper_alpha c || Ascii.eqb c "."%char
  || Ascii.eqb c "+"%char || Ascii.eqb c "!"%char || Ascii.eqb c "-"%char.

Fixpoint span (P : ascii → bool) (s : string) : string * string :=
  match s with
  | String c s' => if P c then let '(a, b) := span P s' in (String c a, b) else (EmptyString, s)
  | EmptyString => (EmptyString, s)
  end.

(** [re.fullmatch(r'([A-Za-z0-9_.-]+)==([A-Za-z0-9.+!-]+)', line)] *)
Definition pinned (line : string) : option (string * string) :=
  let '(name, rest) := span is_name_char line in
  if negb (String.eqb name "") && starts_with "==" rest then
    let version := drop_str 2 rest in
    if negb (String.eqb version "") && str_all is_version_char version then Some (name, version) else None
  else None.

Fixpoint add_requirements (lines : list string) (result : gmap string string)
  : py (gmap string string) :=
  match lines with
  | [] => Ok result
  | raw :: lines' =>
      let line := ustrip raw in
      if String.eqb line "" || starts_with "#" line || String.eqb line "-r requirements.txt"
      then add_requirements lines' result
      else match pinned line with
      | None => invalid "Unsupported unpinned requirement."
      | Some (name, version) =>
          let name := normalize name in
          match result !! name with
          | Some _ => invalid "Duplicate requirement."
          | None => add_requirements lines' (<[name := version]> result)
          end
      end
  end.

Definition requirements (file : py string) : py (gmap string string) :=
  octets ← file; s ← decode_utf8 octets;
  result ← add_requirements (usplitlines s) ∅;
  if decide (result = ∅) then invalid "Empty requirements inventory." else Ok result.

(** ** Dates *)
Section dates.
Context (other_digit : string → option Z).

(** [unicodedata.decimal] *)
Definition decimal_digit (c : string) : option Z :=
  match c with
  | String a EmptyString => if is_digit a then Some (digit_value a) else None
  | _ => other_digit c
  end.
Definition ascii_digit (c : string) : option Z :=
  match c with
  | String a EmptyString => if is_digit a then Some (digit_value a) else None
  | _ => None
  end.

Definition is_leap (y : Z) : bool := (y mod 4 =? 0) && (negb (y mod 100 =? 0) || (y mod 400 =? 0)).
Definition days_in_month (y m : Z) : Z :=
  if m =? 2 then (if is_leap y then 29 else 28)
  else if (m =? 4) || (m =? 6) || (m =? 9) || (m =? 11) then 30 else 31.
Definition days_before_year (y : Z) : Z :=
  let p := y - 1 in p * 365 + p / 4 - p / 100 + p / 400.
Definition days_before_month (y m : Z) : Z :=
  foldr Z.add 0 ((λ k, days_in_month y (Z.of_nat k)) <$> seq 1 (Z.to_nat (m - 1))).
Definition day_us : Z := 86400 * 1000000.
(** Midnight UTC of a date, from 1970. *)
Definition midnight (y m d : Z) : Z :=
  (days_before_year y + days_before_month y m + d - 1 - days_before_year 1970) * day_us.

(** [re.fullmatch(r'\d{4}-\d{2}-\d{2}', expiry)] and [strptime(expiry, '%Y-%m-%d')], whose
    month and first digit of the day are ASCII. *)
Definition parse_date (expiry : string) : py Z :=
  match uchars expiry with
  | [y1; y2; y3; y4; h1; m1; m2; h2; d1; d2] =>
      if negb (String.eqb h1 "-" && String.eqb h2 "-") then invalid "Invalid exception expiry."
      else match decimal_digit y1, decimal_digit y2, decimal_digit y3, decimal_digit y4 with
      | Some a, Some b, Some c, Some e =>
          match ascii_digit m1, ascii_digit m2, ascii_digit d1,
                decimal_digit d2 with
          | Some m1, Some m2, Some d1, Some u =>
              let y := 1000 * a + 100 * b + 10 * c + e in
              let m := 10 * m1 + m2 in
              let d := 10 * d1 + u in
              if bool_decide (ascii_digit d2 = None) && negb ((d1 =? 1) || (d1 =? 2))
                 || negb ((1 <=? y) && (1 <=? m) && (m <=? 12) && (1 <=? d) && (d <=? days_in_month y m))
              then invalid "Invalid exception expiry."
              else Ok (midnight y m d)
          | _, _, _, _ => invalid "Invalid exception expiry."
          end
      | _, _, _, _ => invalid "Invalid exception expiry."
      end
  | _ => invalid "Invalid exception expiry."
  end.

(** ** Exceptions *)

(** The scope of an exception and of a finding, in the order of [SCOPE]. *)
Record scope_key := mkKey {
  vulnerabilityId : string;
  packageName : string;
  installedVersion : string;
  packagePath : option string;
  target : string;
  kind : string
}.
#[global] Instance scope_key_eq_dec : EqDecision scope_key.
Proof. solve_decision. Defined.

Definition EXCEPTION_FIELDS : list string := SCOPE ++ ["owner"; "reason"; "review"; "expiresOn"].
Definition wild (s : string) : bool := mem_char "*" s || mem_char "?" s.

(** A field of an exception that must be a text without wildcards. *)
Definition scope_text (entry : object) (field : string) : py string :=
  value ← text (get field entry);
  if wild value then invalid "Wildcard exceptions are forbidden." else Ok value.

Definition parse_exception (now : Z) (raw : json) : py scope_key :=
  entry ← mapping raw;
  if negb (forallb (λ k, bool_decide (k ∈ EXCEPTION_FIELDS)) entry.*1
           && forallb (λ k, bool_decide (k ∈ entry.*1)) EXCEPTION_FIELDS)
  then invalid "Invalid exception fields."
  else
    vid ← scope_text entry "vulnerabilityId";
    pkg ← scope_text entry "packageName";
    version ← scope_text entry "installedVersion";
    path ← match get "packagePath" entry with
           | JNull => Ok None
           | _ => Some <$> scope_text entry "packagePath"
           end;
    target ← scope_text entry "target";
    kind ← scope_text entry "type";
    _ ← text (get "owner" entry);
    _ ← text (get "reason" entry);
    _ ← text (get "review" entry);
    expiry ← text (get "expiresOn" entry);
    deadline ← parse_date expiry;
    if negb ((now <? deadline) && (deadline <=? now + 30 * day_us))
    then invalid "Exception expired or exceeds 30 days."
    else Ok (mkKey vid pkg version path target kind).

Fixpoint add_exceptions (now : Z) (l : list json) (rules : list scope_key) : py (list scope_key) :=
  match l with
  | [] => Ok rules
  | raw :: l' =>
      key ← parse_exception now raw;
      if bool_decide (key ∈ rules) then invalid "Duplicate exception scope."
      else add_exceptions now l' (rules ++ [key])
  end.

Definition exceptions (policy : json) (now : Z) : py (list scope_key) :=
  p ← mapping policy;
  if negb (is_int 1 (get "version" p)) then invalid "Unsupported exception policy."
  else l ← sequence (get "exceptions" p); add_exceptions now l [].

(** ** The evaluation of a report *)
Record finding := mkFinding {
  f_key : scope_key;
  severity : string;
  developmentOnly : bool;
  excepted : bool;
  fixedVersion : json
}.
Record decision := mkDecision { allowed : bool; blocked : list finding; findings : list finding }.

(** What the evaluation is given besides the report and the policy. *)
Record expectations := mkExpectations {
  expected : gmap string string;
  production : gmap string string;
  image_id : option string
}.
Definition has_image (x : expectations) : bool :=
  match image_id x with Some i => negb (String.eqb i "") | None => false end.

Definition check_report (x : expectations) (report : object) : py unit :=
  if negb (is_int 2 (get "SchemaVersion" report)
           && is_text (if has_image x then "container_image" else "filesystem")
                (get "ArtifactType" report))
  then invalid "Unsupported or incomplete scan report."
  else if negb (has_image x) then Ok tt
  else
    metadata ← mapping (get "Metadata" report);
    os_info ← mapping (get "OS" metadata);
    if negb (is_text (default EmptyString (image_id x)) (get "ImageID" metadata))
    then invalid "Scan does not identify the qualified image."
    else
      family ← text (get "Family" os_info);
      if String.eqb family "unknown" || is_true (get "EOSL" os_info)
      then invalid "Unsupported or end-of-life image OS."
      else _ ← text (get "Name" os_info); Ok tt.

Definition package_entry (kind : string) (raw : json) : py (string * string) :=
  package ← mapping raw;
  name ← text (get "Name" package);
  version ← package_version package kind;
  Ok (name, version).

Definition optional_text (v : json) : py (option string) :=
  match v with JNull => Ok None | _ => Some <$> text v end.

(** One vulnerability of a result with the packages [entries]. *)
Definition read_finding (x : expectations) (rules : list scope_key) (target kind : string)
    (entries : list (string * string)) (raw : json) : py finding :=
  vulnerability ← mapping raw;
  name ← text (get "PkgName" vulnerability);
  version ← text (get "InstalledVersion" vulnerability);
  severity ← text (get "Severity" vulnerability);
  if negb (bool_decide (severity ∈ SEVERITIES)) then invalid "Invalid vulnerability severity."
  else if negb (bool_decide ((name, version) ∈ entries)) then invalid "Vulnerability outside inventory."
  else
    path ← optional_text (get "PkgPath" vulnerability);
    vid ← text (get "VulnerabilityID" vulnerability);
    if negb (has_image x) && negb (bool_decide (expected x !! normalize name = Some version))
    then invalid "Finding outside declared requirements."
    else
      let key := mkKey vid name version path target kind in
      Ok (mkFinding key severity
            (negb (has_image x) && negb (bool_decide (production x !! normalize name = Some version)))
            (bool_decide (key ∈ rules)) (get "FixedVersion" vulnerability)).

Record scan_state := mkScan {
  inventory : list (string * string);
  os_packages : bool;
  found : list finding
}.

Definition read_result (x : expectations) (rules : list scope_key) (st : scan_state) (raw : json)
  : py scan_state :=
  result ← mapping raw;
  target ← text (get "Target" result);
  kind ← text (get "Type" result);
  packages ← sequence (get "Packages" result);
  entries ← mapM_py (package_entry kind) packages;
  let inventory :=
    if is_text "lang-pkgs" (get "Class" result)
       && String.eqb kind (if has_image x then "python-pkg" else "pip")
    then inventory st ++ ((λ '(name, version), (normalize name, version)) <$> entries)
    else inventory st in
  let os := os_packages st
    || (is_text "os-pkgs" (get "Class" result) && negb (bool_decide (entries = []))) in
  vulnerabilities ← sequence (get_or "Vulnerabilities" (JList []) result);
  more ← mapM_py (read_finding x rules target kind entries) vulnerabilities;
  Ok (mkScan inventory os (found st ++ more)).

Fixpoint read_results (x : expectations) (rules : list scope_key) (l : list json) (st : scan_state)
  : py scan_state :=
  match l with
  | [] => Ok st
  | raw :: l' => st ← read_result x rules st raw; read_results x rules l' st
  end.

Definition is_blocked (f : finding) : bool :=
  String.eqb (severity f) "CRITICAL" && negb (developmentOnly f) && negb (excepted f).

Definition covers (inventory : list (string * string)) (expected : gmap string string) : bool :=
  bool_decide (map_Forall (λ name version, (name, version) ∈ inventory) expected).

Definition evaluate (report policy : json) (x : expectations) (now : Z) : py decision :=
  rules ← exceptions policy now;
  report ← mapping report;
  _ ← check_report x report;
  results ← sequence (get "Results" report);
  st ← read_results x rules results (mkScan [] false []);
  if negb (covers (inventory st) (expected x)) || (has_image x && negb (os_packages st))
  then invalid "Missing Python requirements or OS inventory coverage."
  else
    let blocked := List.filter is_blocked (found st) in
    Ok (mkDecision (bool_decide (blocked = [])) blocked (found st)).
End dates.

(** ** The gate over the required jobs *)
Module CiGate.
Definition REQUIRED_JOBS : list string :=
  ["dependency-security"; "static-analysis"; "test-layers"; "mysql-tests"; "combined-coverage";
   "production-container"].

Definition evaluate (raw : string) : py (bool * list (string * json)) :=
  v ← json_loads strict_hooks raw;
  results ← mapping v;
  if negb (forallb (λ k, bool_decide (k ∈ REQUIRED_JOBS)) results.*1
           && forallb (λ k, bool_decide (k ∈ results.*1)) REQUIRED_JOBS)
  then invalid "Missing or unexpected required job results."
  else
    outcomes ← mapM_py (λ name, job ← mapping (get name results); Ok (name, get "result" job))
                 REQUIRED_JOBS;
    Ok (forallb (λ o, is_text "success" o.2) outcomes, outcomes).

(** [main]: the exit status, whatever the environment holds. *)
Definition main (raw : string) : py Z :=
  match evaluate raw with
  | Ok (allowed, _) => Ok (if allowed then 0 else 1)
  | Err e => match e with ValueError _ | UnicodeDecodeError | TypeError _ => Ok 1 | _ => Err e end
  end.
End CiGate.

(** ** Lemmas *)
Lemma text_inv v s : text v = Ok s → v = JStr s.
Proof. destruct v; simpl; try done. destruct (_ || _); naive_solver. Qed.
Lemma mapping_inv v d : mapping v = Ok d → v = JObj d.
Proof. destruct v; simpl; naive_solver. Qed.
Lemma sequence_inv v l : sequence v = Ok l → v = JList l.
Proof. destruct v; simpl; naive_solver. Qed.
Lemma is_text_inv s v : is_text s v = true → v = JStr s.
Proof. destruct v; simpl; try done. by intros ->%String.eqb_eq. Qed.

Lemma mapM_py_elem {A B} (f : A → py B) l ys :
  mapM_py f l = Ok ys →
  (∀ y, y ∈ ys ↔ ∃ x, x ∈ l ∧ f x = Ok y) ∧ (∀ x, x ∈ l → is_ok (f x) = true).
Proof.
  revert ys. induction l as [|x l IH]; simpl; intros ys H.
  { injection H as <-. split; [|by intros x ?%elem_of_nil].
    intros y. split; [by intros ?%elem_of_nil|by intros (x & ?%elem_of_nil & _)]. }
  inv_binds. simplify_eq. destruct (IH _ Ha0) as [H1 H2]. split.
  - intros y. rewrite elem_of_cons, H1. split.
    + intros [->|(x' & ? & ?)]; [exists x|exists x']; (split; [|done]); apply elem_of_cons; auto.
    + intros (x' & [->|?]%elem_of_cons & ?); [left; congruence|right; by exists x'].
  - intros x' [->|?]%elem_of_cons; [by rewrite Ha|auto].
Qed.

(** *** Exceptions and findings, read off the documents *)
Definition path_field (v : json) (path : option string) : Prop :=
  v = match path with None => JNull | Some s => JStr s end.

Definition entry_key (entry : object) (key : scope_key) : Prop :=
  get "vulnerabilityId" entry = JStr (vulnerabilityId key)
  ∧ get "packageName" entry = JStr (packageName key)
  ∧ get "installedVersion" entry = JStr (installedVersion key)
  ∧ path_field (get "packagePath" entry) (packagePath key)
  ∧ get "target" entry = JStr (target key) ∧ get "type" entry = JStr (kind key).

Definition finding_key (result vulnerability : object) (key : scope_key) : Prop :=
  get "VulnerabilityID" vulnerability = JStr (vulnerabilityId key)
  ∧ get "PkgName" vulnerability = JStr (packageName key)
  ∧ get "InstalledVersion" vulnerability = JStr (installedVersion key)
  ∧ path_field (get "PkgPath" vulnerability) (packagePath key)
  ∧ get "Target" result = JStr (target key) ∧ get "Type" result = JStr (kind key).

(** An element of a list field of a document. *)
Definition member (v : json) (field : string) (o : object) : Prop :=
  ∃ d l, v = JObj d ∧ get field d = JList l ∧ JObj o ∈ l.

(** The vulnerabilities of a result; none if the field is missing. *)
Definition reported (report : json) (result vulnerability : object) : Prop :=
  member report "Results" result
  ∧ ∃ l, get_or "Vulnerabilities" (JList []) result = JList l ∧ JObj vulnerability ∈ l.

Section facts.
Context (other_digit : string → option Z).

(** A dated exception of the policy for exactly this scope, in force. *)
Definition in_force (policy : json) (now : Z) (key : scope_key) : Prop :=
  ∃ entry expiry deadline, member policy "exceptions" entry ∧ entry_key entry key
    ∧ get "expiresOn" entry = JStr expiry ∧ parse_date other_digit expiry = Ok deadline
    ∧ now < deadline ≤ now + 30 * day_us.

Lemma path_field_inj v p q : path_field v p → path_field v q → p = q.
Proof. unfold path_field. destruct p, q; naive_solver. Qed.

Lemma entry_key_inj entry k1 k2 : entry_key entry k1 → entry_key entry k2 → k1 = k2.
Proof.
  destruct k1, k2. unfold entry_key. simpl.
  intros (H1 & H2 & H3 & H4 & H5 & H6) (G1 & G2 & G3 & G4 & G5 & G6).
  rewrite H1 in G1. rewrite H2 in G2. rewrite H3 in G3. rewrite H5 in G5. rewrite H6 in G6.
  pose proof (path_field_inj _ _ _ H4 G4). by simplify_eq.
Qed.

Lemma scope_text_inv entry field s : scope_text entry field = Ok s → get field entry = JStr s.
Proof. unfold scope_text. intros H. inv_binds. destruct (wild a); simplify_eq. by apply text_inv. Qed.

Lemma parse_exception_inv now raw key :
  parse_exception other_digit now raw = Ok key →
  ∃ entry expiry deadline, raw = JObj entry ∧ entry_key entry key
    ∧ get "expiresOn" entry = JStr expiry ∧ parse_date other_digit expiry = Ok deadline
    ∧ now < deadline ≤ now + 30 * day_us.
Proof.
  unfold parse_exception. intros H. apply bind_Ok in H as (entry & Hraw%mapping_inv & H).
  destruct (negb _); [done|]. inv_binds.
  match type of H with (if negb ?b then _ else _) = _ => destruct b eqn:Hb; [|done] end.
  simplify_eq/=. apply andb_true_iff in Hb as [Hlt%Z.ltb_lt Hle%Z.leb_le].
  match goal with Hd : parse_date _ ?e = Ok ?d |- _ => exists entry, e, d end.
  split; [done|]. split; [|split; [by apply text_inv|done]].
  repeat match goal with X : scope_text _ _ = Ok _ |- _ => apply scope_text_inv in X end.
  unfold entry_key. simpl. split_and!; try done.
  unfold path_field. destruct (get "packagePath" entry) eqn:Ep; simplify_eq/=; try done.
  all: match goal with X : Some <$> scope_text ?e ?f = Ok ?p |- _ =>
         destruct (scope_text e f) eqn:Es; simplify_eq/=; apply scope_text_inv in Es; congruence end.
Qed.

Lemma add_exceptions_elem now l rules rules' :
  add_exceptions other_digit now l rules = Ok rules' →
  (∀ key, key ∈ rules' ↔ key ∈ rules ∨ ∃ raw, raw ∈ l ∧ parse_exception other_digit now raw = Ok key)
  ∧ (∀ raw, raw ∈ l → is_ok (parse_exception other_digit now raw) = true).
Proof.
  revert rules. induction l as [|raw l IH]; simpl; intros rules H.
  { injection H as <-. split; [|by intros raw ?%elem_of_nil].
    intros key. split; [by left|]. by intros [?|(raw & ?%elem_of_nil & _)]. }
  inv_binds. case_bool_decide; [done|]. destruct (IH _ H) as [H1 H2]. split.
  - intros key. rewrite H1, elem_of_app, list_elem_of_singleton. split.
    + intros [[?| ->]|(raw' & ? & ?)]; [by left|right; exists raw|right; exists raw'];
        (split; [|done]); apply elem_of_cons; auto.
    + intros [?|(raw' & [->|?]%elem_of_cons & Hk)]; [by left; left| |right; by exists raw'].
      left. right. congruence.
  - intros raw' [->|?]%elem_of_cons; [by rewrite Ha|auto].
Qed.

Lemma exceptions_in_force policy now rules key :
  exceptions other_digit policy now = Ok rules → key ∈ rules ↔ in_force policy now key.
Proof.
  unfold exceptions. intros H. apply bind_Ok in H as (p & ->%mapping_inv & H).
  destruct (negb _); [done|]. apply bind_Ok in H as (l & Hl%sequence_inv & H).
  apply add_exceptions_elem in H as [H1 H2]. rewrite H1. split.
  - intros [?%elem_of_nil|(raw & Hraw & Hk)]; [done|].
    apply parse_exception_inv in Hk as (entry & expiry & deadline & -> & Hkey & He & Hd & Hb).
    exists entry, expiry, deadline. split_and!; try done; try lia. by exists p, l.
  - intros (entry & expiry & deadline & (p' & l' & [= <-] & Hl' & Hin) & Hkey & _).
    right. rewrite Hl in Hl'. injection Hl' as <-. exists (JObj entry). split; [done|].
    specialize (H2 _ Hin).
    destruct (parse_exception other_digit now (JObj entry)) as [key'|] eqn:E; [|done].
    apply parse_exception_inv in E as (entry' & ? & ? & [= <-] & Hkey' & _).
    by rewrite (entry_key_inj _ _ _ Hkey Hkey').
Qed.

(** *** What a scan reads *)
Definition development (x : expectations) (key : scope_key) : bool :=
  negb (has_image x)
  && negb (bool_decide (production x !! normalize (packageName key) = Some (installedVersion key))).

Definition finding_of (x : expectations) (rules : list scope_key) (result vulnerability : object)
    (f : finding) : Prop :=
  finding_key result vulnerability (f_key f)
  ∧ get "Severity" vulnerability = JStr (severity f)
  ∧ developmentOnly f = development x (f_key f)
  ∧ excepted f = bool_decide (f_key f ∈ rules).

Lemma optional_text_inv v p : optional_text v = Ok p → path_field v p.
Proof.
  assert (∀ v, Some <$> text v = Ok p → ∃ s, p = Some s ∧ v = JStr s) as Hsome.
  { intros v' H. destruct (text v') eqn:E; [|done]. injection H as <-. apply text_inv in E. eauto. }
  unfold path_field. destruct v; intros H; [by injection H as <-|..];
    by apply Hsome in H as (? & -> & ?).
Qed.

Lemma read_finding_inv x rules target kind entries result raw f :
  get "Target" result = JStr target → get "Type" result = JStr kind →
  read_finding x rules target kind entries raw = Ok f →
  ∃ vulnerability, raw = JObj vulnerability ∧ finding_of x rules result vulnerability f.
Proof.
  intros Ht Hk H. unfold read_finding in H. apply bind_Ok in H as (v & ->%mapping_inv & H).
  exists v. split; [done|]. inv_binds. destruct (negb _); [done|]. destruct (negb _); [done|].
  inv_binds. destruct (_ && _); [done|]. simplify_eq.
  repeat match goal with X : text _ = Ok _ |- _ => apply text_inv in X end.
  match goal with X : optional_text _ = Ok _ |- _ => apply optional_text_inv in X end.
  by unfold finding_of, finding_key.
Qed.

(** The packages of the language results a scan counts, and of any other class. *)
Definition has_package (results : list json) (class kind name version : string) : Prop :=
  ∃ result pkg, JObj result ∈ results ∧ get "Class" result = JStr class
    ∧ get "Type" result = JStr kind ∧ member (JObj result) "Packages" pkg
    ∧ get "Name" pkg = JStr name ∧ package_version pkg kind = Ok version.

Definition language_kind (x : expectations) : string := if has_image x then "python-pkg" else "pip".

Lemma package_entry_inv kind raw name version :
  package_entry kind raw = Ok (name, version) →
  ∃ pkg, raw = JObj pkg ∧ get "Name" pkg = JStr name ∧ package_version pkg kind = Ok version.
Proof.
  unfold package_entry. intros H. apply bind_Ok in H as (p & ->%mapping_inv & H). inv_binds. simplify_eq.
  exists p. split; [done|]. split; [by apply text_inv|done].
Qed.

(** What one result adds. *)
Record adds (x : expectations) (rules : list scope_key) (results : list json) (st st' : scan_state)
  : Prop := {
  ad_found f : f ∈ found st' ↔ f ∈ found st ∨ ∃ result v l, JObj result ∈ results
    ∧ get_or "Vulnerabilities" (JList []) result = JList l ∧ JObj v ∈ l
    ∧ f ∈ found st' ∧ finding_of x rules result v f;
  ad_all result v l : JObj result ∈ results →
    get_or "Vulnerabilities" (JList []) result = JList l → JObj v ∈ l →
    ∃ f, f ∈ found st' ∧ finding_of x rules result v f;
  ad_inventory n v : (n, v) ∈ inventory st' → (n, v) ∈ inventory st
    ∨ ∃ name, has_package results "lang-pkgs" (language_kind x) name v ∧ normalize name = n;
  ad_os : os_packages st' = true → os_packages st = true
    ∨ ∃ kind name v, has_package results "os-pkgs" kind name v
}.

Lemma adds_refl x rules st : adds x rules [] st st.
Proof.
  split.
  - intros f. split; [by left|]. by intros [?|(? & ? & ? & ?%elem_of_nil & _)].
  - by intros ? ? ? ?%elem_of_nil.
  - by left.
  - by left.
Qed.

Lemma has_package_mono l l' class kind name v :
  (∀ r, r ∈ l → r ∈ l') → has_package l class kind name v → has_package l' class kind name v.
Proof. intros Hl (r & p & Hr & H). exists r, p. auto. Qed.

Lemma adds_trans x rules raw l st1 st2 st3 :
  adds x rules [raw] st1 st2 → adds x rules l st2 st3 → adds x rules (raw :: l) st1 st3.
Proof.
  intros [F1 A1 I1 O1] [F2 A2 I2 O2].
  assert (∀ f, f ∈ found st2 → f ∈ found st3) as Hin by (intros f Hf; apply F2; by left).
  assert (∀ r, r ∈ [raw] → r ∈ raw :: l) as Hraw
    by (intros r ->%list_elem_of_singleton; apply elem_of_cons; by left).
  assert (∀ r, r ∈ l → r ∈ raw :: l) as Hl by (intros r ?; apply elem_of_cons; by right).
  split.
  - intros f. split.
    + intros Hf3. pose proof Hf3 as Hf. apply F2 in Hf as [Hf|(r & v & vs & ? & ? & ? & _ & ?)].
      * pose proof Hf as Hf'. apply F1 in Hf as [?|(r & v & vs & ? & ? & ? & _ & ?)]; [by left|].
        right. exists r, v, vs. auto.
      * right. exists r, v, vs. auto.
    + intros [Hf|(r & v & vs & _ & _ & _ & Hf & _)]; [|done]. apply Hin, F1. by left.
  - intros r v vs [<-|Hr]%elem_of_cons Hv Hvs.
    + destruct (A1 r v vs) as (f & ? & ?); [by apply list_elem_of_singleton|done|done|]. eauto.
    + by apply (A2 r v vs).
  - intros n v [Hi|(name & Hp & ?)]%I2.
    + apply I1 in Hi as [?|(name & Hp & ?)]; [by left|]. right. exists name.
      split; [|done]. eauto using has_package_mono.
    + right. exists name. split; [|done]. eauto using has_package_mono.
  - intros [Ho|(k & n & v & Hp)]%O2.
    + apply O1 in Ho as [?|(k & n & v & Hp)]; [by left|]. right. exists k, n, v.
      eauto using has_package_mono.
    + right. exists k, n, v. eauto using has_package_mono.
Qed.

Lemma read_result_adds x rules st raw st' :
  read_result x rules st raw = Ok st' → adds x rules [raw] st st'.
Proof.
  unfold read_result. intros H. apply bind_Ok in H as (result & ->%mapping_inv & H).
  apply bind_Ok in H as (target & Ht%text_inv & H).
  apply bind_Ok in H as (kind & Hk%text_inv & H).
  apply bind_Ok in H as (packages & Hp%sequence_inv & H).
  apply bind_Ok in H as (entries & He%mapM_py_elem & H). destruct He as [He _]. cbv zeta in H.
  apply bind_Ok in H as (vs & Hvs%sequence_inv & H).
  apply bind_Ok in H as (more & Hm%mapM_py_elem & H). destruct Hm as [Hm Hall]. injection H as <-.
  assert (∀ name v, (name, v) ∈ entries → ∃ pkg, member (JObj result) "Packages" pkg
    ∧ get "Name" pkg = JStr name ∧ package_version pkg kind = Ok v) as Hent.
  { intros name v (raw & Hraw & E)%He. apply package_entry_inv in E as (pkg & -> & ? & ?).
    exists pkg. split; [by exists result, packages|done]. }
  assert (∀ vul, JObj vul ∈ vs → ∃ f, f ∈ more ∧ finding_of x rules result vul f) as Hread.
  { intros vul Hin. specialize (Hall _ Hin).
    destruct (read_finding x rules target kind entries (JObj vul)) as [f|] eqn:E; [|done].
    exists f. split; [apply Hm; eauto|].
    by destruct (read_finding_inv _ _ _ _ _ _ _ _ Ht Hk E) as (v & [= <-] & ?). }
  split; simpl.
  - intros f. split; [|by intros [?|(? & ? & ? & ? & ? & ? & ? & ?)]; [apply elem_of_app; left|]].
    intros Hf. pose proof Hf as [?|(raw & Hin & E)%Hm]%elem_of_app; [by left|right].
    destruct (read_finding_inv _ _ _ _ _ _ _ _ Ht Hk E) as (vul & -> & ?).
    exists result, vul, vs. split_and!; try done. by apply list_elem_of_singleton.
  - intros r v l [= ->]%list_elem_of_singleton Hl Hv. rewrite Hvs in Hl. injection Hl as <-.
    destruct (Hread v Hv) as (f & ? & ?). exists f. split; [apply elem_of_app; by right|done].
  - intros n v Hi. destruct (is_text _ _ && _) eqn:Hc; [|by left].
    apply andb_true_iff in Hc as [Hc%is_text_inv Hkind%String.eqb_eq].
    apply elem_of_app in Hi as [?|([name v'] & [= -> ->] & Hin)%list_elem_of_fmap]; [by left|right].
    destruct (Hent _ _ Hin) as (pkg & ? & ? & ?). exists name. split; [|done].
    exists result, pkg. subst kind. split_and!; try done. by apply list_elem_of_singleton.
  - intros [?|[Hc%is_text_inv Hne%negb_true_iff%bool_decide_eq_false]%andb_true_iff]%orb_true_iff;
      [by left|right].
    destruct entries as [|[name v] entries]; [done|].
    destruct (Hent name v) as (pkg & ? & ? & ?); [apply elem_of_cons; by left|].
    exists kind, name, v, result, pkg. split_and!; try done. by apply list_elem_of_singleton.
Qed.

Lemma read_results_adds x rules l st st' :
  read_results x rules l st = Ok st' → adds x rules l st st'.
Proof.
  revert st. induction l as [|raw l IH]; simpl; intros st H.
  { injection H as <-. apply adds_refl. }
  inv_binds. eapply adds_trans; [by apply read_result_adds|by apply IH].
Qed.

(** A critical finding the policy lets pass. *)
Definition tolerated (x : expectations) (policy : json) (now : Z) (result vulnerability : object)
  : Prop :=
  ∃ key, finding_key result vulnerability key
    ∧ (development x key = true ∨ in_force policy now key).

Definition reported_package (report : json) (class kind name version : string) : Prop :=
  ∃ d l, report = JObj d ∧ get "Results" d = JList l ∧ has_package l class kind name version.

Lemma finding_key_inj result v k1 k2 : finding_key result v k1 → finding_key result v k2 → k1 = k2.
Proof.
  destruct k1, k2. unfold finding_key. simpl.
  intros (H1 & H2 & H3 & H4 & H5 & H6) (G1 & G2 & G3 & G4 & G5 & G6).
  rewrite H1 in G1. rewrite H2 in G2. rewrite H3 in G3. rewrite H5 in G5. rewrite H6 in G6.
  pose proof (path_field_inj _ _ _ H4 G4). by simplify_eq.
Qed.

Lemma evaluate_inv report policy x now d :
  evaluate other_digit report policy x now = Ok d →
  ∃ rules o l st, exceptions other_digit policy now = Ok rules ∧ report = JObj o
    ∧ check_report x o = Ok tt ∧ get "Results" o = JList l
    ∧ adds x rules l (mkScan [] false []) st
    ∧ covers (inventory st) (expected x) = true ∧ (has_image x = true → os_packages st = true)
    ∧ d = mkDecision (bool_decide (List.filter is_blocked (found st) = []))
            (List.filter is_blocked (found st)) (found st).
Proof.
  unfold evaluate. intros H. apply bind_Ok in H as (rules & Hr & H).
  apply bind_Ok in H as (o & ->%mapping_inv & H). apply bind_Ok in H as ([] & Hc & H).
  apply bind_Ok in H as (l & Hl%sequence_inv & H).
  apply bind_Ok in H as (st & Hst%read_results_adds & H).
  destruct (covers _ _) eqn:Hcov; [|done]. simpl in H.
  destruct (has_image x && negb (os_packages st)) eqn:Ho; [done|]. injection H as <-.
  exists rules, o, l, st. split_and!; try done. intros Hi. rewrite Hi in Ho.
  by destruct (os_packages st).
Qed.

Lemma blocked_tolerated x policy now rules result v f :
  exceptions other_digit policy now = Ok rules → finding_of x rules result v f →
  is_blocked f = false ↔ severity f ≠ "CRITICAL" ∨ tolerated x policy now result v.
Proof.
  intros Hr (Hk & Hs & Hd & He). unfold is_blocked. rewrite Hd, He.
  assert (tolerated x policy now result v ↔ development x (f_key f) = true ∨ f_key f ∈ rules) as ->.
  { rewrite (exceptions_in_force policy now rules (f_key f) Hr). split; [|by exists (f_key f)].
    intros (key & Hkey & H). by rewrite (finding_key_inj _ _ _ _ Hk Hkey). }
  destruct (String.eqb_spec (severity f) "CRITICAL"), (development x (f_key f)); case_bool_decide;
    simpl; naive_solver.
Qed.
End facts.

(** What a decision says. *)
Lemma evaluate_decides other_digit report policy x now d :
  evaluate other_digit report policy x now = Ok d →
  (allowed d = true ↔ ∀ result v, reported report result v →
     get "Severity" v = JStr "CRITICAL" → tolerated other_digit x policy now result v)
  ∧ (∀ name version, expected x !! name = Some version →
       ∃ raw, reported_package report "lang-pkgs" (language_kind x) raw version ∧ normalize raw = name)
  ∧ (has_image x = true →
       (∃ o m, report = JObj o ∧ get "Metadata" o = JObj m
          ∧ get "ImageID" m = JStr (default EmptyString (image_id x)))
       ∧ ∃ kind name version, reported_package report "os-pkgs" kind name version).
Proof.
  intros (rules & o & l & st & Hr & -> & Hc & Hl & [F A I O] & Hcov & Hos & ->)%evaluate_inv.
  split_and!.
  - simpl. rewrite bool_decide_eq_true. split.
    + intros Hb result v [(o' & l' & [= <-] & Hl' & Hin) (vs & Hvs & Hv)] Hs.
      rewrite Hl in Hl'. injection Hl' as <-.
      destruct (A result v vs Hin Hvs Hv) as (f & Hf & Hof).
      assert (is_blocked f = false) as Hfb.
      { destruct (is_blocked f) eqn:E; [|done]. exfalso.
        assert (In f (List.filter is_blocked (found st))) as Hin'; [|by rewrite Hb in Hin'].
        apply filter_In. split; [by apply list_elem_of_In|done]. }
      apply (blocked_tolerated other_digit x policy now rules result v f Hr Hof) in Hfb as [Hn|?]; [|done].
      destruct Hof as (_ & Hs' & _). congruence.
    + intros Hall. destruct (List.filter is_blocked (found st)) as [|f fs] eqn:E; [done|]. exfalso.
      assert (In f (List.filter is_blocked (found st))) as [Hf Hb]%filter_In by (rewrite E; by left).
      apply list_elem_of_In in Hf. pose proof Hf as [?%elem_of_nil|(result & v & vs & Hin & Hvs & Hv & _ & Hof)]%F;
        [done|].
      assert (is_blocked f = false); [|congruence].
      apply (blocked_tolerated other_digit x policy now rules result v f Hr Hof).
      destruct (decide (severity f = "CRITICAL")) as [Hs|]; [right|by left].
      apply Hall; [split; [by exists o, l|by exists vs]|].
      destruct Hof as (_ & -> & _). by rewrite Hs.
  - intros name version Hx. unfold covers in Hcov. apply bool_decide_eq_true in Hcov.
    specialize (Hcov name version Hx). simpl in Hcov.
    destruct (I _ _ Hcov) as [?%elem_of_nil|(raw & Hp & Hn)]; [done|].
    exists raw. split; [by exists o, l|done].
  - intros Hi. split.
    + unfold check_report in Hc. destruct (negb _); [done|]. rewrite Hi in Hc. simpl in Hc.
      apply bind_Ok in Hc as (m & Hm%mapping_inv & Hc).
      apply bind_Ok in Hc as (oi & _ & Hc). destruct (is_text _ _) eqn:Ht; [|done].
      exists o, m. split_and!; try done. by apply is_text_inv.
    + destruct (O (Hos Hi)) as [?|(kind & name & version & Hp)]; [done|].
      exists kind, name, version, o, l. done.
Qed.

(** [C15] The vulnerability gate fails closed and decides exactly: a decision is reached
    only on a report of the right kind — of exactly the qualified image, with an operating
    system inventory, when an image is scanned — in which every expected requirement is
    found at its version; and it allows exactly when every critical vulnerability of the
    report is either that of a development-only dependency or covered by an exception of
    the policy for exactly its scope that is not expired and ends within thirty days. *)
Theorem gate_decides_exactly other_digit report policy x now d :
  evaluate other_digit report policy x now = Ok d →
  (allowed d = true ↔ ∀ result v, reported report result v →
     get "Severity" v = JStr "CRITICAL" → tolerated other_digit x policy now result v)
  ∧ (∀ name version, expected x !! name = Some version →
       ∃ raw, reported_package report "lang-pkgs" (language_kind x) raw version ∧ normalize raw = name)
  ∧ (has_image x = true →
       (∃ o m, report = JObj o ∧ get "Metadata" o = JObj m
          ∧ get "ImageID" m = JStr (default EmptyString (image_id x)))
       ∧ ∃ kind name version, reported_package report "os-pkgs" kind name version).
Proof. apply evaluate_decides. Qed.

(** The deployment gate opens only when exactly the required jobs are there and every one
    of them succeeded; a document that cannot be read closes it. *)
Lemma ci_gate_exact raw :
  CiGate.main raw = Ok 0 ↔
  ∃ results, json_loads strict_hooks raw = Ok (JObj results)
    ∧ (∀ k, k ∈ results.*1 ↔ k ∈ CiGate.REQUIRED_JOBS)
    ∧ ∀ name, name ∈ CiGate.REQUIRED_JOBS →
        ∃ job, get name results = JObj job ∧ get "result" job = JStr "success".
Proof.
  assert (∀ l results outcomes,
    mapM_py (λ name, job ← mapping (get name results); Ok (name, get "result" job)) l = Ok outcomes →
    forallb (λ o, is_text "success" o.2) outcomes = true ↔
    ∀ name, name ∈ l → ∃ job, get name results = JObj job ∧ get "result" job = JStr "success") as Hjobs.
  { intros l results. induction l as [|name l IH]; intros outcomes H; simpl in H.
    { injection H as <-. split; [by intros _ name ?%elem_of_nil|done]. }
    inv_binds. simplify_eq. apply mapping_inv in Ha1. simpl. rewrite andb_true_iff, IH by done. split.
    - intros [Hs%is_text_inv Hall] name' [->|?]%elem_of_cons; [by eexists|auto].
    - intros Hall. split; [|intros name' ?; apply Hall, elem_of_cons; by right].
      destruct (Hall name) as (job & E & Hj); [apply elem_of_cons; by left|].
      rewrite Ha1 in E. injection E as <-. by rewrite Hj. }
  assert (∀ results, forallb (λ k, bool_decide (k ∈ CiGate.REQUIRED_JOBS)) results.*1
    && forallb (λ k, bool_decide (k ∈ results.*1)) CiGate.REQUIRED_JOBS = true
    ↔ ∀ k : string, k ∈ (results : object).*1 ↔ k ∈ CiGate.REQUIRED_JOBS) as Hkeys.
  { intros results. rewrite andb_true_iff, !forallb_forall. split.
    - intros [H1 H2] k. split; intros Hk%list_elem_of_In;
        [apply H1 in Hk|apply H2 in Hk]; by apply bool_decide_eq_true in Hk.
    - intros H. split; intros k Hk%list_elem_of_In; apply bool_decide_eq_true; by apply H. }
  unfold CiGate.main, CiGate.evaluate. destruct (json_loads strict_hooks raw) as [v|e] eqn:E.
  2: { simpl. split; [|by intros (? & ? & _)]. destruct e; done. }
  cbn [mbind result_bind]. destruct v as [| | | | | |results]; try (split; [done|by intros (? & ? & _)]).
  simpl mapping. cbn [mbind result_bind].
  destruct (_ && _) eqn:Hk; cbn [negb].
  2: { split; [done|]. intros (r & [= <-] & Hr & _). pose proof (proj2 (Hkeys results) Hr). congruence. }
  pose proof (proj1 (Hkeys results) Hk) as Hk'.
  destruct (mapM_py _ _) as [outcomes|e] eqn:Ho; cbn [mbind result_bind].
  - pose proof (Hjobs _ _ _ Ho) as Hiff. split.
    + intros H0. exists results. split_and!; [done|done|]. apply Hiff. revert H0.
      by destruct (forallb (λ o : string * json, is_text "success" o.2) outcomes).
    + intros (r & [= <-] & _ & Hall). by rewrite (proj2 Hiff Hall).
  - split.
    { destruct e; done. }
    intros (r & [= <-] & _ & Hall). exfalso. revert e Ho Hall. clear.
    induction CiGate.REQUIRED_JOBS as [|name l IH]; intros e Ho Hall; [done|]. simpl in Ho.
    destruct (Hall name) as (job & Ej & _); [apply elem_of_cons; by left|].
    rewrite Ej in Ho. simpl in Ho.
    destruct (mapM_py _ l) eqn:El in Ho; [done|]. eapply IH; [exact El|].
    intros name' ?. apply Hall, elem_of_cons. by right.
Qed.

(** ** An image with a critical vulnerability under a dated exception *)
Definition demo_now : Z := midnight 2026 2 20.
Definition demo_policy : json :=
  JObj [("version", JInt 1);
        ("exceptions", JList [JObj
          [("vulnerabilityId", JStr "CVE-1"); ("packageName", JStr "libssl"); ("installedVersion", JStr "3.0-1");
           ("packagePath", JNull); ("target", JStr "debian"); ("type", JStr "debian");
           ("owner", JStr "ops"); ("reason", JStr "no fix"); ("review", JStr "issue 1");
           ("expiresOn", JStr "2026-03-01")]])].
Definition demo_report (version : string) : json :=
  JObj [("SchemaVersion", JInt 2); ("ArtifactType", JStr "container_image");
        ("Metadata", JObj [("ImageID", JStr "sha256:1");
                           ("OS", JObj [("Family", JStr "debian"); ("Name", JStr "12")])]);
        ("Results", JList
          [JObj [("Target", JStr "debian"); ("Type", JStr "debian"); ("Class", JStr "os-pkgs");
                 ("Packages", JList [JObj [("Name", JStr "libssl"); ("Version", JStr "3.0"); ("Release", JStr "1")]]);
                 ("Vulnerabilities", JList [JObj
                    [("VulnerabilityID", JStr "CVE-1"); ("PkgName", JStr "libssl");
                     ("InstalledVersion", JStr "3.0-1"); ("Severity", JStr "CRITICAL")]])];
           JObj [("Target", JStr "Python"); ("Type", JStr "python-pkg"); ("Class", JStr "lang-pkgs");
                 ("Packages", JList [JObj [("Name", JStr "Fast_API"); ("Version", JStr version)]])]])].
Definition demo_expectations : expectations :=
  mkExpectations {["fast-api" := "1.0"]} {["fast-api" := "1.0"]} (Some "sha256:1").

Lemma gate_decides_exactly_witness :
  match evaluate (λ _, None) (demo_report "1.0") demo_policy demo_expectations demo_now with
  | Ok d =>
      allowed d = true
      ∧ (allowed d = true ↔ ∀ result v, reported (demo_report "1.0") result v →
           get "Severity" v = JStr "CRITICAL" →
           tolerated (λ _, None) demo_expectations demo_policy demo_now result v)
  | Err _ => False
  end
  ∧ is_ok (evaluate (λ _, None) (demo_report "1.1") demo_policy demo_expectations demo_now) = false
  ∧ is_ok (evaluate (λ _, None) (demo_report "1.0") demo_policy demo_expectations (midnight 2026 3 1)) = false
  ∧ is_ok (evaluate (λ _, None) (demo_report "1.0") demo_policy demo_expectations (midnight 2026 1 1)) = false.
Proof.
  split; [|split; [|split]]; [|vm_compute; reflexivity..].
  destruct (evaluate (λ _, None) (demo_report "1.0") demo_policy demo_expectations demo_now)
    as [d|] eqn:E; [|vm_compute in E; discriminate].
  split; [vm_compute in E; by injection E as <-|].
  apply (proj1 (gate_decides_exactly (λ _, None) (demo_report "1.0") demo_policy demo_expectations demo_now d E)).
Defined.

Example requirements_example :
  requirements (Ok ("# pinned" +:+ nl +:+ " FastAPI==0.1 " +:+ nl +:+ nl +:+ "uv_loop==1.2+a" +:+ nl))
    = Ok {["fastapi" := "0.1"; "uv-loop" := "1.2+a"]}
  ∧ is_ok (requirements (Ok ("a==1" +:+ nl +:+ "A==2"))) = false
  ∧ is_ok (requirements (Ok "a>=1")) = false ∧ is_ok (requirements (Ok "")) = false.
Proof. split_and!; vm_compute; reflexivity. Qed.
