(* ===== verification/ReleaseSource.v ===== *)
(** * The source of a release

    [scripts/release_source.py]: the commit a release is built from must be on the main
    branch and its latest push run must have succeeded with one successful deployment
    gate; and the version files must agree.  The GitHub API is a parameter: what each path
    answers.  The pages of a run's jobs are read until one is not full. *)
From Stdlib Require Import Floats.SpecFloat.
From S2P Require Import Prelude PyText Values Float64 UnicodeText Json SecurityPolicy.
Open Scope Z_scope.

(** ** Patterns *)
Definition is_hex_lower (c : ascii) : bool := is_digit c || in_range 97 102 c.
Definition is_alnum_lower (c : ascii) : bool := is_digit c || is_lower_alpha c.

(** [SHA]: [[a-f0-9]{40}] *)
Definition SHA (s : string) : bool := (blen s =? 40) && str_all is_hex_lower s.

(** [[A-Za-z0-9_.-]+/[A-Za-z0-9_.-]+] *)
Definition is_repository (s : string) : bool :=
  match split_on "/" s with
  | [owner; name] => negb (String.eqb owner "") && negb (String.eqb name "")
                     && str_all is_name_char owner && str_all is_name_char name
  | _ => false
  end.

(** [[a-z0-9][a-z0-9.:-]*] *)
Definition is_registry (s : string) : bool :=
  match s with
  | String c s' =>
      is_alnum_lower c
      && str_all (λ c, is_alnum_lower c || Ascii.eqb c "."%char || Ascii.eqb c ":"%char
                       || Ascii.eqb c "-"%char) s'
  | EmptyString => false
  end.

(** [[a-z0-9]+(?:[._/-][a-z0-9]+)*], after an alphanumeric character or not. *)
Fixpoint is_image_path (after : bool) (s : string) : bool :=
  match s with
  | EmptyString => after
  | String c s' =>
      if is_alnum_lower c then is_image_path true s'
      else (is_separator c || Ascii.eqb c "/"%char) && after && is_image_path false s'
  end.

Section version.
Context (other_digit : string → option Z).

Definition is_udigit (c : string) : bool := bool_decide (decimal_digit other_digit c ≠ None).

Fixpoint span_list {A} (P : A → bool) (l : list A) : list A * list A :=
  match l with
  | x :: l' => if P x then let '(a, b) := span_list P l' in (x :: a, b) else ([], l)
  | [] => ([], [])
  end.

(** [digits] numbers separated by dots: what follows, if they are there. *)
Fixpoint numbers (n : nat) (l : list string) : option (list string) :=
  let '(digits, rest) := span_list is_udigit l in
  match digits, n with
  | [], _ => None
  | _, O => Some rest
  | _, S n => match rest with "."%string :: rest' => numbers n rest' | _ => None end
  end.

(** [VERSION]: [\d+\.\d+\.\d+(?:-[A-Za-z0-9.-]+)?] *)
Definition is_suffix_char (c : string) : bool :=
  match c with
  | String a EmptyString => is_digit a || is_lower_alpha a || is_upper_alpha a
                            || Ascii.eqb a "."%char || Ascii.eqb a "-"%char
  | _ => false
  end.
Definition VERSION (s : string) : bool :=
  match numbers 2 (uchars s) with
  | Some [] => true
  | Some ("-"%string :: suffix) => negb (bool_decide (suffix = [])) && forallb is_suffix_char suffix
  | _ => false
  end.

(** [release_version], of the two files. *)
Definition app_versions (env_example : string) : list string :=
  omap (λ line, if starts_with "APP_VERSION=" line then Some (drop_str 12 line) else None)
    (usplitlines env_example).

Definition release_version (version_file env_example : py string) : py string :=
  o ← version_file; v ← decode_utf8 o;
  e ← env_example; env ← decode_utf8 e;
  let version := ustrip v in
  if VERSION version && bool_decide (app_versions env = [version]) then Ok version
  else invalid "VERSION and .env.example APP_VERSION must agree on a release version.".
End version.

(** ** The continuous integration run *)
Definition validate_ci (run : object) (jobs : list json) (sha repository : string) : py unit :=
  if negb (is_text sha (get "head_sha" run) && is_text "main" (get "head_branch" run)
           && is_text "push" (get "event" run) && is_text "completed" (get "status" run)
           && is_text "success" (get "conclusion" run) && is_text "Quality" (get "name" run))
  then invalid "Latest exact-source main push CI must succeed in this repository."
  else
    head ← mapping (get "head_repository" run);
    if negb (is_text repository (get "full_name" head))
    then invalid "Latest exact-source main push CI must succeed in this repository."
    else
      all ← mapM_py mapping jobs;
      match List.filter (λ job, is_text "Deployment gate" (get "name" job)) all with
      | [gate] =>
          if is_text "success" (get "conclusion" gate) && is_text "completed" (get "status" gate)
          then Ok tt
          else invalid "The selected CI attempt must contain one successful Deployment gate."
      | _ => invalid "The selected CI attempt must contain one successful Deployment gate."
      end.

(** [int(d[key])] *)
Definition int_of (v : json) : py Z :=
  match v with
  | JInt z => Ok z
  | JBool b => Ok (Z.b2z b)
  | JFloat (S754_zero _) => Ok 0
  | JFloat (S754_finite s m e) =>
      Ok (signed s (if 0 <=? e then Z.pos m * 2 ^ e else Z.pos m / 2 ^ (- e)))
  | JFloat S754_nan => Err (ValueError "cannot convert float NaN to integer")
  | JFloat (S754_infinity _) => Err ArithmeticError
  | JStr s => parse_int s
  | _ => Err (TypeError "int() argument must be a string or a real number")
  end.
Definition item (key : string) (d : object) : py json :=
  match assoc_get key d with Some v => Ok v | None => Err (KeyError key) end.
Definition int_field (key : string) (d : object) : py Z := v ← item key d; int_of v.

(** [max(..., key=...)]: the first of the largest. *)
Fixpoint latest (runs : list json) (best : option (object * Z)) : py (option (object * Z)) :=
  match runs with
  | [] => Ok best
  | v :: runs' =>
      run ← mapping v; id ← int_field "id" run;
      latest runs' (match best with
                    | Some (b, i) => if i <? id then Some (run, id) else Some (b, i)
                    | None => Some (run, id)
                    end)
  end.

Record environment := mkEnvironment {
  requested_sha : string;
  github_repository : string;
  registry : string;
  image_repository : option string;
  run_id : option string;
  run_attempt : option string
}.
Record source := mkSource {
  src_sha : string; src_repository : string; ci_run : Z; ci_attempt : Z; image : string;
  release_run : option string; release_attempt : option string
}.

Section api.
Context (api : string → py json).

Definition call (path : string) : py object := v ← api path; mapping v.

Definition jobs_path (repository : string) (run attempt page : Z) : string :=
  "repos/" +:+ repository +:+ "/actions/runs/" +:+ pretty run +:+ "/attempts/" +:+ pretty attempt
  +:+ "/jobs?per_page=100&page=" +:+ pretty page.

(** The pages from [page] on; [None] when more than [fuel] pages are full. *)
Fixpoint job_pages (repository : string) (run attempt : Z) (fuel : nat) (page : Z) (jobs : list json)
  : option (py (list json)) :=
  match fuel with
  | O => None
  | S fuel =>
      match (o ← call (jobs_path repository run attempt page); sequence (get "jobs" o)) with
      | Err e => Some (Err e)
      | Ok batch =>
          if Z.of_nat (length batch) <? 100 then Some (Ok (jobs ++ batch))
          else job_pages repository run attempt fuel (page + 1) (jobs ++ batch)
      end
  end.

Definition runs_path (repository sha : string) : string :=
  "repos/" +:+ repository +:+ "/actions/workflows/tests.yml/runs?head_sha=" +:+ sha
  +:+ "&event=push&branch=main&per_page=100".

(** The run that decides, its identifier and its attempt. *)
Definition select_run (sha repository : string) : py (object * Z * Z) :=
  comparison ← call ("repos/" +:+ repository +:+ "/compare/" +:+ sha +:+ "...main");
  known ← in_texts (get "status" comparison) ["identical"; "ahead"];
  base ← (if known : bool then b ← mapping (get "merge_base_commit" comparison); Ok (get "sha" b)
          else Ok JNull);
  if negb known || negb (is_text sha base) then invalid "Selected commit must belong to main."
  else
    o ← call (runs_path repository sha);
    runs ← sequence (get "workflow_runs" o);
    best ← latest runs None;
    match best with
    | None => invalid "No exact-source main push CI is available."
    | Some (run, id) => attempt ← int_field "run_attempt" run; Ok (run, id, attempt)
    end.

Definition select_source (fuel : nat) (env : environment) : option (py source) :=
  let sha := requested_sha env in
  let repository := github_repository env in
  if negb (SHA sha) || negb (is_repository repository)
  then Some (invalid "A full lowercase SHA and repository are required.")
  else
    match select_run sha repository with
    | Err e => Some (Err e)
    | Ok (run, id, attempt) =>
        (λ pages : py (list json),
          jobs ← pages;
          _ ← validate_ci run jobs sha repository;
          let path := ulower (default repository (image_repository env)) in
          if negb (is_registry (registry env)) || negb (is_image_path false path)
          then invalid "Invalid release registry/repository."
          else Ok (mkSource sha ("https://github.com/" +:+ repository) id attempt
                     (registry env +:+ "/" +:+ path) (run_id env) (run_attempt env)))
        <$> job_pages repository id attempt fuel 1 []
    end.
End api.

(** ** Lemmas *)
Section facts.
Context (api : string → py json) (repository : string) (run attempt : Z).

Definition page_of (page : Z) : py (list json) :=
  o ← call api (jobs_path repository run attempt page); sequence (get "jobs" o).

(** Page [page] is the last that is read: it is not full, or it fails. *)
Definition last_page (page : Z) : Prop :=
  match page_of page with Ok batch => Z.of_nat (length batch) < 100 | Err _ => True end.

Lemma job_pages_step fuel page jobs :
  job_pages api repository run attempt (S fuel) page jobs
  = match page_of page with
    | Err e => Some (Err e)
    | Ok batch => if Z.of_nat (length batch) <? 100 then Some (Ok (jobs ++ batch))
                  else job_pages api repository run attempt fuel (page + 1) (jobs ++ batch)
    end.
Proof. done. Qed.

(** The reading ends at the last page, whatever the fuel beyond it. *)
Lemma job_pages_total n page jobs fuel :
  last_page (page + Z.of_nat n) → (n < fuel)%nat →
  is_Some (job_pages api repository run attempt fuel page jobs).
Proof.
  revert page jobs fuel. induction n as [|n IH]; intros page jobs [|fuel] Hl Hf; try lia;
    rewrite job_pages_step; unfold last_page in Hl.
  - replace (page + Z.of_nat 0) with page in Hl by lia.
    destruct (page_of page); [|by eexists]. by rewrite (proj2 (Z.ltb_lt _ _) Hl).
  - destruct (page_of page); [|by eexists]. destruct (_ <? _); [by eexists|].
    apply IH; [|lia]. by replace (page + 1 + Z.of_nat n) with (page + Z.of_nat (S n)) by lia.
Qed.

Lemma job_pages_more fuel fuel' page jobs r :
  job_pages api repository run attempt fuel page jobs = Some r → (fuel ≤ fuel')%nat →
  job_pages api repository run attempt fuel' page jobs = Some r.
Proof.
  revert fuel' page jobs. induction fuel as [|fuel IH]; intros [|fuel'] page jobs H Hf; try done; [lia|].
  rewrite job_pages_step in H |- *. destruct (page_of page); [|done].
  destruct (_ <? _); [done|]. apply IH; [done|lia].
Qed.

(** What was read is a run of full pages and a last one that is not. *)
Lemma job_pages_concat fuel page jobs l :
  job_pages api repository run attempt fuel page jobs = Some (Ok l) →
  ∃ pages, l = jobs ++ concat pages ∧ pages ≠ []
    ∧ (∀ k batch, pages !! k = Some batch → page_of (page + Z.of_nat k) = Ok batch
         ∧ (Z.of_nat (length batch) < 100 ↔ S k = length pages)).
Proof.
  revert page jobs. induction fuel as [|fuel IH]; intros page jobs H; [done|].
  rewrite job_pages_step in H. destruct (page_of page) as [batch|e] eqn:Ep; [|done].
  destruct (Z.ltb_spec (Z.of_nat (length batch)) 100) as [Hlt|Hge].
  - injection H as <-. exists [batch]. simpl. rewrite app_nil_r. split_and!; [done|done|].
    intros [|k] b; [intros [= <-]|done]. by replace (page + Z.of_nat 0) with page by lia.
  - apply IH in H as (pages & -> & Hne & Hp). exists (batch :: pages). simpl.
    split_and!; [by rewrite (assoc_L (++))|done|]. intros [|k] b; simpl.
    + intros [= <-]. replace (page + Z.of_nat 0) with page by lia. split; [done|]. split; [lia|].
      destruct pages; [done|]. simpl. lia.
    + intros (E & Hk)%Hp. split; [|lia].
      by replace (page + Z.of_nat (S k)) with (page + 1 + Z.of_nat k) by lia.
Qed.
End facts.

Lemma latest_max runs best run id :
  latest runs best = Ok (Some (run, id)) →
  (best = Some (run, id) ∨ JObj run ∈ runs ∧ int_field "id" run = Ok id)
  ∧ (∀ r i, best = Some (r, i) → i ≤ id)
  ∧ (∀ r i, JObj r ∈ runs → int_field "id" r = Ok i → i ≤ id).
Proof.
  revert best. induction runs as [|v runs IH]; simpl; intros best H.
  { injection H as ->. split_and!; [by left|by intros r i [= -> ->]|by intros r i ?%elem_of_nil]. }
  apply bind_Ok in H as (r0 & ->%mapping_inv & H). apply bind_Ok in H as (i0 & Hi & H).
  apply IH in H as (H1 & H2 & H3).
  assert (∀ r i, best = Some (r, i) → i ≤ id) as Hbest.
  { intros r i ->. destruct (i <? i0) eqn:E; [|by eapply H2].
    apply Z.ltb_lt in E. specialize (H2 _ _ eq_refl). lia. }
  assert (i0 ≤ id) as H0.
  { destruct best as [[b i]|]; [|by eapply H2].
    destruct (i <? i0) eqn:E; [by eapply H2|]. apply Z.ltb_ge in E.
    specialize (Hbest _ _ eq_refl). lia. }
  split_and!; [|done|].
  - destruct H1 as [H1|[? ?]]; [|right; split; [apply elem_of_cons; by right|done]].
    destruct best as [[b i]|]; [destruct (i <? i0)|]; simplify_eq;
      try (by left); right; split; try done; apply elem_of_cons; by left.
  - intros r i [[= ->]|?]%elem_of_cons Hr; [congruence|by eapply H3].
Qed.

(** The run that succeeded, as [validate_ci] requires it. *)
Record ci_ok (run : object) (jobs : list json) (sha repository : string) : Prop := {
  ci_sha : get "head_sha" run = JStr sha;
  ci_branch : get "head_branch" run = JStr "main";
  ci_event : get "event" run = JStr "push";
  ci_status : get "status" run = JStr "completed";
  ci_conclusion : get "conclusion" run = JStr "success";
  ci_name : get "name" run = JStr "Quality";
  ci_repository : ∃ head, get "head_repository" run = JObj head ∧ get "full_name" head = JStr repository;
  ci_gate : ∃ before gate after, jobs = before ++ JObj gate :: after
    ∧ get "name" gate = JStr "Deployment gate" ∧ get "conclusion" gate = JStr "success"
    ∧ get "status" gate = JStr "completed"
    ∧ ∀ job, JObj job ∈ before ++ after → get "name" job ≠ JStr "Deployment gate"
}.

Lemma mapping_all jobs l : mapM_py mapping jobs = Ok l → jobs = JObj <$> l.
Proof.
  revert l. induction jobs as [|v jobs IH]; simpl; intros l H; [by injection H as <-|].
  apply bind_Ok in H as (d & ->%mapping_inv & H). apply bind_Ok in H as (ds & ->%IH & H).
  by injection H as <-.
Qed.

Lemma filter_single {A} (P : A → bool) l x :
  List.filter P l = [x] →
  ∃ before after, l = before ++ x :: after ∧ P x = true
    ∧ ∀ y, y ∈ before ++ after → P y = false.
Proof.
  induction l as [|y l IH]; simpl; [done|]. destruct (P y) eqn:Hy.
  - intros [= -> E]. exists [], l. split_and!; [done|done|]. intros z Hz. simpl in Hz.
    destruct (P z) eqn:Hpz; [|done]. exfalso.
    assert (In z (List.filter P l)) as Hin; [|by rewrite E in Hin].
    apply filter_In. split; [by apply list_elem_of_In|done].
  - intros (before & after & -> & Hx & Hall)%IH. exists (y :: before), after.
    split_and!; [done|done|]. intros z [->|?]%elem_of_cons; auto.
Qed.

Lemma validate_ci_ok run jobs sha repository :
  validate_ci run jobs sha repository = Ok tt → ci_ok run jobs sha repository.
Proof.
  unfold validate_ci. destruct (_ && _) eqn:E; [|done]. simpl.
  intros H. apply bind_Ok in H as (head & Hh%mapping_inv & H).
  destruct (is_text repository _) eqn:Er; [|done]. simpl in H.
  apply bind_Ok in H as (all & ->%mapping_all & H).
  destruct (List.filter _ all) as [|gate [|]] eqn:Ef; [done| |done].
  apply filter_single in Ef as (before & after & -> & Hg & Hall).
  destruct (_ && _) eqn:Ec in H; [|done]. reflect_bools.
  repeat match goal with X : is_text _ _ = true |- _ => apply is_text_inv in X end.
  split; try done; [by exists head|].
  exists (JObj <$> before), gate, (JObj <$> after). rewrite fmap_app. split_and!; try done.
  intros job. rewrite <-fmap_app. intros (job' & [= <-] & Hin)%list_elem_of_fmap.
  specialize (Hall _ Hin). simpl in Hall. intros E. by rewrite E in Hall.
Qed.

Lemma select_run_ok api sha repository run id attempt :
  select_run api sha repository = Ok (run, id, attempt) →
  (∃ comparison base,
     call api ("repos/" +:+ repository +:+ "/compare/" +:+ sha +:+ "...main") = Ok comparison
     ∧ get "status" comparison ∈ [JStr "identical"; JStr "ahead"]
     ∧ get "merge_base_commit" comparison = JObj base ∧ get "sha" base = JStr sha)
  ∧ ∃ o runs, call api (runs_path repository sha) = Ok o ∧ get "workflow_runs" o = JList runs
      ∧ JObj run ∈ runs ∧ int_field "id" run = Ok id ∧ int_field "run_attempt" run = Ok attempt
      ∧ ∀ r i, JObj r ∈ runs → int_field "id" r = Ok i → i ≤ id.
Proof.
  unfold select_run. intros H. apply bind_Ok in H as (comparison & Hc & H).
  apply bind_Ok in H as (known & Hk & H). apply bind_Ok in H as (base & Hb & H).
  destruct known; [|done]. simpl in H. destruct (is_text sha base) eqn:Hs; [|done]. simpl in H.
  apply is_text_inv in Hs as ->. apply bind_Ok in Hb as (b & Hb%mapping_inv & [= Hsha]).
  apply bind_Ok in H as (o & Ho & H). apply bind_Ok in H as (runs & Hr%sequence_inv & H).
  apply bind_Ok in H as ([[run' id']|] & Hl & H); [apply latest_max in Hl|done].
  apply bind_Ok in H as (a & Ha & H). injection H as -> -> ->.
  destruct Hl as ([?|[Hin Hid]] & _ & Hmax); [done|]. split.
  - exists comparison, b. split_and!; try done.
    destruct (get "status" comparison); simpl in Hk; try done.
    assert (s = "identical" ∨ s = "ahead") as [->| ->]; [|by repeat constructor..].
    injection Hk as Hk%bool_decide_eq_true.
    apply elem_of_cons in Hk as [?|?%list_elem_of_singleton]; auto.
  - by exists o, runs.
Qed.

(** Reading the jobs ends: as soon as some page is not full, or fails, every fuel that
    reaches it gives an answer. *)
Lemma select_source_total api env fuel :
  (∀ run attempt, ∃ n, (n < fuel)%nat ∧ last_page api (github_repository env) run attempt (1 + Z.of_nat n)) →
  is_Some (select_source api fuel env).
Proof.
  intros Hl. unfold select_source. destruct (_ || _); [by eexists|].
  destruct (select_run _ _ _) as [[[run id] attempt]|]; [|by eexists].
  destruct (Hl id attempt) as (n & Hn & Hlast).
  destruct (job_pages_total api (github_repository env) id attempt n 1 [] fuel Hlast Hn) as [r ->].
  by eexists.
Qed.

(** [C17] A release is built only from qualified source: whatever the API answers, a source
    is selected only if the requested full commit is an ancestor of main or main itself,
    the push run of exactly that commit with the largest identifier completed
    successfully in this repository, and its latest attempt's jobs — every page of them,
    up to the first that is not full — contain exactly one deployment gate, which
    succeeded. *)
Theorem release_source_is_checked api env fuel src :
  select_source api fuel env = Some (Ok src) →
  let sha := requested_sha env in
  let repository := github_repository env in
  SHA sha = true ∧ src_sha src = sha ∧ src_repository src = "https://github.com/" +:+ repository
  ∧ (∃ comparison base,
       call api ("repos/" +:+ repository +:+ "/compare/" +:+ sha +:+ "...main") = Ok comparison
       ∧ get "status" comparison ∈ [JStr "identical"; JStr "ahead"]
       ∧ get "merge_base_commit" comparison = JObj base ∧ get "sha" base = JStr sha)
  ∧ ∃ o runs run pages, call api (runs_path repository sha) = Ok o
      ∧ get "workflow_runs" o = JList runs ∧ JObj run ∈ runs
      ∧ int_field "id" run = Ok (ci_run src) ∧ int_field "run_attempt" run = Ok (ci_attempt src)
      ∧ (∀ r i, JObj r ∈ runs → int_field "id" r = Ok i → i ≤ ci_run src)
      ∧ (∀ k batch, pages !! k = Some batch →
           page_of api repository (ci_run src) (ci_attempt src) (1 + Z.of_nat k) = Ok batch
           ∧ (Z.of_nat (length batch) < 100 ↔ S k = length pages))
      ∧ ci_ok run (concat pages) sha repository.
Proof.
  cbv zeta. unfold select_source. intros H.
  destruct (SHA _) eqn:Hsha; [|done]. destruct (is_repository _); [|done]. simpl in H.
  destruct (select_run _ _ _) as [[[run id] attempt]|] eqn:Hrun; [|done].
  apply select_run_ok in Hrun as (Hcmp & o & runs & Ho & Hr & Hin & Hid & Ha & Hmax).
  destruct (job_pages _ _ _ _ _ _ _) as [[jobs|]|] eqn:Hj; simplify_eq/=.
  apply job_pages_concat in Hj as (pages & -> & _ & Hp).
  apply bind_Ok in H as ([] & Hci%validate_ci_ok & H). cbv zeta in H.
  destruct (_ || _); [done|]. injection H as <-. simpl. split_and!; try done.
  exists o, runs, run, pages. split_and!; try done.
Qed.

(** ** An example *)
Definition demo_sha : string := "0123456789abcdef0123456789abcdef01234567".
Definition demo_env : environment :=
  mkEnvironment demo_sha "owner/quickapi" "ghcr.io" (Some "Owner/QuickAPI") (Some "7") None.
Definition demo_run (id : Z) (conclusion : string) : json :=
  JObj [("id", JInt id); ("run_attempt", JInt 2); ("head_sha", JStr demo_sha); ("head_branch", JStr "main");
        ("event", JStr "push"); ("status", JStr "completed"); ("conclusion", JStr conclusion);
        ("name", JStr "Quality"); ("head_repository", JObj [("full_name", JStr "owner/quickapi")])].
Definition demo_api (conclusion path : string) : py json :=
  if contains "/compare/" path
  then Ok (JObj [("status", JStr "ahead"); ("merge_base_commit", JObj [("sha", JStr demo_sha)])])
  else if contains "/jobs" path
  then Ok (JObj [("jobs", JList (if contains "&page=1" path
                   then repeat (JObj [("name", JStr "Tests")]) 99
                        ++ [JObj [("name", JStr "Deployment gate"); ("conclusion", JStr "success");
                                  ("status", JStr "completed")]]
                   else []))])
  else Ok (JObj [("workflow_runs", JList [demo_run 3 "failure"; demo_run 9 conclusion; demo_run 4 "success"])]).

Lemma release_source_is_checked_witness :
  match select_source (demo_api "success") 3 demo_env with
  | Some (Ok src) => ci_run src = 9 ∧ src_sha src = demo_sha
  | _ => False
  end
  ∧ is_ok <$> select_source (demo_api "failure") 3 demo_env = Some false
  ∧ select_source (demo_api "success") 1 demo_env = None.
Proof.
  split_and!; [|vm_compute; reflexivity..].
  destruct (select_source (demo_api "success") 3 demo_env) as [[src|]|] eqn:E;
    [|vm_compute in E; discriminate|vm_compute in E; discriminate].
  split; [vm_compute in E; by injection E as <-|].
  exact (proj1 (proj2 (release_source_is_checked _ _ _ _ E))).
Defined.

(** A pre-release version is a release version here, though [Settings] accepts three
    numbers only. *)
Example prerelease_is_released :
  release_version (λ _, None) (Ok ("1.4.0-rc.1" +:+ nl)) (Ok ("A=1" +:+ nl +:+ "APP_VERSION=1.4.0-rc.1" +:+ nl))
    = Ok "1.4.0-rc.1"
  ∧ is_ok (release_version (λ _, None) (Ok "1.4") (Ok "APP_VERSION=1.4")) = false
  ∧ is_ok (release_version (λ _, None) (Ok "1.4.0") (Ok "APP_VERSION=1.4.1")) = false.
Proof. split_and!; vm_compute; reflexivity. Qed.
