(* ===== verification/ReleaseOci.v ===== *)
(** * The candidate archive of a release

    [scripts/release_oci.py]: an OCI archive is admitted member by member, every blob is
    read through a descriptor whose size and digest it must match, and [inspect] accepts
    one runtime image with its attestations, bound to the selected source.  The members
    the standard tar reader lists are the input.  The digest of [hashlib.sha256] is an
    argument, [Sha256.sha256_hexdigest] in the program: nothing is assumed of it, and the
    example runs with a checksum that is quick to evaluate.  Also arguments: for text that is neither UTF-8 nor ASCII where the code reads ASCII, the
    decoder of UTF-16 and UTF-32, the validity of unusual network locations, and the
    [str] of values that are not text. *)
From S2P Require Import Prelude PyText Values Sha256 JsonText UnicodeText Json SecurityPolicy ReleaseSource.
Open Scope Z_scope.

(** ** Loops that stop early *)
Fixpoint any_py {A} (f : A → py bool) (l : list A) : py bool :=
  match l with
  | [] => Ok false
  | x :: l' => b ← f x; if b : bool then Ok true else any_py f l'
  end.
Fixpoint fold_py {A B} (f : B → A → py B) (l : list A) (b : B) : py B :=
  match l with
  | [] => Ok b
  | x :: l' => b' ← f b x; fold_py f l' b'
  end.

(** [d[key]] and [!=] on documents. *)
Definition differs (a b : json) : bool := negb (py_eq a b).
Definition removeprefix (pre s : string) : string :=
  if starts_with pre s then drop_str (String.length pre) s else s.
Fixpoint ends_with (suffix s : string) : bool :=
  String.eqb s suffix || match s with EmptyString => false | String _ s' => ends_with suffix s' end.
Fixpoint take_str (n : nat) (s : string) : string :=
  match n, s with
  | S n, String c s' => String c (take_str n s')
  | _, _ => EmptyString
  end.
Definition removesuffix (suffix s : string) : string :=
  if ends_with suffix s && negb (String.eqb suffix "")
  then take_str (String.length s - String.length suffix) s else s.

(** [DIGEST]: [sha256:[a-f0-9]{64}] *)
Definition hex64 (s : string) : bool := (blen s =? 64) && str_all is_hex_lower s.
Definition DIGEST (s : string) : bool := starts_with "sha256:" s && hex64 (drop_str 7 s).

(** ** Base64, with [validate=True] *)
Definition sextet (c : ascii) : option Z :=
  if is_upper_alpha c then Some (octet c - 65)
  else if is_lower_alpha c then Some (octet c - 71)
  else if is_digit c then Some (octet c + 4)
  else if Ascii.eqb c "+"%char then Some 62
  else if Ascii.eqb c "/"%char then Some 63
  else None.
Definition is_pad (c : ascii) : bool := Ascii.eqb c "="%char.

(** Quadruples; the last may end in one or two paddings. *)
Fixpoint b64decode_go (s : string) : option string :=
  match s with
  | EmptyString => Some EmptyString
  | String a (String b (String c (String d r))) =>
      x ← sextet a; y ← sextet b;
      let first := of_octet (x * 4 + y / 16) in
      match sextet c with
      | Some z =>
          let second := of_octet (y mod 16 * 16 + z / 4) in
          match sextet d with
          | Some w => String first ∘ String second ∘ String (of_octet (z mod 4 * 64 + w))
                      <$> b64decode_go r
          | None => if is_pad d && String.eqb r "" then Some (String first (String second EmptyString))
                    else None
          end
      | None => if is_pad c && is_pad d && String.eqb r "" then Some (String first EmptyString) else None
      end
  | _ => None
  end.
Definition b64decode (s : string) : py string :=
  match b64decode_go s with Some b => Ok b | None => invalid "Only base64 data is allowed" end.

(** ** Octets to documents *)

(** UTF-8 where a surrogate may be encoded like any other code point. *)
Fixpoint utf8_surrogatepass (s : string) : bool :=
  match s with
  | EmptyString => true
  | String a s1 =>
      if is_ascii_char a then utf8_surrogatepass s1
      else match s1 with
      | EmptyString => false
      | String b s2 =>
          if in_range 194 223 a then in_range 128 191 b && utf8_surrogatepass s2
          else match s2 with
          | EmptyString => false
          | String c s3 =>
              if in_range 224 239 a then
                in_range (if octet a =? 224 then 160 else 128) 191 b
                && in_range 128 191 c && utf8_surrogatepass s3
              else match s3 with
              | EmptyString => false
              | String d s4 =>
                  in_range 240 244 a
                  && in_range (if octet a =? 240 then 144 else 128)
                       (if octet a =? 244 then 143 else 191) b
                  && in_range 128 191 c && in_range 128 191 d && utf8_surrogatepass s4
              end
          end
      end
  end.

Definition is_zero (c : ascii) : bool := octet c =? 0.
Definition BOM_UTF8 : string := octets [239; 187; 191].

(** [json.detect_encoding] finds UTF-16 or UTF-32. *)
Definition is_wide (b : string) : bool :=
  existsb (λ bom, starts_with (octets bom) b) [[0; 0; 254; 255]; [255; 254; 0; 0]; [254; 255]; [255; 254]]
  || (negb (starts_with BOM_UTF8 b)
      && match b with
         | String x (String y (String _ (String _ _))) => is_zero x || is_zero y
         | String x (String y EmptyString) => is_zero x || is_zero y
         | _ => false
         end).

Section oci.
(** [hashlib.sha256(body).hexdigest()]. *)
Context (hexdigest : string → string).
(** [bytes.decode] of UTF-16 and UTF-32; which network locations with brackets or beyond
    ASCII [urlsplit] accepts; [str] of a document that is not a text. *)
Context (decode_wide : string → py string) (netloc_valid : string → bool) (str_of : json → string).

(** The text [json.loads] finds in octets. *)
Definition json_text (body : string) : py string :=
  if is_wide body then decode_wide body
  else let b := removeprefix BOM_UTF8 body in
       if utf8_surrogatepass b then Ok b else Err UnicodeDecodeError.
Definition decode (body : string) : py object :=
  s ← json_text body; v ← json_loads strict_hooks s; mapping v.

(** ** Source locations *)
Definition uses_netloc : list string :=
  [""; "ftp"; "http"; "gopher"; "nntp"; "telnet"; "imap"; "wais"; "file"; "mms"; "https"; "shttp";
   "snews"; "prospero"; "rtsp"; "rtsps"; "rtspu"; "rsync"; "svn"; "svn+ssh"; "sftp"; "nfs"; "git";
   "git+ssh"; "ws"; "wss"; "itms-services"].
Definition is_scheme_char (c : ascii) : bool :=
  is_digit c || is_lower_alpha c || is_upper_alpha c
  || Ascii.eqb c "+"%char || Ascii.eqb c "-"%char || Ascii.eqb c "."%char.
Definition drop_unsafe (s : string) : string :=
  (fix go s := match s with
               | String c s' => if (octet c =? 9) || (octet c =? 10) || (octet c =? 13) then go s'
                                else String c (go s')
               | EmptyString => EmptyString
               end) s.
Definition before (stop : ascii → bool) (s : string) : string * string := span (λ c, negb (stop c)) s.
Definition is_char (a c : ascii) : bool := Ascii.eqb c a.

(** [urlsplit]: the scheme, the network location and the path; the query and the fragment
    are dropped by the caller. *)
Definition urlsplit (url : string) : py (string * string * string) :=
  let url := drop_unsafe (lstrip_when (λ c, octet c <=? 32) url) in
  let '(head, tail) := before (is_char ":") url in
  let '(scheme, url) :=
    match head, tail with
    | String c _, String _ tail' =>
        if (is_lower_alpha c || is_upper_alpha c) && str_all is_scheme_char head
        then (lower head, tail') else (EmptyString, url)
    | _, _ => (EmptyString, url)
    end in
  let '(netloc, url) :=
    if starts_with "//" url
    then before (λ c, is_char "/" c || is_char "?" c || is_char "#" c) (drop_str 2 url)
    else (EmptyString, url) in
  if negb (Bool.eqb (mem_char "[" netloc) (mem_char "]" netloc)) then invalid "Invalid IPv6 URL"
  else if (mem_char "[" netloc || negb (is_ascii netloc)) && negb (netloc_valid netloc)
  then invalid "Invalid network location"
  else Ok (scheme, netloc, (before (is_char "?") (before (is_char "#") url).1).1).

Definition urlunsplit (scheme netloc path : string) : string :=
  let url :=
    if negb (String.eqb netloc "") then
      "//" +:+ netloc +:+ (if negb (String.eqb path "") && negb (starts_with "/" path) then "/" +:+ path else path)
    else if starts_with "//" path then "//" +:+ path
    else if negb (String.eqb scheme "") && bool_decide (scheme ∈ uses_netloc)
            && (String.eqb path "" || starts_with "/" path) then "//" +:+ path
    else path in
  if negb (String.eqb scheme "") then scheme +:+ ":" +:+ url else url.

Definition source_uri (uri : string) : py string :=
  '(scheme, netloc, path) ← urlsplit (removeprefix "git+" uri);
  Ok (urlunsplit scheme netloc (removesuffix ".git" path)).

(** ** The archive *)

(** A member as the tar reader lists it; [stream] is what [extractfile] gives, and then
    what reading it gives. *)
Inductive member_type := REGULAR | DIRECTORY | OTHER.
#[global] Instance member_type_eq_dec : EqDecision member_type.
Proof. solve_decision. Defined.
Record TarInfo := mkTarInfo {
  m_name : string;
  m_type : member_type;
  m_size : Z;
  m_stream : option (py string)
}.
Definition isfile (m : TarInfo) : bool := bool_decide (m_type m = REGULAR).
Definition isdir (m : TarInfo) : bool := bool_decide (m_type m = DIRECTORY).

(** [members], in the order they were admitted. *)
Definition Candidate : Type := list (string * TarInfo).

Definition blob_name (hex : string) : string := "blobs/sha256/" +:+ hex.

(** [(?:index\.json|oci-layout|blobs/sha256/[a-f0-9]{64})] *)
Definition is_member_name (name : string) : bool :=
  String.eqb name "index.json" || String.eqb name "oci-layout"
  || (starts_with "blobs/sha256/" name && hex64 (drop_str 13 name)).

Definition admit_member (members : Candidate) (m : TarInfo) : py Candidate :=
  let name := removeprefix "./" (m_name m) in
  if isdir m && bool_decide (rstrip_char "/" name ∈ ["blobs"; "blobs/sha256"]) then Ok members
  else if negb (isfile m) || negb (is_member_name name) || bool_decide (name ∈ members.*1)
  then invalid "Unsafe, duplicate or unsupported OCI archive entry."
  else Ok (members ++ [(name, m)]).

(** [Candidate(path)] *)
Definition new_Candidate (archive : py (list TarInfo)) : py Candidate :=
  l ← archive; fold_py admit_member l [].

Definition stream_of (m : TarInfo) (msg : string) : py string :=
  match m_stream m with Some s => s | None => invalid msg end.

Definition MAX_METADATA : Z := 16 * 1024 * 1024.
Definition MAX_INLINE : Z := 24 * 1024 * 1024.

Definition read (c : Candidate) (name : string) : py object :=
  match assoc_get name c with
  | None => Err (KeyError name)
  | Some m =>
      if MAX_METADATA <? m_size m then invalid "Oversized OCI metadata."
      else body ← stream_of m "Missing OCI metadata."; decode body
  end.

Definition digest_of (body : string) : string := "sha256:" +:+ hexdigest body.

(** The octets a descriptor stands for, checked; [None] when they are a member's. *)
Definition inline_body (descriptor : object) (digest : string) : py string :=
  match get "data" descriptor with
  | JStr encoded =>
      if (0 <? ulen encoded) && (ulen encoded <=? MAX_INLINE) then
        body ← b64decode encoded;
        if negb (is_int (blen body) (get "size" descriptor)) || negb (String.eqb (digest_of body) digest)
        then invalid "Inline OCI descriptor size/digest differs."
        else Ok body
      else invalid "Oversized inline OCI metadata."
  | _ => invalid "Oversized inline OCI metadata."
  end.

Definition blob (c : Candidate) (descriptor : json) (metadata : bool) : py object :=
  descriptor ← mapping descriptor;
  digest ← text (get "digest" descriptor);
  if negb (DIGEST digest) then invalid "Invalid OCI descriptor digest."
  else
    let name := blob_name (drop_str 7 digest) in
    match assoc_get name c with
    | None => body ← inline_body descriptor digest; if metadata then decode body else Ok []
    | Some m =>
        if negb (is_int (m_size m) (get "size" descriptor)) then invalid "OCI descriptor size differs."
        else
          body ← stream_of m "Missing OCI blob.";
          if negb (String.eqb (digest_of body) digest) then invalid "OCI blob digest differs."
          else if metadata then read c name else Ok []
    end.

(** [extract]: the files written under the directory, in the order of the members. *)
Definition extract (c : Candidate) : py (list (string * string)) :=
  mapM_py (λ '(name, m), body ← stream_of m "Missing OCI archive file."; Ok (name, body)) c.

(** ** Inspection *)

(** The descriptor of the index among the roots of the layout. *)
Definition select_root (roots : list json) (expected_digest : option string) : py object :=
  match expected_digest with
  | Some expected =>
      if negb (DIGEST expected) then invalid "Invalid expected OCI candidate digest."
      else
        all ← mapM_py mapping roots;
        match List.filter (λ e, py_eq (get "digest" e) (JStr expected)) all with
        | [] => invalid "Approved candidate digest is missing from OCI layout."
        | descriptor :: _ as matches =>
            if existsb (λ e, existsb (λ f, differs (get f e) (get f descriptor)) ["size"; "mediaType"]) matches
            then invalid "Conflicting OCI descriptors for the approved digest."
            else Ok descriptor
        end
  | None => match roots with
            | [raw] => mapping raw
            | _ => invalid "Expected exactly one OCI candidate index."
            end
  end.

Definition linux_amd64 : json := JObj [("architecture", JStr "amd64"); ("os", JStr "linux")].
Definition is_runtime (e : object) : bool := py_eq (get "platform" e) linux_amd64.

(** The runtime's manifest and configuration, of the selected source. *)
Definition check_runtime (c : Candidate) (source : object) (version : string) (runtime : object)
  : py object :=
  manifest ← blob c (JObj runtime) true;
  config ← blob c (get "config" manifest) true;
  inner ← mapping (get "config" config);
  labels ← mapping (get "Labels" inner);
  if negb (is_text "linux" (get "os" config)) || negb (is_text "amd64" (get "architecture" config))
  then invalid "Runtime platform/source/version differs from the selected candidate."
  else
    sha ← item "sha" source;
    if differs (get "org.opencontainers.image.revision" labels) sha
    then invalid "Runtime platform/source/version differs from the selected candidate."
    else
      repository ← item "repository" source;
      if differs (get "org.opencontainers.image.source" labels) repository
         || negb (is_text version (get "org.opencontainers.image.version" labels))
      then invalid "Runtime platform/source/version differs from the selected candidate."
      else
        layers ← sequence (get "layers" manifest);
        _ ← mapM_py (λ layer, blob c layer false) layers;
        Ok manifest.

(** The text of a digest after [sha256:]. *)
Definition hex_part (digest : json) : json :=
  match digest with JStr s => JStr (drop_str 7 s) | _ => JNull end.

Record attestations := mkAttestations { sbom : option object; provenance : option object }.

Definition statement_types : list string :=
  ["https://in-toto.io/Statement/v0.1"; "https://in-toto.io/Statement/v1"].
Definition provenance_types : list string :=
  ["https://slsa.dev/provenance/v0.2"; "https://slsa.dev/provenance/v1"].

Definition add_sbom (found : attestations) (predicate : py object) : py attestations :=
  match sbom found with
  | Some _ => invalid "Unsupported or duplicate attestation predicate."
  | None => p ← predicate; Ok (mkAttestations (Some p) (provenance found))
  end.
Definition add_provenance (found : attestations) (predicate : py object) : py attestations :=
  match provenance found with
  | Some _ => invalid "Unsupported or duplicate attestation predicate."
  | None => p ← predicate; Ok (mkAttestations (sbom found) (Some p))
  end.

(** One layer of an attestation: a statement about the runtime [digest]. *)
Definition read_statement (c : Candidate) (digest : json) (found : attestations) (raw : json)
  : py attestations :=
  layer ← mapping raw;
  statement ← blob c (JObj layer) true;
  let predicate_type := get "predicateType" statement in
  if negb (is_text "application/vnd.in-toto+json" (get "mediaType" layer))
  then invalid "Unsupported attestation statement."
  else
    known ← in_texts (get "_type" statement) statement_types;
    if negb known then invalid "Unsupported attestation statement."
    else
      annotations ← mapping (get "annotations" layer);
      if differs (get "in-toto.io/predicate-type" annotations) predicate_type
      then invalid "Unsupported attestation statement."
      else
        subjects ← sequence (get "subject" statement);
        other ← any_py (λ raw, subject ← mapping raw; d ← mapping (get "digest" subject);
                          Ok (differs (get "sha256" d) (hex_part digest))) subjects;
        if other : bool then invalid "Attestation subject differs from runtime."
        else if is_text "https://spdx.dev/Document" predicate_type
        then add_sbom found (mapping (get "predicate" statement))
        else
          known ← in_texts predicate_type provenance_types;
          if known : bool then add_provenance found (mapping (get "predicate" statement))
          else invalid "Unsupported or duplicate attestation predicate.".

Definition not_null (v : json) : bool := match v with JNull => false | _ => true end.

(** One entry of the index besides the runtime: an attestation bound to it. *)
Definition read_attestation (c : Candidate) (runtime : object) (found : attestations) (entry : object)
  : py attestations :=
  if py_eq (JObj entry) (JObj runtime) then Ok found
  else
    attestation ← blob c (JObj entry) true;
    annotations ← mapping (get_or "annotations" (JObj []) entry);
    subject ← mapping (get_or "subject" (JObj []) attestation);
    digest ← item "digest" runtime;
    let bindings := List.filter not_null [get "vnd.docker.reference.digest" annotations; get "digest" subject] in
    if bool_decide (length bindings = 0%nat) || existsb (λ b, differs b digest) bindings
       || (negb (is_text "attestation-manifest" (get "vnd.docker.reference.type" annotations))
           && negb (is_text "application/vnd.docker.attestation.manifest.v1+json"
                      (get "artifactType" attestation)))
    then invalid "Unrecognized or wrongly bound attestation manifest."
    else
      _ ← blob c (get "config" attestation) true;
      layers ← sequence (get "layers" attestation);
      fold_py (read_statement c digest) layers found.

(** The packages an SPDX document names with a version. *)
Fixpoint spdx_inventory (packages : list json) : py (list (string * string)) :=
  match packages with
  | [] => Ok []
  | raw :: packages' =>
      package ← mapping raw;
      if truthy (get "versionInfo" package) then
        name ← text (get "name" package);
        version ← text (get "versionInfo" package);
        rest ← spdx_inventory packages'; Ok ((normalize name, version) :: rest)
      else spdx_inventory packages'
  end.

Definition check_sbom (sbom : object) (packages : gmap string string) : py unit :=
  l ← sequence (get "packages" sbom);
  inventory ← spdx_inventory l;
  v ← text (get "spdxVersion" sbom);
  if negb (starts_with "SPDX-2." v) || negb (covers inventory packages)
  then invalid "Missing runtime package inventory in SPDX SBOM."
  else Ok tt.

(** [source['sha'] in d.values()] *)
Definition material_binds (source : object) (raw : json) : py bool :=
  material ← mapping raw;
  uri ← text (get "uri" material);
  location ← source_uri uri;
  repository ← item "repository" source;
  if negb (py_eq (JStr location) repository) then Ok false
  else
    sha ← item "sha" source;
    digests ← mapping (get "digest" material);
    Ok (existsb (py_eq sha) digests.*2).

Definition materials (provenance : object) : py json :=
  build ← mapping (get_or "buildDefinition" (JObj []) provenance);
  Ok (get_or "materials" (get_or "resolvedDependencies" (JList []) build) provenance).

Definition vcs (provenance : object) : py json :=
  metadata ← mapping (get_or "metadata" (JObj []) provenance);
  buildkit ← mapping (get_or "https://mobyproject.org/buildkit@v1#metadata" (JObj []) metadata);
  let vcs := get_or "vcs" (JObj []) buildkit in
  details ← mapping (get_or "runDetails" (JObj []) provenance);
  metadata ← mapping (get_or "metadata" (JObj []) details);
  buildkit ← mapping (get_or "buildkit_metadata" (JObj []) metadata);
  Ok (get_or "vcs" vcs buildkit).

Definition str (v : json) : string := match v with JStr s => s | _ => str_of v end.

Definition vcs_binds (source : object) (raw : json) : py bool :=
  vcs ← mapping raw;
  sha ← item "sha" source;
  if differs (get "revision" vcs) sha then Ok false
  else
    location ← source_uri (str (get_or "source" (JStr EmptyString) vcs));
    repository ← item "repository" source;
    Ok (py_eq (JStr location) repository).

Definition check_provenance (provenance source : object) : py unit :=
  materials ← materials provenance;
  vcs ← vcs provenance;
  l ← sequence materials;
  bound_material ← any_py (material_binds source) l;
  bound_vcs ← vcs_binds source vcs;
  if negb bound_material && negb bound_vcs
  then invalid "Provenance does not identify the selected source."
  else Ok tt.

Record info := mkInfo {
  info_digest : json;
  info_runtimeDigest : json;
  info_imageId : json;
  info_sbom : object;
  info_provenance : object
}.

Definition inspect_candidate (c : Candidate) (source : object) (version : string)
    (packages : gmap string string) (expected_digest : option string) : py info :=
  layout ← read c "oci-layout";
  if negb (is_text "1.0.0" (get "imageLayoutVersion" layout)) then invalid "Unsupported OCI layout."
  else
    root ← read c "index.json";
    roots ← sequence (get "manifests" root);
    if negb (is_int 2 (get "schemaVersion" root)) then invalid "Unsupported OCI index schema."
    else
      descriptor ← select_root roots expected_digest;
      index ← blob c (JObj descriptor) true;
      entries ← sequence (get "manifests" index);
      entries ← mapM_py mapping entries;
      match List.filter is_runtime entries with
      | [runtime] =>
          manifest ← check_runtime c source version runtime;
          found ← fold_py (read_attestation c runtime) entries (mkAttestations None None);
          match sbom found, provenance found with
          | Some sbom, Some provenance =>
              _ ← check_sbom sbom packages;
              _ ← check_provenance provenance source;
              digest ← item "digest" descriptor;
              runtime_digest ← item "digest" runtime;
              config ← item "config" manifest;
              config ← mapping config;
              image_id ← item "digest" config;
              Ok (mkInfo digest runtime_digest image_id sbom provenance)
          | _, _ => invalid "Candidate requires SPDX SBOM and provenance."
          end
      | _ => invalid "Expected one linux/amd64 runtime."
      end.

(** [inspect]; the archive is closed whatever happens. *)
Definition inspect (archive : py (list TarInfo)) (source : object) (version : string)
    (packages : gmap string string) (expected_digest : option string) : py info :=
  c ← new_Candidate archive; inspect_candidate c source version packages expected_digest.
End oci.

(** ** Lemmas *)
Lemma fold_py_inv {A B} (f : B → A → py B) (I : B → Prop) l b b' :
  fold_py f l b = Ok b' → I b →
  (∀ x b b', x ∈ l → f b x = Ok b' → I b → I b') → I b'.
Proof.
  revert b. induction l as [|x l IH]; simpl; intros b H Hb Hf; [by injection H as <-|].
  apply bind_Ok in H as (b1 & Hx & H). apply (IH b1 H).
  - eapply Hf; [|done..]. apply elem_of_cons. by left.
  - intros y ? ? ?. apply Hf, elem_of_cons. by right.
Qed.

Lemma fold_py_each {A B} (f : B → A → py B) l b b' x :
  fold_py f l b = Ok b' → x ∈ l → ∃ b1 b2, f b1 x = Ok b2.
Proof.
  revert b. induction l as [|y l IH]; simpl; intros b H Hx; [by apply elem_of_nil in Hx|].
  apply bind_Ok in H as (b1 & Hy & H). apply elem_of_cons in Hx as [->|Hx]; eauto.
Qed.

Lemma any_py_false {A} (f : A → py bool) l x : any_py f l = Ok false → x ∈ l → f x = Ok false.
Proof.
  induction l as [|y l IH]; simpl; intros H Hx; [by apply elem_of_nil in Hx|].
  apply bind_Ok in H as ([] & Hy & H); [done|]. apply elem_of_cons in Hx as [->|Hx]; eauto.
Qed.

Lemma any_py_true {A} (f : A → py bool) l : any_py f l = Ok true → ∃ x, x ∈ l ∧ f x = Ok true.
Proof.
  induction l as [|y l IH]; simpl; intros H; [done|].
  apply bind_Ok in H as ([] & Hy & H); [exists y; split; [apply elem_of_cons; by left|done]|].
  destruct (IH H) as (x & ? & ?). exists x. split; [apply elem_of_cons; by right|done].
Qed.

Lemma mapM_py_each {A B} (f : A → py B) l ys x : mapM_py f l = Ok ys → x ∈ l → ∃ y, f x = Ok y.
Proof.
  intros H Hx. apply mapM_py_elem in H as [_ H]. specialize (H x Hx). destruct (f x); eauto. done.
Qed.

Lemma differs_text v s : differs v (JStr s) = false → v = JStr s.
Proof. unfold differs. destruct v; simpl; try done. by destruct (String.eqb_spec s0 s) as [->|]. Qed.

Lemma item_get key d v w : item key d = Ok v → get key d = w → v = w.
Proof. unfold item, get. destruct (assoc_get key d); simpl; congruence. Qed.

Lemma get_item key d v : item key d = Ok v → get key d = v.
Proof. unfold item, get. destruct (assoc_get key d); simpl; congruence. Qed.

Section facts.
Context (hexdigest : string → string) (decode_wide : string → py string) (netloc_valid : string → bool) (str_of : json → string).
#[local] Abbreviation decode := (decode decode_wide).
#[local] Abbreviation blob := (blob hexdigest decode_wide).

(** The octets a descriptor stands for in an archive: those of the blob of its digest, or
    its own data when there is no such blob; the size and the digest are theirs. *)
Definition holds (c : Candidate) (descriptor : json) (body : string) : Prop :=
  ∃ d, descriptor = JObj d ∧ get "digest" d = JStr (digest_of hexdigest body)
    ∧ match assoc_get (blob_name (hexdigest body)) c with
      | Some m => m_stream m = Some (Ok body) ∧ is_int (m_size m) (get "size" d) = true
      | None => is_int (blen body) (get "size" d) = true
                ∧ ∃ encoded, get "data" d = JStr encoded ∧ b64decode encoded = Ok body
      end.

(** The document a descriptor stands for. *)
Definition document (c : Candidate) (descriptor : json) (d : object) : Prop :=
  ∃ body, holds c descriptor body ∧ decode body = Ok d.

Lemma blob_holds c descriptor metadata d :
  blob c descriptor metadata = Ok d →
  ∃ body, holds c descriptor body ∧ if metadata then decode body = Ok d else d = [].
Proof.
  unfold ReleaseOci.blob. intros H. apply bind_Ok in H as (o & ->%mapping_inv & H).
  apply bind_Ok in H as (digest & Hd%text_inv & H). destruct (DIGEST digest) eqn:HD; [|done]. cbn [negb] in H.
  assert (∀ body, digest_of hexdigest body = digest → drop_str 7 digest = hexdigest body) as Hdrop.
  { intros body <-. reflexivity. }
  destruct (assoc_get (blob_name (drop_str 7 digest)) c) as [m|] eqn:Em.
  - destruct (is_int (m_size m) _) eqn:Hsz; [|done]. cbn [negb] in H.
    apply bind_Ok in H as (body & Hb & H).
    destruct (String.eqb_spec (digest_of hexdigest body) digest) as [E|]; [|done]. cbn [negb] in H.
    unfold stream_of in Hb. destruct (m_stream m) as [st|] eqn:Es; [subst st|done].
    exists body. split.
    + exists o. rewrite E. split_and!; [done|done|]. by rewrite <-(Hdrop body E), Em.
    + destruct metadata; [|by injection H as <-]. unfold read in H. rewrite Em in H.
      destruct (_ <? _); [done|]. apply bind_Ok in H as (body' & Hb & H).
      unfold stream_of in Hb. rewrite Es in Hb. by injection Hb as ->.
  - apply bind_Ok in H as (body & Hb & H). unfold inline_body in Hb.
    destruct (get "data" o) as [| | | |encoded| |] eqn:Edata; try done.
    destruct (_ && _); [|done]. apply bind_Ok in Hb as (body' & Hdec & Hb).
    destruct (is_int (blen body') _) eqn:Hsz; [|done].
    destruct (String.eqb_spec (digest_of hexdigest body') digest) as [E|]; [|done].
    injection Hb as ->. exists body. split.
    + exists o. rewrite E. split_and!; [done|done|]. rewrite <-(Hdrop body E), Em. split; [done|].
      by exists encoded.
    + destruct metadata; [done|by injection H as <-].
Qed.

Lemma blob_document c descriptor d : blob c descriptor true = Ok d → document c descriptor d.
Proof. intros (body & ? & ?)%blob_holds. by exists body. Qed.

(** An attestation of the index: its manifest names the digest of the runtime. *)
Definition bound_to (c : Candidate) (digest : json) (entry attestation : object) : Prop :=
  document c (JObj entry) attestation
  ∧ ∃ annotations subject, get_or "annotations" (JObj []) entry = JObj annotations
      ∧ get_or "subject" (JObj []) attestation = JObj subject
      ∧ let bindings := [get "vnd.docker.reference.digest" annotations; get "digest" subject] in
        digest ∈ bindings ∧ ∀ b, b ∈ bindings → b = JNull ∨ b = digest.

(** One of its statements: of a type in [types], about the runtime only. *)
Definition states (c : Candidate) (digest : json) (attestation : object) (types : list string)
    (predicate : object) : Prop :=
  ∃ layers layer statement type subjects, get "layers" attestation = JList layers
    ∧ JObj layer ∈ layers ∧ document c (JObj layer) statement
    ∧ get "predicateType" statement = JStr type ∧ type ∈ types
    ∧ get "predicate" statement = JObj predicate ∧ get "subject" statement = JList subjects
    ∧ ∀ raw, raw ∈ subjects → ∃ subject digests, raw = JObj subject
        ∧ get "digest" subject = JObj digests ∧ get "sha256" digests = hex_part digest.

Definition attested (c : Candidate) (digest : json) (entries : list object) (types : list string)
    (predicate : object) : Prop :=
  ∃ entry attestation, entry ∈ entries ∧ bound_to c digest entry attestation
    ∧ states c digest attestation types predicate.

(** What is found so far was attested. *)
Definition sound (c : Candidate) (digest : json) (entries : list object) (found : attestations) : Prop :=
  (∀ p, sbom found = Some p → attested c digest entries ["https://spdx.dev/Document"] p)
  ∧ ∀ p, provenance found = Some p → attested c digest entries provenance_types p.

Lemma in_texts_true v l : in_texts v l = Ok true → ∃ s, v = JStr s ∧ s ∈ l.
Proof. destruct v; try done. simpl. intros [= H%bool_decide_eq_true]. by exists s. Qed.

Lemma read_statement_sound c digest entries entry attestation layers found raw found' :
  entry ∈ entries → bound_to c (JStr digest) entry attestation →
  get "layers" attestation = JList layers → raw ∈ layers →
  read_statement hexdigest decode_wide c (JStr digest) found raw = Ok found' →
  sound c (JStr digest) entries found → sound c (JStr digest) entries found'.
Proof.
  intros Hentry Hbound Hl Hraw H [Hs Hp]. unfold read_statement in H.
  apply bind_Ok in H as (layer & ->%mapping_inv & H).
  apply bind_Ok in H as (statement & Hst%blob_document & H). cbv zeta in H.
  destruct (is_text _ _); [|done]. simpl in H.
  apply bind_Ok in H as ([] & _ & H); [|done]. simpl in H.
  apply bind_Ok in H as (ann & _ & H). destruct (differs _ _); [done|].
  apply bind_Ok in H as (subjects & Hsub%sequence_inv & H).
  apply bind_Ok in H as ([] & Hany & H); [done|].
  assert (∀ type types p, get "predicateType" statement = JStr type → type ∈ types →
    mapping (get "predicate" statement) = Ok p → attested c (JStr digest) entries types p) as Hatt.
  { intros type types p Ht Hin Hp'%mapping_inv. exists entry, attestation. split_and!; [done..|].
    exists layers, layer, statement, type, subjects. split_and!; try done.
    intros r Hr. pose proof (any_py_false _ _ r Hany Hr) as E.
    apply bind_Ok in E as (o & ->%mapping_inv & E). apply bind_Ok in E as (g & Hg%mapping_inv & E).
    injection E as E%differs_text. by exists o, g. }
  destruct (is_text "https://spdx.dev/Document" _) eqn:Ht.
  - apply is_text_inv in Ht. unfold add_sbom in H. destruct (sbom found); [done|].
    apply bind_Ok in H as (p & Hpred & [= <-]). split; simpl; [|done]. intros ? [= <-].
    eapply Hatt; [done| |done]. by apply list_elem_of_singleton.
  - apply bind_Ok in H as ([] & Hk & H); [|done]. apply in_texts_true in Hk as (type & Hty & Hin).
    unfold add_provenance in H. destruct (provenance found); [done|].
    apply bind_Ok in H as (p & Hpred & [= <-]). split; simpl; [done|]. intros ? [= <-].
    by eapply Hatt.
Qed.

Lemma bindings_bound (x y : json) digest :
  let l := List.filter not_null [x; y] in
  length l ≠ 0%nat → existsb (λ b, differs b (JStr digest)) l = false →
  JStr digest ∈ [x; y] ∧ ∀ b, b ∈ [x; y] → b = JNull ∨ b = JStr digest.
Proof.
  intros l Hne Hall.
  assert (∀ b, b ∈ [x; y] → b = JNull ∨ b = JStr digest) as H.
  { intros b Hb. destruct (not_null b) eqn:Hn; [right|left; by destruct b].
    apply differs_text. destruct (differs b (JStr digest)) eqn:E; [|done].
    rewrite <-Hall. symmetry. apply existsb_exists. exists b. split; [|done].
    apply filter_In. split; [by apply list_elem_of_In|done]. }
  split; [|done]. destruct l as [|z l'] eqn:El; [done|].
  assert (In z l) as [Hz Hn]%filter_In by (rewrite El; by left). apply list_elem_of_In in Hz.
  destruct (H z Hz) as [->| <-]; done.
Qed.

Lemma read_attestation_bound c digest runtime found entry found' :
  get "digest" runtime = JStr digest → py_eq (JObj entry) (JObj runtime) = false →
  read_attestation hexdigest decode_wide c runtime found entry = Ok found' →
  ∃ attestation layers, bound_to c (JStr digest) entry attestation
    ∧ get "layers" attestation = JList layers
    ∧ fold_py (read_statement hexdigest decode_wide c (JStr digest)) layers found = Ok found'.
Proof.
  intros Hd Hne H. unfold read_attestation in H. rewrite Hne in H.
  apply bind_Ok in H as (attestation & Hat%blob_document & H).
  apply bind_Ok in H as (annotations & Han%mapping_inv & H).
  apply bind_Ok in H as (subject & Hsu%mapping_inv & H).
  apply bind_Ok in H as (d & Hit & H). pose proof (item_get _ _ _ _ Hit Hd) as ->. cbv zeta in H.
  match type of H with (if (?a || ?b || ?e) then _ else _) = _ =>
    destruct a eqn:Ha; [done|]; destruct b eqn:Hb; [done|]; destruct e; [done|] end.
  cbn [orb] in H. apply bool_decide_eq_false in Ha.
  apply bind_Ok in H as (_ & _ & H). apply bind_Ok in H as (layers & Hl%sequence_inv & H).
  exists attestation, layers. split_and!; try done. split; [done|].
  exists annotations, subject. split_and!; try done. by apply bindings_bound.
Qed.

Lemma read_attestations_sound c digest runtime entries found' :
  get "digest" runtime = JStr digest →
  fold_py (read_attestation hexdigest decode_wide c runtime) entries (mkAttestations None None) = Ok found' →
  sound c (JStr digest) entries found'.
Proof.
  intros Hd H. apply (fold_py_inv _ (sound c (JStr digest) entries) _ _ _ H); [by split|].
  intros entry b b' Hin Hb Hs. destruct (py_eq (JObj entry) (JObj runtime)) eqn:E.
  { unfold read_attestation in Hb. rewrite E in Hb. by injection Hb as <-. }
  apply (read_attestation_bound c digest) in Hb as (attestation & layers & Hbound & Hl & Hf); [|done..].
  apply (fold_py_inv _ (sound c (JStr digest) entries) _ _ _ Hf Hs).
  intros. by eapply read_statement_sound.
Qed.

(** The runtime of the selected source: its configuration says which commit, repository
    and version it was built from, for linux/amd64. *)
Record runs_source (c : Candidate) (runtime manifest config : object) (sha repository version : string)
  : Prop := {
  rs_manifest : document c (JObj runtime) manifest;
  rs_config : document c (get "config" manifest) config;
  rs_os : get "os" config = JStr "linux";
  rs_architecture : get "architecture" config = JStr "amd64";
  rs_labels : ∃ inner labels, get "config" config = JObj inner ∧ get "Labels" inner = JObj labels
    ∧ get "org.opencontainers.image.revision" labels = JStr sha
    ∧ get "org.opencontainers.image.source" labels = JStr repository
    ∧ get "org.opencontainers.image.version" labels = JStr version;
  rs_layers : ∃ layers, get "layers" manifest = JList layers ∧ ∀ layer, layer ∈ layers → ∃ body, holds c layer body
}.

Lemma check_runtime_ok c source version runtime manifest sha repository :
  get "sha" source = JStr sha → get "repository" source = JStr repository →
  check_runtime hexdigest decode_wide c source version runtime = Ok manifest →
  ∃ config, runs_source c runtime manifest config sha repository version.
Proof.
  intros Hsha Hrep H. unfold check_runtime in H.
  apply bind_Ok in H as (m & Hm%blob_document & H). apply bind_Ok in H as (config & Hc%blob_document & H).
  apply bind_Ok in H as (inner & Hi%mapping_inv & H). apply bind_Ok in H as (labels & Hl%mapping_inv & H).
  destruct (is_text "linux" _) eqn:Hos; [|done]. destruct (is_text "amd64" _) eqn:Ha; [|done]. simpl in H.
  apply bind_Ok in H as (s & Hs & H). pose proof (item_get _ _ _ _ Hs Hsha) as ->.
  destruct (differs _ _) eqn:Hd1 in H; [done|]. apply bind_Ok in H as (r & Hr & H).
  pose proof (item_get _ _ _ _ Hr Hrep) as ->.
  destruct (differs _ _) eqn:Hd2 in H; [done|]. destruct (is_text version _) eqn:Hv; [|done]. simpl in H.
  apply bind_Ok in H as (layers & Hla%sequence_inv & H). apply bind_Ok in H as (ds & Hds & [= <-]).
  exists config. split; try done; try by apply is_text_inv.
  - exists inner, labels. split_and!; try done; [by apply differs_text..|by apply is_text_inv].
  - exists layers. split; [done|]. intros layer Hin.
    destruct (mapM_py_each _ _ _ _ Hds Hin) as [d (body & ? & _)%blob_holds]. by exists body.
Qed.

(** An SPDX document lists a package at a version. *)
Definition lists_package (sbom : object) (name version : string) : Prop :=
  ∃ l package raw, get "packages" sbom = JList l ∧ JObj package ∈ l ∧ get "name" package = JStr raw
    ∧ get "versionInfo" package = JStr version ∧ normalize raw = name.

Lemma spdx_inventory_elem l inventory name version :
  spdx_inventory l = Ok inventory → (name, version) ∈ inventory →
  ∃ package raw, JObj package ∈ l ∧ get "name" package = JStr raw
    ∧ get "versionInfo" package = JStr version ∧ normalize raw = name.
Proof.
  revert inventory. induction l as [|raw l IH]; simpl; intros inventory H Hin.
  { injection H as <-. by apply elem_of_nil in Hin. }
  apply bind_Ok in H as (p & ->%mapping_inv & H).
  assert (∀ inv, spdx_inventory l = Ok inv → (name, version) ∈ inv →
    ∃ package raw, JObj package ∈ JObj p :: l ∧ get "name" package = JStr raw
      ∧ get "versionInfo" package = JStr version ∧ normalize raw = name) as Hrest.
  { intros inv Hinv Hi. destruct (IH inv Hinv Hi) as (package & r & Hp & ?). exists package, r.
    split; [apply elem_of_cons; by right|done]. }
  destruct (truthy _); [|by eapply Hrest]. apply bind_Ok in H as (n & Hn%text_inv & H).
  apply bind_Ok in H as (v & Hv%text_inv & H). apply bind_Ok in H as (rest & Hr & [= <-]).
  apply elem_of_cons in Hin as [[= -> ->]|Hin]; [|by eapply Hrest].
  exists p, n. split; [apply elem_of_cons; by left|done].
Qed.

Lemma check_sbom_ok sbom packages name version :
  check_sbom sbom packages = Ok tt → packages !! name = Some version → lists_package sbom name version.
Proof.
  intros H Hp. unfold check_sbom in H. apply bind_Ok in H as (l & Hl%sequence_inv & H).
  apply bind_Ok in H as (inv & Hinv & H). apply bind_Ok in H as (v & _ & H).
  destruct (starts_with _ _); [|done]. destruct (covers inv packages) eqn:Hc; [|done].
  unfold covers in Hc. apply bool_decide_eq_true in Hc. pose proof (Hc name version Hp) as Hin.
  destruct (spdx_inventory_elem _ _ _ _ Hinv Hin) as (package & raw & ?). by exists l, package, raw.
Qed.

(** The provenance names the source: among what was built from, or as its checkout. *)
Definition identifies (provenance : object) (sha repository : string) : Prop :=
  (∃ l material uri digests, materials provenance = Ok (JList l) ∧ JObj material ∈ l
     ∧ get "uri" material = JStr uri ∧ source_uri netloc_valid uri = Ok repository
     ∧ get "digest" material = JObj digests ∧ JStr sha ∈ digests.*2)
  ∨ ∃ v, vcs provenance = Ok (JObj v) ∧ get "revision" v = JStr sha
      ∧ source_uri netloc_valid (str str_of (get_or "source" (JStr EmptyString) v)) = Ok repository.

Lemma text_eq s v : py_eq (JStr s) v = true → v = JStr s.
Proof. destruct v; try done. simpl. by destruct (String.eqb_spec s s0) as [->|]. Qed.

Lemma check_provenance_ok provenance source sha repository :
  get "sha" source = JStr sha → get "repository" source = JStr repository →
  check_provenance netloc_valid str_of provenance source = Ok tt → identifies provenance sha repository.
Proof.
  intros Hsha Hrep H. unfold check_provenance in H.
  apply bind_Ok in H as (ms & Hms & H). apply bind_Ok in H as (v & Hv & H).
  apply bind_Ok in H as (l & ->%sequence_inv & H). apply bind_Ok in H as (bm & Hbm & H).
  apply bind_Ok in H as (bv & Hbv & H). destruct bm.
  - left. apply any_py_true in Hbm as (raw & Hin & E). unfold material_binds in E.
    apply bind_Ok in E as (m & ->%mapping_inv & E). apply bind_Ok in E as (uri & Hu%text_inv & E).
    apply bind_Ok in E as (loc & Hloc & E). apply bind_Ok in E as (r & Hr & E).
    pose proof (item_get _ _ _ _ Hr Hrep) as ->. destruct (py_eq _ _) eqn:Eq; [|done].
    apply text_eq in Eq as [= ->]. cbn [negb] in E. apply bind_Ok in E as (s & Hs & E).
    pose proof (item_get _ _ _ _ Hs Hsha) as ->. apply bind_Ok in E as (ds & Hds%mapping_inv & [= E]).
    exists l, m, uri, ds. split_and!; try done.
    apply existsb_exists in E as (x & Hx & ->%text_eq). by apply list_elem_of_In.
  - destruct bv; [|done]. right. unfold vcs_binds in Hbv.
    apply bind_Ok in Hbv as (o & ->%mapping_inv & E). apply bind_Ok in E as (s & Hs & E).
    pose proof (item_get _ _ _ _ Hs Hsha) as ->. destruct (differs _ _) eqn:Hd; [done|].
    apply differs_text in Hd. apply bind_Ok in E as (loc & Hloc & E). apply bind_Ok in E as (r & Hr & [= E]).
    pose proof (item_get _ _ _ _ Hr Hrep) as ->. apply String.eqb_eq in E as ->. by exists o.
Qed.

(** Only the index, the layout and blobs are members, under the names the code checked. *)
Lemma new_Candidate_names archive c name :
  new_Candidate archive = Ok c → name ∈ c.*1 → is_member_name name = true.
Proof.
  unfold new_Candidate. intros H. apply bind_Ok in H as (l & _ & H). revert name.
  apply (fold_py_inv _ (λ c, ∀ name, name ∈ c.*1 → is_member_name name = true) _ _ _ H).
  { by intros name ?%elem_of_nil. }
  intros m b b' _ Hm Hb name Hn. unfold admit_member in Hm. cbv zeta in Hm.
  destruct (_ && _) in Hm; [injection Hm as <-; by apply Hb|].
  destruct (isfile m); [|done]. destruct (is_member_name (removeprefix "./" (m_name m))) eqn:E; [|done].
  destruct (bool_decide _) in Hm; [done|]. injection Hm as <-.
  rewrite fmap_app in Hn. apply elem_of_app in Hn as [?| ->%list_elem_of_singleton]; [by apply Hb|done].
Qed.

Lemma select_root_expected roots digest descriptor :
  select_root roots (Some digest) = Ok descriptor → get "digest" descriptor = JStr digest.
Proof.
  unfold select_root. destruct (DIGEST digest); [|done]. intros H.
  apply bind_Ok in H as (all & _ & H).
  destruct (List.filter _ all) as [|d ds] eqn:E; [done|]. destruct (existsb _ _) in H; [done|].
  injection H as <-.
  assert (In d (d :: ds)) as Hd by (by left). rewrite <-E in Hd. apply filter_In in Hd as [_ Hd].
  apply differs_text. unfold differs. by rewrite Hd.
Qed.

(** What an accepted candidate is. *)
Record candidate_of (c : Candidate) (sha repository version : string) (packages : gmap string string)
    (i : info) : Prop := {
  co_names : ∀ name, name ∈ c.*1 → is_member_name name = true;
  co_index : ∃ descriptor index entries runtime manifest config image digest,
    get "digest" descriptor = info_digest i
    ∧ document c (JObj descriptor) index ∧ get "manifests" index = JList (JObj <$> entries)
    ∧ List.filter is_runtime entries = [runtime]
    ∧ get "digest" runtime = JStr digest ∧ info_runtimeDigest i = JStr digest
    ∧ runs_source c runtime manifest config sha repository version
    ∧ get "config" manifest = JObj image ∧ get "digest" image = info_imageId i
    ∧ (∀ entry, entry ∈ entries → py_eq (JObj entry) (JObj runtime) = false →
         ∃ attestation, bound_to c (JStr digest) entry attestation)
    ∧ attested c (JStr digest) entries ["https://spdx.dev/Document"] (info_sbom i)
    ∧ attested c (JStr digest) entries provenance_types (info_provenance i);
  co_packages : ∀ name v, packages !! name = Some v → lists_package (info_sbom i) name v;
  co_source : identifies (info_provenance i) sha repository
}.

Lemma inspect_candidate_ok c source version packages expected i sha repository :
  get "sha" source = JStr sha → get "repository" source = JStr repository →
  (∀ name, name ∈ c.*1 → is_member_name name = true) →
  inspect_candidate hexdigest decode_wide netloc_valid str_of c source version packages expected = Ok i →
  candidate_of c sha repository version packages i
  ∧ ∀ digest, expected = Some digest → info_digest i = JStr digest.
Proof.
  intros Hsha Hrep Hnames H. unfold inspect_candidate in H.
  apply bind_Ok in H as (layout & _ & H). destruct (negb _); [done|].
  apply bind_Ok in H as (root & _ & H). apply bind_Ok in H as (roots & _ & H).
  destruct (negb _); [done|]. apply bind_Ok in H as (descriptor & Hroot & H).
  apply bind_Ok in H as (index & Hindex%blob_document & H).
  apply bind_Ok in H as (raws & Hraws%sequence_inv & H).
  apply bind_Ok in H as (entries & ->%mapping_all & H).
  destruct (List.filter is_runtime entries) as [|runtime [|]] eqn:Hrt; try done.
  apply bind_Ok in H as (manifest & Hman & H).
  assert (∃ digest, get "digest" runtime = JStr digest) as [digest Hdigest].
  { unfold check_runtime in Hman. apply bind_Ok in Hman as (m & (? & (o & [= ->] & ? & _) & _)%blob_holds & _).
    by eexists. }
  apply (check_runtime_ok c source version runtime manifest sha repository Hsha Hrep) in Hman as [config Hrun].
  apply bind_Ok in H as (found & Hfound & H).
  pose proof (read_attestations_sound c digest runtime entries found Hdigest Hfound) as [Hsb Hpr].
  destruct (sbom found) as [sb|]; [|done]. destruct (provenance found) as [pr|]; [|done].
  apply bind_Ok in H as ([] & Hcs & H). apply bind_Ok in H as ([] & Hcp & H).
  apply bind_Ok in H as (d & Hd%get_item & H). apply bind_Ok in H as (rd & Hrd & H).
  pose proof (item_get _ _ _ _ Hrd Hdigest) as ->. apply bind_Ok in H as (k & Hk%get_item & H).
  apply bind_Ok in H as (image & ->%mapping_inv & H). apply bind_Ok in H as (im & Him%get_item & [= <-]).
  split; [|intros digest' ->; simpl; by apply select_root_expected in Hroot as <-].
  split; simpl; [done| |intros; by eapply check_sbom_ok|by eapply check_provenance_ok].
  exists descriptor, index, entries, runtime, manifest, config, image, digest.
  split_and!; try done; [|by apply Hsb|by apply Hpr].
  intros entry Hin Hne. destruct (fold_py_each _ _ _ _ _ Hfound Hin) as (b1 & b2 & E).
  apply (read_attestation_bound c digest) in E as (a & _ & ? & _); [by exists a|done..].
Qed.
End facts.

(** [C18] An accepted candidate is exactly what its digests say: whatever the archive
    holds, [inspect] accepts only an index — of the expected digest, when one is expected —
    with a single linux/amd64 runtime whose manifest, configuration and layers are octets
    with the digests and sizes of their descriptors and are labelled with the selected
    commit, repository and version; every other entry is an attestation bound to that
    runtime, among them an SPDX inventory that lists each required package at its version
    and a provenance that names the selected source.  The members are only those of an
    OCI layout. *)
Theorem inspect_accepts_bound_candidate hexdigest decode_wide netloc_valid str_of archive source version
    packages expected i sha repository :
  get "sha" source = JStr sha → get "repository" source = JStr repository →
  inspect hexdigest decode_wide netloc_valid str_of archive source version packages expected = Ok i →
  ∃ c, new_Candidate archive = Ok c
    ∧ candidate_of hexdigest decode_wide netloc_valid str_of c sha repository version packages i
    ∧ ∀ digest, expected = Some digest → info_digest i = JStr digest.
Proof.
  intros Hsha Hrep H. unfold inspect in H. apply bind_Ok in H as (c & Hc & H). exists c.
  split; [done|]. apply (inspect_candidate_ok _ _ _ _ c source version packages expected); try done.
  intros name. by eapply new_Candidate_names.
Qed.

(** ** A candidate, with a checksum for the digest *)
Definition demo_hash (s : string) : string :=
  hex 64 (foldl (λ h c, h + octet c) 0 (String.list_ascii_of_string s)).
Definition demo_descriptor (body extra : string) : string :=
  q "{'digest':'" +:+ digest_of demo_hash body +:+ q "','size':" +:+ pretty (blen body) +:+ extra +:+ "}".
Definition demo_member (body : string) : TarInfo :=
  mkTarInfo (blob_name (demo_hash body)) REGULAR (blen body) (Some (Ok body)).

Definition demo_config : string :=
  q "{'os':'linux','architecture':'amd64','config':{'Labels':{'org.opencontainers.image.revision':'"
  +:+ demo_sha
  +:+ q "','org.opencontainers.image.source':'https://github.com/o/r','org.opencontainers.image.version':'1.0.0'}}}".
Definition demo_manifest : string :=
  q "{'config':" +:+ demo_descriptor demo_config "" +:+ q ",'layers':[" +:+ demo_descriptor "layer" "" +:+ "]}".
Definition demo_statement (type predicate : string) : string :=
  q "{'_type':'https://in-toto.io/Statement/v1','predicateType':'" +:+ type
  +:+ q "','subject':[{'digest':{'sha256':'" +:+ demo_hash demo_manifest
  +:+ q "'}}],'predicate':" +:+ predicate +:+ "}".
Definition demo_layer (type statement : string) : string :=
  demo_descriptor statement
    (q ",'mediaType':'application/vnd.in-toto+json','annotations':{'in-toto.io/predicate-type':'"
     +:+ type +:+ q "'}").
Definition spdx : string := "https://spdx.dev/Document".
Definition slsa : string := "https://slsa.dev/provenance/v1".
Definition demo_sbom : string :=
  demo_statement spdx (q "{'spdxVersion':'SPDX-2.3','packages':[{'name':'Fast_API','versionInfo':'0.1'}]}").
Definition demo_provenance (commit : string) : string :=
  demo_statement slsa
    (q "{'materials':[{'uri':'git+HTTPS://github.com/o/r.git#main','digest':{'sha1':'" +:+ commit +:+ q "'}}]}").
(** The attestation's configuration is inline. *)
Definition demo_attestation (commit : string) : string :=
  q "{'config':" +:+ demo_descriptor "{}" (q ",'data':'e30='") +:+ q ",'layers':["
  +:+ demo_layer spdx demo_sbom +:+ "," +:+ demo_layer slsa (demo_provenance commit) +:+ "]}".
Definition demo_index (commit : string) : string :=
  q "{'manifests':[" +:+ demo_descriptor demo_manifest (q ",'platform':{'os':'linux','architecture':'amd64'}")
  +:+ "," +:+ demo_descriptor (demo_attestation commit)
    (q ",'annotations':{'vnd.docker.reference.digest':'" +:+ digest_of demo_hash demo_manifest
     +:+ q "','vnd.docker.reference.type':'attestation-manifest'}") +:+ "]}".
Definition demo_file (name body : string) : TarInfo := mkTarInfo name REGULAR (blen body) (Some (Ok body)).
Definition demo_archive (commit layer : string) : py (list TarInfo) :=
  Ok ([mkTarInfo "blobs/sha256/" DIRECTORY 0 None;
       demo_file "./oci-layout" (q "{'imageLayoutVersion':'1.0.0'}");
       demo_file "index.json" (q "{'schemaVersion':2,'manifests':[" +:+ demo_descriptor (demo_index commit) "" +:+ "]}");
       demo_file (blob_name (demo_hash "layer")) layer]
      ++ (demo_member <$> [demo_config; demo_manifest; demo_sbom; demo_provenance commit;
                           demo_attestation commit; demo_index commit])).
Definition demo_source : object := [("sha", JStr demo_sha); ("repository", JStr "https://github.com/o/r")].
Definition demo_inspect (archive : py (list TarInfo)) : py info :=
  inspect demo_hash (λ _, Err UnicodeDecodeError) (λ _, false) (λ _, EmptyString) archive demo_source "1.0.0"
    {["fast-api" := "0.1"]} None.

Lemma inspect_accepts_bound_candidate_witness :
  match demo_inspect (demo_archive demo_sha "layer") with
  | Ok i => info_runtimeDigest i = JStr (digest_of demo_hash demo_manifest)
  | Err _ => False
  end
  ∧ (∃ i c, demo_inspect (demo_archive demo_sha "layer") = Ok i
       ∧ candidate_of demo_hash (λ _, Err UnicodeDecodeError) (λ _, false) (λ _, EmptyString) c
           demo_sha "https://github.com/o/r" "1.0.0" {["fast-api" := "0.1"]} i)
  ∧ is_ok (demo_inspect (demo_archive "abd" "layer")) = false
  ∧ is_ok (demo_inspect (demo_archive demo_sha "Layer")) = false.
Proof.
  split; [vm_compute; reflexivity|]. split; [|split; vm_compute; reflexivity].
  assert (is_ok (demo_inspect (demo_archive demo_sha "layer")) = true) as H by (vm_compute; reflexivity).
  destruct (demo_inspect (demo_archive demo_sha "layer")) as [i|] eqn:E; [|discriminate H].
  pose proof E as E'. unfold demo_inspect in E'.
  destruct (inspect_accepts_bound_candidate _ _ _ _ _ demo_source _ _ _ _ demo_sha "https://github.com/o/r"
              eq_refl eq_refl E') as (c & _ & Hc & _).
  exists i, c. split; [reflexivity|exact Hc].
Defined.

Example source_uri_example :
  source_uri (λ _, false) "git+https://github.com/o/r.git?x#y" = Ok "https://github.com/o/r"
  ∧ source_uri (λ _, false) " HTTPS://Host/p" = Ok "https://Host/p"
  ∧ source_uri (λ _, false) "https://github.com" = Ok "https://github.com"
  ∧ source_uri (λ _, false) "path" = Ok "path"
  ∧ b64decode "e30=" = Ok "{}" ∧ b64decode "YWJj" = Ok "abc" ∧ b64decode "YQ==" = Ok "a"
  ∧ existsb (λ s, is_ok (b64decode s)) ["YWJj="; "YQ="; "YQ==YQ=="; "=YQ="; "Y Q="; "YQ"] = false.
Proof. repeat split; vm_compute; reflexivity. Qed.
