(* ===== verification/JsonDump.v ===== *)
(** * Writing JSON documents

    [json.dumps(value, indent=2)] as [write_json] uses it ([scripts/security_scan.py]): ASCII
    text, one member per line, two blanks per level.  The shortest decimal of a double
    ([float.__repr__]) is an argument.  Integers are those the decoder accepts, so the
    limit on their digits is never met; the limit on recursion is left out. *)
From Stdlib Require Import Floats.SpecFloat.
From S2P Require Import Prelude PyText Values Sha256 Float64 JsonText UnicodeText Json.
Open Scope Z_scope.

(** The code point of the text of one. *)
Definition code_point (c : string) : Z :=
  match octet <$> String.list_ascii_of_string c with
  | [a] => a
  | [a; b] => (a - 192) * 64 + (b - 128)
  | [a; b; c] => (a - 224) * 4096 + (b - 128) * 64 + (c - 128)
  | [a; b; c; d] => (a - 240) * 262144 + (b - 128) * 4096 + (c - 128) * 64 + (d - 128)
  | _ => 0
  end.

Definition unicode_escape_of (z : Z) : string :=
  String backslash_char (String "u"%char (hex 4 z)).

(** [py_encode_basestring_ascii] of one code point. *)
Definition escape_code_point (c : string) : string :=
  let z := code_point c in
  if (z =? 34) || (z =? 92) then String backslash_char c
  else if z =? 10 then String backslash_char "n"
  else if z =? 13 then String backslash_char "r"
  else if z =? 9 then String backslash_char "t"
  else if z =? 12 then String backslash_char "f"
  else if z =? 8 then String backslash_char "b"
  else if (32 <=? z) && (z <=? 126) then c
  else if z <? 65536 then unicode_escape_of z
  else unicode_escape_of (55296 + Z.land (Z.shiftr (z - 65536) 10) 1023)
       +:+ unicode_escape_of (56320 + Z.land (z - 65536) 1023).

Definition quoted (s : string) : string :=
  String quote_char (concat_text (escape_code_point <$> uchars s)) +:+ String quote_char EmptyString.

Section dumps.
Context (float_repr : float → string).

Definition float_text (f : float) : string :=
  match f with
  | S754_nan => "NaN"
  | S754_infinity neg => if neg : bool then "-Infinity" else "Infinity"
  | _ => float_repr f
  end.

Definition newline (level : nat) : string := String (of_octet 10) (String.concat "" (repeat "  " level)).

Fixpoint dump (level : nat) (v : json) : string :=
  match v with
  | JNull => "null"
  | JBool b => if b then "true" else "false"
  | JInt z => pretty z
  | JFloat f => float_text f
  | JStr s => quoted s
  | JList [] => "[]"
  | JList l =>
      "[" +:+ newline (S level)
      +:+ join ("," +:+ newline (S level)) ((λ x, dump (S level) x) <$> l)
      +:+ newline level +:+ "]"
  | JObj [] => "{}"
  | JObj l =>
      "{" +:+ newline (S level)
      +:+ join ("," +:+ newline (S level)) ((λ p, quoted p.1 +:+ ": " +:+ dump (S level) p.2) <$> l)
      +:+ newline level +:+ "}"
  end.

Definition json_dumps (v : json) : string := dump 0 v.
End dumps.

Example json_dumps_example :
  json_dumps (λ _, "0.5") (JObj [("a", JList [JInt (-1); JObj []; JFloat S754_nan]);
                                 (octets [195; 169; 34], JStr (octets [240; 159; 152; 128; 10; 127]))])
  = q "{" +:+ newline 1 +:+ q "'a': [" +:+ newline 2 +:+ "-1," +:+ newline 2 +:+ "{}," +:+ newline 2 +:+ "NaN"
    +:+ newline 1 +:+ "]," +:+ newline 1 +:+ q "'\u00e9\" +:+ q "'': '\ud83d\ude00\n\u007f'" +:+ newline 0 +:+ "}".
Proof. vm_compute. reflexivity. Qed.
