(* ===== verification/ReleaseCandidate.v ===== *)
(** * Qualification of a release candidate

    [scripts/release_candidate.py] with [run], [write_json] and [sha256] of
    [scripts/security_scan.py]: the evidence directory is a map from names to octets, the
    candidate archive and the checkout are octets, and every external tool is an argument
    that may change any of it ([tool]).  [verify] re-derives everything it can from the
    archive and the checkout and compares the rest with recorded digests. *)
From Stdlib Require Import Floats.SpecFloat.
From S2P Require Import Prelude PyText Values Float64 UnicodeText Json JsonDump SecurityPolicy ReleaseSource ReleaseOci.
Open Scope Z_scope.

(** ** The world of a release script *)

(** A file of an exported layout, or a link and what reading it gives. *)
Inductive node := File (octets : string) | Link (target : py string).

Record world := mkWorld {
  evidence : gmap string string;               (* the evidence directory *)
  archive : py string;                         (* the candidate archive *)
  checkout : string → py string;               (* the files under ROOT *)
  temporary : list (string * string);          (* the temporary directory, when there is one *)
  exported : list (string * node);             (* the layout a registry exported, sorted *)
  commands : list (list string * string);      (* commands that succeeded, with their output *)
  github_output : string;                      (* the outputs of the workflow step *)
  clock : nat → Z;                             (* the readings of the clock, µs since 1970 *)
  ticks : nat
}.

Definition M (A : Type) : Type := world → py A * world.
#[export] Instance M_ret : MRet M := λ A a w, (Ok a, w).
#[export] Instance M_bind : MBind M := λ A B f p w,
  match p w with
  | (Ok a, w') => f a w'
  | (Err e, w') => (Err e, w')
  end.
Definition lift {A} (r : py A) : M A := λ w, (r, w).
Definition look {A} (f : world → A) : M A := λ w, (Ok (f w), w).
Definition modify (f : world → world) : M unit := λ w, (Ok tt, f w).
Definition refuse {A} (msg : string) : M A := lift (invalid msg).
Definition guard_not (b : bool) (msg : string) : M unit := if b then refuse msg else mret tt.

(** [try: p finally: q] *)
Definition finally {A} (p : M A) (q : M unit) : M A := λ w,
  let '(r, w1) := p w in
  match q w1 with
  | (Ok _, w2) => (r, w2)
  | (Err e, w2) => (Err e, w2)
  end.

Definition set_evidence (f : gmap string string → gmap string string) (w : world) : world :=
  mkWorld (f (evidence w)) (archive w) (checkout w) (temporary w) (exported w) (commands w) (github_output w) (clock w) (ticks w).
Definition set_temporary (l : list (string * string)) (w : world) : world :=
  mkWorld (evidence w) (archive w) (checkout w) l (exported w) (commands w) (github_output w) (clock w) (ticks w).
Definition clear_temporary (w : world) : world :=
  mkWorld (evidence w) (archive w) (checkout w) [] [] (commands w) (github_output w) (clock w) (ticks w).
Definition set_commands (l : list (list string * string)) (w : world) : world :=
  mkWorld (evidence w) (archive w) (checkout w) (temporary w) (exported w) l (github_output w) (clock w) (ticks w).
Definition set_github_output (s : string) (w : world) : world :=
  mkWorld (evidence w) (archive w) (checkout w) (temporary w) (exported w) (commands w) s (clock w) (ticks w).
Definition now : M Z := λ w,
  (Ok (clock w (ticks w)),
   mkWorld (evidence w) (archive w) (checkout w) (temporary w) (exported w) (commands w) (github_output w) (clock w) (S (ticks w))).

(** What surrounds a script: [os.environ], and the names it is given. *)
Record settings := mkSettings {
  RELEASE_SHA : option string;
  RELEASE_SOURCE : option string;
  BUILD_DIGEST : option string;
  TRIVY_SCANNER_IMAGE : option string;
  REGCTL_IMAGE : option string;
  RELEASE_IMAGE : option string;
  GITHUB_OUTPUT : option string;
  executable : string;                         (* sys.executable *)
  archive_path : string;                       (* the archive, its directory and its name *)
  archive_parent : string;
  archive_name : string;
  cache_path : string;
  temporary_path : string;
  registry_name : string;                      (* the name of the disposable registry *)
  user : string;                               (* os.getuid():os.getgid() *)
  config_path : string;
  docker_config : option string                (* the login configuration, when it is a file *)
}.

Definition policy_path : string := "security/container-vulnerability-exceptions.json".
Definition bound_files : list string :=
  ["source.json"; "smoke.json"; "smoke.log"; "vulnerabilities.json"; "gate.json"; "sbom.spdx.json";
   "provenance.json"].

Section candidate.
Context (hexdigest : string → string) (other_digit : string → option Z)
  (decode_wide : string → py string) (netloc_valid : string → bool) (str_of : json → string)
  (float_repr : float → string).
(** The members of a tar file; [datetime.fromisoformat], with its offset from UTC when it has
    one; [datetime.isoformat]. *)
Context (tar_members : string → py (list TarInfo))
  (fromisoformat : json → py (Z * option Z)) (isoformat : Z → string).
(** [str] of an exception. *)
Context (error_text : exn → string).
(** [subprocess.run] of a command: its status and outputs, or what it raises. *)
Context (tool : list string → world → py (Z * string) * world).
Context (x : settings).

Definition run (arguments : list string) : M string := λ w,
  let '(r, w') := tool arguments w in
  let w' := set_commands (commands w) w' in
  match r with
  | Ok (returncode, stdout) =>
      if returncode =? 0 then (Ok stdout, set_commands (commands w ++ [(arguments, stdout)]) w')
      else (Err (RuntimeError ("Release tool exited " +:+ pretty returncode +:+ "; see commands.log.")), w')
  | Err e => (Err e, w')
  end.

(** *** Files *)
Definition file (name : string) (w : world) : py string :=
  match evidence w !! name with Some s => Ok s | None => Err OSError end.
Definition exists_file (name : string) (w : world) : bool := bool_decide (is_Some (evidence w !! name)).
Definition read_evidence (name : string) (w : world) : py json := read_json (file name w).
Definition write_text (name text : string) : M unit := modify (set_evidence (<[name := text]>)).
Definition write_json (name : string) (value : json) : M unit :=
  write_text name (json_dumps float_repr value +:+ nl).
Definition sha256 (octets : py string) : py string := hexdigest <$> octets.
Definition members_of (octets : py string) : py (list TarInfo) := s ← octets; tar_members s.

Definition environ (v : option string) : json := match v with Some s => JStr s | None => JNull end.

(** [context]: the selected source, the version and the requirements. *)
Definition context (w : world) : py (object * string * gmap string string) :=
  v ← read_evidence "source.json" w; source ← mapping v;
  if negb (SHA (str str_of (get_or "sha" (JStr EmptyString) source)))
     || differs (get "sha" source) (environ (RELEASE_SHA x))
     || differs (get "repository" source) (environ (RELEASE_SOURCE x))
  then invalid "Release evidence must match the independently selected source."
  else
    version ← release_version other_digit (checkout w "VERSION") (checkout w ".env.example");
    packages ← requirements (checkout w "requirements.txt");
    Ok (source, version, packages).

Definition inspect_archive (w : world) (source : object) (version : string)
    (packages : gmap string string) : py info :=
  inspect hexdigest decode_wide netloc_valid str_of (members_of (archive w)) source version packages None.

(** *** Verification *)
Fixpoint check_bound_files (w : world) (files : object) : py unit :=
  match files with
  | [] => Ok tt
  | (name, digest) :: files' =>
      actual ← sha256 (file name w);
      if differs (JStr actual) digest then invalid "Bound release evidence changed."
      else check_bound_files w files'
  end.

Definition same_names (names : list string) (d : object) : bool :=
  forallb (λ k, bool_decide (k ∈ names)) d.*1 && forallb (λ k, bool_decide (k ∈ d.*1)) names.

(** The record agrees with the archive, the checkout and the candidate. *)
Definition check_record (w : world) (record source : object) (version : string) (i : info) : py unit :=
  if differs (get "source" record) (JObj source) || differs (get "version" record) (JStr version)
  then invalid "Candidate source, archive, version or policy changed."
  else
    archive_hash ← sha256 (archive w);
    if differs (get "archiveSha256" record) (JStr archive_hash)
    then invalid "Candidate source, archive, version or policy changed."
    else
      policy_hash ← sha256 (checkout w policy_path);
      if differs (get "policySha256" record) (JStr policy_hash)
      then invalid "Candidate source, archive, version or policy changed."
      else if differs (get "digest" record) (info_digest i)
              || differs (get "runtimeDigest" record) (info_runtimeDigest i)
              || differs (get "imageId" record) (info_imageId i)
      then invalid "Candidate identity differs from retained evidence."
      else if differs (info_digest i) (environ (BUILD_DIGEST x))
              || negb (DIGEST (str str_of (get_or "scannerId" (JStr EmptyString) record)))
      then invalid "Missing build/scanner identity."
      else Ok tt.

Definition minute_us : Z := 60 * 1000000.
(** The scan is at most a day old, and not from the future beyond five minutes. *)
Definition check_scan_time (record : object) (now : Z) : py unit :=
  v ← item "scannedAt" record;
  '(local, offset) ← fromisoformat v;
  match offset with
  | None => invalid "Release scan evidence is stale or has an invalid clock."
  | Some offset =>
      let age := now - (local - offset) in
      if negb ((- (5 * minute_us) <=? age) && (age <=? day_us))
      then invalid "Release scan evidence is stale or has an invalid clock."
      else Ok tt
  end.

Definition smoke_fields : list string :=
  ["source"; "version"; "digest"; "runtimeDigest"; "imageId"; "archiveSha256"].
Definition check_smoke (w : world) (record : object) : py unit :=
  v ← read_evidence "smoke.json" w; smoke ← mapping v;
  if negb (is_true (get "passed" smoke)) then invalid "Missing or mismatched successful smoke evidence."
  else
    wrong ← any_py (λ field, r ← item field record; Ok (differs (get field smoke) r)) smoke_fields;
    if wrong : bool then invalid "Missing or mismatched successful smoke evidence." else Ok tt.

Definition check_attestations (w : world) (i : info) : py unit :=
  sbom ← read_evidence "sbom.spdx.json" w;
  if differs sbom (JObj (info_sbom i)) then invalid "Retained attestations differ from the candidate."
  else
    provenance ← read_evidence "provenance.json" w;
    if differs provenance (JObj (info_provenance i))
    then invalid "Retained attestations differ from the candidate."
    else Ok tt.

(** The text an image identifier is, as the decision compares it. *)
Definition image_text (v : json) : option string := match v with JStr s => Some s | _ => None end.

Definition evaluate_evidence (w : world) (packages : gmap string string) (i : info) (now : Z) : py decision :=
  report ← read_evidence "vulnerabilities.json" w;
  policy ← read_json (checkout w policy_path);
  evaluate other_digit report policy (mkExpectations packages packages (image_text (info_imageId i))) now.

Definition check_decision (w : world) (d : decision) : py unit :=
  if negb (allowed d) then invalid "Critical findings or invalid policy block publication."
  else
    v ← read_evidence "gate.json" w; gate ← mapping v;
    if negb (is_true (get "allowed" gate)) then invalid "Critical findings or invalid policy block publication."
    else Ok tt.

(** What [verify] decides from the world, before it reads the clock. *)
Definition verify_static (w : world) : py (object * info * gmap string string) :=
  if exists_file "failure.json" w then invalid "A failed release attempt cannot publish."
  else
    '(source, version, packages) ← context w;
    i ← inspect_archive w source version packages;
    v ← read_evidence "candidate.json" w; record ← mapping v;
    files ← mapping (get "files" record);
    if negb (same_names bound_files files) then invalid "Incomplete bound release evidence."
    else
      _ ← check_bound_files w files;
      _ ← check_record w record source version i;
      Ok (record, i, packages).

Definition verify : M object :=
  '(record, i, packages) ← (w ← look id; lift (verify_static w));
  t ← now; _ ← lift (check_scan_time record t);
  w ← look id;
  _ ← lift (check_smoke w record);
  _ ← lift (check_attestations w i);
  t ← now;
  d ← lift (evaluate_evidence w packages i t);
  _ ← lift (check_decision w d);
  mret record.

(** *** Qualification *)
Definition key_fields (k : scope_key) : object :=
  [("vulnerabilityId", JStr (vulnerabilityId k)); ("packageName", JStr (packageName k));
   ("installedVersion", JStr (installedVersion k));
   ("packagePath", match packagePath k with Some p => JStr p | None => JNull end);
   ("target", JStr (target k)); ("type", JStr (kind k))].
Definition finding_json (f : finding) : json :=
  JObj (key_fields (f_key f)
        ++ [("severity", JStr (severity f)); ("developmentOnly", JBool (developmentOnly f));
            ("exception", JBool (excepted f)); ("fixedVersion", fixedVersion f)]).
Definition decision_json (d : decision) (now : Z) : json :=
  JObj [("allowed", JBool (allowed d)); ("blocked", JList (finding_json <$> blocked d));
        ("findings", JList (finding_json <$> findings d)); ("evaluatedAt", JStr (isoformat now))].

Definition summary_text (d : decision) : string :=
  "# Release security gate: " +:+ (if allowed d then "PASS" else "BLOCKED") +:+ nl +:+ nl
  +:+ "Critical blockers: " +:+ pretty (length (blocked d)) +:+ "; findings: "
  +:+ pretty (length (findings d)) +:+ "." +:+ nl.

Definition inspect_id (reference : string) : list string :=
  ["docker"; "image"; "inspect"; "--format"; "{{.Id}}"; reference].

Definition scan_command (scanner : string) : list string :=
  ["docker"; "run"; "--rm"; "--volume"; temporary_path x +:+ ":/image:ro"; "--volume";
   cache_path x +:+ ":/root/.cache/trivy"; scanner; "image"; "--input"; "/image"; "--scanners"; "vuln";
   "--list-all-pkgs"; "--ignorefile"; "/dev/null"; "--format"; "json"; "--exit-code"; "0"; "--timeout"; "5m"].

(** [with TemporaryDirectory(...)]: what it holds is gone afterwards. *)
Definition with_temporary {A} (p : M A) : M A :=
  finally (modify clear_temporary;; p) (modify clear_temporary).

(** The scanner's identity, version and time, once the report passed the policy's format. *)
Definition scan_archive (i : info) (packages : gmap string string) : M object :=
  let reference := default "aquasec/trivy:latest" (TRIVY_SCANNER_IMAGE x) in
  _ ← run ["docker"; "pull"; reference];
  scanner ← run (inspect_id reference);
  let scanner := ustrip scanner in
  guard_not (negb (DIGEST scanner)) "Invalid immutable scanner identity.";;
  with_temporary
    (c ← (w ← look archive; lift (new_Candidate (members_of w)));
     files ← lift (extract c);
     modify (set_temporary files);;
     report ← run (scan_command scanner);
     write_text "vulnerabilities.json" report);;
  t ← now;
  w ← look id;
  d ← lift (evaluate_evidence w packages i t);
  write_json "gate.json" (decision_json d t);;
  write_text "summary.md" (summary_text d);;
  version ← run ["docker"; "run"; "--rm"; scanner; "--version"];
  t ← now;
  mret [("scannerId", JStr scanner); ("scannerVersion", JStr version); ("scannedAt", JStr (isoformat t))].

Definition smoke_command (loaded : string) : list string :=
  [executable x; "-m"; "scripts.test_image"; "--image"; loaded].

Fixpoint hash_files (w : world) (names : list string) : py object :=
  match names with
  | [] => Ok []
  | name :: names' =>
      h ← sha256 (file name w); rest ← hash_files w names'; Ok ((name, JStr h) :: rest)
  end.

(** What is inspected and recorded before any tool runs. *)
Definition start_qualification (w : world)
  : py (info * gmap string string * string * object) :=
  if existsb (λ name, exists_file name w) ["candidate.json"; "smoke.json"; "gate.json"; "failure.json"]
  then invalid "Release qualification requires fresh evidence."
  else
    '(source, version, packages) ← context w;
    i ← inspect_archive w source version packages;
    archive_hash ← sha256 (archive w);
    if differs (info_digest i) (environ (BUILD_DIGEST x))
    then invalid "Build output and candidate index digest differ."
    else
      Ok (i, packages, archive_hash,
          [("source", JObj source); ("version", JStr version); ("digest", info_digest i);
           ("runtimeDigest", info_runtimeDigest i); ("imageId", info_imageId i);
           ("archiveSha256", JStr archive_hash)]).

Definition qualify : M unit :=
  w ← look id;
  '(i, packages, archive_hash, identity) ← lift (start_qualification w);
  write_json "smoke.json" (JObj (identity ++ [("passed", JBool false)]));;
  _ ← run ["docker"; "load"; "--input"; archive_path x];
  loaded ← run (inspect_id (str str_of (info_digest i)));
  let loaded := ustrip loaded in
  guard_not (negb (existsb (py_eq (JStr loaded)) [info_digest i; info_imageId i]))
    "Loaded image differs from OCI candidate.";;
  output ← run (smoke_command loaded);
  write_text "smoke.log" output;;
  write_json "smoke.json" (JObj (identity ++ [("passed", JBool true)]));;
  scanner ← scan_archive i packages;
  w ← look id;
  again ← lift (sha256 (archive w));
  guard_not (negb (String.eqb again archive_hash)) "Candidate archive changed during qualification.";;
  write_json "sbom.spdx.json" (JObj (info_sbom i));;
  write_json "provenance.json" (JObj (info_provenance i));;
  w ← look id;
  hashes ← lift (hash_files w bound_files);
  policy_hash ← lift (sha256 (checkout w policy_path));
  write_json "candidate.json"
    (JObj (identity ++ scanner ++ [("files", JObj hashes); ("policySha256", JStr policy_hash)]));;
  _ ← verify; mret tt.

(** ** The command line *)
Definition failure_json (stage : string) (e : exn) : json :=
  JObj [("stage", JStr stage); ("error", JStr (error_text e))].

(** [try: ...; return 0 except Exception]: a failure is recorded and the status is 1; what
    is not an [Exception] — an interruption — leaves the script without a record. *)
Definition guarded {A} (stage : string) (p : M A) : M Z := λ w,
  match p w with
  | (Ok _, w') => (Ok 0, w')
  | (Err e, w') =>
      if is_Exception e then (Ok 1, (write_json "failure.json" (failure_json stage e) w').2)
      else (Err e, w')
  end.

Inductive mode := QUALIFY | VERIFY.
Definition main (m : mode) : M Z :=
  match m with
  | QUALIFY => guarded "qualify" qualify
  | VERIFY => guarded "verify" verify
  end.
End candidate.

(** ** Lemmas *)
Lemma M_Ok {A B} (p : M A) (f : A → M B) w b w' :
  mbind f p w = (Ok b, w') ↔ ∃ a w1, p w = (Ok a, w1) ∧ f a w1 = (Ok b, w').
Proof.
  unfold mbind, M_bind. destruct (p w) as [[a|e] w1]; split; [naive_solver..| |]; [done|].
  intros (? & ? & ? & ?). simplify_eq.
Qed.

Lemma lift_Ok {A} (r : py A) w a w' : lift r w = (Ok a, w') ↔ r = Ok a ∧ w' = w.
Proof. unfold lift. naive_solver. Qed.

Lemma get_present key d s : get key d = JStr s → get_or key (JStr EmptyString) d = JStr s.
Proof. unfold get, get_or. by destruct (assoc_get key d). Qed.

Lemma differs_environ v o s : differs v (environ o) = false → o = Some s → v = JStr s.
Proof. intros H ->. by apply differs_text. Qed.

Section facts.
Context (hexdigest : string → string) (other_digit : string → option Z)
  (decode_wide : string → py string) (netloc_valid : string → bool) (str_of : json → string)
  (float_repr : float → string) (tar_members : string → py (list TarInfo))
  (fromisoformat : json → py (Z * option Z)) (isoformat : Z → string) (error_text : exn → string)
  (tool : list string → world → py (Z * string) * world) (x : settings).
#[local] Abbreviation context := (context other_digit str_of x).
#[local] Abbreviation verify :=
  (verify hexdigest other_digit decode_wide netloc_valid str_of tar_members fromisoformat x).

Lemma context_ok w source version packages sha repository :
  RELEASE_SHA x = Some sha → RELEASE_SOURCE x = Some repository →
  context w = Ok (source, version, packages) →
  SHA sha = true ∧ get "sha" source = JStr sha ∧ get "repository" source = JStr repository
  ∧ read_evidence "source.json" w = Ok (JObj source)
  ∧ release_version other_digit (checkout w "VERSION") (checkout w ".env.example") = Ok version
  ∧ requirements (checkout w "requirements.txt") = Ok packages.
Proof.
  intros Hsha Hrep H. unfold ReleaseCandidate.context in H.
  apply bind_Ok in H as (v & Hv & H). apply bind_Ok in H as (o & ->%mapping_inv & H).
  destruct (SHA _) eqn:HS; [|done]. cbn [negb orb] in H.
  destruct (differs (get "sha" o) _) eqn:H1; [done|].
  destruct (differs (get "repository" o) _) eqn:H2; [done|]. cbn [orb] in H.
  apply bind_Ok in H as (ve & Hve & H). apply bind_Ok in H as (pk & Hpk & [= -> -> ->]).
  pose proof (differs_environ _ _ _ H1 Hsha) as E1. pose proof (differs_environ _ _ _ H2 Hrep) as E2.
  rewrite (get_present _ _ _ E1) in HS. done.
Qed.

Lemma check_bound_files_ok w files name :
  check_bound_files hexdigest w files = Ok tt → name ∈ files.*1 →
  ∃ octets, evidence w !! name = Some octets ∧ get name files = JStr (hexdigest octets).
Proof.
  induction files as [|[n d] files IH]; simpl; intros H Hn; [by apply elem_of_nil in Hn|].
  apply bind_Ok in H as (actual & Ha & H). destruct (differs _ _) eqn:Hd; [done|].
  unfold file in Ha. destruct (evidence w !! n) as [octets|] eqn:En; [|done]. injection Ha as <-.
  destruct (decide (name = n)) as [->|Hne].
  - exists octets. split; [done|]. unfold get. simpl. rewrite decide_True by done. simpl.
    unfold differs in Hd. apply text_eq. by destruct (py_eq _ _).
  - apply elem_of_cons in Hn as [?|Hn]; [done|]. destruct (IH H Hn) as (o & ? & E). exists o. split; [done|].
    unfold get in E |- *. simpl. by rewrite decide_False by done.
Qed.

(** A recorded value is that of the candidate. *)
Lemma same_value v w : differs v w = false → py_eq v w = true.
Proof. unfold differs. by destruct (py_eq v w). Qed.

(** The record agrees with what was derived again. *)
Record bound_record (w : world) (record source : object) (version : string) (i : info) : Prop := {
  br_source : py_eq (get "source" record) (JObj source) = true;
  br_version : get "version" record = JStr version;
  br_archive : ∃ octets, archive w = Ok octets ∧ get "archiveSha256" record = JStr (hexdigest octets);
  br_policy : ∃ octets, checkout w policy_path = Ok octets
    ∧ get "policySha256" record = JStr (hexdigest octets);
  br_digest : py_eq (get "digest" record) (info_digest i) = true;
  br_runtime : py_eq (get "runtimeDigest" record) (info_runtimeDigest i) = true;
  br_image : py_eq (get "imageId" record) (info_imageId i) = true;
  br_build : py_eq (info_digest i) (environ (BUILD_DIGEST x)) = true
}.

Lemma sha256_ok octets h : sha256 hexdigest octets = Ok h → ∃ o, octets = Ok o ∧ h = hexdigest o.
Proof. destruct octets as [o|]; [|done]. intros [= <-]. by exists o. Qed.

Lemma check_record_ok w record source version i :
  check_record hexdigest str_of x w record source version i = Ok tt →
  bound_record w record source version i.
Proof.
  unfold check_record. intros H.
  destruct (differs (get "source" record) _) eqn:H1; [done|].
  destruct (differs (get "version" record) _) eqn:H2; [done|]. cbn [orb] in H.
  apply bind_Ok in H as (ah & (ao & Hao & ->)%sha256_ok & H). destruct (differs _ _) eqn:H3 in H; [done|].
  apply bind_Ok in H as (ph & (po & Hpo & ->)%sha256_ok & H). destruct (differs _ _) eqn:H4 in H; [done|].
  destruct (differs (get "digest" record) _) eqn:H5; [done|].
  destruct (differs (get "runtimeDigest" record) _) eqn:H6; [done|].
  destruct (differs (get "imageId" record) _) eqn:H7; [done|]. cbn [orb] in H.
  destruct (differs (info_digest i) _) eqn:H8; [done|].
  split; try (by apply same_value); try (by apply differs_text).
  - exists ao. split; [done|]. by apply differs_text.
  - exists po. split; [done|]. by apply differs_text.
Qed.

Lemma check_scan_time_ok record t :
  check_scan_time fromisoformat record t = Ok tt →
  ∃ v local offset, get "scannedAt" record = v ∧ fromisoformat v = Ok (local, Some offset)
    ∧ - (5 * minute_us) ≤ t - (local - offset) ≤ day_us.
Proof.
  unfold check_scan_time. intros H. apply bind_Ok in H as (v & Hv%get_item & H).
  apply bind_Ok in H as ([local [offset|]] & Hf & H); [|done].
  destruct (_ && _) eqn:Hb; [|done]. exists v, local, offset. split_and!; try done; reflect_bools; lia.
Qed.

Lemma check_smoke_ok w record :
  check_smoke w record = Ok tt →
  ∃ smoke, read_evidence "smoke.json" w = Ok (JObj smoke) ∧ get "passed" smoke = JBool true
    ∧ ∀ field, field ∈ smoke_fields → py_eq (get field smoke) (get field record) = true.
Proof.
  unfold check_smoke. intros H. apply bind_Ok in H as (v & Hv & H).
  apply bind_Ok in H as (smoke & ->%mapping_inv & H). destruct (is_true _) eqn:Ht; [|done]. cbn [negb] in H.
  apply bind_Ok in H as ([] & Hany & H); [done|]. exists smoke. split_and!; [done| |].
  { destruct (get "passed" smoke) as [|b| | | | |]; try done. by destruct b. }
  intros field Hf. pose proof (any_py_false _ _ _ Hany Hf) as E.
  apply bind_Ok in E as (r & <-%get_item & [= E]). by apply same_value.
Qed.

(** What [verify] relies on before it reads the clock. *)
Lemma verify_static_ok w record i packages :
  verify_static hexdigest other_digit decode_wide netloc_valid str_of tar_members x w
    = Ok (record, i, packages) →
  evidence w !! "failure.json" = None
  ∧ ∃ source version files, context w = Ok (source, version, packages)
      ∧ inspect_archive hexdigest decode_wide netloc_valid str_of tar_members w source version packages = Ok i
      ∧ read_evidence "candidate.json" w = Ok (JObj record) ∧ get "files" record = JObj files
      ∧ (∀ name, name ∈ files.*1 ↔ name ∈ bound_files)
      ∧ (∀ name, name ∈ bound_files → ∃ octets, evidence w !! name = Some octets
           ∧ get name files = JStr (hexdigest octets))
      ∧ bound_record w record source version i.
Proof.
  unfold verify_static. intros H. destruct (exists_file _ w) eqn:Hf; [done|].
  apply bind_Ok in H as ([[source version] pk] & Hctx & H). apply bind_Ok in H as (i' & Hi & H).
  apply bind_Ok in H as (v & Hrec & H). apply bind_Ok in H as (rec & ->%mapping_inv & H).
  apply bind_Ok in H as (files & Hfiles%mapping_inv & H). destruct (same_names _ _) eqn:Hn; [|done].
  cbn [negb] in H. apply bind_Ok in H as ([] & Hb & H).
  apply bind_Ok in H as ([] & Hr%check_record_ok & [= -> -> ->]).
  split.
  { apply bool_decide_eq_false in Hf. by apply eq_None_not_Some. }
  assert (∀ name, name ∈ files.*1 ↔ name ∈ bound_files) as Hnames.
  { apply andb_true_iff in Hn as [H1 H2]. rewrite forallb_forall in H1. rewrite forallb_forall in H2.
    intros name. split; intros Hin%list_elem_of_In; eapply bool_decide_eq_true; [by apply H1|by apply H2]. }
  exists source, version, files. split_and!; try done.
  intros name Hin. eapply check_bound_files_ok; [done|by apply Hnames].
Qed.

#[local] Abbreviation candidate_of := (candidate_of hexdigest decode_wide netloc_valid str_of).

Lemma candidate_image c sha repository version packages i :
  candidate_of c sha repository version packages i → ∃ id, info_imageId i = JStr ("sha256:" +:+ id).
Proof.
  intros [_ (? & ? & ? & ? & manifest & config & image & ? & _ & _ & _ & _ & _ & _ & Hrun & Himg & Hid & _) _ _].
  destruct (rs_config _ _ _ _ _ _ _ _ _ Hrun) as (body & (d & Hd & Hdg & _) & _).
  exists (hexdigest body). rewrite <-Hid. rewrite Himg in Hd. injection Hd as ->. exact Hdg.
Qed.

(** A world whose candidate is qualified, with a scan judged at [t]: the archive is an
    accepted candidate of the selected source, the record and the retained files are
    bound to it, the image passed its smoke test, and the retained report — of exactly its
    image — contains no critical vulnerability that the policy does not tolerate. *)
Record qualified (sha repository : string) (w : world) (record : object) (scanned t : Z) : Prop := {
  qu_failed : evidence w !! "failure.json" = None;
  qu_candidate : ∃ source version packages i c files report policy,
    get "sha" source = JStr sha ∧ get "repository" source = JStr repository
    ∧ release_version other_digit (checkout w "VERSION") (checkout w ".env.example") = Ok version
    ∧ requirements (checkout w "requirements.txt") = Ok packages
    ∧ new_Candidate (members_of tar_members (archive w)) = Ok c
    ∧ candidate_of c sha repository version packages i
    ∧ bound_record w record source version i
    ∧ get "files" record = JObj files
    ∧ (∀ name, name ∈ bound_files → ∃ octets, evidence w !! name = Some octets
         ∧ get name files = JStr (hexdigest octets))
    ∧ read_evidence "vulnerabilities.json" w = Ok report ∧ read_json (checkout w policy_path) = Ok policy
    ∧ (let image := mkExpectations packages packages (image_text (info_imageId i)) in
       (∃ o m, report = JObj o ∧ get "Metadata" o = JObj m ∧ get "ImageID" m = info_imageId i)
       ∧ ∀ result v, reported report result v → get "Severity" v = JStr "CRITICAL" →
           tolerated other_digit image policy t result v);
  qu_smoke : ∃ smoke, read_evidence "smoke.json" w = Ok (JObj smoke) ∧ get "passed" smoke = JBool true
    ∧ ∀ field, field ∈ smoke_fields → py_eq (get field smoke) (get field record) = true;
  qu_scan : ∃ local offset, fromisoformat (get "scannedAt" record) = Ok (local, Some offset)
    ∧ - (5 * minute_us) ≤ scanned - (local - offset) ≤ day_us
}.

(** [verify] changes nothing but the reading of the clock. *)
Definition same_world (w w' : world) : Prop :=
  evidence w' = evidence w ∧ archive w' = archive w ∧ checkout w' = checkout w
  ∧ commands w' = commands w ∧ clock w' = clock w ∧ exported w' = exported w.

Lemma verify_inv w record w' :
  verify w = (Ok record, w') →
  same_world w w' ∧ ∃ i packages d,
    verify_static hexdigest other_digit decode_wide netloc_valid str_of tar_members x w = Ok (record, i, packages)
    ∧ check_scan_time fromisoformat record (clock w (ticks w)) = Ok tt
    ∧ check_smoke w record = Ok tt
    ∧ evaluate_evidence other_digit w packages i (clock w (S (ticks w))) = Ok d ∧ allowed d = true.
Proof.
  unfold ReleaseCandidate.verify. intros H.
  apply M_Ok in H as ([[rec i] packages] & w1 & H1 & H).
  apply M_Ok in H1 as (? & ? & [= <- <-] & [Hst ->]%lift_Ok).
  apply M_Ok in H as (t & w2 & [= <- <-] & H). apply M_Ok in H as ([] & w3 & [Hsc ->]%lift_Ok & H).
  apply M_Ok in H as (? & ? & [= <- <-] & H). apply M_Ok in H as ([] & ? & [Hsm ->]%lift_Ok & H).
  apply M_Ok in H as ([] & ? & [Hat ->]%lift_Ok & H). apply M_Ok in H as (t & w4 & [= <- <-] & H).
  apply M_Ok in H as (d & ? & [Hev ->]%lift_Ok & H). apply M_Ok in H as ([] & ? & [Hd ->]%lift_Ok & H).
  injection H as <- <-. split; [done|]. exists i, packages, d. split_and!; try done.
  unfold check_decision in Hd. by destruct (allowed d).
Qed.

Lemma verify_qualified sha repository w record w' :
  RELEASE_SHA x = Some sha → RELEASE_SOURCE x = Some repository →
  verify w = (Ok record, w') →
  qualified sha repository w record (clock w (ticks w)) (clock w (S (ticks w))).
Proof.
  intros Hsha Hrep (_ & i & packages & d & Hst & Hsc & Hsm & Hev & Hd)%verify_inv.
  apply verify_static_ok in Hst as (Hfail & source & version & files & Hctx & Hi & _ & Hfiles & _ & Hb & Hr).
  apply (context_ok _ _ _ _ sha repository) in Hctx as (_ & Hs & Hrp & _ & Hv & Hpk); [|done..].
  unfold inspect_archive, inspect in Hi. apply bind_Ok in Hi as (c & Hc & Hi).
  apply (inspect_candidate_ok _ _ _ _ c source version packages None i sha repository Hs Hrp) in Hi as [Hof _];
    [|intros name; by eapply new_Candidate_names].
  apply bind_Ok in Hev as (report & Hrepo & Hev). apply bind_Ok in Hev as (policy & Hpol & Hev).
  apply evaluate_decides in Hev as (Hall & _ & Himg).
  destruct (candidate_image _ _ _ _ _ _ Hof) as [id Hid].
  split; [done| |by apply check_smoke_ok|].
  - exists source, version, packages, i, c, files, report, policy. split_and!; try done.
    cbv zeta. split; [|by apply Hall]. rewrite Hid in Himg |- *.
    destruct (Himg eq_refl) as [(o & m & ? & ? & E) _]. by exists o, m.
  - apply check_scan_time_ok in Hsc as (v & local & offset & <- & ? & ?). by exists local, offset.
Qed.
End facts.
