(* ===== verification/ReleasePublish.v ===== *)
(** * Publication of a release

    [scripts/release_publish.py]: the qualified archive is imported into a registry under
    two tags, copied back and inspected again, first against a disposable loopback
    registry ([registry_test]) and then against the real one ([publish]).  A failed step
    leaves [failure.json], which every later step refuses. *)
From Stdlib Require Import Floats.SpecFloat.
From S2P Require Import Prelude PyText Values Float64 JsonText UnicodeText Json JsonDump SecurityPolicy ReleaseSource ReleaseOci ReleaseCandidate.
Open Scope Z_scope.

(** [[a-z0-9][a-z0-9.:-]*/[a-z0-9]+(?:[._/-][a-z0-9]+)*] *)
Definition is_publication (image : string) : bool :=
  let '(registry, path) := before (is_char "/") image in
  is_registry registry && starts_with "/" path && is_image_path false (drop_str 1 path).

(** [127\.0\.0\.1:[0-9]+] *)
Definition is_loopback (host : string) : bool :=
  starts_with "127.0.0.1:" host && negb (String.eqb (drop_str 10 host) "")
  && str_all is_digit (drop_str 10 host).

(** The answer of the disposable registry: a status, a failure that is retried, or one
    that is not. *)
Inductive answer := Status (z : Z) | Unreachable | Raises (e : exn).

Definition is_link (n : node) : bool := match n with Link _ => true | File _ => false end.
Definition octets_of (n : node) : py string := match n with Link t => t | File s => Ok s end.

Section publish.
Context (hexdigest : string → string) (other_digit : string → option Z)
  (decode_wide : string → py string) (netloc_valid : string → bool) (str_of : json → string)
  (float_repr : float → string) (tar_members : string → py (list TarInfo))
  (fromisoformat : json → py (Z * option Z)) (isoformat : Z → string) (error_text : exn → string)
  (tool : list string → world → py (Z * string) * world).
(** [time.time()] of a reading of the clock, and what the registry answers to an attempt. *)
Context (seconds : Z → float) (probe : string → nat → answer).
Context (x : settings).

#[local] Abbreviation verify :=
  (verify hexdigest other_digit decode_wide netloc_valid str_of tar_members fromisoformat x).
#[local] Abbreviation context := (context other_digit str_of x).
#[local] Abbreviation run := (run tool).
#[local] Abbreviation write_json := (write_json float_repr).

Definition json_text (v : json) : py string :=
  match v with JStr s => Ok s | _ => Err (TypeError "expected string or bytes-like object") end.

(** Outside the rehearsal: the image is the source's, and the rehearsal was of this archive. *)
Definition check_rehearsal (w : world) (image : string) (source record : object) : py unit :=
  v ← read_evidence "registry-test.json" w; rehearsal ← mapping v;
  expected ← item "image" source;
  digest ← item "digest" record; archive_hash ← item "archiveSha256" record;
  if differs (JStr image) expected || negb (is_true (get "passed" rehearsal))
     || differs (get "digest" rehearsal) digest || differs (get "archiveSha256" rehearsal) archive_hash
  then invalid "Publication requires matching source and registry rehearsal."
  else Ok tt.

Definition check_login (config : option string) : py unit :=
  match config with
  | None => invalid "Registry login configuration is missing."
  | Some octets =>
      v ← read_json (Ok octets); credentials ← mapping v;
      if truthy (get "credsStore" credentials) || truthy (get "credHelpers" credentials)
      then invalid "Publisher requires self-contained Docker login configuration."
      else Ok tt
  end.

Definition base (config_path : string) : list string :=
  ["docker"; "run"; "--rm"; "--user"; user x; "--env"; "HOME=/publisher"; "--network"; "host";
   "--volume"; config_path +:+ ":/publisher/.docker/config.json:ro"; "--volume";
   archive_parent x +:+ ":/candidate:ro"].

(** The option that allows plain HTTP, to the loopback registry only. *)
Definition host_options (sandbox : bool) (image : string) : py (list string) :=
  if sandbox then
    let host := (before (is_char "/") image).1 in
    if negb (is_loopback host)
    then invalid "Plain HTTP rehearsal is restricted to the disposable loopback registry."
    else Ok ["--host"; "reg=" +:+ host +:+ ",tls=disabled"]
  else Ok [].

Definition tag_digest (client : list string) (tag : string) : list string :=
  client ++ ["image"; "digest"; tag].

Definition check_tag (client : list string) (tag : string) (digest : json) : M unit :=
  out ← run (tag_digest client tag);
  guard_not (differs (JStr (ustrip out)) digest) "Registry tag differs from the qualified candidate digest.".

(** The tar that is written from the exported layout, as the tar reader lists it. *)
Definition returned (w : world) : py (list TarInfo) :=
  if existsb (λ f, is_link f.2) (exported w) then invalid "Registry export contains an unexpected link."
  else Ok (omap (λ f, match f.2 with
                      | File s => Some (mkTarInfo f.1 REGULAR (blen s) (Some (Ok s)))
                      | Link _ => None
                      end) (exported w)).

Definition layout_file (name : string) (w : world) : py string :=
  match assoc_get name (exported w) with Some n => octets_of n | None => Err OSError end.

Definition check_round_trip (w : world) (record source : object) (version : string)
    (packages : gmap string string) : py unit :=
  members ← returned w;
  digest ← item "digest" record; expected ← json_text digest;
  i ← inspect hexdigest decode_wide netloc_valid str_of (Ok members) source version packages (Some expected);
  runtime ← item "runtimeDigest" record; image ← item "imageId" record;
  if differs (info_digest i) digest || differs (info_runtimeDigest i) runtime
     || differs (info_imageId i) image
  then invalid "Registry round-trip changed candidate or attestation identity."
  else Ok tt.

(** Import under the commit's tag, copy to the version's, and compare both. *)
Definition push_tags (client : list string) (image sha_tag version_tag : string) (digest : json) : M unit :=
  _ ← run (client ++ ["image"; "import"; sha_tag; "/candidate/" +:+ archive_name x]);
  check_tag client sha_tag digest;;
  _ ← run (client ++ ["image"; "copy"; image +:+ "@" +:+ str str_of digest; version_tag]);
  check_tag client version_tag digest.

Definition publication (image : string) (record source : object) (digest archive_hash : json)
    (sha_tag version_tag helper_id : string) (at_time : Z) : json :=
  JObj [("image", JStr image); ("digest", digest); ("tags", JList [JStr sha_tag; JStr version_tag]);
        ("archiveSha256", archive_hash); ("source", JObj source); ("publisherImageId", JStr helper_id);
        ("publishedAt", JFloat (seconds at_time)); ("passed", JBool true)].

Definition record_release (image : string) (digest : json) : M unit :=
  let reference := image +:+ "@" +:+ str str_of digest in
  write_text "release-image.env" ("QUICKAPI_IMAGE=" +:+ reference +:+ nl);;
  match GITHUB_OUTPUT x with
  | Some path => if String.eqb path "" then mret tt
                 else w ← look github_output;
                      modify (set_github_output (w +:+ "quickapi-image=" +:+ reference +:+ nl))
  | None => mret tt
  end.

Definition publish (image : string) (sandbox : bool) (config : option string) (config_path : string)
  : M json :=
  record ← verify;
  w ← look id;
  '(source, version, packages) ← lift (context w);
  guard_not (negb (is_publication image)) "Invalid publication repository.";;
  (if sandbox then mret tt else lift (check_rehearsal w image source record));;
  lift (check_login config);;
  let helper := default "ghcr.io/regclient/regctl:latest" (REGCTL_IMAGE x) in
  _ ← run ["docker"; "pull"; helper];
  helper_id ← run (inspect_id helper);
  let helper_id := ustrip helper_id in
  guard_not (negb (DIGEST helper_id)) "Invalid immutable publisher identity.";;
  options ← lift (host_options sandbox image);
  sha ← lift (item "sha" source);
  digest ← lift (item "digest" record);
  let client := base config_path ++ [helper_id] ++ options in
  let sha_tag := image +:+ ":" +:+ str str_of sha in
  let version_tag := image +:+ ":" +:+ version in
  push_tags client image sha_tag version_tag digest;;
  with_temporary
    (_ ← run (base config_path ++ ["--volume"; temporary_path x +:+ ":/roundtrip"; helper_id] ++ options
              ++ ["image"; "copy"; image +:+ "@" +:+ str str_of digest; "ocidir:///roundtrip/layout:verified"]);
     w ← look id;
     index ← lift (read_json (layout_file "index.json" w));
     write_json "roundtrip-index.json" index;;
     lift (check_round_trip w record source version packages));;
  _ ← verify;
  archive_hash ← lift (item "archiveSha256" record);
  t ← now;
  let p := publication image record source digest archive_hash sha_tag version_tag helper_id t in
  write_json (if sandbox then "registry-test.json" else "publication.json") p;;
  (if sandbox then mret tt else record_release image digest);;
  mret p.

(** *** The rehearsal *)

(** At most [attempts] more, from attempt [n] on. *)
Fixpoint wait_ready (address : string) (attempts n : nat) : py unit :=
  match attempts with
  | O => Err (RuntimeError "Disposable registry did not become ready.")
  | S attempts =>
      match probe address n with
      | Status z => if z =? 200 then Ok tt else wait_ready address attempts (S n)
      | Unreachable => wait_ready address attempts (S n)
      | Raises e => Err e
      end
  end.

Definition registry_command (registry_id : string) : list string :=
  ["docker"; "run"; "-d"; "--name"; registry_name x; "--publish"; "127.0.0.1::5000"; "--tmpfs";
   "/var/lib/registry"; registry_id].

Definition registry_test : M unit :=
  _ ← verify;
  _ ← run ["docker"; "pull"; "registry:3"];
  registry_id ← run (inspect_id "registry:3");
  let registry_id := ustrip registry_id in
  guard_not (negb (DIGEST registry_id)) "Invalid registry test image identity.";;
  finally
    (_ ← run (registry_command registry_id);
     address ← run ["docker"; "port"; registry_name x; "5000/tcp"];
     let address := ustrip address in
     guard_not (negb (is_loopback address)) "Disposable registry must publish only to loopback.";;
     lift (wait_ready address 30 0);;
     _ ← publish (address +:+ "/quickapi/rehearsal") true
           (Some (q "{'auths': {}}")) (temporary_path x +:+ "/config.json");
     mret tt)
    (_ ← run ["docker"; "rm"; "--force"; "--volumes"; registry_name x]; mret tt).

(** *** The command line *)
Definition unlink (name : string) : M unit := modify (set_evidence (delete name)).

Definition publish_release : M unit :=
  unlink "release-image.env";;
  unlink "publication.json";;
  image ← lift (match RELEASE_IMAGE x with Some i => Ok i | None => Err (KeyError "RELEASE_IMAGE") end);
  _ ← publish image false (docker_config x) (config_path x); mret tt.

Inductive step := CANDIDATE (m : mode) | REGISTRY_TEST | PUBLISH.

(** A step of the release workflow: its exit status, or what interrupted it, and the world
    after it. *)
Definition release_step (s : step) : M Z :=
  match s with
  | CANDIDATE m => main hexdigest other_digit decode_wide netloc_valid str_of float_repr tar_members
                     fromisoformat isoformat error_text tool x m
  | REGISTRY_TEST => guarded float_repr error_text "registry-test" registry_test
  | PUBLISH => guarded float_repr error_text "publish" publish_release
  end.
End publish.

(** ** Lemmas *)
Lemma finally_Ok {A} (p : M A) q w a w' :
  finally p q w = (Ok a, w') → ∃ w1, p w = (Ok a, w1) ∧ q w1 = (Ok tt, w').
Proof.
  unfold finally. destruct (p w) as [r w1]. destruct (q w1) as [[[]|e] w2] eqn:E; [|done].
  intros [= -> ->]. by exists w1.
Qed.

Lemma guard_not_Ok b msg w w' : guard_not b msg w = (Ok tt, w') → b = false ∧ w' = w.
Proof. unfold guard_not. destruct b; [done|]. by intros [= <-]. Qed.

(** Programs that only ever add to the commands that were run. *)
Definition grows {A} (p : M A) : Prop := ∀ w, commands w `prefix_of` commands (p w).2.

Create HintDb grows discriminated.

Lemma grows_ret {A} (a : A) : grows (mret a).
Proof. by intros w. Qed.
Lemma grows_lift {A} (r : py A) : grows (lift r).
Proof. by intros w. Qed.
Lemma grows_look {A} (f : world → A) : grows (look f).
Proof. by intros w. Qed.
Lemma grows_guard b msg : grows (guard_not b msg).
Proof. unfold guard_not. by destruct b; intros w. Qed.
Lemma grows_now : grows now.
Proof. by intros w. Qed.
Lemma grows_evidence f : grows (modify (set_evidence f)).
Proof. by intros w. Qed.
Lemma grows_clear : grows (modify clear_temporary).
Proof. by intros w. Qed.
Lemma grows_output s : grows (modify (set_github_output s)).
Proof. by intros w. Qed.
Lemma grows_run tool args : grows (run tool args).
Proof.
  intros w. unfold run. destruct (tool args w) as [[[c out]|e] w']; [|done].
  destruct (c =? 0); simpl; [by eexists|done].
Qed.
Lemma grows_bind {A B} (p : M A) (f : A → M B) : grows p → (∀ a, grows (f a)) → grows (mbind f p).
Proof.
  intros Hp Hf w. unfold mbind, M_bind. specialize (Hp w). destruct (p w) as [[a|e] w1]; simpl in *; [|done].
  etrans; [done|]. apply Hf.
Qed.
Lemma grows_finally {A} (p : M A) q : grows p → grows q → grows (finally p q).
Proof.
  intros Hp Hq w. unfold finally. specialize (Hp w). destruct (p w) as [r w1].
  specialize (Hq w1). destruct (q w1) as [[]]; simpl in *; by etrans.
Qed.
#[export] Hint Resolve grows_ret grows_lift grows_look grows_guard grows_now grows_evidence grows_clear
  grows_output grows_run : grows.

(** A program is taken apart along its binds. *)
Ltac grow :=
  repeat first
    [ progress intros
    | progress auto with grows
    | apply grows_bind
    | apply grows_finally
    | match goal with |- grows (let '(_, _) := ?p in _) => destruct p end
    | match goal with |- grows (if ?b then _ else _) => destruct b end
    | match goal with |- grows (match ?o with Some _ => _ | None => _ end) => destruct o end ].

Lemma grows_Ok {A} (p : M A) w a w' c : grows p → p w = (Ok a, w') → c ∈ commands w → c ∈ commands w'.
Proof.
  intros Hp E Hc. specialize (Hp w). rewrite E in Hp. destruct Hp as [l Hl]. simpl in Hl.
  rewrite Hl. apply elem_of_app. by left.
Qed.

Lemma grows_prefix {A} (p : M A) w r w' : p w = (r, w') → grows p → commands w `prefix_of` commands w'.
Proof. intros E Hp. specialize (Hp w). by rewrite E in Hp. Qed.

Lemma run_Ok tool args w out w' :
  run tool args w = (Ok out, w') → (args, out) ∈ commands w'.
Proof.
  unfold run. destruct (tool args w) as [[[c o]|e] w1]; [|done]. destruct (c =? 0); [|done].
  intros [= <- <-]. simpl. apply elem_of_app. right. by apply list_elem_of_singleton.
Qed.

Section facts.
Context (hexdigest : string → string) (other_digit : string → option Z)
  (decode_wide : string → py string) (netloc_valid : string → bool) (str_of : json → string)
  (float_repr : float → string) (tar_members : string → py (list TarInfo))
  (fromisoformat : json → py (Z * option Z)) (isoformat : Z → string) (error_text : exn → string)
  (tool : list string → world → py (Z * string) * world)
  (seconds : Z → float) (probe : string → nat → answer) (x : settings).
#[local] Abbreviation verify :=
  (verify hexdigest other_digit decode_wide netloc_valid str_of tar_members fromisoformat x).
#[local] Abbreviation publish :=
  (publish hexdigest other_digit decode_wide netloc_valid str_of float_repr tar_members fromisoformat tool
     seconds x).
#[local] Abbreviation release_step :=
  (release_step hexdigest other_digit decode_wide netloc_valid str_of float_repr tar_members fromisoformat
     isoformat error_text tool seconds probe x).

(** *** A failed release *)
Definition failed (w : world) : Prop := is_Some (evidence w !! "failure.json").

(** A refusal that [main] records; the world is as it was. *)
Definition refuses {A} (p : M A) (w w' : world) : Prop := ∃ e, is_Exception e = true ∧ p w = (Err e, w').

Lemma verify_failed w : failed w → refuses verify w w.
Proof.
  intros Hf. unfold ReleaseCandidate.verify, verify_static, exists_file, mbind, M_bind, look, lift.
  exists (ValueError "A failed release attempt cannot publish."). split; [done|].
  by rewrite bool_decide_eq_true_2.
Qed.

Lemma bind_failed {A B} (p : M A) (f : A → M B) w w' : refuses p w w' → refuses (mbind f p) w w'.
Proof. intros (e & He & H). exists e. split; [done|]. unfold mbind, M_bind. by rewrite H. Qed.

Lemma publish_failed image sandbox config config_path w :
  failed w → refuses (publish image sandbox config config_path) w w.
Proof. intros Hf%verify_failed. by apply bind_failed. Qed.

(** What a step may do to a failed release: its own marker and stale results only. *)
Definition stays_failed (w w' : world) : Prop :=
  failed w' ∧ commands w' = commands w ∧ archive w' = archive w ∧ checkout w' = checkout w
  ∧ exported w' = exported w ∧ github_output w' = github_output w
  ∧ ∀ name, name ≠ "failure.json" →
      evidence w' !! name = evidence w !! name ∨ evidence w' !! name = None.

Lemma step_fails {A} stage (p : M A) w w' c w'' :
  refuses p w w' → stays_failed w w' →
  guarded float_repr error_text stage p w = (c, w'') → c = Ok 1 ∧ stays_failed w w''.
Proof.
  unfold guarded. intros (e & He & ->). rewrite He. intros (Hf & ? & ? & ? & ? & ? & Hev) [= <- <-]. split; [done|]. split_and!; try done.
  - unfold failed. simpl. rewrite lookup_insert_eq. by eexists.
  - intros name Hn. simpl. rewrite lookup_insert_ne by done. by apply Hev.
Qed.

Lemma stays_failed_refl w : failed w → stays_failed w w.
Proof. intros H. split_and!; try done. intros. by left. Qed.

Lemma stays_failed_trans w1 w2 w3 : stays_failed w1 w2 → stays_failed w2 w3 → stays_failed w1 w3.
Proof.
  intros (_ & ? & ? & ? & ? & ? & Ha) (? & ? & ? & ? & ? & ? & Hb). split_and!; try congruence; try done.
  intros name Hn. destruct (Hb name Hn) as [->|?]; [by apply Ha|by right].
Qed.

Lemma qualify_failed w : failed w →
  refuses (qualify hexdigest other_digit decode_wide netloc_valid str_of float_repr tar_members fromisoformat
    isoformat tool x) w w.
Proof.
  intros Hf. exists (ValueError "Release qualification requires fresh evidence."). split; [done|].
  unfold qualify, start_qualification, mbind at 1, M_bind at 1, look.
  unfold mbind at 1, M_bind at 1, lift.
  assert (existsb (λ name, exists_file name (id w))
            ["candidate.json"; "smoke.json"; "gate.json"; "failure.json"] = true) as ->; [|done].
  apply existsb_exists. exists "failure.json". split; [by do 3 right; left|]. by apply bool_decide_eq_true_2.
Qed.

Lemma failed_delete name w : name ≠ "failure.json" → failed w → failed (set_evidence (delete name) w).
Proof. intros Hn Hf. unfold failed. simpl. by rewrite lookup_delete_ne. Qed.

Lemma stays_failed_delete name w :
  name ≠ "failure.json" → failed w → stays_failed w (set_evidence (delete name) w).
Proof.
  intros Hn Hf. split_and!; try done; [by apply failed_delete|]. intros n _. simpl.
  destruct (decide (name = n)) as [->|]; [right; by rewrite lookup_delete_eq|left; by rewrite lookup_delete_ne].
Qed.

Lemma failed_step s w c w' :
  failed w → release_step s w = (c, w') →
  c = Ok 1 ∧ stays_failed w w' ∧ (s = PUBLISH → evidence w' !! "publication.json" = None).
Proof.
  intros Hf H. destruct s as [[]| |]; simpl in H.
  - apply (step_fails _ _ _ w) in H as [? ?]; [done|by apply qualify_failed|by apply stays_failed_refl].
  - apply (step_fails _ _ _ w) in H as [? ?]; [done|by apply verify_failed|by apply stays_failed_refl].
  - apply (step_fails _ _ _ w) in H as [? ?]; [done|by apply bind_failed, verify_failed|by apply stays_failed_refl].
  - set (w1 := set_evidence (delete "release-image.env") w) in *.
    set (w2 := set_evidence (delete "publication.json") w1) in *.
    assert (failed w1) as Hf1 by (by apply failed_delete).
    assert (failed w2) as Hf2 by (by apply failed_delete).
    assert (refuses (publish_release hexdigest other_digit decode_wide netloc_valid str_of float_repr tar_members
              fromisoformat tool seconds x) w w2) as Hre.
    { unfold refuses, publish_release, mbind, M_bind, unlink, modify, lift. fold w1 w2.
      destruct (RELEASE_IMAGE x) as [image|]; [|by exists (KeyError "RELEASE_IMAGE")].
      destruct (publish_failed image false (docker_config x) (config_path x) w2 Hf2) as (e & He & ->).
      by exists e. }
    assert (stays_failed w w2) as Hs.
    { eapply stays_failed_trans; by apply stays_failed_delete. }
    pose proof Hre as (e & Hx & He). pose proof H as H'. unfold guarded in H'. rewrite He, Hx in H'.
    injection H' as _ <-.
    apply (step_fails _ _ _ w2) in H as [? ?]; [|done|done]. split_and!; try done.
    intros _. simpl. rewrite lookup_insert_ne by done. subst w2. simpl. by rewrite lookup_delete_eq.
Qed.

(** How a step ends: well, with a recorded failure, or interrupted. *)
Definition status_ok (c : py Z) : Prop :=
  match c with Ok z => z = 0 ∨ z = 1 | Err e => is_Exception e = false end.

Lemma step_marks_failure s w c w' :
  release_step s w = (c, w') → status_ok c ∧ (c = Ok 1 → failed w').
Proof.
  assert (∀ A stage (p : M A), guarded float_repr error_text stage p w = (c, w') →
    status_ok c ∧ (c = Ok 1 → failed w')) as H.
  { intros A stage p. unfold guarded. destruct (p w) as [[a|e] w1]; [by intros [= <- <-]; split; [left|]|].
    destruct (is_Exception e) eqn:He; intros [= <- <-]; [|done].
    split; [by right|]. intros _. unfold failed. simpl. rewrite lookup_insert_eq. by eexists. }
  destruct s as [[]| |]; simpl; apply H.
Qed.

(** A history of steps: their statuses, in order, and the world they leave. *)
Fixpoint release (steps : list step) (w : world) : list (py Z) * world :=
  match steps with
  | [] => ([], w)
  | s :: steps' =>
      let '(c, w1) := release_step s w in
      let '(codes, w2) := release steps' w1 in (c :: codes, w2)
  end.

Lemma release_failed steps w codes w' :
  failed w → release steps w = (codes, w') →
  codes = repeat (Ok 1) (length steps) ∧ stays_failed w w'.
Proof.
  revert w codes. induction steps as [|s steps IH]; intros w codes Hf H; simpl in H.
  { injection H as <- <-. split; [done|by apply stays_failed_refl]. }
  destruct (release_step s w) as [c w1] eqn:E. destruct (release steps w1) as [cs w2] eqn:E2.
  injection H as <- <-. apply failed_step in E as (-> & Hs & _); [|done].
  destruct (IH w1 cs (proj1 Hs) E2) as [-> Hs2]. split; [done|]. by eapply stays_failed_trans.
Qed.

Lemma release_marks steps w codes w' :
  release steps w = (codes, w') → Forall status_ok codes ∧ (Ok 1 ∈ codes → failed w').
Proof.
  revert w codes. induction steps as [|s steps IH]; intros w codes H; simpl in H.
  { injection H as <- <-. split; [constructor|]. by intros ?%elem_of_nil. }
  destruct (release_step s w) as [c1 w1] eqn:E. destruct (release steps w1) as [cs w2] eqn:E2.
  injection H as <- <-. apply step_marks_failure in E as [Hs Hf].
  destruct (IH _ _ E2) as [Hall Hin]. split; [by constructor|].
  intros [<-|Hc]%elem_of_cons; [|by apply Hin].
  by apply release_failed in E2 as [_ [? _]]; [|apply Hf].
Qed.

(** *** A publication *)

(** The registry was asked for the digest behind a tag and answered [digest]. *)
Definition tag_confirmed (w : world) (client : list string) (tag : string) (digest : json) : Prop :=
  ∃ out, (tag_digest client tag, out) ∈ commands w ∧ digest = JStr (ustrip out).

Lemma check_tag_ok client tag digest w w' :
  check_tag tool client tag (JStr digest) w = (Ok tt, w') → tag_confirmed w' client tag (JStr digest).
Proof.
  unfold check_tag. intros (out & w1 & H1%run_Ok & [H2 ->]%guard_not_Ok)%M_Ok.
  exists out. split; [done|]. by apply differs_text in H2 as [= ->].
Qed.

Lemma grows_push client image sha_tag version_tag digest :
  grows (push_tags str_of tool x client image sha_tag version_tag digest).
Proof. unfold push_tags, check_tag. grow. Qed.

Lemma tag_confirmed_grows {A} (p : M A) w a w' client tag digest :
  grows p → p w = (Ok a, w') → tag_confirmed w client tag digest → tag_confirmed w' client tag digest.
Proof. intros Hp E (out & Hin & ?). exists out. split; [by eapply grows_Ok|done]. Qed.

Lemma push_tags_ok client image sha_tag version_tag digest w w' :
  push_tags str_of tool x client image sha_tag version_tag (JStr digest) w = (Ok tt, w') →
  tag_confirmed w' client sha_tag (JStr digest) ∧ tag_confirmed w' client version_tag (JStr digest).
Proof.
  unfold push_tags. intros (o1 & w1 & _ & H)%M_Ok. apply M_Ok in H as ([] & w2 & H2%check_tag_ok & H).
  pose proof H as Hv. apply M_Ok in Hv as (o3 & w3 & _ & Hv%check_tag_ok). split; [|done].
  eapply tag_confirmed_grows; [|exact H|exact H2]. unfold check_tag. grow.
Qed.

(** The members of the tar written from an exported layout: one regular file for each file
    of the layout, which holds no link. *)
Definition layout_of (files : list (string * string)) : list (string * node) :=
  (λ f, (f.1, File f.2)) <$> files.
Definition tar_of (files : list (string * string)) : list TarInfo :=
  (λ f, mkTarInfo f.1 REGULAR (blen f.2) (Some (Ok f.2))) <$> files.

Lemma returned_ok w members :
  returned w = Ok members → ∃ files, exported w = layout_of files ∧ members = tar_of files.
Proof.
  unfold returned. destruct (existsb _ _) eqn:E; [done|]. intros [= <-]. revert E.
  induction (exported w) as [|[name [octets|target]] l IH]; simpl; [by exists []| |done].
  intros E. destruct (IH E) as (files & -> & Hm). exists ((name, octets) :: files). split; [done|].
  cbn. f_equal. exact Hm.
Qed.

(** What came back from the registry is the candidate that was sent. *)
Lemma check_round_trip_ok w record source version packages digest sha repository :
  get "sha" source = JStr sha → get "repository" source = JStr repository →
  get "digest" record = JStr digest →
  check_round_trip hexdigest decode_wide netloc_valid str_of w record source version packages = Ok tt →
  ∃ files c i, exported w = layout_of files ∧ new_Candidate (Ok (tar_of files)) = Ok c
    ∧ candidate_of hexdigest decode_wide netloc_valid str_of c sha repository version packages i
    ∧ info_digest i = JStr digest
    ∧ py_eq (info_runtimeDigest i) (get "runtimeDigest" record) = true
    ∧ py_eq (info_imageId i) (get "imageId" record) = true.
Proof.
  intros Hs Hr Hd H. unfold check_round_trip in H. apply bind_Ok in H as (members & Hm & H).
  apply bind_Ok in H as (d & Hit & H). pose proof (item_get _ _ _ _ Hit Hd) as ->. simpl in H.
  apply bind_Ok in H as (i & Hi & H). apply bind_Ok in H as (runtime & <-%get_item & H).
  apply bind_Ok in H as (image & <-%get_item & H).
  destruct (differs (info_digest i) _); [done|]. destruct (differs (info_runtimeDigest i) _) eqn:H2; [done|].
  destruct (differs (info_imageId i) _) eqn:H3; [done|].
  unfold inspect in Hi. apply bind_Ok in Hi as (c & Hc & Hi).
  apply (inspect_candidate_ok _ _ _ _ c source version packages _ i sha repository Hs Hr) in Hi as [Hof Hx];
    [|intros name; by eapply new_Candidate_names].
  apply returned_ok in Hm as (files & Hfiles & ->). exists files, c, i.
  split_and!; try done; [by apply Hx|by apply same_value..].
Qed.

#[local] Abbreviation qualified :=
  (qualified hexdigest other_digit decode_wide netloc_valid str_of tar_members fromisoformat x).
#[local] Abbreviation candidate_of := (candidate_of hexdigest decode_wide netloc_valid str_of).

Lemma qualified_digest sha repository w record scanned t :
  qualified sha repository w record scanned t → ∃ digest, get "digest" record = JStr digest.
Proof.
  intros [_ (source & version & packages & i & c & files & report & policy & _ & _ & _ & _ & _ & Hof & Hb & _) _ _].
  destruct Hof as [_ (descriptor & index & _ & _ & _ & _ & _ & _ & Hd & (body & (d & [= <-] & E & _) & _) & _) _ _].
  rewrite E in Hd. pose proof (br_digest _ _ _ _ _ _ _ Hb) as Heq. rewrite <-Hd in Heq.
  eexists. apply differs_text. unfold differs. by rewrite Heq.
Qed.

Lemma grows_verify : grows verify.
Proof. unfold ReleaseCandidate.verify. grow. Qed.

Lemma grows_write_json name v : grows (write_json float_repr name v).
Proof. apply grows_evidence. Qed.

Lemma grows_record_release image digest : grows (record_release str_of x image digest).
Proof.
  unfold record_release. apply grows_bind; [apply grows_evidence|]. intros _.
  destruct (GITHUB_OUTPUT x) as [path|]; [|apply grows_ret]. destruct (String.eqb path ""); grow.
Qed.
#[local] Hint Resolve grows_verify grows_write_json grows_record_release grows_push : grows.

Lemma record_release_ok image digest w w' :
  record_release str_of x image (JStr digest) w = (Ok tt, w') →
  evidence w' = <["release-image.env" := "QUICKAPI_IMAGE=" +:+ (image +:+ "@" +:+ digest) +:+ nl]> (evidence w)
  ∧ archive w' = archive w ∧ checkout w' = checkout w.
Proof.
  unfold record_release. intros ([] & w1 & [= <-] & H)%M_Ok. simpl in H.
  destruct (GITHUB_OUTPUT x) as [path|]; [destruct (String.eqb path "")|]; try by injection H as <-.
Qed.

(** What a command that succeeded did, and that it was the last to run. *)
Lemma run_inv args w out w' :
  run tool args w = (Ok out, w') →
  ∃ after, tool args w = (Ok (0, out), after) ∧ exported w' = exported after
    ∧ commands w' = commands w ++ [(args, out)].
Proof.
  unfold run. destruct (tool args w) as [[[c o]|e] w1]; [|done]. destruct (Z.eqb_spec c 0) as [->|]; [|done].
  intros [= <- <-]. by exists w1.
Qed.

(** The client as [publish] runs it, and its command that reads a candidate back. *)
Definition publisher (config_path helper : string) : list string := base x config_path ++ [helper].
Definition read_back (config_path helper image digest : string) : list string :=
  base x config_path ++ ["--volume"; temporary_path x +:+ ":/roundtrip"; helper;
    "image"; "copy"; image +:+ "@" +:+ digest; "ocidir:///roundtrip/layout:verified"].

(** In a fresh temporary directory, the client exported the digest from the registry and
    the exported layout was inspected. *)
Record exchanged (path helper image : string) (digest : string) (record source : object) (version : string)
    (packages : gmap string string) (before : world) (out : string) (after w' : world) : Prop := {
  ex_fresh : exported before = [] ∧ temporary before = [];
  ex_tool : tool (read_back path helper image digest) before = (Ok (0, out), after);
  ex_run : commands before ++ [(read_back path helper image digest, out)] `prefix_of` commands w';
  ex_check : check_round_trip hexdigest decode_wide netloc_valid str_of after record source version packages = Ok tt
}.

Definition round_trip (path helper image digest : string) (record source : object) (version : string)
    (packages : gmap string string) : M unit :=
  with_temporary
    (_ ← run tool (read_back path helper image digest);
     w ← look id;
     index ← lift (read_json (layout_file "index.json" w));
     write_json float_repr "roundtrip-index.json" index;;
     lift (check_round_trip hexdigest decode_wide netloc_valid str_of w record source version packages)).

Lemma check_round_trip_exported w w' record source version packages :
  exported w = exported w' →
  check_round_trip hexdigest decode_wide netloc_valid str_of w record source version packages
  = check_round_trip hexdigest decode_wide netloc_valid str_of w' record source version packages.
Proof. intros E. unfold check_round_trip, returned. by rewrite E. Qed.

Lemma round_trip_ok path helper image digest record source version packages w w' :
  round_trip path helper image digest record source version packages w = (Ok tt, w') →
  ∃ out after, exchanged path helper image digest record source version packages (clear_temporary w) out after w'.
Proof.
  intros H. unfold round_trip, with_temporary in H. apply finally_Ok in H as (w1 & H & [= <-]).
  apply M_Ok in H as ([] & ? & [= <-] & H).
  apply M_Ok in H as (out & wa & Hrun & H).
  assert (commands wa `prefix_of` commands w1) as Hpre by (eapply (grows_prefix _ _ _ _ H); grow).
  apply M_Ok in H as (? & ? & [= <- <-] & H). apply M_Ok in H as (index & ? & [_ ->]%lift_Ok & H).
  apply M_Ok in H as ([] & ? & _ & H). apply lift_Ok in H as [Hrt _].
  apply run_inv in Hrun as (after & Ht & He & Hc). exists out, after. split; try done.
  - by rewrite <-Hc.
  - by rewrite <-(check_round_trip_exported _ _ _ _ _ _ He).
Qed.

Lemma grows_round_trip path helper image digest record source version packages :
  grows (round_trip path helper image digest record source version packages).
Proof. unfold round_trip, with_temporary. grow. Qed.
#[local] Hint Resolve grows_round_trip : grows.

(** A publication outside the rehearsal, step by step. *)
Lemma publish_inv sha repository image config path w p w' :
  RELEASE_SHA x = Some sha → RELEASE_SOURCE x = Some repository →
  publish image false config path w = (Ok p, w') →
  ∃ record source version packages digest helper before out after wb wc t record2,
    qualified sha repository w record (clock w (ticks w)) (clock w (S (ticks w)))
    ∧ get "sha" source = JStr sha ∧ get "digest" record = JStr digest
    ∧ check_rehearsal w image source record = Ok tt
    ∧ tag_confirmed before (publisher path helper) (image +:+ ":" +:+ sha) (JStr digest)
    ∧ tag_confirmed before (publisher path helper) (image +:+ ":" +:+ version) (JStr digest)
    ∧ exchanged path helper image digest record source version packages before out after w'
    ∧ get "repository" source = JStr repository
    ∧ verify wb = (Ok record2, wc)
    ∧ p = publication seconds image record source (JStr digest) (get "archiveSha256" record)
            (image +:+ ":" +:+ sha) (image +:+ ":" +:+ version) helper t
    ∧ evidence w' = <["release-image.env" := "QUICKAPI_IMAGE=" +:+ (image +:+ "@" +:+ digest) +:+ nl]>
                      (<["publication.json" := json_dumps float_repr p +:+ nl]> (evidence wb))
    ∧ archive w' = archive wb ∧ checkout w' = checkout wb.
Proof.
  intros Hsha Hrep H. unfold ReleasePublish.publish in H.
  apply M_Ok in H as (record & w1 & Hv & H).
  pose proof (verify_qualified _ _ _ _ _ _ _ _ sha repository _ _ _ Hsha Hrep Hv) as Hq.
  destruct (qualified_digest _ _ _ _ _ _ Hq) as [digest Hd].
  apply verify_inv in Hv as [(Hev & _) _].
  apply M_Ok in H as (? & ? & [= <- <-] & H).
  apply M_Ok in H as ([[source version] packages] & ? & [Hctx ->]%lift_Ok & H).
  apply (context_ok _ _ _ _ _ _ _ sha repository) in Hctx as (_ & Hs & Hr & _ & _ & _); [|done..].
  apply M_Ok in H as ([] & ? & [_ ->]%guard_not_Ok & H).
  apply M_Ok in H as ([] & ? & [Hre ->]%lift_Ok & H). apply M_Ok in H as ([] & ? & [_ ->]%lift_Ok & H).
  apply M_Ok in H as (o1 & w2 & _ & H). apply M_Ok in H as (helper & w3 & _ & H). cbv zeta in H.
  apply M_Ok in H as ([] & ? & [_ ->]%guard_not_Ok & H).
  apply M_Ok in H as (options & ? & [[= <-] ->]%lift_Ok & H).
  apply M_Ok in H as (s & ? & [Hit ->]%lift_Ok & H). pose proof (item_get _ _ _ _ Hit Hs) as ->.
  apply M_Ok in H as (d & ? & [Hit' ->]%lift_Ok & H). pose proof (item_get _ _ _ _ Hit' Hd) as ->.
  change (str str_of (JStr sha)) with sha in H. change (str str_of (JStr digest)) with digest in H.
  apply M_Ok in H as ([] & w4 & Hpush%push_tags_ok & H).
  apply M_Ok in H as ([] & w5 & Htmp & H).
  change (round_trip path (ustrip helper) image digest record source version packages w4 = (Ok tt, w5)) in Htmp.
  apply round_trip_ok in Htmp as (out & after & Hex).
  pose proof H as Hrest. apply M_Ok in H as (record2 & wc & Hv2 & H).
  apply M_Ok in H as (ah & ? & [<-%get_item ->]%lift_Ok & H). apply M_Ok in H as (t & ? & [= <- <-] & H).
  apply M_Ok in H as ([] & w6 & [= <-] & H). apply M_Ok in H as ([] & w7 & Hrel%record_release_ok & H).
  injection H as <- <-. destruct Hrel as (He & Ha & Hc).
  pose proof Hv2 as (Hsame & _)%verify_inv. destruct Hsame as (Hse & Hsa & Hsc & _).
  exists record, source, version, packages, digest, (ustrip helper), (clear_temporary w4), out, after, w5, wc,
    (clock wc (ticks wc)), record2.
  destruct Hpush as [Hp1 Hp2]. split_and!; try done.
  - unfold check_rehearsal, read_evidence, file in Hre |- *. by rewrite <-Hev.
  - destruct Hex as [Hf Ht Hpre Hck]. split; try done. etrans; [exact Hpre|].
    eapply (grows_prefix _ _ _ _ Hrest). grow.
  - rewrite He. simpl. by rewrite Hse.
  - rewrite Ha. simpl. by rewrite Hsa.
  - rewrite Hc. simpl. by rewrite Hsc.
Qed.

(** The evidence a publication starts from: without the results of an earlier one. *)
Definition unlinked (w : world) : world :=
  set_evidence (delete "publication.json") (set_evidence (delete "release-image.env") w).

Lemma publish_step_inv w w' :
  release_step PUBLISH w = (Ok 0, w') →
  ∃ image p, RELEASE_IMAGE x = Some image
    ∧ publish image false (docker_config x) (config_path x) (unlinked w) = (Ok p, w').
Proof.
  simpl. unfold guarded. destruct (publish_release _ _ _ _ _ _ _ _ _ _ _ w) as [[[]|e] w1] eqn:E;
    [|by destruct (is_Exception e)].
  intros [= <-]. unfold publish_release in E.
  apply M_Ok in E as ([] & ? & [= <-] & E). apply M_Ok in E as ([] & ? & [= <-] & E).
  apply M_Ok in E as (image & ? & [Hi ->]%lift_Ok & E). apply M_Ok in E as (p & w2 & Hp & E).
  injection E as ->. exists image, p. split; [by destruct (RELEASE_IMAGE x); simplify_eq/=|done].
Qed.

Lemma check_rehearsal_ok w image source record digest :
  get "digest" record = JStr digest → check_rehearsal w image source record = Ok tt →
  get "image" source = JStr image
  ∧ ∃ rehearsal, read_evidence "registry-test.json" w = Ok (JObj rehearsal)
      ∧ get "passed" rehearsal = JBool true ∧ get "digest" rehearsal = JStr digest
      ∧ py_eq (get "archiveSha256" rehearsal) (get "archiveSha256" record) = true.
Proof.
  unfold check_rehearsal. intros Hd H. apply bind_Ok in H as (v & Hv & H).
  apply bind_Ok in H as (r & ->%mapping_inv & H). apply bind_Ok in H as (e & <-%get_item & H).
  apply bind_Ok in H as (d & Hit & H). pose proof (item_get _ _ _ _ Hit Hd) as ->.
  apply bind_Ok in H as (ah & <-%get_item & H).
  destruct (differs (JStr image) _) eqn:H1; [done|]. destruct (is_true _) eqn:H2; [|done].
  destruct (differs (get "digest" r) _) eqn:H3; [done|]. destruct (differs (get "archiveSha256" r) _) eqn:H4; [done|].
  split; [by apply text_eq, same_value|]. exists r. split_and!; try done; [|by apply differs_text|by apply same_value].
  destruct (get "passed" r) as [|b| | | | |]; try done. by destruct b.
Qed.
End facts.

(** [C19] A failed release never publishes. A step ends well, or with a failure it has
    recorded in [failure.json] — whatever [Exception] stopped it —, or is interrupted by
    something else. Once a step of a release's history has recorded a failure, whatever the
    external tools do, every later step — qualification, verification, rehearsal or
    publication — records a failure too, before it runs any command: the archive, the
    checkout and the workflow's outputs are left as they are, and of the evidence nothing
    changes but the failure marker and the results of earlier publications, which are only
    removed. An interruption records nothing, and says nothing about later steps. *)
Theorem failed_release_never_publishes hexdigest other_digit decode_wide netloc_valid str_of float_repr
    tar_members fromisoformat isoformat error_text tool seconds probe x earlier later w codes w1 codes' w2 :
  let history := release hexdigest other_digit decode_wide netloc_valid str_of float_repr tar_members
                   fromisoformat isoformat error_text tool seconds probe x in
  history earlier w = (codes, w1) → history later w1 = (codes', w2) →
  Forall (λ c, match c with Ok z => z = 0 ∨ z = 1 | Err e => is_Exception e = false end) codes
  ∧ (Ok 1 ∈ codes →
     is_Some (evidence w1 !! "failure.json")
     ∧ codes' = repeat (Ok 1) (length later)
     ∧ commands w2 = commands w1 ∧ archive w2 = archive w1 ∧ checkout w2 = checkout w1
     ∧ exported w2 = exported w1 ∧ github_output w2 = github_output w1
     ∧ ∀ name, name ≠ "failure.json" → evidence w2 !! name = evidence w1 !! name ∨ evidence w2 !! name = None).
Proof.
  intros history H1 H2. apply release_marks in H1 as [Hall Hf]. split; [exact Hall|]. intros Hin%Hf.
  apply release_failed in H2 as (-> & _ & Hs); done.
Qed.

(** [C20] A published release is the qualified candidate: when the publication step succeeds,
    the evidence and archive it started from qualify for the selected commit and
    repository and were rehearsed; the registry answered the candidate's digest for the
    commit's and for the version's tag; then, with an empty temporary directory, the client
    copied that digest out of the registry, and the layout this command left there — files
    only, no link — is a candidate of the same source with the same digest, runtime and
    image; and the evidence qualified again immediately before [publication.json] and the
    image reference, which name that digest, were written. *)
Theorem published_release_is_qualified hexdigest other_digit decode_wide netloc_valid str_of float_repr
    tar_members fromisoformat isoformat error_text tool seconds probe x sha repository w w' :
  RELEASE_SHA x = Some sha → RELEASE_SOURCE x = Some repository →
  release_step hexdigest other_digit decode_wide netloc_valid str_of float_repr tar_members fromisoformat
    isoformat error_text tool seconds probe x PUBLISH w = (Ok 0, w') →
  let qualifies := qualified hexdigest other_digit decode_wide netloc_valid str_of tar_members fromisoformat x
                     sha repository in
  ∃ image source version digest record helper before out after wb record2 scanned2 t2 t,
    let client := base x (config_path x) ++ [helper] in
    let copy := base x (config_path x) ++ ["--volume"; temporary_path x +:+ ":/roundtrip"; helper;
                  "image"; "copy"; image +:+ "@" +:+ digest; "ocidir:///roundtrip/layout:verified"] in
    RELEASE_IMAGE x = Some image
    ∧ qualifies (unlinked w) record (clock w (ticks w)) (clock w (S (ticks w)))
    ∧ get "digest" record = JStr digest ∧ get "image" source = JStr image
    ∧ (∃ rehearsal, read_evidence "registry-test.json" (unlinked w) = Ok (JObj rehearsal)
         ∧ get "passed" rehearsal = JBool true ∧ get "digest" rehearsal = JStr digest
         ∧ py_eq (get "archiveSha256" rehearsal) (get "archiveSha256" record) = true)
    ∧ tag_confirmed before client (image +:+ ":" +:+ sha) (JStr digest)
    ∧ tag_confirmed before client (image +:+ ":" +:+ version) (JStr digest)
    ∧ (exported before = [] ∧ tool copy before = (Ok (0, out), after)
       ∧ commands before ++ [(copy, out)] `prefix_of` commands w')
    ∧ (∃ files c i packages, exported after = (λ f, (f.1, File f.2)) <$> files
       ∧ new_Candidate (Ok ((λ f, mkTarInfo f.1 REGULAR (blen f.2) (Some (Ok f.2))) <$> files)) = Ok c
       ∧ candidate_of hexdigest decode_wide netloc_valid str_of c sha repository version packages i
       ∧ info_digest i = JStr digest
       ∧ py_eq (info_runtimeDigest i) (get "runtimeDigest" record) = true
       ∧ py_eq (info_imageId i) (get "imageId" record) = true)
    ∧ qualifies wb record2 scanned2 t2 ∧ archive w' = archive wb
    ∧ evidence w' =
        <["release-image.env" := "QUICKAPI_IMAGE=" +:+ (image +:+ "@" +:+ digest) +:+ nl]>
        (<["publication.json" := json_dumps float_repr
             (publication seconds image record source (JStr digest) (get "archiveSha256" record)
                (image +:+ ":" +:+ sha) (image +:+ ":" +:+ version) helper t) +:+ nl]> (evidence wb)).
Proof.
  intros Hsha Hrep (image & p & Himage & Hp)%publish_step_inv qualifies.
  apply (publish_inv _ _ _ _ _ _ _ _ _ _ _ sha repository) in Hp
    as (record & source & version & packages & digest & helper & before & out & after & wb & wc & t & record2 & Hq
        & Hs & Hd & Hre & Ht1 & Ht2 & [[Hx1 _] Hx2 Hx3 Hrt] & Hr & Hv & -> & He & Ha & _); [|done..].
  apply (check_rehearsal_ok _ _ _ _ _ Hd) in Hre as [Hi Hre].
  apply (verify_qualified _ _ _ _ _ _ _ _ sha repository) in Hv; [|done..].
  apply (check_round_trip_ok _ _ _ _ _ _ _ _ _ digest sha repository) in Hrt
    as (files & c & i & Hf & Hc & Hof & Hrest); [|done..].
  exists image, source, version, digest, record, helper, before, out, after, wb, record2, (clock wb (ticks wb)),
    (clock wb (S (ticks wb))), t.
  split_and!; try done. by exists files, c, i, packages.
Qed.

(** ** A release, with tools that behave *)
Definition demo_evidence : gmap string string :=
  {["source.json" := q "{'sha':'" +:+ demo_sha
      +:+ q "','repository':'https://github.com/o/r','image':'ghcr.io/o/r'}"]}.
Definition demo_report : string :=
  q "{'SchemaVersion':2,'ArtifactType':'container_image','Metadata':{'ImageID':'" +:+ digest_of demo_hash demo_config
  +:+ q "','OS':{'Family':'debian','Name':'12'}},'Results':[{'Target':'t','Type':'debian','Class':'os-pkgs','Packages':[{'Name':'libc','Version':'2'}]},{'Target':'p','Type':'python-pkg','Class':'lang-pkgs','Packages':[{'Name':'Fast_API','Version':'0.1'}]}]}".
Definition demo_members : list TarInfo := match demo_archive demo_sha "layer" with Ok l => l | Err _ => [] end.
Definition demo_checkout (name : string) : py string :=
  match assoc_get name
    [("VERSION", "1.0.0"); (".env.example", "APP_VERSION=1.0.0"); ("requirements.txt", "fast_api==0.1");
     (policy_path, q "{'version':1,'exceptions':[]}")]%string with
  | Some s => Ok s
  | None => Err OSError
  end.
Definition demo_world : world :=
  mkWorld demo_evidence (Ok "archive") demo_checkout [] [] [] EmptyString (λ _, midnight 2026 2 20) 0.
Definition demo_digest : string := digest_of demo_hash (demo_index demo_sha).
Definition demo_settings : settings :=
  mkSettings (Some demo_sha) (Some "https://github.com/o/r") (Some demo_digest) None None
    (Some "ghcr.io/o/r") (Some "out") "python" "/r/image.tar" "/r" "image.tar" "/cache" "/tmp" "registry" "0:0"
    "/config.json" (Some (q "{'auths':{'ghcr.io':{}}}")).
(** The registry answers [digest]. *)
Definition demo_tool (digest : string) (args : list string) (w : world) : py (Z * string) * world :=
  let answer out := (Ok (0, out +:+ nl), w) in
  if bool_decide ("{{.Id}}"%string ∈ args) then
    let reference := default EmptyString (last args) in
    answer (if starts_with "sha256:" reference then reference else demo_digest)
  else if bool_decide ("/image"%string ∈ args) then answer demo_report
  else if bool_decide ("port"%string ∈ args) then answer "127.0.0.1:5000"
  else if bool_decide ("digest"%string ∈ args) then answer digest
  else if bool_decide ("/tmp:/roundtrip"%string ∈ args) then
    (Ok (0, EmptyString),
     mkWorld (evidence w) (archive w) (checkout w) (temporary w)
       (omap (λ m, match m_stream m with
                   | Some (Ok s) => Some (removeprefix "./" (m_name m), File s)
                   | _ => None
                   end) demo_members)
       (commands w) (github_output w) (clock w) (ticks w))
  else (Ok (0, EmptyString), w).
Definition demo_release (digest : string) : list step → world → list (py Z) * world :=
  release demo_hash (λ _, None) (λ _, Err UnicodeDecodeError) (λ _, false) (λ _, EmptyString) (λ _, "0.0"%string)
    (λ octets, if String.eqb octets "archive" then Ok demo_members else Err OSError)
    (λ _, Ok (midnight 2026 2 20, Some 0)) (λ _, EmptyString) (λ _, EmptyString) (demo_tool digest)
    (λ _, Floats.SpecFloat.S754_zero false) (λ _ n, if (n =? 2)%nat then Status 200 else Unreachable) demo_settings.

Definition refused_steps : list step := [CANDIDATE QUALIFY; REGISTRY_TEST].
Definition later_steps : list step := [PUBLISH; CANDIDATE VERIFY].
Definition refused_world : world := (demo_release "sha256:0" refused_steps demo_world).2.

Lemma failed_release_never_publishes_witness :
  (demo_release "sha256:0" refused_steps demo_world).1 = [Ok 0; Ok 1]
  ∧ (demo_release "sha256:0" later_steps refused_world).1 = [Ok 1; Ok 1]
  ∧ commands (demo_release "sha256:0" later_steps refused_world).2 = commands refused_world.
Proof.
  assert ((demo_release "sha256:0" refused_steps demo_world).1 = [Ok 0; Ok 1]) as E by (vm_compute; reflexivity).
  split; [exact E|].
  assert (Ok 1 ∈ (demo_release "sha256:0" refused_steps demo_world).1) as Hin.
  { rewrite E. apply elem_of_cons. right. by apply list_elem_of_singleton. }
  destruct (failed_release_never_publishes _ _ _ _ _ _ _ _ _ _ _ _ _ _ refused_steps later_steps demo_world
    (demo_release "sha256:0" refused_steps demo_world).1 refused_world
    (demo_release "sha256:0" later_steps refused_world).1 (demo_release "sha256:0" later_steps refused_world).2
    (surjective_pairing (demo_release "sha256:0" refused_steps demo_world))
    (surjective_pairing (demo_release "sha256:0" later_steps refused_world))) as (_ & H).
  destruct (H Hin) as (_ & Hc & Hw & _). split; [exact Hc|exact Hw].
Defined.

Definition rehearsed_world : world := (demo_release demo_digest refused_steps demo_world).2.
Definition demo_step (s : step) : M Z :=
  release_step demo_hash (λ _, None) (λ _, Err UnicodeDecodeError) (λ _, false) (λ _, EmptyString) (λ _, "0.0"%string)
    (λ octets, if String.eqb octets "archive" then Ok demo_members else Err OSError)
    (λ _, Ok (midnight 2026 2 20, Some 0)) (λ _, EmptyString) (λ _, EmptyString) (demo_tool demo_digest)
    (λ _, Floats.SpecFloat.S754_zero false) (λ _ n, if (n =? 2)%nat then Status 200 else Unreachable) demo_settings s.

Lemma published_release_is_qualified_witness :
  (demo_step PUBLISH rehearsed_world).1 = Ok 0
  ∧ ∃ image digest, RELEASE_IMAGE demo_settings = Some image
    ∧ is_Some (evidence (demo_step PUBLISH rehearsed_world).2 !! "publication.json")
    ∧ evidence (demo_step PUBLISH rehearsed_world).2 !! "release-image.env"
      = Some ("QUICKAPI_IMAGE=" +:+ (image +:+ "@" +:+ digest) +:+ nl).
Proof.
  assert ((demo_step PUBLISH rehearsed_world).1 = Ok 0) as E by (vm_compute; reflexivity).
  split; [exact E|].
  destruct (demo_step PUBLISH rehearsed_world) as [code w'] eqn:Ew. simpl in E. subst code. unfold demo_step in Ew.
  destruct (published_release_is_qualified _ _ _ _ _ _ _ _ _ _ _ _ _ demo_settings demo_sha
    "https://github.com/o/r" rehearsed_world w' eq_refl eq_refl Ew)
    as (image & source & version & digest & record & helper & before & out & after & wb & record2 & scanned2 & t2
        & t & Hi & _ & _ & _ & _ & _ & _ & _ & _ & _ & _ & He).
  exists image, digest. split; [exact Hi|]. cbn [snd]. rewrite He. split.
  - rewrite lookup_insert_ne by done. rewrite lookup_insert_eq. by eexists.
  - apply lookup_insert_eq.
Defined.
