(* ===== verification/Logging.v ===== *)
(** * Log records

    [config/logging.py] and [helpers/error_diagnostics.py]: what a log event becomes — a
    record of allowlisted fields, one console line or one line of JSON — and how records
    of the dependencies reach it.  Texts are lists of code points here, since the code
    looks at [ord] of every character.  The clock's text, the local time it is shown as,
    the terminal's colours and the repr of doubles are arguments. *)
From Stdlib Require Import Floats.SpecFloat.
From S2P Require Import Prelude PyText Sha256 Float64.
Open Scope Z_scope.

(** ** Values of an event *)
Definition text := list Z.
Definition ascii_text (s : string) : text := octet <$> String.list_ascii_of_string s.

(** An exception with what [error_diagnostics] may look at, its [__dict__], its arguments and
    the frames of its traceback, and what it must not: its message.  Reading an attribute
    of a [hostile] one raises.  [LOther] is any other object, hashable or not. *)
Inductive log_value :=
| LNone
| LStr (s : text)
| LBool (b : bool)
| LInt (z : Z)
| LFloat (f : float)
| LExn (hostile : bool) (name : string) (dict : list (string * log_value)) (args : list log_value)
    (frames : list (string * string * Z)) (message : text)
| LOther (hashable : bool) (content : text).

Abbreviation event := (list (string * log_value)) (only parsing).

(** ** Diagnostics of an error *)
Definition _NAMES : list string :=
  ["Exception"; "DatabaseUnavailableError"; "RuntimeError"; "ValueError"; "TypeError"; "KeyError"; "OSError";
   "PermissionError"; "FileNotFoundError"; "ConnectionResetError"; "BrokenPipeError"; "HTTPException";
   "ValidationError"; "DBAPIError"; "SQLAlchemyError"; "ConnectionError"; "ConnectionRefusedError";
   "TimeoutError"; "CancelledError"; "IntegrityError"; "OperationalError"; "InterfaceError"; "DataError";
   "ProgrammingError"; "InvalidRequestError"].
Definition _CODES : list (Z * string) :=
  [(2, "ENOENT"); (13, "EACCES"); (104, "ECONNRESET"); (111, "ECONNREFUSED"); (110, "ETIMEDOUT");
   (10061, "ECONNREFUSED"); (1062, "ER_DUP_ENTRY"); (1213, "ER_LOCK_DEADLOCK");
   (1205, "ER_LOCK_WAIT_TIMEOUT"); (1406, "ER_DATA_TOO_LONG"); (1048, "ER_BAD_NULL_ERROR")]%string.
Definition database_codes : list string :=
  ["DB_POOL_CLOSED"; "DB_POOL_CAPACITY"; "DB_POOL_ACQUIRE_TIMEOUT"; "DB_CONNECT_TIMEOUT";
   "DB_CONNECTION_FAILED"; "DB_TLS_REQUIRED"].

Definition hashable (v : log_value) : bool := match v with LOther h _ => h | _ => true end.

(** [code in {...}]; [None] when it cannot be hashed. *)
Definition known_code (v : log_value) : option (option string) :=
  if negb (hashable v) then None
  else Some (match v with
             | LStr s => list_find (λ c, ascii_text c = s) database_codes ≫= λ p, Some p.2
             | _ => None
             end).

Definition numbered_code (args : list log_value) : option string :=
  match args with
  | LInt z :: _ => assoc_get z _CODES
  | _ => None
  end.

Definition frame_line (f : string * string * Z) : string :=
  f.1.1 +:+ ":" +:+ f.1.2 +:+ ":" +:+ pretty f.2.

Record diagnostics := mkDiagnostics {
  errorType : string;
  errorCode : option string;
  errorFingerprint : option string
}.
Definition unknown_error : diagnostics := mkDiagnostics "UnknownError" None None.

(** The fingerprint of at most 64 frames; [None] when their text cannot be encoded. *)
Definition fingerprint (frames : list (string * string * Z)) : option (option string) :=
  let lines := frame_line <$> take 64 frames in
  match lines with
  | [] => Some None
  | _ => let body := join (String (of_octet 10) EmptyString) lines in
         if utf8_valid body then Some (Some (sha256_hexdigest body)) else None
  end.

Definition error_diagnostics (error : log_value) : diagnostics :=
  match error with
  | LExn false name dict args frames _ =>
      match known_code (default LNone (assoc_get "code" dict)) with
      | None => unknown_error
      | Some code =>
          let original := default error (assoc_get "orig" dict) in
          let original_args :=
            match original with
            | LExn false _ _ a _ _ => Some a
            | LExn true _ _ _ _ _ => None
            | _ => Some []
            end in
          match original_args, fingerprint frames with
          | Some a, Some fp =>
              mkDiagnostics (if bool_decide (name ∈ _NAMES) then name else "UnknownError")
                (match numbered_code a with Some c => Some c | None => code end) fp
          | _, _ => unknown_error
          end
      end
  | _ => unknown_error
  end.

(** ** Records *)
Inductive field :=
| FStr (s : text)
| FBool (b : bool)
| FInt (z : Z)
| FFloat (f : float)
| FError (d : diagnostics).

Abbreviation log_record := (list (string * field)) (only parsing).

Definition is_control (c : Z) : bool :=
  (c <? 32) || ((127 <=? c) && (c <=? 159)) || (c =? 8232) || (c =? 8233).
Definition escape_control (c : Z) : text :=
  if is_control c then ascii_text (String "\"%char (String "u"%char (hex 4 c))) else [c].
Definition single_line (value : text) : text := value ≫= escape_control.

(** [_FIELDS]: the type each field must have. *)
Inductive expected := ExpStr | ExpBool | ExpInt | ExpNumber.
Definition _FIELDS : list (string * expected) :=
  [("requestId", ExpStr); ("method", ExpStr); ("ip", ExpStr); ("route", ExpStr); ("outcome", ExpStr);
   ("headersSent", ExpBool); ("status", ExpInt); ("durationMs", ExpNumber)]%string.

Definition isfinite (f : float) : bool :=
  match f with S754_zero _ | S754_finite _ _ _ => true | _ => false end.

(** The value a field records, if it has the expected type; a [bool] is an [int]. *)
Definition accepted (x : expected) (v : log_value) : option field :=
  match x, v with
  | ExpStr, LStr s => Some (FStr (single_line s))
  | ExpBool, LBool b | ExpInt, LBool b | ExpNumber, LBool b => Some (FBool b)
  | ExpInt, LInt z | ExpNumber, LInt z => Some (FInt z)
  | ExpNumber, LFloat f => if isfinite f then Some (FFloat f) else None
  | _, _ => None
  end.

Definition methods : list string := ["GET"; "POST"; "PUT"; "PATCH"; "DELETE"; "HEAD"; "OPTIONS"].

Definition with_request_id (ev : event) : event :=
  match assoc_get "requestId" ev, assoc_get "request_id" ev with
  | None, Some v => assoc_set "requestId" v ev
  | _, _ => ev
  end.

Definition field_of (ev : event) (k : string * expected) : option (string * field) :=
  match assoc_get k.1 ev with
  | Some v => (λ f, (k.1, f)) <$> accepted k.2 v
  | None => None
  end.

(** [method] outside the known ones is not recorded. *)
Definition check_method (r : log_record) : log_record :=
  match assoc_get "method" r with
  | Some (FStr m) =>
      if bool_decide (m ∈ ascii_text <$> methods) then r
      else assoc_set "method" (FStr (ascii_text "<other>")) r
  | Some _ => assoc_set "method" (FStr (ascii_text "<other>")) r
  | None => r
  end.

Definition aliases : list (string * string) :=
  [("error", "error"); ("err", "err"); ("reason", "reason"); ("exception", "error")]%string.
Definition add_error (ev : event) (r : log_record) (a : string * string) : log_record :=
  match assoc_get a.1 ev with
  | Some v => assoc_set a.2 (FError (error_diagnostics v)) r
  | None => r
  end.

Definition message (ev : event) : text :=
  match assoc_get "event" ev with
  | Some (LStr s) => single_line s
  | _ => ascii_text "Application event."
  end.

(** The process a record is written by. *)
Record process := mkProcess { time : text; pid : Z; hostname : text }.

Definition safe_event (p : process) (method : string) (ev : event) : log_record :=
  let ev := with_request_id ev in
  let r := [("time", FStr (time p)); ("pid", FInt (pid p)); ("hostname", FStr (hostname p));
            ("levelLabel", FStr (ascii_text method)); ("msg", FStr (message ev))]%string
           ++ omap (field_of ev) _FIELDS in
  foldl (add_error ev) (check_method r) aliases.

(** ** The console *)
Inductive colour := CYAN | GREEN | YELLOW | RED | MAGENTA | WHITE | DIM | RESET_ALL.

Definition colors (level : string) : colour :=
  match level with
  | "debug" => CYAN | "info" => GREEN | "warning" => YELLOW | "error" => RED | "critical" => MAGENTA
  | _ => WHITE
  end%string.

Section render.
Context (ansi : colour → text) (local_time : text → text) (float_repr : float → string).

Definition text_of (f : option field) : text := match f with Some (FStr s) => s | _ => [] end.
Definition number_of (f : option field) : Z := match f with Some (FInt z) => z | _ => 0 end.
Definition ljust (n : nat) (s : text) : text := s ++ repeat 32 (n - length s).

(** The level label is the name of the logging method, as a text. *)
Definition concise_renderer (method : string) (r : log_record) : text :=
  let reset := ansi RESET_ALL in
  let request := text_of (assoc_get "requestId" r) in
  ansi DIM ++ ansi GREEN ++ local_time (text_of (assoc_get "time" r)) ++ reset ++ [32]
  ++ ansi CYAN ++ [91] ++ ascii_text (pretty (number_of (assoc_get "pid" r))) ++ [93] ++ reset ++ [32]
  ++ ansi (colors method) ++ [91] ++ ljust 8 (text_of (assoc_get "levelLabel" r)) ++ [93] ++ reset
  ++ (if bool_decide (request = []) then []
      else [32] ++ ansi MAGENTA ++ [91] ++ request ++ [93] ++ reset)
  ++ [32] ++ text_of (assoc_get "msg" r).

(** ** JSON, on one line *)
Definition escape_code (c : Z) : string :=
  if (c =? 34) || (c =? 92) then String "\"%char (String (of_octet c) EmptyString)
  else if c =? 10 then "\n" else if c =? 13 then "\r" else if c =? 9 then "\t"
  else if c =? 12 then "\f" else if c =? 8 then "\b"
  else if (32 <=? c) && (c <=? 126) then String (of_octet c) EmptyString
  else if c <? 65536 then "\u" +:+ hex 4 c
  else "\u" +:+ hex 4 (55296 + Z.land (Z.shiftr (c - 65536) 10) 1023)
       +:+ "\u" +:+ hex 4 (56320 + Z.land (c - 65536) 1023).
Definition quote_text (s : text) : string :=
  String (of_octet 34) (String.concat "" (escape_code <$> s) +:+ String (of_octet 34) EmptyString).
Definition quote_ascii (s : string) : string := quote_text (ascii_text s).

Definition members_json (l : list (string * string)) : string :=
  "{" +:+ join ", " ((λ p, quote_ascii p.1 +:+ ": " +:+ p.2) <$> l) +:+ "}".

Definition diagnostics_json (d : diagnostics) : string :=
  members_json
    ([("errorType"%string, quote_ascii (errorType d))]
     ++ match errorCode d with Some c => [("errorCode"%string, quote_ascii c)] | None => [] end
     ++ match errorFingerprint d with Some c => [("errorFingerprint"%string, quote_ascii c)] | None => [] end).

(** [allow_nan=False] refuses a double that is not finite. *)
Definition field_json (f : field) : py string :=
  match f with
  | FStr s => Ok (quote_text s)
  | FBool b => Ok (if b then "true" else "false")
  | FInt z => Ok (pretty z)
  | FFloat f => if isfinite f then Ok (float_repr f) else Err (ValueError "Out of range float values")
  | FError d => Ok (diagnostics_json d)
  end.

Fixpoint fields_json (r : log_record) : py (list (string * string)) :=
  match r with
  | [] => Ok []
  | (k, f) :: r' => s ← field_json f; l ← fields_json r'; Ok ((k, s) :: l)
  end.
Definition JSONRenderer (r : log_record) : py string := l ← fields_json r; Ok (members_json l).

(** ** Loggers *)
Definition LOG_LEVEL_MAP (level : string) : option Z :=
  match level with
  | "DEBUG" => Some 10 | "INFO" => Some 20 | "WARN" => Some 30 | "ERROR" => Some 40
  | _ => None
  end%string.
Definition method_level (method : string) : Z :=
  match method with
  | "debug" => 10 | "info" => 20 | "warning" => 30 | "error" => 40 | _ => 50
  end%string.

(** What [create_logger]'s logger writes for an event: nothing below its level. *)
Definition log_line (p : process) (production : bool) (minimum : Z) (method : string) (ev : event)
  : py (option text) :=
  if method_level method <? minimum then Ok None
  else
    let r := safe_event p method ev in
    if production then s ← JSONRenderer r; Ok (Some (ascii_text s))
    else Ok (Some (concise_renderer method r)).
End render.

(** [_Output.write], to a stream whose encoding has the code points [encodes]. *)
Definition backslashreplace (c : Z) : text :=
  ascii_text (if c <? 256 then "\x" +:+ hex 2 c else if c <? 65536 then "\u" +:+ hex 4 c else "\U" +:+ hex 8 c).
Definition write (encodes : Z → bool) (value : text) : text :=
  if forallb encodes value then value
  else value ≫= λ c, if encodes c then [c] else backslashreplace c.

(** ** Records of the dependencies *)
Record LogRecord := mkLogRecord {
  name : string;
  levelno : Z;
  exc_info : option log_value;     (* the exception of [exc_info], when there is one *)
  msg : text;
  args : list log_value
}.

(** [SafeDependencyHandler.emit]: the method and the event it logs. *)
Definition emit (r : LogRecord) : string * event :=
  let level :=
    if levelno r =? 30 then "warning"
    else if 50 <=? levelno r then "critical"
    else if 40 <=? levelno r then "error"
    else if 20 <=? levelno r then "info"
    else "debug" in
  (level,
   [("event", LStr (ascii_text (if starts_with "uvicorn" (name r) then "Server event."
                                else "Dependency log event.")))]%string
   ++ match exc_info r with Some e => [("error"%string, e)] | None => [] end).

(** *** The loggers of the process *)
Inductive handler := Safe (level : Z) | Null | Foreign (id : Z).
Record logger := mkLogger { lg_level : Z; lg_handlers : list handler; lg_propagate : bool }.
(** A logger nobody configured: level [NOTSET]. *)
Definition fresh_logger : logger := mkLogger 0 [] true.

(** The loggers by name; the root is the empty name. *)
Abbreviation loggers := (gmap string logger) (only parsing).
Definition logger_of (t : loggers) (n : string) : logger := default fresh_logger (t !! n).

Definition dependency_names : list string :=
  ["uvicorn"; "uvicorn.error"; "fastapi"; "asyncmy"; "sqlalchemy"; "httpx"; "httpcore"; "asyncio"].

Definition configure_dependency_logging (level : Z) (t : loggers) : loggers :=
  let minimum := Z.max 30 level in
  let t := <[EmptyString := mkLogger minimum [Safe minimum] (lg_propagate (logger_of t EmptyString))]> t in
  let t := foldl (λ t n, <[n := mkLogger 30 [] true]> t) t dependency_names in
  <["uvicorn.access"%string := mkLogger (lg_level (logger_of t "uvicorn.access")) [Null] false]> t.

(** The chain of a dotted name up to the root. *)
Fixpoint drop_last {A} (l : list A) : list A :=
  match l with [] | [_] => [] | x :: l' => x :: drop_last l' end.
Fixpoint chain_of (fuel : nat) (parts : list string) : list string :=
  match fuel, parts with
  | S fuel, _ :: _ => join "." parts :: chain_of fuel (drop_last parts)
  | _, _ => [EmptyString]
  end.
Definition chain (n : string) : list string :=
  let parts := split_on "."%char n in chain_of (length parts) parts.

(** [Logger.getEffectiveLevel] and [Logger.callHandlers] along a chain. *)
Fixpoint effective_level (t : loggers) (names : list string) : Z :=
  match names with
  | [] => 0
  | n :: names' => let l := lg_level (logger_of t n) in if l =? 0 then effective_level t names' else l
  end.
Definition accepts (levelno : Z) (h : handler) : bool :=
  match h with Safe level => level <=? levelno | _ => true end.
Fixpoint call_handlers (t : loggers) (levelno : Z) (names : list string) : list handler :=
  match names with
  | [] => []
  | n :: names' =>
      let l := logger_of t n in
      List.filter (accepts levelno) (lg_handlers l)
      ++ if lg_propagate l then call_handlers t levelno names' else []
  end.
(** The handlers a record logged by [n] at [levelno] reaches. *)
Definition reached (t : loggers) (n : string) (levelno : Z) : list handler :=
  if levelno <? effective_level t (chain n) then [] else call_handlers t levelno (chain n).
