(* ===== verification/LoggingFacts.v ===== *)
(** * Log records: what they hold and that they are one line *)
From Stdlib Require Import Floats.SpecFloat.
From S2P Require Import Prelude PyText Sha256 Float64 JsonText FingerprintFacts Logging.
Open Scope Z_scope.

(** ** What a record may depend on *)
Definition public_keys : list string :=
  ["event"; "requestId"; "request_id"; "method"; "ip"; "route"; "outcome"; "headersSent"; "status";
   "durationMs"; "error"; "err"; "reason"; "exception"].

(** An exception without its message, its arguments but for a leading integer, and its
    attributes but for a known code and the cause's leading integer. *)
Definition erase_args (args : list log_value) : list log_value :=
  match args with LInt z :: _ => [LInt z] | _ => [] end.
Definition erase_orig (v : log_value) : log_value :=
  match v with
  | LExn hostile _ _ args _ _ => LExn hostile EmptyString [] (erase_args args) [] []
  | _ => LNone
  end.
Definition erase_dict (dict : list (string * log_value)) : list (string * log_value) :=
  match assoc_get "code" dict with
  | None => []
  | Some v => match known_code v with
              | None => [("code"%string, LOther false [])]
              | Some None => []
              | Some (Some c) => [("code"%string, LStr (ascii_text c))]
              end
  end
  ++ match assoc_get "orig" dict with Some v => [("orig"%string, erase_orig v)] | None => [] end.
Definition erase_value (v : log_value) : log_value :=
  match v with
  | LExn hostile name dict args frames _ =>
      LExn hostile name (erase_dict dict) (erase_args args) frames []
  | LOther h _ => LOther h []
  | _ => v
  end.
(** An event without its other fields. *)
Definition erase (ev : list (string * log_value)) : list (string * log_value) :=
  omap (λ p, if bool_decide (p.1 ∈ public_keys) then Some (p.1, erase_value p.2) else None) ev.

(** A key is among the public ones. *)
Ltac public := apply (bool_decide_eq_true_1 _); vm_compute; reflexivity.

Lemma erase_get ev k : k ∈ public_keys → assoc_get k (erase ev) = erase_value <$> assoc_get k ev.
Proof.
  intros Hk. induction ev as [|[n v] ev IH]; [done|]. unfold erase. cbn [omap list_omap].
  change (list_omap _ _ _ ev) with (erase ev). simpl. case_bool_decide as Hn; simpl.
  - destruct (decide (k = n)); [done|apply IH].
  - destruct (decide (k = n)) as [->|]; [done|apply IH].
Qed.

Lemma known_code_spec v c : known_code v = Some (Some c) → v = LStr (ascii_text c).
Proof.
  destruct v as [|s| | | | |[] ?]; try done. unfold known_code. cbn [hashable negb]. intros H%(inj Some).
  apply bind_Some in H as ([i c'] & (_ & <- & _)%list_find_Some & [= <-]). done.
Qed.

Lemma erase_code dict :
  known_code (default LNone (assoc_get "code" (erase_dict dict)))
  = known_code (default LNone (assoc_get "code" dict)).
Proof.
  unfold erase_dict. destruct (assoc_get "code" dict) as [v|] eqn:Ev; simpl.
  - destruct (known_code v) as [[c|]|] eqn:E.
    + apply known_code_spec in E as Hv. subst v. done.
    + simpl. destruct (assoc_get "orig" dict); done.
    + done.
  - destruct (assoc_get "orig" dict); done.
Qed.

Lemma erase_orig_get dict : assoc_get "orig" (erase_dict dict) = erase_orig <$> assoc_get "orig" dict.
Proof.
  unfold erase_dict. destruct (assoc_get "code" dict) as [v|]; [destruct (known_code v) as [[c|]|]|];
    simpl; by destruct (assoc_get "orig" dict).
Qed.

Lemma numbered_erase args : numbered_code (erase_args args) = numbered_code args.
Proof. by destruct args as [|[] ?]. Qed.

Lemma error_diagnostics_erase v : error_diagnostics (erase_value v) = error_diagnostics v.
Proof.
  destruct v as [| | | | |[] name dict args frames m|]; try done. unfold erase_value, error_diagnostics.
  rewrite erase_code. destruct (known_code _) as [code|]; [|done]. rewrite erase_orig_get.
  destruct (assoc_get "orig" dict) as [v|]; simpl; [|by rewrite numbered_erase].
  destruct v as [| | | | |[] ? ? a ? ?|]; simpl; try done. by rewrite numbered_erase.
Qed.

Lemma accepted_erase x v : accepted x (erase_value v) = accepted x v.
Proof. by destruct x, v. Qed.

(** The request identifier under either name. *)
Lemma with_request_id_get ev k :
  assoc_get k (with_request_id ev)
  = if bool_decide (k = "requestId"%string)
    then match assoc_get "requestId" ev with Some v => Some v | None => assoc_get "request_id" ev end
    else assoc_get k ev.
Proof.
  unfold with_request_id. case_bool_decide as Hk.
  - subst k. destruct (assoc_get "requestId" ev) eqn:E; [by rewrite E|].
    destruct (assoc_get "request_id" ev); [by rewrite assoc_get_set_eq|by rewrite E].
  - destruct (assoc_get "requestId" ev); [done|]. destruct (assoc_get "request_id" ev); [|done].
    by rewrite assoc_get_set_ne.
Qed.

Lemma event_get_erase ev k :
  k ∈ public_keys →
  assoc_get k (with_request_id (erase ev)) = erase_value <$> assoc_get k (with_request_id ev).
Proof.
  intros Hk. rewrite !with_request_id_get. case_bool_decide; [|by apply erase_get].
  rewrite !erase_get by public.
  destruct (assoc_get "requestId" ev); [done|]. by destruct (assoc_get "request_id" ev).
Qed.

Lemma field_of_erase ev k :
  k.1 ∈ public_keys → field_of (with_request_id (erase ev)) k = field_of (with_request_id ev) k.
Proof.
  intros Hk. unfold field_of. rewrite event_get_erase by done.
  destruct (assoc_get k.1 _) as [v|]; simpl; [by rewrite accepted_erase|done].
Qed.

Lemma add_error_erase ev r a :
  a.1 ∈ public_keys → add_error (with_request_id (erase ev)) r a = add_error (with_request_id ev) r a.
Proof.
  intros Ha. unfold add_error. rewrite event_get_erase by done.
  destruct (assoc_get a.1 _) as [v|]; simpl; [by rewrite error_diagnostics_erase|done].
Qed.

Lemma omap_ext_in {A B} (f g : A → option B) (l : list A) : (∀ x, x ∈ l → f x = g x) → omap f l = omap g l.
Proof.
  induction l as [|x l IH]; intros H; [done|]. cbn [omap list_omap].
  rewrite (H x) by (apply elem_of_cons; by left).
  change (list_omap _ _ f l) with (omap f l). change (list_omap _ _ g l) with (omap g l).
  rewrite IH; [done|]. intros y Hy. apply H, elem_of_cons. by right.
Qed.

Lemma foldl_ext_in {A B} (f g : B → A → B) (l : list A) b :
  (∀ b x, x ∈ l → f b x = g b x) → foldl f b l = foldl g b l.
Proof.
  revert b. induction l as [|x l IH]; intros b H; [done|]. simpl.
  rewrite (H b x) by (apply elem_of_cons; by left). apply IH. intros. apply H, elem_of_cons. by right.
Qed.

(** A record is a function of the erased event. *)
Lemma safe_event_erase p m ev : safe_event p m (erase ev) = safe_event p m ev.
Proof.
  unfold safe_event. cbv zeta. rewrite (foldl_ext_in _ (add_error (with_request_id ev))).
  2: { intros b a Ha. apply add_error_erase.
       assert (forallb (λ a, bool_decide (a.1 ∈ public_keys)) aliases = true) as H by (vm_compute; reflexivity).
       rewrite forallb_forall in H. eapply bool_decide_eq_true, H. by apply list_elem_of_In. }
  rewrite (omap_ext_in (field_of (with_request_id (erase ev))) (field_of (with_request_id ev))).
  2: { intros k Hk. apply field_of_erase.
       assert (forallb (λ k, bool_decide (k.1 ∈ public_keys)) _FIELDS = true) as H by (vm_compute; reflexivity).
       rewrite forallb_forall in H. eapply bool_decide_eq_true, H. by apply list_elem_of_In. }
  assert (message (with_request_id (erase ev)) = message (with_request_id ev)) as ->; [|done].
  unfold message. rewrite event_get_erase by public. by destruct (assoc_get "event" _) as [[]|].
Qed.

(** ** One line *)

(** The line boundaries of [str.splitlines]. *)
Definition is_break (c : Z) : bool :=
  bool_decide (c ∈ [10; 11; 12; 13; 28; 29; 30; 133; 8232; 8233]).
Definition unbroken (t : text) : Prop := Forall (λ c, is_break c = false) t.
Definition is_printable : ascii → bool := in_range 32 126.
Definition printable (s : string) : Prop := str_all is_printable s = true.

Lemma is_break_control c : is_break c = true → is_control c = true.
Proof.
  unfold is_break, is_control. rewrite bool_decide_eq_true. intros H.
  repeat (apply elem_of_cons in H as [->|H]; [done|]). by apply elem_of_nil in H.
Qed.

Lemma printable_unbroken s : printable s → unbroken (ascii_text s).
Proof.
  unfold printable, unbroken, ascii_text. induction s as [|c s IH]; [by constructor|].
  cbn [str_all]. rewrite andb_true_iff. intros [Hc Hs]. cbn. constructor; [|by apply IH].
  destruct (is_break (octet c)) eqn:E; [|done]. apply is_break_control in E.
  unfold is_printable, in_range in Hc. unfold is_control in E. reflect_bools; lia.
Qed.

Lemma printable_app s t : printable s → printable t → printable (s +:+ t).
Proof. unfold printable. intros Hs Ht. by rewrite str_all_app, Hs, Ht. Qed.

Lemma printable_hex n z : printable (hex n z).
Proof.
  unfold printable. induction n as [|n IH]; [done|]. cbn [hex str_all]. rewrite IH, andb_true_r.
  set (d := Z.land _ 15). assert (0 ≤ d < 16) as Hd.
  { subst d. change 15 with (Z.ones 4). rewrite Z.land_ones by lia. apply Z.mod_pos_bound. lia. }
  unfold hex_digit, is_printable, in_range. destruct (Z.ltb_spec d 10); rewrite octet_of_octet by lia;
    reflect_bools; lia.
Qed.

Lemma escape_control_unbroken c : unbroken (escape_control c).
Proof.
  unfold escape_control. destruct (is_control c) eqn:E.
  - apply printable_unbroken. apply (printable_app (String "\"%char (String "u"%char EmptyString))); [done|].
    apply printable_hex.
  - constructor; [|constructor]. destruct (is_break c) eqn:Eb; [|done]. apply is_break_control in Eb. congruence.
Qed.

Lemma single_line_unbroken s : unbroken (single_line s).
Proof.
  unfold unbroken, single_line. apply Forall_bind. apply Forall_forall. intros c _.
  apply escape_control_unbroken.
Qed.

Lemma printable_pretty (z : Z) : printable (pretty z).
Proof.
  eapply str_all_impl; [|apply pretty_Z_chars]. unfold exponent_char, is_printable, is_digit, in_range.
  intros c. destruct (Ascii.eqb_spec c "-"%char) as [->|]; [done|]. intros H. reflect_bools; lia.
Qed.

(** *** Records *)
Definition field_ok (p : string * field) : Prop :=
  match p.2 with
  | FStr s => p.1 = "time"%string ∨ p.1 = "hostname"%string ∨ unbroken s
  | FFloat f => isfinite f = true
  | _ => True
  end.

Lemma accepted_ok k x v f : accepted x v = Some f → field_ok (k, f).
Proof.
  unfold field_ok. intros H. simpl. destruct x, v; simplify_eq/=; try done;
    try (right; right; apply single_line_unbroken).
  by case_match; simplify_eq.
Qed.

Lemma Forall_omap {A B} (f : A → option B) (P : B → Prop) (l : list A) :
  (∀ x y, f x = Some y → P y) → Forall P (omap f l).
Proof.
  intros H. induction l as [|x l IH]; [by constructor|]. cbn [omap list_omap].
  change (list_omap _ _ f l) with (omap f l). destruct (f x) eqn:E; [|done]. constructor; [by eapply H|done].
Qed.

Lemma safe_event_ok p m ev : printable m → Forall field_ok (safe_event p m ev).
Proof.
  intros Hm. unfold safe_event. cbv zeta. set (ev' := with_request_id ev). clearbody ev'.
  set (r := _ ++ omap (field_of ev') _FIELDS).
  assert (Forall field_ok r) as Hr.
  { apply Forall_app. split.
    - apply Forall_cons; split; [by left|]. apply Forall_cons; split; [done|].
      apply Forall_cons; split; [by right; left|].
      apply Forall_cons; split; [right; right; by apply printable_unbroken|].
      apply Forall_cons; split; [|constructor]. right. right. simpl. unfold message. destruct (assoc_get "event" ev') as [[]|]; try (by apply printable_unbroken).
      apply single_line_unbroken.
    - apply Forall_omap. intros k [n f]. unfold field_of. destruct (assoc_get k.1 ev') as [v|]; [|done].
      destruct (accepted k.2 v) eqn:E; [|done]. intros [= <- <-]. by eapply accepted_ok. }
  clearbody r.
  assert (Forall field_ok (check_method r)) as Hc.
  { unfold check_method. repeat case_match; try done;
      apply assoc_set_Forall; try done; right; right; by apply printable_unbroken. }
  revert Hc. generalize (check_method r). clear Hr r. intros r Hr. revert r Hr.
  generalize aliases. intros l. induction l as [|a l IH]; intros r Hr; [exact Hr|]. simpl. apply IH. unfold add_error.
  destruct (assoc_get a.1 ev'); [|done]. apply assoc_set_Forall; [done|done].
Qed.

Lemma record_text p m ev k :
  printable m → k ≠ "time"%string → k ≠ "hostname"%string →
  unbroken (text_of (assoc_get k (safe_event p m ev))).
Proof.
  intros Hm Ht Hh. destruct (assoc_get k (safe_event p m ev)) as [f|] eqn:E; [|constructor].
  pose proof (safe_event_ok p m ev Hm) as H. rewrite Forall_forall in H.
  apply assoc_get_elem in E. specialize (H _ E). unfold field_ok in H. simpl in H. destruct f; try constructor.
  by destruct H as [?|[?|?]].
Qed.

Section render.
Context (ansi : colour → text) (local_time : text → text) (float_repr : float → string).
Hypothesis ansi_unbroken : ∀ c, unbroken (ansi c).
Hypothesis time_unbroken : ∀ t, unbroken (local_time t).
Hypothesis repr_printable : ∀ f, isfinite f = true → printable (float_repr f).

Lemma unbroken_app s t : unbroken s → unbroken t → unbroken (s ++ t).
Proof. intros. by apply Forall_app. Qed.

Lemma console_unbroken p m ev :
  printable m → unbroken (concise_renderer ansi local_time m (safe_event p m ev)).
Proof.
  intros Hm. unfold concise_renderer. cbv zeta.
  assert (unbroken [32] ∧ unbroken [91] ∧ unbroken [93]) as (? & ? & ?) by (split_and!; by repeat constructor).
  assert (∀ n, unbroken (repeat 32 n)) by (intros n; induction n; by constructor).
  assert (∀ k, k ≠ "time"%string → k ≠ "hostname"%string →
    unbroken (text_of (assoc_get k (safe_event p m ev)))) as Htext by (intros; by apply record_text).
  generalize dependent (safe_event p m ev). intros r Htext.
  repeat apply unbroken_app; auto using printable_unbroken, printable_pretty.
  case_bool_decide; [constructor|]. repeat apply unbroken_app; auto.
Qed.

(** *** JSON *)
Lemma printable_octet z : 32 ≤ z ≤ 126 → printable (String (of_octet z) EmptyString).
Proof.
  intros Hz. unfold printable. cbn [str_all]. unfold is_printable, in_range. rewrite octet_of_octet by lia.
  reflect_bools; lia.
Qed.

Lemma escape_code_printable c : printable (escape_code c).
Proof.
  unfold escape_code.
  repeat match goal with |- printable (if ?b then _ else _) => destruct b eqn:? end; try done.
  - apply (printable_app (String "\"%char EmptyString)); [done|]. apply printable_octet. reflect_bools; lia.
  - apply printable_octet. reflect_bools; lia.
  - apply printable_app; [done|apply printable_hex].
  - repeat apply printable_app; try done; apply printable_hex.
Qed.

Lemma concat_printable l : Forall printable l → printable (String.concat "" l).
Proof.
  induction 1 as [|s l Hs Hl IH]; [done|]. destruct l as [|t l]; [done|].
  change (String.concat "" (s :: t :: l)) with (s +:+ ("" +:+ String.concat "" (t :: l))).
  by apply printable_app.
Qed.

Lemma join_printable sep l : printable sep → Forall printable l → printable (join sep l).
Proof.
  intros Hsep. induction 1 as [|s l Hs Hl IH]; [done|]. destruct l as [|t l]; [done|].
  change (printable (s +:+ sep +:+ join sep (t :: l))). by repeat apply printable_app.
Qed.

Lemma quote_printable s : printable (quote_text s).
Proof.
  unfold quote_text. apply (printable_app (String (of_octet 34) EmptyString)); [done|].
  apply printable_app; [|done]. apply concat_printable, Forall_fmap, Forall_forall. intros c _.
  apply escape_code_printable.
Qed.

Lemma members_printable l : Forall (λ p, printable p.2) l → printable (members_json l).
Proof.
  intros H. unfold members_json. repeat apply printable_app; try done.
  apply join_printable; [done|]. apply Forall_fmap. eapply Forall_impl; [exact H|].
  intros p Hp. apply (printable_app (quote_ascii p.1)); [apply quote_printable|].
  by apply (printable_app ": ").
Qed.

Lemma diagnostics_printable d : printable (diagnostics_json d).
Proof.
  apply members_printable. repeat apply Forall_app_2; [by repeat constructor; apply quote_printable|..].
  - destruct (errorCode d); repeat constructor. apply quote_printable.
  - destruct (errorFingerprint d); repeat constructor. apply quote_printable.
Qed.

Lemma json_line r :
  Forall field_ok r → ∃ s, JSONRenderer float_repr r = Ok s ∧ printable s.
Proof.
  intros H. unfold JSONRenderer.
  assert (∃ l, fields_json float_repr r = Ok l ∧ Forall (λ p, printable p.2) l) as (l & -> & Hl).
  { induction H as [|[k f] r Hf H IH]; [by exists []|]. destruct IH as (l & E & Hl).
    assert (∃ s, field_json float_repr f = Ok s ∧ printable s) as (s & Es & Hs).
    { unfold field_ok in Hf. simpl in Hf. destruct f as [s|b|z|f|d]; simpl;
        eauto using quote_printable, printable_pretty, diagnostics_printable.
      - exists (if b then "true" else "false")%string. by destruct b.
      - rewrite Hf. eauto. }
    exists ((k, s) :: l). simpl. rewrite Es. simpl. rewrite E. split; [done|]. by constructor. }
  simpl. eexists. split; [done|]. by apply members_printable.
Qed.
End render.

(** [C22] A log event becomes one line that gives nothing away: whatever the event holds, the
    logger writes nothing when the method's level is below its own and otherwise exactly
    one line, on the console or as JSON; and the line is that of the erased event: of the
    fields it was given only the allowlisted ones, of the right type, count, and of an
    exception neither its message nor its arguments — but for a leading integer — nor its
    attributes, beyond a known code. *)
Theorem log_lines_are_safe ansi local_time float_repr p production minimum method ev :
  (∀ c, unbroken (ansi c)) → (∀ t, unbroken (local_time t)) →
  (∀ f, isfinite f = true → printable (float_repr f)) → printable method →
  let line := log_line ansi local_time float_repr p production minimum method in
  line ev = line (erase ev)
  ∧ (method_level method < minimum → line ev = Ok None)
  ∧ (minimum ≤ method_level method → ∃ t, line ev = Ok (Some t) ∧ unbroken t).
Proof.
  intros Ha Ht Hf Hm. cbv zeta. unfold log_line. rewrite safe_event_erase. split; [done|].
  destruct (Z.ltb_spec (method_level method) minimum); [split; [done|lia]|]. split; [lia|]. intros _.
  destruct production.
  - destruct (json_line float_repr Hf (safe_event p method ev)) as (s & -> & Hs); [by apply safe_event_ok|].
    exists (ascii_text s). split; [done|by apply printable_unbroken].
  - eexists. split; [done|]. by apply console_unbroken.
Qed.

(** A record of a dependency is logged without its message and its arguments, and reaches
    nothing but the safe handler, from its level on, unless somebody adds handlers to
    other loggers afterwards. *)
Definition configured : list string := EmptyString :: "uvicorn.access"%string :: dependency_names.

Lemma logger_of_insert (t : gmap string logger) n l m : logger_of (<[n := l]> t) m = if decide (m = n) then l else logger_of t m.
Proof.
  unfold logger_of. destruct (decide (m = n)) as [->|]; [by rewrite lookup_insert_eq|by rewrite lookup_insert_ne].
Qed.

Lemma logger_of_inserts names l t m :
  logger_of (foldl (λ t n, <[n := l]> t) t names) m = if decide (m ∈ names) then l else logger_of t m.
Proof.
  revert t. induction names as [|n names IH]; intros t; simpl; [done|]. rewrite IH, logger_of_insert.
  destruct (decide (m ∈ names)), (decide (m ∈ n :: names)) as [Hin|Hn]; try done.
  - exfalso. apply Hn, elem_of_cons. by right.
  - apply elem_of_cons in Hin as [->|?]; [|done]. by rewrite decide_True.
  - rewrite decide_False; [done|]. intros ->. apply Hn, elem_of_cons. by left.
Qed.

Lemma configured_handlers level t m :
  lg_handlers (logger_of (configure_dependency_logging level t) m)
  = if decide (m = "uvicorn.access"%string) then [Null]
    else if decide (m ∈ dependency_names) then []
    else if decide (m = EmptyString) then [Safe (Z.max 30 level)]
    else lg_handlers (logger_of t m).
Proof.
  unfold configure_dependency_logging. cbv zeta. rewrite logger_of_insert. case_decide; [done|].
  rewrite logger_of_inserts. case_decide; [done|]. rewrite logger_of_insert. by case_decide.
Qed.

Lemma call_handlers_elem t levelno names h :
  h ∈ call_handlers t levelno names →
  ∃ m, m ∈ names ∧ h ∈ lg_handlers (logger_of t m) ∧ accepts levelno h = true.
Proof.
  induction names as [|m names IH]; simpl; intros H; [by apply elem_of_nil in H|].
  apply elem_of_app in H as [H|H].
  - apply list_elem_of_In, filter_In in H as [H ?]. exists m. apply list_elem_of_In in H.
    split; [apply elem_of_cons; by left|done].
  - destruct (lg_propagate _); [|by apply elem_of_nil in H]. destruct (IH H) as (n & ? & ?). exists n.
    split; [apply elem_of_cons; by right|done].
Qed.

Lemma dependency_records_are_safe level t n levelno h :
  (∀ m, m ∈ chain n → m ∉ configured → lg_handlers (logger_of t m) = []) →
  h ∈ reached (configure_dependency_logging level t) n levelno →
  h = Null ∨ h = Safe (Z.max 30 level) ∧ Z.max 30 level ≤ levelno.
Proof.
  intros Hfresh H. unfold reached in H. destruct (_ <? _); [by apply elem_of_nil in H|].
  apply call_handlers_elem in H as (m & Hm & Hh & Ha). rewrite configured_handlers in Hh.
  repeat case_decide.
  - left. by apply list_elem_of_singleton in Hh.
  - by apply elem_of_nil in Hh.
  - right. apply list_elem_of_singleton in Hh as ->. split; [done|]. simpl in Ha. by apply Z.leb_le.
  - rewrite Hfresh in Hh; [by apply elem_of_nil in Hh|done|].
    unfold configured. intros [?|[?|?]%elem_of_cons]%elem_of_cons; done.
Qed.

(** What [_Output] writes can be encoded, when ASCII can. *)
Lemma write_encodable encodes value :
  (∀ c, 32 ≤ c ≤ 126 → encodes c = true) → Forall (λ c, encodes c = true) (write encodes value).
Proof.
  intros Hascii. unfold write. destruct (forallb encodes value) eqn:E.
  { rewrite forallb_forall in E. apply Forall_forall. intros c Hc. apply E. by apply list_elem_of_In. }
  assert (∀ s, printable s → Forall (λ c, encodes c = true) (ascii_text s)) as Hp.
  { intros s. unfold printable, ascii_text. induction s as [|c s IH]; [constructor|]. cbn [str_all].
    rewrite andb_true_iff. intros [Hc Hs]. constructor; [|by apply IH]. apply Hascii.
    unfold is_printable, in_range in Hc. reflect_bools; lia. }
  apply Forall_bind, Forall_forall. intros c _. simpl. destruct (encodes c) eqn:Ec; [constructor; [exact Ec|constructor]|].
  apply Hp. destruct (c <? 256); [apply (printable_app "\x")|destruct (c <? 65536);
    [apply (printable_app "\u")|apply (printable_app "\U")]]; done || apply printable_hex.
Qed.

(** ** A failed request *)
Definition secret : text := ascii_text "password".
Definition demo_error : log_value :=
  LExn false "IntegrityError"
    [("orig"%string, LExn false "Error" [] [LInt 1062; LStr secret] [] secret); ("detail"%string, LStr secret)]
    [LStr secret] [("a.py"%string, "f"%string, 7)] secret.
Definition demo_event : list (string * log_value) :=
  [("event"%string, LStr (ascii_text "Failed." ++ [10; 8232])); ("request_id"%string, LStr (ascii_text "r" ++ [27]));
   ("method"%string, LStr (ascii_text "GET")); ("status"%string, LBool true); ("durationMs"%string, LFloat S754_nan);
   ("body"%string, LStr secret); ("reason"%string, LStr secret); ("exception"%string, demo_error)].
Definition demo_process : process := mkProcess (ascii_text "now") 7 (ascii_text "host").

Lemma log_lines_are_safe_witness :
  let line := log_line (λ _, []) (λ _, []) (λ _, "0.5"%string) demo_process true 30 "error" in
  match line demo_event with
  | Ok (Some t) => t = ascii_text (q ("{'time': 'now', 'pid': 7, 'hostname': 'host', 'levelLabel': 'error', "
      +:+ "'msg': 'Failed.\\u000a\\u2028', 'requestId': 'r\\u001b', 'method': 'GET', 'status': true, "
      +:+ "'reason': {'errorType': 'UnknownError'}, "
      +:+ "'error': {'errorType': 'IntegrityError', 'errorCode': 'ER_DUP_ENTRY', 'errorFingerprint': '"
      +:+ sha256_hexdigest "a.py:f:7" +:+ "'}}"))
  | _ => False
  end
  ∧ line demo_event = line (erase demo_event)
  ∧ log_line (λ _, []) (λ _, []) (λ _, "0.5"%string) demo_process true 30 "info" demo_event = Ok None.
Proof.
  split; [vm_compute; reflexivity|]. split.
  - apply (log_lines_are_safe (λ _, []) (λ _, []) (λ _, "0.5"%string) demo_process true 30 "error" demo_event);
      done || constructor.
  - vm_compute; reflexivity.
Defined.
