(* ===== verification/HttpServer.v ===== *)
(** * The server process

    [app/common/handlers/http_server.py] ([ApplicationServer]), the lifespan of
    [app/config/application.py] and the exit status of [app/main.py], around the lifecycle
    handler and the request work of the application.  Uvicorn decides when each method is
    called and when what it awaits returns; those are the events.  The watchdog is a thread
    of its own, so time never passes its deadline without the process exiting. *)
From S2P Require Import Prelude Lifecycle RequestWork.
Open Scope Z_scope.

(** Where the lifespan is; its [finally] is entered with what the body raised, if it did. *)
Inductive lifespan :=
| LWaiting
| LStarting
| LServing
| LDraining (result : py unit)
| LStopping (result : py unit)
| LDone (result : py unit).

Record server := mkServer {
  life : Lifecycle.handler;            (* app.state.lifecycle *)
  work : RequestWork.work;             (* app.state.request_work, with the clock *)
  span : lifespan;
  loaded : bool;                       (* config.loaded *)
  started : bool;
  should_exit : bool;
  notice_logged : bool;                (* app.state.shutdown_notice_logged *)
  _watchdog : option Z;                (* the deadline of the running timer *)
  returned : bool;                     (* shutdown() returned *)
  raised : bool;                       (* shutdown() raised *)
  exited : option Z                    (* the status, once the process has exited *)
}.

Definition time (s : server) : Z := RequestWork.now (work s).

Definition new_server (services : list string) (drain_ticks t : Z) : server :=
  mkServer (Lifecycle.register services new_handler) (new_work drain_ticks t) LWaiting false false false false
    None false false None.

Definition set_app (l : Lifecycle.handler) (w : RequestWork.work) (s : server) : server :=
  mkServer l w (span s) (loaded s) (started s) (should_exit s) (notice_logged s) (_watchdog s) (returned s)
    (raised s) (exited s).
Definition set_span (p : lifespan) (s : server) : server :=
  mkServer (life s) (work s) p (loaded s) (started s) (should_exit s) (notice_logged s) (_watchdog s) (returned s)
    (raised s) (exited s).
Definition set_exit_flag (s : server) : server :=
  mkServer (life s) (work s) (span s) (loaded s) (started s) true (notice_logged s) (_watchdog s) (returned s)
    (raised s) (exited s).
Definition set_watchdog (d : Z) (s : server) : server :=
  mkServer (life s) (work s) (span s) (loaded s) (started s) (should_exit s) (notice_logged s) (Some d) (returned s)
    (raised s) (exited s).
Definition set_started (b : bool) (s : server) : server :=
  mkServer (life s) (work s) (span s) (loaded s) b (should_exit s) (notice_logged s) (_watchdog s) (returned s)
    (raised s) (exited s).
Definition set_loaded (s : server) : server :=
  mkServer (life s) (work s) (span s) true (started s) (should_exit s) (notice_logged s) (_watchdog s) (returned s)
    (raised s) (exited s).
Definition set_notice (s : server) : server :=
  mkServer (life s) (work s) (span s) (loaded s) (started s) (should_exit s) true (_watchdog s) (returned s)
    (raised s) (exited s).
Definition set_shutdown_outcome (ret rai : bool) (s : server) : server :=
  mkServer (life s) (work s) (span s) (loaded s) (started s) (should_exit s) (notice_logged s) (_watchdog s) ret rai
    (exited s).
Definition exit_with (status : Z) (s : server) : server :=
  mkServer (life s) (work s) (span s) (loaded s) (started s) (should_exit s) (notice_logged s) (_watchdog s)
    (returned s) (raised s) (Some status).

(** [work.failed = True] *)
Definition set_work_failed (w : RequestWork.work) : RequestWork.work :=
  mkWork (drain_ticks w) (draining_at w) true (tasks w) (running w) (cancelled w) NotDraining (RequestWork.now w).

(** What the services' own [quiesce] do. *)
Abbreviation outcome := (string → option (py unit)) (only parsing).

Section server.
(** [SHUTDOWN_TIMEOUT_MS], in ticks. *)
Context (shutdown_ticks : Z).

Definition _force_exit : server → server := exit_with 1.

Definition _begin_shutdown (o : outcome) (s : server) : server :=
  let s := match _watchdog s with
           | None => set_watchdog (time s + shutdown_ticks) s
           | Some _ => s
           end in
  if loaded s
  then let s := set_notice s in set_app (Lifecycle.quiesce o (life s)) (RequestWork.quiesce (work s)) s
  else s.

(** [handle_exit] of a signal, and the programmatic stop. *)
Definition handle_exit (o : outcome) (s : server) : server :=
  match _watchdog s with
  | Some _ => _force_exit s
  | None => set_exit_flag (_begin_shutdown o s)
  end.
Definition request_shutdown (o : outcome) (s : server) : server :=
  match _watchdog s with
  | Some _ => _force_exit s
  | None => set_exit_flag (_begin_shutdown o s)
  end.

(** [shutdown], up to the call of the superclass's and after its return. *)
Definition shutdown_call (o : outcome) (s : server) : server := _begin_shutdown o s.
Definition shutdown_return (s : server) : server :=
  if RequestWork.failed (work s) || shutdown_failed (life s)
  then set_shutdown_outcome (returned s) true s
  else set_shutdown_outcome true (raised s) s.

(** *** The lifespan *)

(** [finally]: quiesce and begin to drain. *)
Definition lifespan_finally (o : outcome) (r : py unit) (s : server) : server :=
  set_span (LDraining r) (set_app (Lifecycle.quiesce o (life s)) (RequestWork.drain (work s)) s).

(** The body raised: an [Exception] is a failure of the runtime. *)
Definition lifespan_raises (o : outcome) (e : exn) (s : server) : server :=
  lifespan_finally o (Err e)
    (if is_Exception e then set_app (set_failed true (life s)) (work s) s else s).

Definition lifespan_start (o : outcome) (s : server) : server :=
  match RequestWork.resume (work s) with
  | Err e => lifespan_raises o e s
  | Ok w => set_span LStarting (set_app (Lifecycle.startup (life s)) w s)
  end.

(** [startup] returned. *)
Definition lifespan_started (o : outcome) (s : server) : server :=
  match last (history (life s)) with
  | Some (StartupReturned (Err e)) => lifespan_raises o e s
  | _ => set_span LServing s
  end.

(** [drain] returned: the services are stopped; then the lifespan ends. *)
Definition lifespan_drained (o : outcome) (r : py unit) (s : server) : server :=
  set_span (LStopping r) (set_app (Lifecycle.shutdown o (life s)) (work s) s).
Definition lifespan_stopped (r : py unit) (s : server) : server :=
  match last (history (life s)) with
  | Some (ShutdownReturned (Err e)) => set_span (LDone (Err e)) s
  | _ => set_span (LDone r) s
  end.

(** *** [run], and the exit status [main] gives it. *)
Definition run_returns (r : py unit) (s : server) : server :=
  match r with
  | Ok _ => if started s then exit_with 0 s else exit_with 1 s
  | Err _ => exit_with 1 s
  end.

(** *** Events *)
Inductive event :=
| Load
| LifespanStart (o : outcome)
| LifespanStarted (o : outcome)
| Thrown (o : outcome) (e : exn)       (* at the [yield] *)
| LifespanStop (o : outcome)
| DrainReturns (o : outcome)
| DrainCancelled                       (* the lifespan's task is cancelled in [drain] *)
| StopReturnsLast                      (* [lifecycle.shutdown] returned or was cancelled *)
| Life (e : Lifecycle.event)
| Work (e : RequestWork.event)
| Signal (o : outcome)
| RequestShutdown (o : outcome)
| StartupReturns (b : bool)            (* the superclass's [startup], started or not *)
| CallShutdown (o : outcome)
| WaitTasksDrain                       (* [_wait_tasks_to_complete] reaches [work.drain()] *)
| WaitTasksFails                       (* ... its deadline passed, or it was cancelled *)
| ShutdownReturns
| RunReturns (r : py unit).

(** Events of the services and of the requests that the server does not decide. *)
Definition service_event (e : Lifecycle.event) : bool :=
  match e with Lifecycle.StartReturns _ | Lifecycle.StopReturns _ => true | _ => false end.
Definition request_event (e : RequestWork.event) : bool :=
  match e with
  | RequestWork.Request _ | RequestWork.Track _ _ | RequestWork.Done _ | RequestWork.Discard _
  | RequestWork.Tick _ | RequestWork.WaitReturns | RequestWork.GatherReturns => true
  | _ => false
  end.

Definition may_drain (s : server) : bool :=
  match drain_at (work s) with NotDraining | Drained => true | _ => false end.
Definition idle (s : server) : bool := match doing (life s) with Idle => true | _ => false end.

(** The tasks are waited for in [shutdown], before the lifespan is told to end, if it has
    not ended by itself. *)
Definition waits_for_tasks (s : server) : bool :=
  negb (returned s) && match span s with LServing | LDone _ => true | _ => false end.

(** The timer's thread exits the process when its deadline has come. *)
Definition watch (s : server) : server :=
  match _watchdog s with
  | Some d => if d <=? time s then _force_exit s else s
  | None => s
  end.

(** [super().run] returns normally only when [shutdown] did not raise and, once started,
    after it returned; [super().shutdown] returns after the lifespan has ended. *)
Definition step (e : event) (s : server) : option server :=
  if bool_decide (exited s ≠ None) then None
  else match e with
  | Load => Some (set_loaded s)
  | LifespanStart o =>
      match span s with
      | LWaiting => if may_drain s && idle s then Some (lifespan_start o s) else None
      | _ => None
      end
  | LifespanStarted o =>
      match span s with
      | LStarting => if may_drain s && idle s then Some (lifespan_started o s) else None
      | _ => None
      end
  | Thrown o e =>
      match span s with
      | LServing => if may_drain s then Some (lifespan_raises o e s) else None
      | _ => None
      end
  | LifespanStop o =>
      match span s with
      | LServing => if may_drain s then Some (lifespan_finally o (Ok tt) s) else None
      | _ => None
      end
  | DrainReturns o =>
      match span s, drain_at (work s) with
      | LDraining r, Drained => Some (lifespan_drained o r s)
      | _, _ => None
      end
  | DrainCancelled =>
      match span s with
      | LDraining _ =>
          Some (set_span (LDone (Err CancelledError)) (set_app (life s) (set_phase NotDraining (work s)) s))
      | _ => None
      end
  | StopReturnsLast =>
      match span s with
      | LStopping r => if idle s then Some (lifespan_stopped r s) else None
      | _ => None
      end
  | Life e => if service_event e
              then l ← Lifecycle.step e (life s); Some (set_app l (work s) s) else None
  | Work e => if request_event e
              then w ← RequestWork.step e (work s); Some (watch (set_app (life s) w s)) else None
  | Signal o => Some (handle_exit o s)
  | RequestShutdown o => Some (request_shutdown o s)
  | StartupReturns b => Some (set_started b s)
  | CallShutdown o => if returned s then None else Some (shutdown_call o s)
  | WaitTasksDrain =>
      if waits_for_tasks s && may_drain s then Some (set_app (life s) (RequestWork.drain (work s)) s) else None
  | WaitTasksFails =>
      if waits_for_tasks s then Some (set_app (life s) (set_work_failed (work s)) s) else None
  | ShutdownReturns =>
      match _watchdog s, span s with
      | Some _, LDone _ => if negb (returned s) && may_drain s then Some (shutdown_return s) else None
      | _, _ => None
      end
  | RunReturns r =>
      if is_ok r && (raised s || (started s && negb (returned s))) then None else Some (run_returns r s)
  end.

Fixpoint run_events (es : list event) (s : server) : option server :=
  match es with
  | [] => Some s
  | e :: es' => s' ← step e s; run_events es' s'
  end.
End server.

(** ** Lemmas *)
Lemma quiesce_life o h :
  let h' := Lifecycle.quiesce o h in
  shutdown_started h' = shutdown_started h ∧ doing h' = doing h ∧ started_services h' = started_services h
  ∧ history h' = history h ∧ (shutdown_failed h = true → shutdown_failed h' = true).
Proof.
  assert (∀ l h, let h' := foldl (quiesce_one o) h l in
    shutdown_started h' = shutdown_started h ∧ doing h' = doing h ∧ started_services h' = started_services h
    ∧ history h' = history h ∧ (shutdown_failed h = true → shutdown_failed h' = true)) as H.
  { intros l. induction l as [|x l IH]; intros g; simpl; [done|].
    destruct (IH (quiesce_one o g x)) as (-> & -> & -> & -> & Hf).
    unfold quiesce_one in *. destruct (o x) as [[]|]; split_and!; auto. }
  apply (H (started_services h) (set_quiescing true h)).
Qed.

Lemma stop_next_shape h :
  let h' := stop_next Stopping shutdown_finish h in
  (∃ svc, doing h' = Stopping svc)
  ∨ doing h' = Idle ∧ last (history h') = Some (ShutdownReturned (Ok tt)) ∧ started_services h' = [].
Proof.
  unfold stop_next. destruct (pop (started_services h)) as [[rest svc]|] eqn:E; [left; by exists svc|].
  right. simpl. split_and!; [done|by rewrite last_snoc|].
  destruct (started_services h) as [|x l]; [done|]. simpl in E. by destruct (pop l) as [[]|].
Qed.

Lemma stop_next_fields waiting h :
  shutdown_started (stop_next waiting shutdown_finish h) = shutdown_started h
  ∧ shutdown_failed (stop_next waiting shutdown_finish h) = shutdown_failed h.
Proof. unfold stop_next. by destruct (pop _) as [[]|]. Qed.

Lemma stop_rolling_fields e h :
  shutdown_started (stop_next (RollingBack e) (rollback_finish e) h) = shutdown_started h
  ∧ shutdown_failed (stop_next (RollingBack e) (rollback_finish e) h) = shutdown_failed h.
Proof. unfold stop_next. by destruct (pop _) as [[]|]. Qed.

Lemma start_next_fields i h :
  shutdown_started (start_next i h) = shutdown_started h ∧ shutdown_failed (start_next i h) = shutdown_failed h.
Proof. unfold start_next. by destruct (decide _). Qed.

(** What a service's event leaves of the handler. *)
Lemma service_step_fields e h h' :
  service_event e = true → Lifecycle.step e h = Some h' →
  shutdown_started h' = shutdown_started h ∧ (shutdown_failed h = true → shutdown_failed h' = true)
  ∧ doing h ≠ Idle.
Proof.
  destruct e as [|  |r| | |r]; try done; intros _; simpl; destruct (doing h) eqn:Hd; try done; intros [= <-].
  - unfold start_returns. destruct r as [[]|e].
    + destruct (start_next_fields (S i) (record (Started (default EmptyString (services h !! i)))
        (Lifecycle.set_started (started_services h ++ [default EmptyString (services h !! i)]) h))) as [-> ->].
      done.
    + destruct (is_Exception e); [|done].
      destruct (stop_rolling_fields e (record (StartFailed (default EmptyString (services h !! i)) e) h)) as [-> ->].
      done.
  - unfold stop_returns. destruct r as [[]|e']; [by destruct (stop_rolling_fields e h) as [-> ->]|].
    destruct (is_Exception e'); [|done]. by destruct (stop_rolling_fields e (set_failed true h)) as [-> ->].
  - unfold stop_returns. destruct r as [[]|e']; [by destruct (stop_next_fields Stopping h) as [-> ->]|].
    destruct (is_Exception e'); [|done]. by destruct (stop_next_fields Stopping (set_failed true h)) as [-> ->].
Qed.

(** *** The invariant *)
Definition ending (p : lifespan) : option (py unit) :=
  match p with LDraining r | LStopping r | LDone r => Some r | _ => None end.

(** What the handler is doing in each phase of the lifespan. *)
Definition phase_ok (p : lifespan) (h : Lifecycle.handler) : Prop :=
  match p with
  | LWaiting | LServing | LDraining _ => shutdown_started h = false ∧ doing h = Idle
  | LStarting => shutdown_started h = false
  | LStopping _ =>
      (∃ svc, doing h = Stopping svc)
      ∨ doing h = Idle
        ∧ ((∃ e, last (history h) = Some (ShutdownReturned (Err e)) ∧ is_Exception e = false)
           ∨ last (history h) = Some (ShutdownReturned (Ok tt)) ∧ started_services h = [])
  | LDone r => doing h = Idle ∧ (r = Ok tt → started_services h = [])
  end.

Record inv (s : server) : Prop := {
  iv_work : RequestWork.ok (work s);
  iv_watch : exited s = None → ∀ d, _watchdog s = Some d → time s < d;
  iv_drain : ending (span s) ≠ None → draining_at (work s) ≠ None;
  iv_quiet : (∃ r, span s = LStopping r) ∨ span s = LDone (Ok tt) →
    RequestWork.failed (work s) = true ∨ active (work s) = ∅;
  iv_exn : ∀ e, ending (span s) = Some (Err e) → is_Exception e = true → shutdown_failed (life s) = true;
  iv_life : phase_ok (span s) (life s);
  iv_ret : returned s = true →
    RequestWork.failed (work s) = false ∧ shutdown_failed (life s) = false ∧ (∃ r, span s = LDone r)
    ∧ _watchdog s ≠ None ∧ may_drain s = true;
  iv_exit : exited s = Some 0 → started s = true ∧ returned s = true
}.

(** A change of the application that keeps its part of the invariant. *)
Record keeps (s : server) (l : Lifecycle.handler) (w : RequestWork.work) : Prop := {
  kp_work : RequestWork.ok w;
  kp_now : RequestWork.now w = time s;
  kp_drain : draining_at (work s) ≠ None → draining_at w ≠ None;
  kp_quiet : draining_at (work s) ≠ None →
    RequestWork.failed (work s) = true ∨ active (work s) = ∅ → RequestWork.failed w = true ∨ active w = ∅;
  kp_failed : shutdown_failed (life s) = true → shutdown_failed l = true;
  kp_life : phase_ok (span s) (life s) → phase_ok (span s) l
}.

Lemma inv_set_app s l w : inv s → returned s = false → keeps s l w → inv (set_app l w s).
Proof.
  intros [Hw Hwa Hd Hq He Hl Hr Hx] Hret [Kw Kn Kd Kq Kf Kl]. split; simpl; eauto.
  - intros Hex d Hda. unfold time. simpl. rewrite Kn. eauto.
  - intros Hs. apply Kq; [|auto]. apply Hd. destruct Hs as [[r ->]| ->]; done.
  - congruence.
Qed.

Lemma phase_quiesce o p h : phase_ok p h → phase_ok p (Lifecycle.quiesce o h).
Proof.
  destruct (quiesce_life o h) as (E1 & E2 & E3 & E4 & _). unfold phase_ok. by rewrite E1, E2, E3, E4.
Qed.

Lemma ok_quiesce_work w : RequestWork.ok w → RequestWork.ok (RequestWork.quiesce w).
Proof. intros Hw. by apply (work_step_ok RequestWork.Quiesce w). Qed.

Lemma keeps_quiesce o s :
  RequestWork.ok (work s) → keeps s (Lifecycle.quiesce o (life s)) (RequestWork.quiesce (work s)).
Proof.
  intros Hw. destruct (quiesce_life o (life s)) as (_ & _ & _ & _ & Hf).
  split; simpl; auto using ok_quiesce_work, phase_quiesce.
Qed.

Lemma drain_fields w :
  RequestWork.failed (RequestWork.drain w) = RequestWork.failed w ∧ active (RequestWork.drain w) = active w
  ∧ draining_at (RequestWork.drain w) ≠ None ∧ RequestWork.now (RequestWork.drain w) = RequestWork.now w.
Proof. unfold RequestWork.drain, drain_loop. by destruct (decide _). Qed.

Lemma ok_drain w : RequestWork.ok (RequestWork.drain w).
Proof. by apply ok_drain_loop. Qed.

(** What a request's event leaves of the work. *)
Lemma request_step_fields e w w' :
  request_event e = true → RequestWork.step e w = Some w' →
  draining_at w' = draining_at w ∧ (RequestWork.failed w = true → RequestWork.failed w' = true)
  ∧ (draining_at w ≠ None → active w = ∅ → active w' = ∅)
  ∧ (match drain_at w with NotDraining | Drained => true | _ => false end = true →
     drain_at w' = drain_at w ∧ RequestWork.failed w' = RequestWork.failed w).
Proof.
  destruct e as [t|parent t|t|t|d| | | | |]; try done; intros _; simpl; intros Hs.
  - destruct (fresh t w); simplify_eq. unfold arrive. destruct (draining_at w) eqn:E; simpl; [done|].
    by split_and!.
  - destruct (bool_decide (parent ∈ active w)) eqn:Hp; [|done]. apply bool_decide_eq_true in Hp.
    destruct (fresh t w); simplify_eq/=. split_and!; try done. set_solver.
  - case_bool_decide; simplify_eq. split_and!; try done. intros _. apply active_shrinks; simpl; set_solver.
  - case_bool_decide; simplify_eq. split_and!; try done. intros _. apply active_shrinks; simpl; set_solver.
  - destruct (Z.ltb_spec d 0); by simplify_eq.
  - destruct (drain_at w); simplify_eq. destruct (_ || _); simplify_eq. unfold wait_returns, drain_loop.
    by repeat case_decide.
  - destruct (drain_at w); simplify_eq. case_bool_decide; by simplify_eq.
Qed.

Section inv.
Context (shutdown_ticks : Z).
Hypothesis shutdown_ticks_pos : 0 < shutdown_ticks.
#[local] Abbreviation step := (step shutdown_ticks).

Lemma inv_begin_shutdown o s : inv s → returned s = false → inv (_begin_shutdown shutdown_ticks o s).
Proof.
  intros Hi Hret. unfold _begin_shutdown.
  assert (∀ s, inv s → returned s = false →
    inv (if loaded s then set_app (Lifecycle.quiesce o (life s)) (RequestWork.quiesce (work s)) (set_notice s)
         else s)) as H.
  { intros s1 Hi1 Hr1. destruct (loaded s1); [|done].
    assert (inv (set_notice s1)) as Hn by (by destruct Hi1).
    apply (inv_set_app (set_notice s1)); [done|done|]. apply (keeps_quiesce o (set_notice s1)), (iv_work _ Hn). }
  destruct (_watchdog s); [exact (H s Hi Hret)|].
  refine (H (set_watchdog (time s + shutdown_ticks) s) _ Hret).
  destruct Hi as [Hw Hwa Hd Hq He Hl Hr Hx]. split; simpl; eauto.
  - intros _ d [= <-]. unfold time. simpl. lia.
  - congruence.
Qed.

Lemma inv_force_exit s : inv s → inv (_force_exit s).
Proof. intros [Hw Hwa Hd Hq He Hl Hr Hx]. by split. Qed.

Lemma inv_exit_flag s : inv s → inv (set_exit_flag s).
Proof. by intros [Hw Hwa Hd Hq He Hl Hr Hx]. Qed.

Lemma not_returned s : inv s → (∀ r, span s ≠ LDone r) → returned s = false.
Proof.
  intros Hi Hn. destruct (returned s) eqn:E; [|done].
  destruct (iv_ret _ Hi E) as (_ & _ & [r Hr] & _). by destruct (Hn r).
Qed.

Lemma inv_signal o s : inv s →
  inv (match _watchdog s with Some _ => _force_exit s | None => set_exit_flag (_begin_shutdown shutdown_ticks o s) end).
Proof.
  intros Hi. destruct (_watchdog s) eqn:E; [by apply inv_force_exit|].
  apply inv_exit_flag, inv_begin_shutdown; [done|]. destruct (returned s) eqn:Er; [|done].
  destruct (iv_ret _ Hi Er) as (_ & _ & _ & Hn & _). done.
Qed.

(** The [finally] of the lifespan, entered from its body. *)
Lemma inv_finally o r s :
  inv s → returned s = false → shutdown_started (life s) = false → doing (life s) = Idle →
  (∀ e, r = Err e → is_Exception e = true → shutdown_failed (life s) = true) →
  inv (lifespan_finally o r s).
Proof.
  intros [Hw Hwa Hd Hq He Hl Hr Hx] Hret Hs Hdo Hexn.
  destruct (quiesce_life o (life s)) as (E1 & E2 & _ & _ & Hf).
  destruct (drain_fields (work s)) as (_ & _ & Hdr & Hnow). split; simpl.
  - apply ok_drain.
  - unfold time. simpl. rewrite Hnow. eauto.
  - done.
  - intros [[? ?]|?]; done.
  - intros e [= ->] Hex. apply Hf. eauto.
  - by rewrite E1, E2.
  - congruence.
  - done.
Qed.

Lemma inv_raises o e s :
  inv s → returned s = false → shutdown_started (life s) = false → doing (life s) = Idle →
  inv (lifespan_raises o e s).
Proof.
  intros Hi Hret Hs Hdo. unfold lifespan_raises. destruct (is_Exception e) eqn:Ex.
  - apply inv_finally; try done. destruct Hi as [Hw Hwa Hd Hq He Hl Hr Hx]. split; simpl; try done.
    + congruence.
  - apply inv_finally; try done. intros e' [= <-]. congruence.
Qed.

(** *** The lifespan's steps *)
Lemma inv_lifespan_start o s : inv s → span s = LWaiting → idle s = true → inv (lifespan_start o s).
Proof.
  intros Hi Hsp Hidle. assert (returned s = false) as Hret by (apply not_returned; [done|congruence]).
  pose proof Hi as [Hw Hwa Hd Hq He Hl Hr Hx]. rewrite Hsp in Hl. destruct Hl as [Hs Hdo].
  unfold lifespan_start. destruct (RequestWork.resume (work s)) as [w|e] eqn:Er; [|by apply inv_raises].
  unfold RequestWork.resume in Er. destruct (decide _); simplify_eq. split; simpl; try done.
  - intros [[? ?]|?]; done.
  - unfold Lifecycle.startup. destruct (startup_started (life s)); [done|].
    by destruct (start_next_fields 0 (Lifecycle.set_started [] (set_startup true false (set_shutdown false
       (set_failed false (set_quiescing false (life s))))))) as [-> _].
  - congruence.
Qed.

Lemma idle_doing s : idle s = true → doing (life s) = Idle.
Proof. unfold idle. by destruct (doing _). Qed.

Lemma inv_lifespan_started o s : inv s → span s = LStarting → idle s = true → inv (lifespan_started o s).
Proof.
  intros Hi Hsp Hidle%idle_doing. assert (returned s = false) as Hret by (apply not_returned; [done|congruence]).
  pose proof Hi as [Hw Hwa Hd Hq He Hl Hr Hx]. rewrite Hsp in Hl. simpl in Hl.
  assert (inv (set_span LServing s)) as Hserve.
  { split; simpl; try done; [intros [[? ?]|?]; done|congruence]. }
  unfold lifespan_started. destruct (last (history (life s))) as [[| | |[]|]|]; try done. by apply inv_raises.
Qed.

Lemma inv_drained o r s :
  inv s → span s = LDraining r → drain_at (work s) = Drained → inv (lifespan_drained o r s).
Proof.
  intros Hi Hsp Hdr. assert (returned s = false) as Hret by (apply not_returned; [done|congruence]).
  pose proof Hi as [Hw Hwa Hd Hq He Hl Hr Hx]. rewrite Hsp in *. destruct Hl as [Hs Hdo].
  set (h1 := Lifecycle.quiesce o (set_shutdown true (life s))).
  assert (Lifecycle.shutdown o (life s) = stop_next Stopping shutdown_finish h1) as Esh.
  { unfold Lifecycle.shutdown. by rewrite Hs. }
  destruct (quiesce_life o (set_shutdown true (life s))) as (_ & _ & _ & _ & Hf).
  unfold lifespan_drained. rewrite Esh. split; simpl; try done.
  - intros _. destruct (RequestWork.failed (work s)) eqn:Ef; [by left|right]. by apply (ok_drained _ Hw).
  - intros e [= ->] Hex. destruct (stop_next_fields Stopping h1) as [_ ->]. apply Hf. eauto.
  - destruct (stop_next_shape h1) as [?|(? & ? & ?)]; [by left|right; eauto].
  - congruence.
Qed.

Lemma inv_stopped r s : inv s → span s = LStopping r → idle s = true → inv (lifespan_stopped r s).
Proof.
  intros Hi Hsp Hidle%idle_doing. assert (returned s = false) as Hret by (apply not_returned; [done|congruence]).
  pose proof Hi as [Hw Hwa Hd Hq He Hl Hr Hx]. rewrite Hsp in *. simpl in *.
  destruct Hl as [[svc Hl]|(_ & [(e & Hlast & Hex)|[Hlast Hnil]])]; [congruence| |];
    unfold lifespan_stopped; rewrite Hlast; split; simpl; try done; try congruence.
  - intros _. by apply Hd.
  - intros [[? ?]|?]; done.
  - eauto.
Qed.

Lemma inv_cancelled r s :
  inv s → span s = LDraining r →
  inv (set_span (LDone (Err CancelledError)) (set_app (life s) (set_phase NotDraining (work s)) s)).
Proof.
  intros Hi Hsp. assert (returned s = false) as Hret by (apply not_returned; [done|congruence]).
  pose proof Hi as [Hw Hwa Hd Hq He Hl Hr Hx]. rewrite Hsp in *. destruct Hl as [Hs Hdo].
  split; simpl; try done; try congruence.
  - intros _. by apply Hd.
  - intros [[? ?]|?]; done.
  - by intros e [= <-].
Qed.

(** *** The steps of services and requests *)
Lemma inv_service e l s :
  inv s → service_event e = true → Lifecycle.step e (life s) = Some l → inv (set_app l (work s) s).
Proof.
  intros Hi Hse Hst. destruct (service_step_fields _ _ _ Hse Hst) as (E1 & Hf & Hbusy).
  assert (returned s = false) as Hret.
  { destruct (returned s) eqn:E; [|done]. destruct (iv_ret _ Hi E) as (_ & _ & [r Hr] & _).
    pose proof (iv_life _ Hi) as Hl. rewrite Hr in Hl. by destruct Hbusy, Hl. }
  apply inv_set_app; [done|done|]. split; try done; [apply (iv_work _ Hi)|].
  destruct (span s); simpl; try tauto; [by rewrite E1|]. intros [[svc Hl]|[Hl _]]; [|done].
  destruct e as [|  |r| | |r]; try done; simpl in Hst; rewrite Hl in Hst; [done|]. injection Hst as <-.
  destruct r as [[]|e']; simpl.
  - destruct (stop_next_shape (life s)) as [?|(? & ? & ?)]; [by left|right; eauto].
  - destruct (is_Exception e') eqn:Ex.
    + destruct (stop_next_shape (set_failed true (life s))) as [?|(? & ? & ?)]; [by left|right; eauto].
    + right. split; [done|]. left. exists e'. split; [apply last_snoc|done].
Qed.

Lemma inv_request e w s :
  inv s → exited s = None → request_event e = true → RequestWork.step e (work s) = Some w →
  inv (watch (set_app (life s) w s)).
Proof.
  intros [Hw Hwa Hd Hq He Hl Hr Hx] Hex Hre Hst.
  destruct (request_step_fields _ _ _ Hre Hst) as (Ed & Hf & Ha & Hc).
  pose proof (work_step_ok _ _ _ Hst Hw) as Hw'.
  assert (∀ x, life x = life s → work x = w → span x = span s → returned x = returned s →
    _watchdog x = _watchdog s → exited x ≠ Some 0 →
    (exited x = None → ∀ d, _watchdog x = Some d → time x < d) → inv x) as Hinv.
  { intros x E1 E2 E3 E4 E5 Hx0 Hxw. split; rewrite ?E1, ?E2, ?E3, ?E4; try done.
    - by rewrite Ed.
    - intros Hsp. assert (draining_at (work s) ≠ None) as Hdr by (apply Hd; by destruct Hsp as [[r ->]| ->]).
      destruct (Hq Hsp); [left; auto|right; auto].
    - intros Hret. destruct (Hr Hret) as (H1 & H2 & H3 & H4 & H5). destruct (Hc H5) as [E6 E7].
      split_and!; [congruence|done|done|congruence|]. unfold may_drain. by rewrite E2, E6. }
  unfold watch. simpl. destruct (_watchdog s) as [d|] eqn:Ewd.
  - destruct (Z.leb_spec d (time (set_app (life s) w s))); apply Hinv; simpl; try done; [congruence|].
    intros _ d'. rewrite Ewd. by intros [= <-].
  - apply Hinv; simpl; try done; [congruence|]. intros _ d. by rewrite Ewd.
Qed.

(** *** The steps of [shutdown] *)
Lemma keeps_drain s : keeps s (life s) (RequestWork.drain (work s)).
Proof.
  destruct (drain_fields (work s)) as (E1 & E2 & H3 & E4).
  split; rewrite ?E1, ?E2; auto using ok_drain.
Qed.

Lemma keeps_work_failed s : keeps s (life s) (set_work_failed (work s)).
Proof. by split; simpl; try by auto. Qed.

Lemma waits_not_returned s : waits_for_tasks s = true → returned s = false.
Proof. unfold waits_for_tasks. by destruct (returned s). Qed.

Lemma inv_shutdown_return r s :
  inv s → span s = LDone r → _watchdog s ≠ None → may_drain s = true → exited s = None →
  inv (shutdown_return s).
Proof.
  intros [Hw Hwa Hd Hq He Hl Hr Hx] Hsp Hwd Hm Hex. unfold shutdown_return.
  destruct (_ || _) eqn:E; [by split|]. apply orb_false_iff in E. split; simpl; try done; [|congruence].
  intros _. destruct E. eauto 6.
Qed.

Lemma step_inv e s s' : step e s = Some s' → inv s → inv s'.
Proof.
  unfold HttpServer.step. intros Hs Hi. case_bool_decide as Hex; [done|].
  assert (exited s = None) as Hno by (by destruct (exited s); [destruct Hex|]). clear Hex.
  destruct e as [|o|o|o e|o|o| | |e|e|o|o|b|o| | | |r].
  - simplify_eq. by destruct Hi.
  - destruct (span s) eqn:Hsp; simplify_eq. destruct (may_drain s); [|done].
    destruct (idle s) eqn:Hid; simplify_eq/=. by apply inv_lifespan_start.
  - destruct (span s) eqn:Hsp; simplify_eq. destruct (may_drain s); [|done].
    destruct (idle s) eqn:Hid; simplify_eq/=. by apply inv_lifespan_started.
  - destruct (span s) eqn:Hsp; simplify_eq. destruct (may_drain s); simplify_eq.
    pose proof (iv_life _ Hi) as Hl. rewrite Hsp in Hl. destruct Hl.
    apply inv_raises; try done. apply not_returned; congruence.
  - destruct (span s) eqn:Hsp; simplify_eq. destruct (may_drain s); simplify_eq.
    pose proof (iv_life _ Hi) as Hl. rewrite Hsp in Hl. destruct Hl.
    apply inv_finally; try done. apply not_returned; congruence.
  - destruct (span s) eqn:Hsp; simplify_eq. destruct (drain_at (work s)) eqn:Hda; simplify_eq.
    by apply inv_drained.
  - destruct (span s) eqn:Hsp; simplify_eq. by eapply inv_cancelled.
  - destruct (span s) eqn:Hsp; simplify_eq. destruct (idle s) eqn:Hid; simplify_eq. by apply inv_stopped.
  - destruct (service_event e) eqn:Hse; [|done]. destruct (Lifecycle.step e (life s)) as [l|] eqn:El; simplify_eq/=.
    by eapply inv_service.
  - destruct (request_event e) eqn:Hre; [|done]. destruct (RequestWork.step e (work s)) as [w|] eqn:Ew; simplify_eq/=.
    by eapply inv_request.
  - simplify_eq. by apply inv_signal.
  - simplify_eq. by apply inv_signal.
  - simplify_eq. destruct Hi as [Hw Hwa Hd Hq He Hl Hr Hx]. split; simpl; try done. congruence.
  - destruct (returned s) eqn:Hret; simplify_eq. by apply inv_begin_shutdown.
  - destruct (waits_for_tasks s) eqn:Hwt; [|done]. destruct (may_drain s); simplify_eq/=.
    apply inv_set_app; [done|by apply waits_not_returned|apply keeps_drain].
  - destruct (waits_for_tasks s) eqn:Hwt; simplify_eq.
    apply inv_set_app; [done|by apply waits_not_returned|apply keeps_work_failed].
  - destruct (_watchdog s) eqn:Hwd; [|done]. destruct (span s) eqn:Hsp; simplify_eq.
    destruct (returned s); [done|]. destruct (may_drain s) eqn:Hm; simplify_eq/=.
    eapply inv_shutdown_return; try done. congruence.
  - destruct (is_ok r && _) eqn:Hg; simplify_eq. destruct Hi as [Hw Hwa Hd Hq He Hl Hr Hx].
    unfold run_returns. destruct r as [|]; simpl in Hg; [|by split].
    destruct (started s) eqn:Hst; [|by split]. split; simpl; try done. intros _. split; [done|].
    by destruct (raised s), (returned s).
Qed.

Lemma inv_new services d t : inv (new_server services d t).
Proof.
  assert (∀ h, shutdown_started (foldl register_one h services) = shutdown_started h
    ∧ doing (foldl register_one h services) = doing h) as H.
  { induction services as [|x l IH]; intros h; simpl; [done|]. destruct (IH (register_one h x)) as [-> ->].
    unfold register_one. by case_bool_decide. }
  split; try done; simpl; [by intros [[? ?]|?]|]. apply (H new_handler).
Qed.

Lemma run_events_inv es services d t s :
  run_events shutdown_ticks es (new_server services d t) = Some s → inv s.
Proof.
  generalize (inv_new services d t). generalize (new_server services d t).
  induction es as [|e es IH]; intros s0 H0; simpl; [by intros [= <-]|].
  destruct (step e s0) as [s1|] eqn:E; [|done]. simpl. apply IH. by eapply step_inv.
Qed.
End inv.

(** Requests stay refused once the lifespan is over its start. *)
Lemma quiesced_begin ticks o s :
  draining_at (work s) ≠ None → draining_at (work (_begin_shutdown ticks o s)) ≠ None.
Proof. intros H. unfold _begin_shutdown. destruct (_watchdog s); by destruct (loaded _). Qed.

Lemma quiesced_finally o r s : draining_at (work (lifespan_finally o r s)) ≠ None.
Proof. apply drain_fields. Qed.

Lemma quiesced_signal ticks o s :
  draining_at (work s) ≠ None →
  draining_at (work (match _watchdog s with
                     | Some _ => _force_exit s
                     | None => set_exit_flag (_begin_shutdown ticks o s)
                     end)) ≠ None.
Proof. intros H. destruct (_watchdog s); [done|]. by apply (quiesced_begin ticks o s). Qed.

Lemma watch_work s : work (watch s) = work s.
Proof. unfold watch. destruct (_watchdog s); [|done]. by destruct (_ <=? _). Qed.

Lemma step_quiesced ticks e s s' :
  step ticks e s = Some s' → span s ≠ LWaiting → draining_at (work s) ≠ None → draining_at (work s') ≠ None.
Proof.
  unfold step. case_bool_decide as Hex; [done|]. intros Hs Hw Hd.
  destruct e as [|o|o|o e|o|o| | |e|e|o|o|b|o| | | |r].
  - by simplify_eq.
  - by destruct (span s).
  - destruct (span s); simplify_eq. destruct (_ && _); simplify_eq. unfold lifespan_started.
    destruct (last _) as [[| | |[]|]|]; try done. apply quiesced_finally.
  - destruct (span s); simplify_eq. destruct (may_drain s); simplify_eq. apply quiesced_finally.
  - destruct (span s); simplify_eq. destruct (may_drain s); simplify_eq. apply quiesced_finally.
  - destruct (span s); simplify_eq. destruct (drain_at _); by simplify_eq.
  - destruct (span s); by simplify_eq.
  - destruct (span s); simplify_eq. destruct (idle s); simplify_eq. unfold lifespan_stopped.
    by destruct (last _) as [[| | | |[]]|].
  - destruct (service_event e); [|done]. by destruct (Lifecycle.step e (life s)); simplify_eq/=.
  - destruct (request_event e) eqn:He; [|done]. destruct (RequestWork.step e _) eqn:Ew; simplify_eq/=.
    rewrite watch_work. simpl. by destruct (request_step_fields _ _ _ He Ew) as (-> & _).
  - simplify_eq. by apply quiesced_signal.
  - simplify_eq. by apply quiesced_signal.
  - by simplify_eq.
  - destruct (returned s); simplify_eq. by apply quiesced_begin.
  - destruct (_ && _); simplify_eq. apply drain_fields.
  - destruct (waits_for_tasks s); by simplify_eq.
  - destruct (_watchdog s); [|done]. destruct (span s); simplify_eq. destruct (_ && _); simplify_eq.
    unfold shutdown_return. by destruct (_ || _).
  - destruct (_ && _); simplify_eq. unfold run_returns. destruct r; [|done]. by destruct (started s).
Qed.

(** What a first signal does. *)
Lemma first_signal ticks o s :
  exited s = None → _watchdog s = None →
  ∃ s', step ticks (Signal o) s = Some s' ∧ should_exit s' = true ∧ exited s' = None
    ∧ _watchdog s' = Some (time s + ticks)
    ∧ (loaded s = true → quiescing (life s') = true ∧ draining_at (work s') ≠ None).
Proof.
  intros Hex Hwd. unfold step, handle_exit, _begin_shutdown. rewrite Hex, Hwd. simpl.
  eexists. split; [done|]. destruct (loaded s); simpl; [|done].
  assert (∀ l h, quiescing (foldl (quiesce_one o) h l) = quiescing h) as Hq.
  { intros l. induction l as [|x l IH]; intros h; simpl; [done|]. rewrite IH. unfold quiesce_one.
    by destruct (o x) as [[]|]. }
  by split_and!; try done; intros _; unfold Lifecycle.quiesce; rewrite Hq.
Qed.

(** [C13] The exit of the process is bounded and honest.  In every state the process can
    reach: it exits with status 0 only after it had started, its shutdown returned, no
    request work was abandoned, no service failed to quiesce, start or stop and the
    lifespan ended, without an error of its own; and when nothing cancelled the lifespan,
    no tracked work is running and every service has been stopped.  While it has not
    exited, its clock is before the watchdog's deadline; the first signal arms the
    watchdog, asks the server to exit and, once the application is loaded, stops the
    admission of requests; the second exits with status 1 at once; and from the start of
    the lifespan on, no step admits requests again. *)
Theorem exit_is_bounded_and_honest ticks services d t es s :
  0 < ticks → run_events ticks es (new_server services d t) = Some s →
  (exited s = Some 0 →
     started s = true ∧ RequestWork.failed (work s) = false ∧ shutdown_failed (life s) = false
     ∧ ∃ r, span s = LDone r ∧ (∀ e, r = Err e → is_Exception e = false)
         ∧ (r = Ok tt → active (work s) = ∅ ∧ started_services (life s) = []))
  ∧ (exited s = None →
     (∀ deadline, _watchdog s = Some deadline →
        time s < deadline ∧ ∀ o, step ticks (Signal o) s = Some (exit_with 1 s))
     ∧ (_watchdog s = None → ∀ o, ∃ s', step ticks (Signal o) s = Some s' ∧ should_exit s' = true
          ∧ exited s' = None ∧ _watchdog s' = Some (time s + ticks)
          ∧ (loaded s = true → quiescing (life s') = true ∧ draining_at (work s') ≠ None)))
  ∧ (span s ≠ LWaiting → draining_at (work s) ≠ None → ∀ e s', step ticks e s = Some s' →
     ∀ r, arrive r (work s') = (false, work s')).
Proof.
  intros Hpos Hi%run_events_inv; [|done]. split_and!.
  - intros H0. destruct (iv_exit _ Hi H0) as [Hst Hret].
    destruct (iv_ret _ Hi Hret) as (Hf & Hsf & [r Hr] & _). split_and!; try done. exists r.
    split_and!; [done| |].
    + intros e ->. destruct (is_Exception e) eqn:Ex; [|done].
      rewrite (iv_exn _ Hi e) in Hsf; [done|by rewrite Hr|done].
    + intros ->. pose proof (iv_life _ Hi) as Hl. rewrite Hr in Hl. destruct Hl as [_ Hn].
      destruct (iv_quiet _ Hi) as [?|?]; [by right|congruence|by auto].
  - intros Hex. split.
    + intros deadline Hwd. split; [by apply (iv_watch _ Hi)|]. intros o. unfold step, handle_exit.
      by rewrite Hex, Hwd.
    + intros Hwd o. by apply first_signal.
  - intros Hsp Hd e s' Hs r. pose proof (step_quiesced _ _ _ _ Hs Hsp Hd). unfold arrive.
    by destruct (draining_at (work s')).
Qed.

(** A server of one service, stopped by a signal while a request is served. *)
Definition quiet : string → option (py unit) := λ _, None.
Definition demo_run : list event :=
  [Load; LifespanStart quiet; Life (Lifecycle.StartReturns (Ok tt)); LifespanStarted quiet; StartupReturns true;
   Work (RequestWork.Request 1); Signal quiet; Work (RequestWork.Request 2); CallShutdown quiet;
   WaitTasksDrain; Work (RequestWork.Tick 3); Work (RequestWork.Done 1); Work (RequestWork.Discard 1);
   Work RequestWork.WaitReturns; LifespanStop quiet; DrainReturns quiet;
   Life (Lifecycle.StopReturns (Ok tt)); StopReturnsLast; ShutdownReturns; RunReturns (Ok tt)].

Example demo_run_exits :
  (exited <$> run_events 30 demo_run (new_server ["database"%string] 20 0)) = Some (Some 0).
Proof. vm_compute. reflexivity. Qed.

(** The service fails to stop; the process then exits with 1. *)
Example failed_stop_exits :
  (exited <$> run_events 30 (firstn 16 demo_run ++
     [Life (Lifecycle.StopReturns (Err (RuntimeError "pool"%string))); StopReturnsLast; ShutdownReturns;
      RunReturns (Err (RuntimeError "Application shutdown failed."%string))])
     (new_server ["database"%string] 20 0)) = Some (Some 1).
Proof. vm_compute. reflexivity. Qed.

(** The watchdog's deadline passes while the request is still running. *)
Example watchdog_exits :
  (exited <$> run_events 30 (firstn 10 demo_run ++ [Work (RequestWork.Tick 30)]) (new_server ["database"%string] 20 0))
  = Some (Some 1).
Proof. vm_compute. reflexivity. Qed.

Lemma exit_is_bounded_and_honest_witness :
  match run_events 30 demo_run (new_server ["database"%string] 20 0),
        run_events 30 (firstn 8 demo_run) (new_server ["database"%string] 20 0) with
  | Some s, Some s1 =>
      started s = true ∧ active (work s) = ∅ ∧ started_services (life s) = []
      ∧ step 30 (Signal quiet) s1 = Some (exit_with 1 s1)
  | _, _ => False
  end.
Proof.
  destruct (run_events 30 demo_run _) as [s|] eqn:E; [|vm_compute in E; discriminate].
  destruct (run_events 30 (firstn 8 demo_run) _) as [s1|] eqn:E1; [|vm_compute in E1; discriminate].
  assert (0 < 30) as Hpos by lia.
  destruct (exit_is_bounded_and_honest 30 _ _ _ demo_run s Hpos E) as (H0 & _ & _).
  destruct (exit_is_bounded_and_honest 30 _ _ _ (firstn 8 demo_run) s1 Hpos E1) as (_ & H1 & _).
  assert (exited s = Some 0 ∧ span s = LDone (Ok tt)) as [Hex Hsp].
  { vm_compute in E. injection E as <-. by split. }
  destruct (H0 Hex) as (Hst & _ & _ & r & Hr & _ & Hok). rewrite Hsp in Hr. injection Hr as <-.
  destruct (Hok eq_refl) as [Ha Hn]. split_and!; [done|done|done|].
  assert (exited s1 = None ∧ _watchdog s1 = Some 30) as [Hex1 Hwd1].
  { vm_compute in E1. injection E1 as <-. by split. }
  by apply (proj1 (H1 Hex1) 30).
Defined.
