(* ===== verification/SecurityScan.v ===== *)
(** * The security gates over dependencies and images

    [scripts/security_scan.py]: [archive_identity], [scan] and [main] around the decision of
    [SecurityPolicy.evaluate].  The output directory and the temporary directory within it
    are those of [ReleaseCandidate.world]; the scanner and Docker are the tool that may
    change it.  A write to the output directory or the removal of a file there may fail at any
    moment ([disk]), and a failing write may leave a part of the text.  What [print] writes,
    the text of [commands.log] and the creation of directories are not modelled. *)
From stdpp Require Import sorting.
From Stdlib Require Import Floats.SpecFloat.
From S2P Require Import Prelude PyText Values Fingerprint Float64 JsonText UnicodeText Json JsonDump SecurityPolicy ReleaseOci ReleaseCandidate.
Open Scope Z_scope.

Inductive scan_mode := DEPENDENCIES | IMAGE.

(** A file of the temporary directory. *)
Definition temp_file (name : string) (w : world) : py string :=
  match assoc_get name (temporary w) with Some s => Ok s | None => Err OSError end.

Definition add_temporary (name text : string) (w : world) : world :=
  set_temporary (assoc_set name text (temporary w)) w.

(** The reports and decisions of an earlier scan. *)
Definition stale_files : list string :=
  ["result.json"; "summary.md"; "runtime.json"; "full.json"; "image.json"; "identity.json"].

(** [TarFile.getmember]: the last of that name. *)
Definition getmember (name : string) (l : list TarInfo) : py TarInfo :=
  match last (List.filter (λ m, String.eqb (m_name m) (rstrip_char "/" name)) l) with
  | Some m => Ok m
  | None => Err (KeyError name)
  end.

(** The octets of a member that is a file of at most [limit] octets. *)
Definition member_octets (m : TarInfo) (limit : Z) (msg : string) : py string :=
  match m_stream m with
  | None => invalid msg
  | Some octets => if limit <? m_size m then invalid msg else octets
  end.

(** A dict of requirements, in the order of its file. *)
Definition requirement_names (file : py string) : list string :=
  match (octets ← file; decode_utf8 octets) with
  | Ok s => omap (λ raw, (λ p, normalize p.1) <$> pinned (ustrip raw)) (usplitlines s)
  | Err _ => []
  end.
Definition requirements_json (names : list string) (packages : gmap string string) : json :=
  JObj (omap (λ name, (λ version, (name, JStr version)) <$> packages !! name) names).

Definition requirements_text (packages : gmap string string) : string :=
  concat_text ((λ p, p.1 +:+ "==" +:+ p.2 +:+ nl) <$> merge_sort key_le (map_to_list packages)).

Definition python_bool (b : bool) : string := if b then "True" else "False".

Section scan.
Context (hexdigest : string → string) (other_digit : string → option Z)
  (decode_wide : string → py string) (float_repr : float → string)
  (tar_members : string → py (list TarInfo)) (isoformat : Z → string) (error_text : exn → string)
  (tool : list string → world → py (Z * string) * world).
(** What the file system answers to a write or a removal: nothing, or the error it raises and
    what a write has left in the file, when it was opened. *)
Context (disk : string → world → option (exn * option string)).
Context (x : settings).

Definition put (name text : string) : M unit := λ w,
  match disk name w with
  | None => write_text name text w
  | Some (e, None) => (Err e, w)
  | Some (e, Some part) => (Err e, (write_text name part w).2)
  end.
Definition put_json (name : string) (value : json) : M unit :=
  put name (json_dumps float_repr value +:+ nl).
Definition put_temporary (name text : string) : M unit := λ w,
  match disk name w with
  | None => (Ok tt, add_temporary name text w)
  | Some (e, _) => (Err e, w)
  end.
Definition unlink (name : string) : M unit := λ w,
  match disk name w with
  | None => (Ok tt, set_evidence (base.delete name) w)
  | Some (e, _) => (Err e, w)
  end.
Fixpoint unlink_all (names : list string) : M unit :=
  match names with
  | [] => mret tt
  | name :: names' => unlink name;; unlink_all names'
  end.

Definition run (arguments : list string) : M string := λ w,
  let '(r, w') := tool arguments w in
  let w' := set_commands (commands w) w' in
  match r with
  | Ok (returncode, stdout) =>
      if returncode =? 0 then (Ok stdout, set_commands (commands w ++ [(arguments, stdout)]) w')
      else (Err (RuntimeError ("Security tool failed with exit " +:+ pretty returncode +:+ "; see commands.log.")),
            w')
  | Err e => (Err e, w')
  end.

(** [json.load] *)
Definition json_load (body : string) : py json :=
  s ← json_text decode_wide body; json_loads plain_hooks s.

Definition archive_identity (archive : py string) (image_id : string) : py unit :=
  octets ← archive; members ← tar_members octets;
  m ← getmember "manifest.json" members;
  body ← member_octets m (1024 * 1024) "Missing or oversized Docker archive manifest.";
  v ← json_load body; manifest ← sequence v;
  match manifest with
  | [raw] =>
      entry ← mapping raw; name ← text (get "Config" entry);
      m ← getmember name members;
      body ← member_octets m (16 * 1024 * 1024) "Missing or oversized image configuration.";
      if negb (String.eqb ("sha256:" +:+ hexdigest body) image_id)
      then invalid "Archive does not contain the qualified image configuration." else Ok tt
  | _ => invalid "Expected one image in runtime archive."
  end.

Definition base : list string :=
  ["docker"; "run"; "--rm"; "--volume"; cache_path x +:+ ":/root/.cache/trivy"].
Definition options : list string :=
  ["--scanners"; "vuln"; "--format"; "json"; "--list-all-pkgs"; "--exit-code"; "0"; "--ignorefile"; "/dev/null"].

(** A decision with the time it was made at. *)
Abbreviation timed := (decision * Z)%type (only parsing).

(** [evaluate(read_json(output / name), policy, ...)] *)
Definition evaluate_report (name : string) (policy : json) (e : expectations) : M timed :=
  report ← (w ← look id; lift (read_evidence name w));
  t ← now;
  d ← lift (evaluate other_digit report policy e t);
  mret (d, t).

(** One of the two scans of requirement files. *)
Definition scan_requirements (scanner_id name : string) (policy : json)
    (expected production : gmap string string) : M timed :=
  put_temporary (name +:+ "/requirements.txt") (requirements_text expected);;
  report ← run (base ++ ["--volume"; temporary_path x +:+ "/" +:+ name +:+ ":/input:ro"; scanner_id; "filesystem"]
                ++ options ++ ["/input"]);
  put (name +:+ ".json") report;;
  evaluate_report (name +:+ ".json") policy (mkExpectations expected production None).

Definition dependency_policy : string := "security/dependency-audit-exceptions.json".

Definition scan_dependencies (scanner_id : string) (production development : gmap string string)
  : M (list timed) :=
  policy ← (w ← look id; lift (read_json (checkout w dependency_policy)));
  runtime ← scan_requirements scanner_id "runtime" policy production production;
  full ← scan_requirements scanner_id "full" policy (development ∪ production) production;
  mret [runtime; full].

Definition image_identity (image_id archive_hash : string) : object :=
  [("imageId", JStr image_id); ("archiveSha256", JStr archive_hash)].

Definition scan_image (scanner_id : string) (image_id : option string) (identity : object)
    (production : gmap string string) : M (list timed * object) :=
  match image_id with
  | Some image_id =>
      guard_not (negb (DIGEST image_id)) "Image scan requires the immutable qualified image ID.";;
      _ ← run ["docker"; "image"; "save"; "--output"; temporary_path x +:+ "/runtime.tar"; image_id];
      w ← look id;
      lift (archive_identity (temp_file "runtime.tar" w) image_id);;
      w ← look id;
      archive_hash ← lift (sha256 hexdigest (temp_file "runtime.tar" w));
      let identity := identity ++ image_identity image_id archive_hash in
      put_json "identity.json" (JObj identity);;
      report ← run (base ++ ["--volume"; temporary_path x +:+ ":/input:ro"; scanner_id; "image"] ++ options
                    ++ ["--input"; "/input/runtime.tar"]);
      put "image.json" report;;
      w ← look id;
      again ← lift (sha256 hexdigest (temp_file "runtime.tar" w));
      guard_not (negb (String.eqb again archive_hash)) "Runtime archive changed during scanning.";;
      w ← look id;
      policy ← lift (read_json (checkout w policy_path));
      d ← evaluate_report "image.json" policy (mkExpectations production production (Some image_id));
      mret ([d], identity)
  | None => refuse "Image scan requires the immutable qualified image ID."
  end.

Definition all_allowed (ds : list timed) : bool := forallb (λ d, allowed d.1) ds.
Definition result_json (allowed : bool) (ds : list timed) : json :=
  JObj [("allowed", JBool allowed); ("scans", JList ((λ d, decision_json isoformat d.1 d.2) <$> ds))].

Definition finding_line (f : finding) : string :=
  "- " +:+ severity f +:+ ": " +:+ vulnerabilityId (f_key f) +:+ " " +:+ packageName (f_key f) +:+ "@"
  +:+ installedVersion (f_key f) +:+ "; development-only=" +:+ python_bool (developmentOnly f)
  +:+ "; exception=" +:+ python_bool (excepted f).
Definition summary (allowed : bool) (all : list finding) : string :=
  join nl (["# Security gate: " +:+ (if allowed then "PASS" else "BLOCKED"); "";
            "Critical production/image findings block; development-only findings are nonblocking."; ""]
           ++ (finding_line <$> all)) +:+ nl.

(** The body of the [try], up to its decisions. *)
Definition scan_decisions (mode : scan_mode) (image_id : option string) : M (list timed) :=
  w ← look id;
  production ← lift (requirements (checkout w "requirements.txt"));
  development ← lift (requirements (checkout w "requirements-dev.txt"));
  guard_not (negb (bool_decide (dom production ∩ dom development = ∅)))
    "Runtime and development requirement declarations overlap.";;
  let scanner := default "aquasec/trivy:latest" (TRIVY_SCANNER_IMAGE x) in
  _ ← run ["docker"; "pull"; scanner];
  scanner_id ← run (inspect_id scanner);
  let scanner_id := ustrip scanner_id in
  guard_not (negb (DIGEST scanner_id)) "Invalid scanner identity.";;
  let identity := [("scannerReference", JStr scanner); ("scannerId", JStr scanner_id)] in
  put_json "identity.json" (JObj identity);;
  '(ds, identity) ← with_temporary
    match mode with
    | DEPENDENCIES =>
        ds ← scan_dependencies scanner_id production development;
        mret (ds, identity
                  ++ [("requirements",
                       JObj [("runtime", requirements_json (requirement_names (checkout w "requirements.txt")) production);
                             ("development",
                              requirements_json (requirement_names (checkout w "requirements-dev.txt")) development)])])
    | IMAGE => scan_image scanner_id image_id identity production
    end;
  version ← run (base ++ [scanner_id; "--version"]);
  put_json "identity.json" (JObj (identity ++ [("scannerVersion", JStr version)]));;
  mret ds.

Definition scan_body (mode : scan_mode) (image_id : option string) : M bool :=
  ds ← scan_decisions mode image_id;
  let allowed := all_allowed ds in
  put_json "result.json" (result_json allowed ds);;
  put "summary.md" (summary allowed (mjoin ((λ d, findings d.1) <$> ds)));;
  mret allowed.

Definition failure_result (e : exn) : json :=
  JObj [("allowed", JBool false); ("error", JStr (error_text e))].
Definition failure_summary : string :=
  "# Security gate: BLOCKED" +:+ nl +:+ nl
  +:+ "Tool or evidence validation failed; see result.json and commands.log." +:+ nl.
Definition record_failure (e : exn) : M unit :=
  put_json "result.json" (failure_result e);; put "summary.md" failure_summary.

(** [try: ... except Exception as error: ...; raise] *)
Definition attempt (mode : scan_mode) (image_id : option string) : M bool := λ w,
  match scan_body mode image_id w with
  | (Ok b, w') => (Ok b, w')
  | (Err e, w') => if is_Exception e then (_ ← record_failure e; lift (Err e)) w' else (Err e, w')
  end.

Definition scan (mode : scan_mode) (image_id : option string) : M bool :=
  _ ← unlink_all stale_files; attempt mode image_id.

(** The exit status, or what is not an [Exception]. *)
Definition main (mode : scan_mode) (image_id : option string) : world → py Z * world := λ w,
  match scan mode image_id w with
  | (Ok b, w') => (Ok (if b : bool then 0 else 1), w')
  | (Err e, w') => if is_Exception e then (Ok 1, w') else (Err e, w')
  end.
End scan.

(** ** Lemmas *)

(** A program that leaves the checkout and every file but [names] as they are. *)
Definition frames {A} (names : list string) (p : M A) : Prop :=
  ∀ w, checkout (p w).2 = checkout w ∧ ∀ n, n ∉ names → evidence (p w).2 !! n = evidence w !! n.

Lemma frames_ret {A} names (a : A) : frames names (mret a).
Proof. by intros w. Qed.
Lemma frames_lift {A} names (r : py A) : frames names (lift r).
Proof. by intros w. Qed.
Lemma frames_refuse {A} names msg : frames (A := A) names (refuse msg).
Proof. by intros w. Qed.
Lemma frames_look {A} names (f : world → A) : frames names (look f).
Proof. by intros w. Qed.
Lemma frames_now names : frames names now.
Proof. by intros w. Qed.
Lemma frames_guard names b msg : frames names (guard_not b msg).
Proof. intros w. by destruct b. Qed.
Lemma frames_temporary disk names name text : frames names (put_temporary disk name text).
Proof. intros w. unfold put_temporary. by destruct (disk name w) as [[e l]|]. Qed.
Lemma frames_clear names : frames names (modify clear_temporary).
Proof. by intros w. Qed.
Lemma frames_write names name text : name ∈ names → frames names (write_text name text).
Proof.
  intros Hn w. split; [done|]. intros n Hn'. simpl. apply lookup_insert_ne. by intros ->.
Qed.
Lemma frames_put disk names name text : name ∈ names → frames names (put disk name text).
Proof.
  intros Hn w. unfold put. destruct (disk name w) as [[e [part|]]|]; [|done|]; apply (frames_write names name _ Hn w).
Qed.
Lemma frames_put_json disk names name float_repr v : name ∈ names → frames names (put_json float_repr disk name v).
Proof. apply frames_put. Qed.
Lemma frames_bind {A B} names (p : M A) (f : A → M B) :
  frames names p → (∀ a, frames names (f a)) → frames names (mbind f p).
Proof.
  intros Hp Hf w. unfold mbind, M_bind. specialize (Hp w). destruct (p w) as [[a|e] w1]; [|done].
  destruct (Hf a w1) as [E1 E2], Hp as [E3 E4]. simpl in *. split; [congruence|].
  intros n Hn. by rewrite E2, E4.
Qed.
Lemma frames_temp {A} names (p : M A) : frames names p → frames names (with_temporary p).
Proof.
  intros Hp w. unfold with_temporary, finally.
  destruct (frames_bind names (modify clear_temporary) (λ _, p) (frames_clear names) (λ _, Hp) w) as [E1 E2].
  by destruct ((modify clear_temporary;; p) w) as [r w1].
Qed.
#[export] Hint Resolve frames_ret frames_lift frames_refuse frames_look frames_now frames_guard
  frames_temporary frames_clear frames_write frames_put frames_put_json : frames.

(** A program is taken apart along its binds. *)
Ltac frame_binds :=
  repeat first
    [ progress intros
    | progress eauto with frames
    | apply frames_put
    | apply frames_put_json
    | apply frames_bind
    | apply frames_temp
    | match goal with |- frames _ (let '(_, _) := ?p in _) => destruct p end
    | match goal with |- frames _ (match ?o with Some _ => _ | None => _ end) => destruct o end
    | match goal with |- _ ∈ _ => apply (bool_decide_eq_true_1 _); reflexivity end ].

(** What a program that succeeds leaves. *)
Lemma frames_Ok {A} names (p : M A) w r w' :
  frames names p → p w = (r, w') →
  checkout w' = checkout w ∧ ∀ n, n ∉ names → evidence w' !! n = evidence w !! n.
Proof. intros Hp E. specialize (Hp w). by rewrite E in Hp. Qed.

(** Neither Docker nor the scanner writes outside the directories it is given. *)
Definition confined (tool : list string → world → py (Z * string) * world) : Prop :=
  ∀ args w, evidence (tool args w).2 = evidence w ∧ checkout (tool args w).2 = checkout w.

Lemma put_Ok disk name text w w' : put disk name text w = (Ok tt, w') → w' = set_evidence (<[name := text]>) w.
Proof. unfold put. destruct (disk name w) as [[e [part|]]|]; [done..|]. by intros [= <-]. Qed.

(** A file system on which nothing fails. *)
Definition writable (disk : string → world → option (exn * option string)) : Prop := ∀ name w, disk name w = None.

Lemma put_writable disk name text w : writable disk → put disk name text w = write_text name text w.
Proof. intros Hd. unfold put. by rewrite Hd. Qed.

Lemma record_failure_result float_repr error_text disk e w :
  writable disk →
  ∃ w', record_failure float_repr error_text disk e w = (Ok tt, w') ∧
  evidence w' !! "result.json" = Some (json_dumps float_repr (failure_result error_text e) +:+ nl).
Proof.
  intros Hd. eexists. split.
  - unfold record_failure, put_json, mbind, M_bind. rewrite put_writable by done.
    unfold write_text at 1, modify. rewrite put_writable by done. reflexivity.
  - simpl. rewrite lookup_insert_ne by done. apply lookup_insert_eq.
Qed.

Lemma unlink_all_checkout disk names w : checkout (unlink_all disk names w).2 = checkout w.
Proof.
  revert w. induction names as [|m names IH]; intros w; simpl; [done|].
  unfold mbind, M_bind, unlink. destruct (disk m w) as [[e l]|]; [done|]. by rewrite IH.
Qed.

Lemma unlink_all_writable disk names w :
  writable disk → ∃ w', unlink_all disk names w = (Ok tt, w') ∧ ∀ n, n ∈ names → evidence w' !! n = None.
Proof.
  intros Hd. revert w. induction names as [|m names IH]; intros w; simpl.
  { exists w. split; [done|]. by intros n ?%elem_of_nil. }
  unfold mbind, M_bind, unlink. rewrite Hd. destruct (IH (set_evidence (base.delete m) w)) as (w' & E & Hn).
  exists w'. split; [exact E|].
  assert (∀ names w w' n, unlink_all disk names w = (Ok tt, w') → evidence w !! n = None → evidence w' !! n = None) as Hk.
  { clear -Hd. intros names. induction names as [|k names IH]; intros w w' n; simpl; [by intros [= <-]|].
    unfold mbind, M_bind, unlink. rewrite Hd. intros H Hw. apply (IH _ _ n H). simpl.
    destruct (decide (k = n)) as [->|]; [by rewrite lookup_delete_eq|by rewrite lookup_delete_ne]. }
  intros n [->|Hin]%elem_of_cons; [|by apply Hn]. eapply Hk; [exact E|]. simpl. by rewrite lookup_delete_eq.
Qed.

Section facts.
Context (hexdigest : string → string) (other_digit : string → option Z)
  (decode_wide : string → py string) (float_repr : float → string)
  (tar_members : string → py (list TarInfo)) (isoformat : Z → string) (error_text : exn → string)
  (tool : list string → world → py (Z * string) * world) (disk : string → world → option (exn * option string))
  (x : settings).
Hypothesis tool_confined : confined tool.
#[local] Abbreviation run := (run tool).
#[local] Abbreviation evaluate_report := (evaluate_report other_digit).

Lemma frames_run names args : frames names (run args).
Proof.
  intros w. unfold SecurityScan.run. destruct (tool_confined args w) as [E1 E2].
  destruct (tool args w) as [[[c out]|e] w']; simpl in *; [|by rewrite E1].
  destruct (c =? 0); simpl; by rewrite E1.
Qed.
#[local] Hint Resolve frames_run : frames.

Lemma frames_evaluate names name policy e : frames names (evaluate_report name policy e).
Proof. unfold SecurityScan.evaluate_report. frame_binds. Qed.
#[local] Hint Resolve frames_evaluate : frames.

Lemma frames_requirements names scanner name policy expected production :
  name +:+ ".json" ∈ names →
  frames names (scan_requirements other_digit tool disk x scanner name policy expected production).
Proof. intros Hn. unfold scan_requirements. frame_binds. Qed.
#[local] Hint Resolve frames_requirements : frames.

Definition report_files : list string := ["runtime.json"; "full.json"; "image.json"; "identity.json"].

Lemma frames_image scanner image identity production :
  frames report_files
    (scan_image hexdigest other_digit decode_wide float_repr tar_members tool disk x scanner image identity production).
Proof. unfold scan_image. frame_binds. Qed.

Lemma frames_dependencies scanner production development :
  frames report_files (scan_dependencies other_digit tool disk x scanner production development).
Proof. unfold scan_dependencies. frame_binds. Qed.
#[local] Hint Resolve frames_image frames_dependencies : frames.

Lemma frames_decisions mode image :
  frames report_files
    (scan_decisions hexdigest other_digit decode_wide float_repr tar_members tool disk x mode image).
Proof. unfold scan_decisions. frame_binds. all: destruct mode; frame_binds. Qed.

(** *** What a scan that ends with decisions has seen *)
#[local] Abbreviation decision_time := (decision * Z)%type (only parsing).

(** The decision on the report kept under a name, and what it allows. *)
Definition decided (w : world) (name : string) (policy : json) (e : expectations) (d : decision_time) : Prop :=
  ∃ report, read_evidence name w = Ok report ∧ evaluate other_digit report policy e d.2 = Ok d.1
    ∧ (allowed d.1 = true ↔ ∀ result v, reported report result v → get "Severity" v = JStr "CRITICAL" →
         tolerated other_digit e policy d.2 result v).

Lemma decided_kept w w' name policy e d :
  evidence w' !! name = evidence w !! name → decided w name policy e d → decided w' name policy e d.
Proof. unfold decided, read_evidence, file. by intros ->. Qed.

Lemma evaluate_report_Ok name policy e w d w' :
  evaluate_report name policy e w = (Ok d, w') → decided w' name policy e d.
Proof.
  unfold SecurityScan.evaluate_report. intros H.
  apply M_Ok in H as (report & ? & H1 & H). apply M_Ok in H1 as (? & ? & [= <- <-] & [Hr ->]%lift_Ok).
  apply M_Ok in H as (t & ? & [= <- <-] & H). apply M_Ok in H as (d' & ? & [Hd ->]%lift_Ok & [= <- <-]).
  exists report. split_and!; [done|done|]. by apply evaluate_decides in Hd as [? _].
Qed.

Lemma temp_Ok {A} (p : M A) w a w' :
  with_temporary p w = (Ok a, w') →
  ∃ w1, p (clear_temporary w) = (Ok a, w1) ∧ evidence w' = evidence w1 ∧ checkout w' = checkout w1.
Proof.
  unfold with_temporary, finally. change ((modify clear_temporary;; p) w) with (p (clear_temporary w)).
  destruct (p (clear_temporary w)) as [r w1] eqn:E. intros [= -> <-]. by exists w1.
Qed.

Lemma requirements_Ok scanner name policy expected production w d w' :
  scan_requirements other_digit tool disk x scanner name policy expected production w = (Ok d, w') →
  decided w' (name +:+ ".json") policy (mkExpectations expected production None) d.
Proof.
  unfold scan_requirements. intros H. apply M_Ok in H as ([] & ? & _ & H).
  apply M_Ok in H as (out & ? & _ & H). apply M_Ok in H as ([] & ? & _ & H). by apply evaluate_report_Ok in H.
Qed.

Definition dependencies_decided (w : world) (production development : gmap string string)
    (ds : list decision_time) : Prop :=
  ∃ policy d1 d2, read_json (checkout w dependency_policy) = Ok policy ∧ ds = [d1; d2]
    ∧ decided w "runtime.json" policy (mkExpectations production production None) d1
    ∧ decided w "full.json" policy (mkExpectations (development ∪ production) production None) d2.

Definition image_decided (w : world) (image : option string) (production : gmap string string)
    (ds : list decision_time) : Prop :=
  ∃ id octets policy d, image = Some id ∧ DIGEST id = true ∧ read_json (checkout w policy_path) = Ok policy
    ∧ ds = [d] ∧ archive_identity hexdigest decode_wide tar_members (Ok octets) id = Ok tt
    ∧ decided w "image.json" policy (mkExpectations production production (Some id)) d.

Lemma dependencies_Ok scanner production development w ds w' :
  scan_dependencies other_digit tool disk x scanner production development w = (Ok ds, w') →
  dependencies_decided w' production development ds.
Proof.
  unfold scan_dependencies. intros H.
  apply M_Ok in H as (policy & ? & H1 & H). apply M_Ok in H1 as (? & ? & [= <- <-] & [Hp ->]%lift_Ok).
  apply M_Ok in H as (d1 & w1 & H1 & H). apply M_Ok in H as (d2 & w2 & H2 & [= <- <-]).
  destruct (frames_Ok ["runtime.json"] _ _ _ _ (frames_requirements ["runtime.json"] _ "runtime" _ _ _ ltac:(by left)) H1) as [C1 _].
  destruct (frames_Ok ["full.json"] _ _ _ _ (frames_requirements ["full.json"] _ "full" _ _ _ ltac:(by left)) H2) as [C2 E2].
  exists policy, d1, d2. split_and!; [by rewrite C2, C1|done| |by apply requirements_Ok in H2].
  apply requirements_Ok in H1. eapply decided_kept; [|exact H1].
  apply E2. by intros [?|?%elem_of_nil]%elem_of_cons.
Qed.

Lemma image_Ok scanner image identity production w ds identity' w' :
  scan_image hexdigest other_digit decode_wide float_repr tar_members tool disk x scanner image identity production w
    = (Ok (ds, identity'), w') →
  image_decided w' image production ds.
Proof.
  unfold scan_image. destruct image as [i|]; [|done]. intros H.
  apply M_Ok in H as ([] & ? & Hg & H). destruct (DIGEST i) eqn:Hid; [|done]. injection Hg as <-.
  apply M_Ok in H as (? & w1 & _ & H). apply M_Ok in H as (? & ? & [= <- <-] & H).
  apply M_Ok in H as ([] & ? & [Har ->]%lift_Ok & H). apply M_Ok in H as (? & ? & [= <- <-] & H).
  apply M_Ok in H as (h & ? & [(octets & Ho & _)%sha256_ok ->]%lift_Ok & H).
  unfold id in Ho, Har. rewrite Ho in Har.
  apply M_Ok in H as (? & ? & _ & H). apply M_Ok in H as (? & ? & _ & H). apply M_Ok in H as (? & ? & _ & H).
  apply M_Ok in H as (? & ? & [= <- <-] & H). apply M_Ok in H as (? & ? & [_ ->]%lift_Ok & H).
  apply M_Ok in H as ([] & w2 & Hg & H).
  apply M_Ok in H as (? & ? & [= <- <-] & H). apply M_Ok in H as (policy & ? & [Hp ->]%lift_Ok & H).
  apply M_Ok in H as (d & w3 & Hd & [= <- <- <-]).
  destruct (frames_Ok [] _ _ _ _ (frames_evaluate _ _ _ _) Hd) as [C _].
  exists i, octets, policy, d. split_and!; try done; [by rewrite C|by apply evaluate_report_Ok in Hd].
Qed.

Lemma decisions_Ok mode image w ds w' :
  scan_decisions hexdigest other_digit decode_wide float_repr tar_members tool disk x mode image w = (Ok ds, w') →
  ∃ production development,
    requirements (checkout w "requirements.txt") = Ok production
    ∧ requirements (checkout w "requirements-dev.txt") = Ok development
    ∧ dom production ∩ dom development = ∅
    ∧ match mode with
      | DEPENDENCIES => dependencies_decided w' production development ds
      | IMAGE => image_decided w' image production ds
      end.
Proof.
  unfold scan_decisions. intros H.
  apply M_Ok in H as (? & ? & [= <- <-] & H).
  apply M_Ok in H as (production & ? & [Hp ->]%lift_Ok & H).
  apply M_Ok in H as (development & ? & [Hdev ->]%lift_Ok & H).
  apply M_Ok in H as ([] & ? & Hg & H). case_bool_decide as Hdom; [|done]. injection Hg as <-.
  apply M_Ok in H as (? & ? & _ & H). apply M_Ok in H as (scanner & ? & _ & H).
  apply M_Ok in H as ([] & ? & _ & H). apply M_Ok in H as ([] & ? & _ & H).
  apply M_Ok in H as ([ds' identity] & w1 & H1 & H). apply temp_Ok in H1 as (w2 & H1 & E1 & C1).
  apply M_Ok in H as (version & w3 & H2 & H). apply M_Ok in H as ([] & w4 & H3 & [= -> ->]).
  destruct (frames_Ok [] _ _ _ _ (frames_run _ _) H2) as [C2 E2].
  destruct (frames_Ok ["identity.json"] _ _ _ _ (frames_put_json _ _ _ _ _ ltac:(by left)) H3) as [C3 E3].
  assert (∀ n, n ≠ "identity.json" → evidence w' !! n = evidence w2 !! n) as E.
  { intros n Hn. rewrite E3, E2, E1; [done|by intros ?%elem_of_nil|by intros [?|?%elem_of_nil]%elem_of_cons]. }
  assert (checkout w' = checkout w2) as C by congruence.
  exists production, development. split_and!; try done. destruct mode.
  - apply M_Ok in H1 as (ds1 & ? & H1 & [= -> <- ->]).
    apply dependencies_Ok in H1 as (policy & d1 & d2 & ? & -> & ? & ?). exists policy, d1, d2.
    split_and!; [by rewrite C|done|..]; (eapply decided_kept; [by apply E|done]).
  - apply image_Ok in H1 as (i & octets & policy & d & ? & ? & ? & ? & ? & ?). exists i, octets, policy, d.
    split_and!; try done; [by rewrite C|]. eapply decided_kept; [by apply E|done].
Qed.

#[local] Abbreviation scan_body :=
  (scan_body hexdigest other_digit decode_wide float_repr tar_members isoformat tool disk x).

(** The body of a scan that returns. *)
Lemma scan_body_Ok mode image w b w' :
  scan_body mode image w = (Ok b, w') →
  ∃ production development ds,
     evidence w' !! "result.json" = Some (json_dumps float_repr (result_json isoformat b ds) +:+ nl)
     ∧ (b = true ↔ ∀ d, d ∈ ds → allowed d.1 = true)
     ∧ requirements (checkout w "requirements.txt") = Ok production
     ∧ requirements (checkout w "requirements-dev.txt") = Ok development
     ∧ dom production ∩ dom development = ∅
     ∧ match mode with
       | DEPENDENCIES => dependencies_decided w' production development ds
       | IMAGE => image_decided w' image production ds
       end.
Proof.
  unfold SecurityScan.scan_body. intros H. apply M_Ok in H as (ds & w1 & Hds & H).
  apply M_Ok in H as ([] & ? & ->%put_Ok & H). apply M_Ok in H as ([] & ? & ->%put_Ok & [= <- <-]).
  apply decisions_Ok in Hds as (production & development & Hp & Hd & Hdom & Hm).
  exists production, development, ds. split_and!; try done.
  - simpl. rewrite lookup_insert_ne by done. apply lookup_insert_eq.
  - unfold all_allowed. rewrite forallb_forall. split; intros Hall d Hin; apply Hall; by apply list_elem_of_In.
  - assert (∀ n, n ≠ "result.json" → n ≠ "summary.md" → ∀ s1 s2,
      <["summary.md":=s1]> (<["result.json":=s2]> (evidence w1)) !! n = evidence w1 !! n) as Hk.
    { intros n H1 H2 s1 s2. by rewrite !lookup_insert_ne. }
    destruct mode.
    + destruct Hm as (policy & d1 & d2 & ? & ? & ? & ?). exists policy, d1, d2.
      split_and!; [done|done|..]; (eapply decided_kept; [by apply Hk|done]).
    + destruct Hm as (i & octets & policy & d & ? & ? & ? & ? & ? & ?). exists i, octets, policy, d.
      split_and!; try done. eapply decided_kept; [by apply Hk|done].
Qed.

(** One that does not, when no write fails, has not come to write its result. *)
Lemma scan_body_Err mode image w e w' :
  writable disk → scan_body mode image w = (Err e, w') →
  evidence w' !! "result.json" = evidence w !! "result.json".
Proof.
  intros Hd H. pose proof (frames_decisions mode image w) as [_ Hf].
  unfold SecurityScan.scan_body, mbind, M_bind in H.
  destruct (scan_decisions _ _ _ _ _ _ _ _ mode image w) as [[ds|e1] w1].
  - exfalso. unfold put_json in H. rewrite put_writable in H by done. unfold write_text at 1, modify in H.
    rewrite put_writable in H by done. discriminate H.
  - injection H as <- <-. apply Hf. by apply (bool_decide_eq_true_1 _).
Qed.
End facts.

(** [C16] A scan never leaves a decision that its evidence does not support, whatever Docker
    and the scanner answer: when it returns, [result.json] says what it returned, which is
    that every report is allowed, each report kept is the one decided on, by the policy of
    the checkout and the pinned requirements — for an image, after the archive saved was
    found to hold the very image asked for — and a report is allowed exactly when every
    critical vulnerability in it is tolerated; this holds whatever writes and removals
    failed. When it fails with an exception [result.json] says so, and when it is
    interrupted no [result.json] of an earlier run is left, as long as no write or removal
    of its own failed. *)
Theorem scan_decision_is_supported hexdigest other_digit decode_wide float_repr tar_members isoformat
    error_text tool disk x mode image w r w' :
  confined tool →
  scan hexdigest other_digit decode_wide float_repr tar_members isoformat error_text tool disk x mode image w
    = (r, w') →
  (∀ b, r = Ok b → ∃ production development ds,
     evidence w' !! "result.json" = Some (json_dumps float_repr (result_json isoformat b ds) +:+ nl)
     ∧ (b = true ↔ ∀ d, d ∈ ds → allowed d.1 = true)
     ∧ requirements (checkout w "requirements.txt") = Ok production
     ∧ requirements (checkout w "requirements-dev.txt") = Ok development
     ∧ dom production ∩ dom development = ∅
     ∧ match mode with
       | DEPENDENCIES => dependencies_decided other_digit w' production development ds
       | IMAGE => image_decided hexdigest other_digit decode_wide tar_members w' image production ds
       end)
  ∧ (∀ e, r = Err e → (∀ name v, disk name v = None) → evidence w' !! "result.json" =
       if is_Exception e
       then Some (json_dumps float_repr (failure_result error_text e) +:+ nl) else None).
Proof.
  intros Hc H. unfold scan, mbind, M_bind in H.
  pose proof (unlink_all_checkout disk stale_files w) as Hco.
  pose proof (unlink_all_writable disk stale_files w) as Hun.
  destruct (unlink_all disk stale_files w) as [[[]|e0] w0]; simpl in Hco.
  2:{ injection H as <- <-. split; [done|]. intros e _ (? & ? & _)%Hun. done. }
  unfold attempt in H. destruct (scan_body _ _ _ _ _ _ _ _ _ mode image w0) as [[b|e] w1] eqn:E.
  - injection H as <- <-. split; [|done]. intros b' [= <-].
    apply scan_body_Ok in E as (production & development & ds & E); [|done].
    rewrite Hco in E. by exists production, development, ds.
  - split; [intros b ->; destruct (is_Exception e); [|done]|].
    { apply M_Ok in H as ([] & ? & _ & [=]). }
    intros e' -> Hd. destruct (is_Exception e) eqn:Ex.
    + destruct (record_failure_result float_repr error_text disk e w1 Hd) as (w2 & E2 & Hr).
      unfold mbind, M_bind in H. rewrite E2 in H. injection H as <- <-. by rewrite Ex.
    + injection H as <- <-. rewrite Ex. apply scan_body_Err in E; [|done..]. rewrite E.
      destruct (Hun Hd) as (w2 & [= <-] & Hn). apply Hn. by left.
Qed.

(** ** An image with a critical vulnerability, then another image, then an interruption *)
Definition scan_config : string := q "{'os':'linux'}".
Definition scan_id (config : string) : string := "sha256:" +:+ demo_hash config.
Definition scan_report : string :=
  q "{'SchemaVersion':2,'ArtifactType':'container_image','Metadata':{'ImageID':'" +:+ scan_id scan_config
  +:+ q "','OS':{'Family':'debian','Name':'12'}},'Results':[{'Target':'t','Type':'debian','Class':'os-pkgs','Packages':[{'Name':'libc','Version':'2'}],'Vulnerabilities':[{'VulnerabilityID':'CVE-1','PkgName':'libc','InstalledVersion':'2','Severity':'CRITICAL'}]},{'Target':'p','Type':'python-pkg','Class':'lang-pkgs','Packages':[{'Name':'Fast_API','Version':'0.1'}]}]}".
Definition scan_members (octets : string) : py (list TarInfo) :=
  if String.eqb octets "tar"
  then Ok [mkTarInfo "manifest.json" REGULAR 20 (Some (Ok (q "[{'Config':'c.json'}]")));
           mkTarInfo "c.json" REGULAR 14 (Some (Ok scan_config))]
  else Err OSError.
Definition scan_tool (interrupted : bool) (args : list string) (w : world) : py (Z * string) * world :=
  if interrupted then (Err CancelledError, w)
  else if bool_decide ("{{.Id}}"%string ∈ args) then (Ok (0, scan_id scan_config +:+ nl), w)
  else if bool_decide ("save"%string ∈ args) then (Ok (0, EmptyString), add_temporary "runtime.tar" "tar" w)
  else if bool_decide ("--input"%string ∈ args) then (Ok (0, scan_report), w)
  else (Ok (0, "Version: 1"%string), w).
Definition scan_checkout (name : string) : py string :=
  match assoc_get name
    [("requirements.txt", "fast_api==0.1"); ("requirements-dev.txt", "pytest==8.0");
     (policy_path, q "{'version':1,'exceptions':[]}")]%string with
  | Some s => Ok s
  | None => Err OSError
  end.
Definition scan_world : world :=
  mkWorld {["result.json" := "old"%string]} (Err OSError) scan_checkout [] [] [] EmptyString
    (λ _, midnight 2026 2 20) 0.
Definition scan_settings : settings :=
  mkSettings None None None None None None None "python" "" "" "" "/cache" "/tmp" "" "" "" None.
Definition demo_scan (interrupted : bool) (config : string) : py bool * world :=
  scan demo_hash (λ _, None) (λ _, Err UnicodeDecodeError) (λ _, "0.0"%string) scan_members (λ _, EmptyString)
    (λ _, "error"%string) (scan_tool interrupted) (λ _ _, None) scan_settings IMAGE (Some (scan_id config)) scan_world.

Lemma scan_tool_confined interrupted : confined (scan_tool interrupted).
Proof. intros args w. unfold scan_tool. by destruct interrupted; repeat case_bool_decide. Qed.

Lemma scan_decision_is_supported_witness :
  (demo_scan false scan_config).1 = Ok false
  ∧ (∃ d, evidence (demo_scan false scan_config).2 !! "result.json"
          = Some (json_dumps (λ _, "0.0"%string) (result_json (λ _, EmptyString) false [d]) +:+ nl)
       ∧ allowed d.1 = false)
  ∧ evidence (demo_scan false "other").2 !! "result.json"
    = Some (json_dumps (λ _, "0.0"%string) (failure_result (λ _, "error"%string) (ValueError EmptyString)) +:+ nl)
  ∧ evidence (demo_scan true scan_config).2 !! "result.json" = None.
Proof.
  assert ((demo_scan false scan_config).1 = Ok false) as E by (vm_compute; reflexivity).
  assert ((demo_scan false "other").1
    = invalid "Archive does not contain the qualified image configuration.") as E1 by (vm_compute; reflexivity).
  assert ((demo_scan true scan_config).1 = Err CancelledError) as E2 by (vm_compute; reflexivity).
  destruct (scan_decision_is_supported _ _ _ _ _ _ _ _ _ _ _ _ _ _ _ (scan_tool_confined false)
    (surjective_pairing (demo_scan false scan_config))) as [H _].
  destruct (scan_decision_is_supported _ _ _ _ _ _ _ _ _ _ _ _ _ _ _ (scan_tool_confined false)
    (surjective_pairing (demo_scan false "other"))) as [_ H1].
  destruct (scan_decision_is_supported _ _ _ _ _ _ _ _ _ _ _ _ _ _ _ (scan_tool_confined true)
    (surjective_pairing (demo_scan true scan_config))) as [_ H2].
  split; [exact E|]. split; [|split].
  - destruct (H false E) as (production & development & ds & Hr & Hb & _ & _ & _ & i & octets & policy & d & Hm).
    destruct Hm as (_ & _ & _ & -> & _). exists d. split; [exact Hr|].
    destruct (allowed d.1) eqn:Ea; [|reflexivity]. symmetry. apply (proj2 Hb).
    intros d' ->%list_elem_of_singleton. exact Ea.
  - exact (H1 _ E1 (λ _ _, eq_refl)).
  - exact (H2 _ E2 (λ _ _, eq_refl)).
Defined.
