(* ===== verification/Schema.v ===== *)
(** * The database schema and its migrations

    [app/database/migrations/versions/], [app/config/migrations.py] and the tables of
    [app/database/entities/]: the revisions as programs over a database of tables with
    rows, the upgrade to the newest one and the check of the current one at startup.  The
    data definitions do what MySQL documents of them: each takes effect at once, a name that
    exists or is missing is refused, and a column added with a default gives it to the rows
    there are. *)
From S2P Require Import Prelude PyText.
Open Scope Z_scope.

(** ** Tables *)
Inductive sql_type :=
| String_ (n : Z) | Numeric (precision scale : Z) | Text | DateTime (timezone : bool)
| INTEGER (unsigned : bool) | SMALLINT (unsigned : bool) | MEDIUMBLOB | DATETIME (fsp : Z).
#[export] Instance sql_type_eq_dec : EqDecision sql_type.
Proof. solve_decision. Defined.

(** [server_default]: [func.now()], a literal of SQL ([sa.text]) or a quoted one. *)
Inductive server_default := Now | Sql (literal : string) | Quoted (literal : string).
#[export] Instance server_default_eq_dec : EqDecision server_default.
Proof. solve_decision. Defined.

Record column := mkColumn { c_name : string; c_type : sql_type; nullable : bool; default_of : option server_default }.

(** A value of a row; a timestamp is that of the statement. *)
Inductive cell := Null | Int (z : Z) | Str (s : string) | Stamp (t : Z).

Record table := mkTable {
  columns : list column;
  primary_key : list string;
  indexes : gmap string (list string);
  rows : list (gmap string cell)
}.

Record db := mkDb {
  tables : gmap string table;
  alembic_version : list string;         (* the current heads *)
  clock : Z
}.

Definition set_table (name : string) (t : table) (d : db) : db :=
  mkDb (<[name := t]> (tables d)) (alembic_version d) (clock d).
Definition set_version (v : list string) (d : db) : db := mkDb (tables d) v (clock d).

Definition has_column (name : string) (t : table) : bool := bool_decide (name ∈ c_name <$> columns t).

Definition with_table (name : string) (f : table → py table) (d : db) : py db :=
  match tables d !! name with
  | None => Err DBAPIError
  | Some t => t' ← f t; Ok (set_table name t' d)
  end.

(** ** The data definitions *)
Definition create_table (name : string) (cols : list column) (pk : list string) (d : db) : py db :=
  match tables d !! name with
  | Some _ => Err DBAPIError
  | None => Ok (set_table name (mkTable cols pk ∅ []) d)
  end.
Definition drop_table (name : string) (d : db) : py db :=
  match tables d !! name with
  | None => Err DBAPIError
  | Some _ => Ok (mkDb (delete name (tables d)) (alembic_version d) (clock d))
  end.
Definition create_index (index name : string) (cols : list string) : db → py db :=
  with_table name (λ t,
    if bool_decide (is_Some (indexes t !! index)) || negb (forallb (λ c, has_column c t) cols)
    then Err DBAPIError
    else Ok (mkTable (columns t) (primary_key t) (<[index := cols]> (indexes t)) (rows t))).
Definition drop_index (index name : string) : db → py db :=
  with_table name (λ t,
    match indexes t !! index with
    | None => Err DBAPIError
    | Some _ => Ok (mkTable (columns t) (primary_key t) (delete index (indexes t)) (rows t))
    end).

(** The value a default gives a row. *)
Definition digits_value (s : string) : option Z :=
  match String.list_ascii_of_string s with
  | [c] => if is_digit c then Some (digit_value c) else None
  | _ => None
  end.
Definition default_cell (now : Z) (ty : sql_type) (v : option server_default) : cell :=
  match v with
  | None => Null
  | Some Now => Stamp now
  | Some (Sql s) | Some (Quoted s) =>
      match ty with
      | INTEGER _ | SMALLINT _ => match digits_value s with Some z => Int z | None => Str s end
      | _ => Str s
      end
  end.

Definition add_column (name : string) (c : column) (d : db) : py db :=
  with_table name (λ t,
    if has_column (c_name c) t then Err DBAPIError
    else Ok (mkTable (columns t ++ [c]) (primary_key t) (indexes t)
               ((λ r, <[c_name c := default_cell (clock d) (c_type c) (default_of c)]> r) <$> rows t))) d.
Definition drop_column (name col : string) : db → py db :=
  with_table name (λ t,
    if has_column col t
    then Ok (mkTable (List.filter (λ c, negb (String.eqb (c_name c) col)) (columns t)) (primary_key t) (indexes t)
               (delete col <$> rows t))
    else Err DBAPIError).

(** ** The revisions *)
Record revision := mkRevision {
  rev_id : string;
  down_revision : option string;
  upgrade : db → py db;
  downgrade : db → py db
}.

Module M0001.
Definition items_columns : list column :=
  [mkColumn "name" (String_ 120) false None;
   mkColumn "price" (Numeric 10 2) false None;
   mkColumn "description" Text true None;
   mkColumn "id" (String_ 16) false None;
   mkColumn "createdAt" (DateTime true) false (Some Now);
   mkColumn "updatedAt" (DateTime true) false (Some Now)].
Definition upgrade (d : db) : py db :=
  d ← create_table "items" items_columns ["id"] d;
  create_index "ix_items_name" "items" ["name"] d.
Definition downgrade (d : db) : py db := d ← drop_index "ix_items_name" "items" d; drop_table "items" d.
End M0001.

Module M0002.
Definition version_column : column := mkColumn "version" (INTEGER true) false (Some (Sql "1")).
Definition upgrade : db → py db := add_column "items" version_column.
Definition downgrade : db → py db := drop_column "items" "version".
End M0002.

Module M0003.
Definition claim_columns : list column :=
  [mkColumn "scope_hash" (String_ 64) false None;
   mkColumn "namespace" (String_ 256) false None;
   mkColumn "caller_scope" (String_ 128) false None;
   mkColumn "operation" (String_ 128) false None;
   mkColumn "route" (String_ 512) false None;
   mkColumn "fingerprint" (String_ 64) false None;
   mkColumn "state" (String_ 16) false None;
   mkColumn "response_status" (SMALLINT true) true None;
   mkColumn "response_body" MEDIUMBLOB true None;
   mkColumn "completed_at" (DATETIME 3) true None;
   mkColumn "expires_at" (DATETIME 3) true None].
Definition upgrade (d : db) : py db :=
  d ← create_table "request_idempotency" claim_columns ["scope_hash"] d;
  create_index "ix_request_idempotency_expiry" "request_idempotency" ["state"; "expires_at"] d.
Definition downgrade : db → py db := drop_table "request_idempotency".
End M0003.

(** The script directory, from its base to its head. *)
Definition revisions : list revision :=
  [mkRevision "0001_create_items" None M0001.upgrade M0001.downgrade;
   mkRevision "0002_item_versions" (Some "0001_create_items") M0002.upgrade M0002.downgrade;
   mkRevision "0003_request_idempotency" (Some "0002_item_versions") M0003.upgrade M0003.downgrade].

(** The revisions that no other is down to. *)
Definition get_heads (l : list revision) : list string :=
  List.filter (λ r, negb (existsb (λ r', bool_decide (down_revision r' = Some r)) l)) (rev_id <$> l).

(** [command.upgrade(config, 'head')]: the revisions after the current one, in order, each
    recorded once it has been applied. *)
Fixpoint apply_upgrades (l : list revision) (d : db) : py db :=
  match l with
  | [] => Ok d
  | r :: l' => d ← upgrade r d; apply_upgrades l' (set_version [rev_id r] d)
  end.
Fixpoint after (v : option string) (l : list revision) : list revision :=
  match v, l with
  | None, _ => l
  | Some v, r :: l' => if String.eqb (rev_id r) v then l' else after (Some v) l'
  | Some _, [] => []
  end.
Definition upgrade_connection (d : db) : py db := apply_upgrades (after (last (alembic_version d)) revisions) d.

(** [command.downgrade] to a revision, undoing the newest first. *)
Fixpoint apply_downgrades (l : list revision) (d : db) : py db :=
  match l with
  | [] => Ok d
  | r :: l' =>
      d ← downgrade r d;
      apply_downgrades l' (set_version (match down_revision r with Some v => [v] | None => [] end) d)
  end.
Definition downgrade_connection (to : option string) (d : db) : py db :=
  apply_downgrades (rev (after to revisions)) d.

(** [check_revision] of the current heads. *)
Definition stale_message : string :=
  "Database schema revision is not current. Run python -m alembic upgrade head.".
Definition same_set (a b : list string) : bool :=
  forallb (λ v, bool_decide (v ∈ b)) a && forallb (λ v, bool_decide (v ∈ a)) b.
Definition check_revision (d : db) : py unit :=
  let heads := get_heads revisions in
  if negb (Nat.eqb (length heads) 1) || negb (same_set (alembic_version d) heads)
  then Err (RuntimeError stale_message) else Ok tt.

(** ** The tables of the entities *)
Module Entities.
(** [mapped_column] of a type annotated [Mapped[T]] or [Mapped[T | None]]. *)
Definition mapped (name : string) (ty : sql_type) (optional : bool) : column := mkColumn name ty optional None.

Definition base_columns : list column :=
  [mapped "id" (String_ 16) false;
   mkColumn "createdAt" (DateTime true) false (Some Now);
   mkColumn "updatedAt" (DateTime true) false (Some Now)].
Definition ItemORM : table :=
  mkTable
    ([mkColumn "version" (INTEGER true) false (Some (Quoted "1"));
      mapped "name" (String_ 120) false; mapped "price" (Numeric 10 2) false; mapped "description" Text true]
     ++ base_columns)
    ["id"] {["ix_items_name" := ["name"]]} [].
Definition IdempotencyORM : table :=
  mkTable
    [mapped "scope_hash" (String_ 64) false; mapped "namespace" (String_ 256) false;
     mapped "caller_scope" (String_ 128) false; mapped "operation" (String_ 128) false;
     mapped "route" (String_ 512) false; mapped "fingerprint" (String_ 64) false;
     mapped "state" (String_ 16) false; mapped "response_status" (SMALLINT true) true;
     mapped "response_body" MEDIUMBLOB true; mapped "completed_at" (DATETIME 3) true;
     mapped "expires_at" (DATETIME 3) true]
    ["scope_hash"] {["ix_request_idempotency_expiry" := ["state"; "expires_at"]]} [].
Definition metadata : list (string * table) := [("items", ItemORM); ("request_idempotency", IdempotencyORM)].
End Entities.

(** What matters of a column: its type, its nullability and the value it gives by default. *)
Definition described (now : Z) (t : table) : gmap string (sql_type * bool * cell) :=
  list_to_map ((λ c, (c_name c, (c_type c, nullable c, default_cell now (c_type c) (default_of c)))) <$> columns t).

(** ** Databases the migrations make *)
Definition items_at (n : nat) (rs : list (gmap string cell)) : table :=
  mkTable (M0001.items_columns ++ (if (2 <=? n)%nat then [M0002.version_column] else [])) ["id"]
    {["ix_items_name" := ["name"]]} rs.
Definition claims_at (rs : list (gmap string cell)) : table :=
  mkTable M0003.claim_columns ["scope_hash"] {["ix_request_idempotency_expiry" := ["state"; "expires_at"]]} rs.

(** At the [n]-th revision, with the rows of its two tables and other tables. *)
Definition database_at (n : nat) (items claims : list (gmap string cell)) (others : gmap string table) (t : Z) : db :=
  mkDb
    ((if (3 <=? n)%nat then <["request_idempotency" := claims_at claims]> else id)
       ((if (1 <=? n)%nat then <["items" := items_at n items]> else id) others))
    (match n with
     | O => []
     | 1 => ["0001_create_items"]
     | 2 => ["0002_item_versions"]
     | _ => ["0003_request_idempotency"]
     end)%nat
    t.
Definition revision_id (n : nat) : option string := last (alembic_version (database_at n [] [] ∅ 0)).

(** The rows of the items once they have versions. *)
Definition migrated (n : nat) (items : list (gmap string cell)) : list (gmap string cell) :=
  match n with
  | O => []
  | 1 => (λ r, <["version" := Int 1]> r) <$> items
  | _ => items
  end%nat.

Section migrations.
Context (others : gmap string table) (t : Z).
Hypothesis no_items : others !! "items" = None.
Hypothesis no_claims : others !! "request_idempotency" = None.
#[local] Abbreviation at_ n items claims := (database_at n items claims others t).

Lemma db_eq (d d' : db) :
  tables d = tables d' → alembic_version d = alembic_version d' → clock d = clock d' → d = d'.
Proof. destruct d, d'. by intros [= ->] [= ->] [= ->]. Qed.

Lemma with_table_insert name f v (ts : gmap string table) vs :
  with_table name f (mkDb (<[name := v]> ts) vs t)
  = (v' ← f v; Ok (mkDb (<[name := v']> ts) vs t)).
Proof.
  unfold with_table. simpl. rewrite lookup_insert_eq. simpl. destruct (f v) as [v'|]; [|done]. simpl.
  unfold set_table. simpl. by rewrite insert_insert_eq.
Qed.

Lemma upgrade_1 vs :
  M0001.upgrade (mkDb others vs t) = Ok (mkDb (<["items" := items_at 1 []]> others) vs t).
Proof.
  unfold M0001.upgrade, create_table. simpl. rewrite no_items. simpl. unfold create_index, set_table. simpl.
  rewrite with_table_insert. done.
Qed.

Lemma upgrade_2 items vs :
  M0002.upgrade (mkDb (<["items" := items_at 1 items]> others) vs t)
  = Ok (mkDb (<["items" := items_at 2 (migrated 1 items)]> others) vs t).
Proof. unfold M0002.upgrade, add_column. rewrite with_table_insert. done. Qed.

Lemma upgrade_3 items vs :
  M0003.upgrade (mkDb (<["items" := items]> others) vs t)
  = Ok (mkDb (<["request_idempotency" := claims_at []]> (<["items" := items]> others)) vs t).
Proof.
  unfold M0003.upgrade, create_table. simpl. rewrite lookup_insert_ne, no_claims by done. simpl.
  unfold create_index, set_table. simpl. by rewrite with_table_insert.
Qed.

Lemma downgrade_3 items claims vs :
  M0003.downgrade (mkDb (<["request_idempotency" := claims]> (<["items" := items]> others)) vs t)
  = Ok (mkDb (<["items" := items]> others) vs t).
Proof.
  unfold M0003.downgrade, drop_table. simpl. rewrite lookup_insert_eq. simpl.
  rewrite delete_insert_id; [done|]. by rewrite lookup_insert_ne, no_claims by done.
Qed.

Lemma downgrade_2 items vs :
  Forall (λ r, r !! "version" = None) items →
  M0002.downgrade (mkDb (<["items" := items_at 2 (migrated 1 items)]> others) vs t)
  = Ok (mkDb (<["items" := items_at 1 items]> others) vs t).
Proof.
  intros Hv. unfold M0002.downgrade, drop_column. rewrite with_table_insert.
  assert (delete "version" <$> migrated 1 items = items) as E.
  { unfold migrated. rewrite <-list_fmap_compose. etransitivity; [|apply list_fmap_id].
    eapply Forall_fmap_ext_1, Forall_impl; [done|]. intros r Hr. by apply delete_insert_id. }
  unfold items_at at 1 2 3. simpl columns. simpl rows. simpl in E. rewrite E. done.
Qed.

Lemma downgrade_1 items vs :
  M0001.downgrade (mkDb (<["items" := items_at 1 items]> others) vs t) = Ok (mkDb others vs t).
Proof.
  unfold M0001.downgrade, drop_index. rewrite with_table_insert.
  assert (indexes (items_at 1 items) !! "ix_items_name" = Some ["name"]) as -> by apply lookup_insert_eq.
  simpl. unfold drop_table. simpl. rewrite lookup_insert_eq. simpl. by rewrite delete_insert_id.
Qed.

(** What each upgrade does, from the revision before it to the one it makes. *)
Lemma upgrade_from n items claims :
  (n ≤ 3)%nat →
  upgrade_connection (at_ n items claims)
  = Ok (at_ 3 (migrated n items) (if (3 <=? n)%nat then claims else [])).
Proof.
  intros Hn. destruct n as [|[|[|[|n]]]]; [| | | |lia]; unfold upgrade_connection, database_at; simpl.
  - rewrite upgrade_1. simpl. unfold set_version. simpl. rewrite upgrade_2. simpl.
    unfold set_version. simpl. by rewrite upgrade_3.
  - rewrite upgrade_2. simpl. unfold set_version. simpl. by rewrite upgrade_3.
  - by rewrite upgrade_3.
  - done.
Qed.

Lemma downgrade_to n items :
  (n ≤ 2)%nat → (n = 1%nat → Forall (λ r, r !! "version" = None) items) → (n = 0%nat → items = []) →
  downgrade_connection (revision_id n) (at_ 3 (migrated n items) []) = Ok (at_ n items []).
Proof.
  intros Hn Hv H0. destruct n as [|[|[|n]]]; [| | |lia]; unfold downgrade_connection, database_at, revision_id; simpl.
  - rewrite downgrade_3. simpl. unfold set_version. simpl.
    rewrite (downgrade_2 []) by done. simpl. unfold set_version. simpl.
    by rewrite downgrade_1.
  - rewrite downgrade_3. simpl. unfold set_version. simpl.
    rewrite (downgrade_2 items) by auto. done.
  - by rewrite downgrade_3.
Qed.

Lemma check_revision_at n items claims :
  (n ≤ 3)%nat → check_revision (at_ n items claims) = Ok tt ↔ n = 3%nat.
Proof. intros Hn. destruct n as [|[|[|[|n]]]]; [| | | |lia]; by vm_compute. Qed.
End migrations.

(** [C27] The migrations make the tables the program maps, from wherever a database stands:
    the upgrade of a database at any revision succeeds, keeps its other tables, the claims
    there are and every column of every item, gives version one to the items that had
    none, and makes tables with exactly the columns, types, defaults, keys and indexes of
    the mapped entities; the revision check of the startup passes after it and fails before
    it; and downgrading again restores the database as it was. *)
Theorem migrations_make_the_mapped_tables others t n items claims :
  (n ≤ 3)%nat → others !! "items" = None → others !! "request_idempotency" = None →
  let before := database_at n items claims others t in
  let after := database_at 3 (migrated n items) (if (3 <=? n)%nat then claims else []) others t in
  upgrade_connection before = Ok after
  ∧ (∀ name tb, (name, tb) ∈ Entities.metadata → ∃ made, tables after !! name = Some made
       ∧ described t made = described t tb ∧ primary_key made = primary_key tb ∧ indexes made = indexes tb)
  ∧ (∀ name, name ∉ Entities.metadata.*1 → tables after !! name = tables before !! name)
  ∧ (check_revision before = Ok tt ↔ n = 3%nat) ∧ check_revision after = Ok tt
  ∧ ((n < 3)%nat → (n = 1%nat → Forall (λ r, r !! "version" = None) items) → (n = 0%nat → items = []) →
     downgrade_connection (revision_id n) after = Ok (database_at n items [] others t)).
Proof.
  intros Hn Hi Hc before after. split_and!.
  - by apply upgrade_from.
  - intros name tb Hin. unfold after, database_at. simpl.
    apply elem_of_cons in Hin as [[= -> ->]|[[= -> ->]|?%elem_of_nil]%elem_of_cons]; [| |done]; eexists.
    + split; [rewrite lookup_insert_ne by done; apply lookup_insert_eq|].
      split_and!; [by vm_compute|done|done].
    + split; [apply lookup_insert_eq|]. split_and!; [by vm_compute|done|done].
  - intros name Hname. unfold after, before, database_at. simpl.
    assert (name ≠ "items" ∧ name ≠ "request_idempotency") as [H1 H2].
    { split; intros ->; apply Hname; [by left|by right; left]. }
    destruct n as [|[|[|n]]]; simpl; by rewrite ?lookup_insert_ne.
  - by apply check_revision_at.
  - by apply check_revision_at.
  - intros Hlt Hv H0. unfold after.
    assert ((3 <=? n)%nat = false) as -> by (apply Nat.leb_gt; lia).
    apply downgrade_to; try done. lia.
Qed.

(** A database at the first revision, with one item and a table of another program. *)
Definition demo_item : gmap string cell := {["id" := Str "a"; "name" := Str "lamp"]}.
Definition demo_others : gmap string table := {["audit" := mkTable [] [] ∅ []]}.

Lemma migrations_make_the_mapped_tables_witness :
  upgrade_connection (database_at 1 [demo_item] [] demo_others 7)
    = Ok (database_at 3 [<["version" := Int 1]> demo_item] [] demo_others 7)
  ∧ (∃ d, upgrade_connection (database_at 1 [demo_item] [] demo_others 7) = Ok d
       ∧ downgrade_connection (revision_id 1) d = Ok (database_at 1 [demo_item] [] demo_others 7))
  ∧ check_revision (database_at 1 [demo_item] [] demo_others 7) ≠ Ok tt.
Proof.
  destruct (migrations_make_the_mapped_tables demo_others 7 1 [demo_item] [] ltac:(lia)
    ltac:(vm_compute; reflexivity) ltac:(vm_compute; reflexivity)) as (H1 & _ & _ & H2 & _ & H3).
  split; [exact H1|]. split.
  - eexists. split; [exact H1|]. apply H3; [lia| |done]. intros _. by constructor.
  - intros H. discriminate (proj1 H2 H).
Defined.
