(* ===== verification/Transport.v ===== *)
(** * Connections of the database engine, and the service that owns it

    The connection creator and the engine of [app/config/database_transport.py], the event
    loops of [app/config/event_loop.py], and [get_session], [init_db], [close_db] and
    [DatabaseService] of [app/config/database.py].  What an await of the driver ends with is
    an argument of the creator and an event of the service: a deadline that expires shows as
    [TimeoutError] at the await it interrupts. *)
From S2P Require Import Prelude DatabasePool Readiness Schema EnvSettings.
Open Scope Z_scope.

(** ** The creator of connections *)

(** What the driver answers, in the order it is asked; a row is the variable and its value. *)
Record driver := mkDriver {
  construct : py unit;
  connect : py unit;
  open_cursor : py unit;
  execute : py unit;
  fetchone : py (option (string * option string));
  close_cursor : py unit;
  close_connection : py unit             (* [connection.close()] *)
}.

Inductive connection_action := Constructed | Connected_ | CipherAsked | Closed.
#[export] Instance connection_action_eq_dec : EqDecision connection_action.
Proof. solve_decision. Defined.

(** The cipher of the session, which must not be empty. *)
Definition check_cipher (row : option (string * option string)) : py unit :=
  match row with
  | Some (_, Some cipher) => if String.eqb cipher "" then Err (unavailable "DB_TLS_REQUIRED") else Ok tt
  | _ => Err (unavailable "DB_TLS_REQUIRED")
  end.

(** The body of the [try]; with TLS, the cursor is closed whatever happens in its block. *)
Definition establish (secure : bool) (d : driver) : py unit * list connection_action :=
  match connect d with
  | Err e => (Err e, [])
  | Ok _ =>
      if secure then
        match open_cursor d with
        | Err e => (Err e, [Connected_])
        | Ok _ =>
            let asked := (_ ← execute d; row ← fetchone d; check_cipher row) in
            (match close_cursor d with Ok _ => asked | Err e => Err e end, [Connected_; CipherAsked])
        end
      else (Ok tt, [Connected_])
  end.

(** The handlers, in their order. *)
Definition creator_error (e : exn) : exn :=
  match e with
  | TimeoutError => unavailable "DB_CONNECT_TIMEOUT"
  | CancelledError => CancelledError
  | HTTPException (DatabaseUnavailableError _) _ _ _ => e
  | _ => unavailable "DB_CONNECTION_FAILED"
  end.

(** An error of [connection.close()] in a handler replaces the one that is handled. *)
Definition creator (secure : bool) (d : driver) : py unit * list connection_action :=
  match construct d with
  | Err e => (Err e, [])
  | Ok _ =>
      match establish secure d with
      | (Ok _, actions) => (Ok tt, Constructed :: actions)
      | (Err e, actions) =>
          (_ ← close_connection d; Err (creator_error e), Constructed :: actions ++ [Closed])
      end
  end.

(** ** The engine *)
Record engine := mkEngine {
  secure : bool;                         (* an SSL context was made *)
  pool_size : Z;
  max_overflow : Z;
  pool_timeout_ms : Z;
  policy_queue_limit : Z
}.

Section engine.
Context `{Environment}.

Definition new_engine (url : string) (p : DatabasePolicy) : py engine :=
  p ← build_database_engine url p; tls ← tls_context p;
  Ok (mkEngine tls (connection_limit p) 0 (acquire_timeout_ms p) (EnvSettings.queue_limit p)).

(** [ConfiguredPool]: its permits are the size of the pool. *)
Definition engine_pool (e : engine) : pool := new_pool (pool_size e + max_overflow e) (policy_queue_limit e).
End engine.

(** A connection the pool asks the engine for. *)
Definition engine_connect (e : engine) (d : driver) : py unit * list connection_action := creator (secure e) d.

(** ** Event loops *)
Inductive loop := SelectorEventLoop | new_event_loop | auto_loop (use_subprocess : bool).
Definition needs_selector (platform : string) (db_ssl : bool) : bool := String.eqb platform "win32" && db_ssl.
Definition database_loop_factory (platform : string) (db_ssl : bool) : loop :=
  if needs_selector platform db_ssl then SelectorEventLoop else new_event_loop.
Definition server_loop_factory (platform : string) (db_ssl : bool) (env : string) : loop :=
  if needs_selector platform db_ssl then SelectorEventLoop else auto_loop (String.eqb env "development").

(** ** Sessions: that of the mutation of the request when it owns one, else a new one. *)
Inductive owned := NotOwned | OwnedSession (s : nat) | NotASession.
Inductive session_used := Shared (s : nat) | Fresh.
Definition get_session (o : owned) : py session_used :=
  match o with
  | OwnedSession s => Ok (Shared s)
  | NotASession => Err (RuntimeError "Invalid mutation transaction session.")
  | NotOwned => Ok Fresh
  end.

(** ** The service *)
Inductive stage :=
| Quiet                                  (* no operation in progress *)
| Checking                               (* [init_db] connects and checks the revision *)
| StoppingReadiness (k : py unit)        (* awaits [database_readiness.stop()], then ends with [k] *)
| Disposing (k : py unit)
| Ended (k : py unit).

Record service := mkService {
  readiness_of : readiness;
  disposed : bool;
  stage_of : stage
}.
Definition set_stage (st : stage) (s : service) : service := mkService (readiness_of s) (disposed s) st.
Definition set_readiness (r : readiness) (s : service) : service := mkService r (disposed s) (stage_of s).

Inductive event :=
| Start                                  (* [DatabaseService.start] *)
| Checked (connection : py unit) (d : db)
| Stop                                   (* [DatabaseService.stop] *)
| StopEnds (r : py unit)
| DisposeEnds (r : py unit)
| Readiness_ (e : Readiness.event).      (* [check] of the service, and its probes *)

(** [stop] of the readiness begins; the operation goes on with [k] after it. *)
Definition stop_readiness (k : py unit) (s : service) : option service :=
  r ← Readiness.step Readiness.Stop (readiness_of s); Some (set_stage (StoppingReadiness k) (set_readiness r s)).

Definition probe_event (e : Readiness.event) : bool :=
  match e with Readiness.Resume | Readiness.Stop | Readiness.StopReturns => false | _ => true end.

Definition idle (s : service) : bool := match stage_of s with Quiet | Ended _ => true | _ => false end.

Definition step (e : event) (s : service) : option service :=
  match e, stage_of s with
  | Start, Quiet | Start, Ended _ => Some (set_stage Checking (mkService (readiness_of s) false (stage_of s)))
  | Checked connection d, Checking =>
      match (_ ← connection; check_revision d) with
      | Ok _ => r ← Readiness.step Readiness.Resume (readiness_of s);
                Some (set_stage (Ended (Ok tt)) (set_readiness r s))
      | Err x => stop_readiness (Err x) s
      end
  | Stop, Quiet | Stop, Ended _ => stop_readiness (Ok tt) s
  | StopEnds (Ok _), StoppingReadiness k =>
      r ← Readiness.step Readiness.StopReturns (readiness_of s); Some (set_stage (Disposing k) (set_readiness r s))
  | StopEnds (Err x), StoppingReadiness _ => Some (set_stage (Ended (Err x)) s)
  | DisposeEnds r, Disposing k =>
      match r with
      | Ok _ => Some (mkService (readiness_of s) true (Ended k))
      | Err x => Some (set_stage (Ended (Err x)) s)
      end
  | Readiness_ e, _ =>
      if probe_event e then r ← Readiness.step e (readiness_of s); Some (set_readiness r s) else None
  | _, _ => None
  end.

Definition new_service (r : readiness) : service := mkService r false Quiet.
Fixpoint run_events (es : list event) (s : service) : option service :=
  match es with
  | [] => Some s
  | e :: es' => s' ← step e s; run_events es' s'
  end.

(** ** Lemmas *)
Definition is_unavailable (e : exn) : bool :=
  match e with HTTPException (DatabaseUnavailableError _) _ _ _ => true | _ => false end.

Lemma creator_error_kind e : creator_error e = CancelledError ∨ is_unavailable (creator_error e) = true.
Proof. destruct e as [[]| | | | | | | | | | | | | | |]; first [left; reflexivity|right; reflexivity]. Qed.

Lemma establish_Ok secure d actions :
  establish secure d = (Ok tt, actions) →
  Closed ∉ actions ∧ connect d = Ok tt
  ∧ (secure = true → ∃ v cipher, fetchone d = Ok (Some (v, Some cipher)) ∧ cipher ≠ EmptyString).
Proof.
  unfold establish. destruct (connect d) as [[]|]; [|done]. destruct secure.
  - destruct (open_cursor d) as [[]|]; [|done]. destruct (close_cursor d) as [[]|]; [|done].
    destruct (execute d) as [[]|]; [|done]. simpl.
    destruct (fetchone d) as [[[v [cipher|]]|]|]; simpl; try done.
    destruct (String.eqb_spec cipher EmptyString) as [|Hne]; [done|]. intros [= <-].
    split_and!; [|done|intros _; by exists v, cipher].
    by intros [?|[?|?%elem_of_nil]%elem_of_cons]%elem_of_cons.
  - intros [= <-]. split_and!; [|done|done]. by intros [?|?%elem_of_nil]%elem_of_cons.
Qed.

Lemma establish_never_closes secure d r actions : establish secure d = (r, actions) → Closed ∉ actions.
Proof.
  unfold establish. destruct (connect d) as [[]|]; [|by intros [= <- <-] ?%elem_of_nil]. destruct secure.
  - destruct (open_cursor d) as [[]|]; intros [= <- <-]; apply (bool_decide_eq_false_1 _); reflexivity.
  - intros [= <- <-]. apply (bool_decide_eq_false_1 _). reflexivity.
Qed.

(** [C25] Connections of an engine: with the policy's permits and without overflow; a
    connection is handed out only once it is established and, when the policy asks for TLS,
    only after the server named the cipher of the session; and whatever goes wrong at any
    await, the connection is closed, once, and the caller sees an error of the database
    being unavailable or the cancellation it was sent, unless closing raised: then that. *)
Theorem connections_are_secured_or_closed `{Environment} url p e d r actions :
  new_engine url p = Ok e → engine_connect e d = (r, actions) →
  admission (engine_pool e) = new_Admission (connection_limit p) (EnvSettings.queue_limit p)
  ∧ (r = Ok tt → Closed ∉ actions ∧ connect d = Ok tt
       ∧ (ssl_enabled p = true → ∃ v cipher, fetchone d = Ok (Some (v, Some cipher)) ∧ cipher ≠ EmptyString))
  ∧ (∀ x, r = Err x → construct d = Ok tt →
       (∃ before, actions = before ++ [Closed] ∧ Closed ∉ before)
       ∧ (close_connection d = Ok tt → x = CancelledError ∨ is_unavailable x = true)
       ∧ (∀ y, close_connection d = Err y → x = y)).
Proof.
  unfold new_engine, build_database_engine. intros He Hc.
  destruct (make_url url) as [[drv opts]|]; [|done].
  destruct (tls_context p) as [tls|] eqn:Htls; [|done]. simpl in He.
  destruct (supported_url url); [|done]. simpl in He. rewrite Htls in He. injection He as <-.
  assert (tls = ssl_enabled p) as ->.
  { unfold tls_context in Htls. destruct (ssl_enabled p); simpl in Htls.
    - destruct (load_certificates _); [by injection Htls|done].
    - destruct (ca_file p); [done|by injection Htls]. }
  split; [unfold engine_pool; simpl; by rewrite Z.add_0_r|].
  unfold engine_connect, creator in Hc. simpl in Hc. destruct (construct d) as [[]|x]; [|by injection Hc as <- <-].
  destruct (establish (ssl_enabled p) d) as [[[]|x] acts] eqn:E; injection Hc as <- <-.
  - split; [|done]. intros _. apply establish_Ok in E as (Hn & ? & ?). split_and!; try done.
    by intros [?|?]%elem_of_cons.
  - destruct (close_connection d) as [[]|y]; (split; [done|]); intros x' [= <-] _;
      (split; [|split; [|naive_solver]]); try (intros _; apply creator_error_kind); try done;
      exists (Constructed :: acts); (split; [done|]); apply establish_never_closes in E;
      by intros [?|?]%elem_of_cons.
Qed.

(** *** The service *)
Record inv (s : service) : Prop := {
  iv_ready : Readiness.ok (readiness_of s);
  iv_down k : stage_of s = Disposing k → stopped (readiness_of s) = true ∧ running (readiness_of s) = ∅
}.

Lemma stop_readiness_inv k s s' : stop_readiness k s = Some s' → inv s → inv s'.
Proof.
  unfold stop_readiness. intros Hs [Hr _].
  destruct (Readiness.step Readiness.Stop (readiness_of s)) as [r|] eqn:E; [|done]. injection Hs as <-.
  split; simpl; [by eapply readiness_step_ok|done].
Qed.

Lemma stopped_stays e r r' :
  probe_event e = true → Readiness.step e r = Some r' → stopped r' = stopped r
  ∧ (stopped r = true → running r = ∅ → running r' = ∅).
Proof.
  destruct e as [| |t query|t| | |d]; try done; intros _; simpl.
  - intros [= <-]. unfold check. destruct (stopped r) eqn:E; [done|].
    destruct (Readiness.active r); [done|]. destruct (cached r) as [[b x]|]; [|by split].
    by destruct (now r <? x).
  - destruct (_ && _); [|done]. intros [= <-]. simpl. split; [done|]. set_solver.
  - destruct (ended r !! t) as [[]|]; [| |done]; intros [= <-]; by split.
  - destruct (d <? 0); [done|]. by intros [= <-].
Qed.

Lemma service_step_inv e s s' : step e s = Some s' → inv s → inv s'.
Proof.
  intros Hs Hi. pose proof Hi as [Hr Hd].
  assert (∀ k, stop_readiness k s = Some s' → inv s') as Hstop by (intros k ?; by eapply stop_readiness_inv).
  destruct e as [|connection d| |r|r|e]; cbn [step] in Hs.
  - destruct (stage_of s); simplify_eq; by split.
  - destruct (stage_of s); simplify_eq.
    destruct (connection ≫= _) as [[]|x]; [|by eapply Hstop].
    destruct (Readiness.step Readiness.Resume _) as [r|] eqn:E; [|done]; injection Hs as <-.
    split; simpl; [by eapply readiness_step_ok|done].
  - destruct (stage_of s); try done; by eapply Hstop.
  - destruct r as [[]|x]; destruct (stage_of s); simplify_eq; [|by split].
    destruct (Readiness.step Readiness.StopReturns _) as [r|] eqn:E; [|done]; injection Hs as <-.
    split; simpl; [by eapply readiness_step_ok|]. intros k' [= <-]. simpl in E.
    destruct (stopping (readiness_of s)) as [x|] eqn:Es; [|done].
    destruct (ok_stopping _ Hr x Es) as [Hst Hrun]. destruct x as [t|].
    + case_bool_decide as Ht; simplify_eq/=. split; [done|]. apply elem_of_equiv_empty_L.
      intros t' Ht'. specialize (Hrun t' Ht'). naive_solver.
    + simplify_eq/=. split; [done|]. apply elem_of_equiv_empty_L. intros t' Ht'. by specialize (Hrun t' Ht').
  - destruct r; destruct (stage_of s); simplify_eq; by split.
  - destruct (probe_event e) eqn:He; [|done].
    destruct (Readiness.step e (readiness_of s)) as [r|] eqn:E; [|done]; injection Hs as <-.
    destruct (stopped_stays _ _ _ He E) as [E1 E2].
    split; simpl; [by eapply readiness_step_ok|]. intros k Hk. destruct (Hd k Hk) as [H1 H2].
    rewrite E1. auto.
Qed.

Lemma service_run_inv es t c r0 s :
  DatabaseReadiness t c = Ok r0 → run_events es (new_service r0) = Some s → inv s.
Proof.
  intros H0. assert (inv (new_service r0)) as Hi.
  { split; [|done]. unfold DatabaseReadiness in H0. destruct (_ || _); [done|]. injection H0 as <-.
    split; simpl; try done; [by intros t0 [? ?%lookup_empty_Some]|by intros b time ?%elem_of_nil]. }
  revert Hi. generalize (new_service r0). induction es as [|e es IH]; intros s0 Hi; simpl; [by intros [= <-]|].
  destruct (step e s0) as [s1|] eqn:E; [|done]. apply IH. by eapply service_step_inv.
Qed.

(** The service of the database answers probes only of a database whose schema is current:
    the one step that enables them is a startup whose connection succeeded and whose
    revision check passed, so that of a database at the newest revision; and when the
    engine is disposed, after a failed startup or a stop, no probe is running and every
    check answers [false] without starting one. *)
Lemma service_serves_current_schema es t c r0 s e s' :
  DatabaseReadiness t c = Ok r0 → run_events es (new_service r0) = Some s → step e s = Some s' →
  (stopped (readiness_of s) = true → stopped (readiness_of s') = false →
     ∃ d, e = Checked (Ok tt) d ∧ check_revision d = Ok tt ∧ stage_of s' = Ended (Ok tt))
  ∧ (∀ k, stage_of s = Disposing k → running (readiness_of s) = ∅
       ∧ Readiness.check (readiness_of s) = (Says false, readiness_of s)).
Proof.
  intros H0 Hrun Hs. pose proof (service_run_inv _ _ _ _ _ H0 Hrun) as [Hr Hd]. split.
  - intros Hst Hst'.
    assert (∀ k, stop_readiness k s = Some s' → stopped (readiness_of s') = true) as Hstop.
    { unfold stop_readiness. intros k Hk.
      destruct (Readiness.step Readiness.Stop _) as [r|] eqn:E; [|done]. injection Hk as <-.
      simpl in E. case_bool_decide; [|done]. by injection E as <-. }
    destruct e as [|connection d| |r|r|e]; cbn [step] in Hs.
    + destruct (stage_of s); simplify_eq; simpl in Hst'; congruence.
    + destruct (stage_of s); simplify_eq. destruct connection as [[]|x]; simpl in Hs.
      * destruct (check_revision d) as [[]|x] eqn:E; [|by rewrite (Hstop _ Hs) in Hst'].
        exists d. split_and!; [done|done|]. case_bool_decide; [|done]. by injection Hs as <-.
      * by rewrite (Hstop _ Hs) in Hst'.
    + destruct (stage_of s); try done; by rewrite (Hstop _ Hs) in Hst'.
    + destruct r as [[]|x]; destruct (stage_of s); simplify_eq; [|simpl in Hst'; congruence].
      destruct (Readiness.step Readiness.StopReturns _) as [r|] eqn:E; [|done]. injection Hs as <-.
      simpl in E, Hst'. destruct (stopping (readiness_of s)) as [[x|]|]; [|by simplify_eq/=; congruence|done].
      case_bool_decide; simplify_eq/=. congruence.
    + destruct r; destruct (stage_of s); simplify_eq; simpl in Hst'; congruence.
    + destruct (probe_event e) eqn:He; [|done].
      destruct (Readiness.step e (readiness_of s)) as [r|] eqn:E; [|done]. injection Hs as <-.
      destruct (stopped_stays _ _ _ He E) as [E1 _]. simpl in Hst'. congruence.
  - intros k Hk. destruct (Hd k Hk) as [H1 H2]. split; [done|]. unfold Readiness.check. by rewrite H1.
Qed.

(** A startup against an old schema is undone; then one against the migrated database. *)
Example service_run :
  let old := database_at 1 [] [] ∅ 0 in
  let current := database_at 3 [] [] ∅ 0 in
  match DatabaseReadiness 1000 1000 with
  | Ok r0 =>
      match run_events [Start; Checked (Ok tt) old; StopEnds (Ok tt); DisposeEnds (Ok tt)] (new_service r0),
            run_events [Start; Checked (Ok tt) current; Readiness_ Check] (new_service r0) with
      | Some s, Some s' =>
          stage_of s = Ended (Err (RuntimeError stale_message)) ∧ disposed s = true
          ∧ stage_of s' = Ended (Ok tt) ∧ running (readiness_of s') = {[O]}
      | _, _ => False
      end
  | Err _ => False
  end.
Proof. vm_compute. by split_and!. Qed.

(** A policy with TLS, and servers that answer, refuse TLS, and are too slow. *)
#[local] Instance demo_environment : Environment := {
  pydantic_int := λ _, None;
  pydantic_pattern := λ _ _, true;
  any_http_url := λ _, None;
  make_url := λ _, Some ("mysql+asyncmy"%string, []);
  zone_info := λ _, true;
  load_certificates := λ _, true
}.
Definition tls_policy : DatabasePolicy := mkDatabasePolicy 10 50 1000 10000 true None.
Definition demo_driver (answer : py unit) (cipher : option string) : driver :=
  mkDriver (Ok tt) answer (Ok tt) (Ok tt) (Ok (Some ("Ssl_cipher"%string, cipher))) (Ok tt) (Ok tt).

Lemma connections_are_secured_or_closed_witness :
  match new_engine "mysql+asyncmy://db/app" tls_policy with
  | Ok e =>
      (engine_connect e (demo_driver (Ok tt) (Some "AES"%string))).1 = Ok tt
      ∧ Closed ∉ (engine_connect e (demo_driver (Ok tt) (Some "AES"%string))).2
      ∧ (∃ before, (engine_connect e (demo_driver (Ok tt) (Some EmptyString))).2 = before ++ [Closed])
      ∧ (engine_connect e (demo_driver (Ok tt) (Some EmptyString))).1 = Err (unavailable "DB_TLS_REQUIRED")
      ∧ ∃ before, (engine_connect e (demo_driver (Err TimeoutError) None)).2 = before ++ [Closed]
  | Err _ => False
  end.
Proof.
  destruct (new_engine "mysql+asyncmy://db/app" tls_policy) as [e|] eqn:E; [|vm_compute in E; discriminate].
  assert (e = mkEngine true 10 0 1000 50) as -> by (vm_compute in E; by injection E as <-).
  set (e := mkEngine true 10 0 1000 50) in *.
  destruct (connections_are_secured_or_closed _ _ e (demo_driver (Ok tt) (Some "AES"%string)) _ _ E eq_refl)
    as (_ & H1 & _).
  destruct (connections_are_secured_or_closed _ _ e (demo_driver (Ok tt) (Some EmptyString)) _ _ E eq_refl)
    as (_ & _ & H2).
  destruct (connections_are_secured_or_closed _ _ e (demo_driver (Err TimeoutError) None) _ _ E eq_refl)
    as (_ & _ & H3).
  destruct (H1 eq_refl) as (Hn & _). destruct (H2 _ eq_refl eq_refl) as [(b2 & Hb2 & _) _].
  destruct (H3 _ eq_refl eq_refl) as [(b3 & Hb3 & _) _].
  split_and!; [reflexivity|exact Hn|by exists b2|reflexivity|by exists b3].
Defined.
