(* ===== verification/JsonDumpFacts.v ===== *)
(** * What is written is read back

    [json.dumps(value, indent=2)], as the release scripts write it ([JsonDump]), is read
    back by [read_json] ([Json]) as the value it was: texts through their escapes and
    surrogate pairs, integers, and lists and objects at any depth. *)
From Stdlib Require Import Floats.SpecFloat.
From S2P Require Import Prelude PyText Values Sha256 Float64 JsonText UnicodeText Json JsonDump SecurityPolicy ReleaseCandidate.
Open Scope Z_scope.

(** Quotients and remainders by constants become linear. *)
Ltac div_lia := Z.to_euclidean_division_equations; lia.

Lemma app_empty b : EmptyString +:+ b = b.
Proof. done. Qed.

(** ** Code points *)
Definition scalar (z : Z) : Prop := 0 ≤ z < 1114112 ∧ ¬ (55296 ≤ z ≤ 57343).

Lemma of_octet_octet c : of_octet (octet c) = c.
Proof. unfold of_octet, octet. rewrite Nat2Z.id. apply Ascii.ascii_nat_embedding. Qed.

Lemma width_2 a : in_range 194 223 a = true → width a = 2%nat.
Proof. intros ?%in_range_spec. unfold width. repeat case_match; zify_bools. Qed.
Lemma width_3 a : in_range 224 239 a = true → width a = 3%nat.
Proof. intros ?%in_range_spec. unfold width. repeat case_match; zify_bools. Qed.
Lemma width_4 a : in_range 240 244 a = true → width a = 4%nat.
Proof. intros ?%in_range_spec. unfold width. repeat case_match; zify_bools. Qed.
Lemma width_1 a : is_ascii_char a = true → width a = 1%nat.
Proof. unfold is_ascii_char. intros ?%Z.ltb_lt. unfold width. repeat case_match; zify_bools. Qed.

(** The encoding of a code point from its octets. *)
Lemma utf8_1 a : is_ascii_char a = true → scalar (octet a) ∧ utf8 (octet a) = String a EmptyString.
Proof.
  unfold is_ascii_char. intros H. pose proof (octet_range a). unfold utf8. rewrite H.
  apply Z.ltb_lt in H. split; [unfold scalar; lia|]. simpl. by rewrite of_octet_octet.
Qed.

Lemma utf8_2 a b :
  in_range 194 223 a = true → in_range 128 191 b = true →
  ∃ z, scalar z ∧ utf8 z = String a (String b EmptyString).
Proof.
  intros Ha%in_range_spec Hb%in_range_spec. exists ((octet a - 192) * 64 + (octet b - 128)).
  split; [unfold scalar; lia|]. unfold utf8.
  rewrite (proj2 (Z.ltb_ge _ 128)), (proj2 (Z.ltb_lt _ 2048)) by lia. simpl.
  rewrite <-(of_octet_octet a) at 3. rewrite <-(of_octet_octet b) at 3. repeat f_equal; div_lia.
Qed.

Lemma utf8_3 a b c :
  in_range 224 239 a = true →
  (if octet a =? 224 then in_range 160 191 b
   else if octet a =? 237 then in_range 128 159 b else in_range 128 191 b) = true →
  in_range 128 191 c = true →
  ∃ z, scalar z ∧ utf8 z = String a (String b (String c EmptyString)).
Proof.
  intros Ha%in_range_spec Hb Hc%in_range_spec.
  assert (128 ≤ octet b ≤ 191 ∧ (octet a = 224 → 160 ≤ octet b) ∧ (octet a = 237 → octet b ≤ 159)) as (? & ? & ?).
  { destruct (Z.eqb_spec (octet a) 224); [apply in_range_spec in Hb; lia|].
    destruct (Z.eqb_spec (octet a) 237); apply in_range_spec in Hb; lia. }
  exists ((octet a - 224) * 4096 + (octet b - 128) * 64 + (octet c - 128)).
  split; [unfold scalar; lia|]. unfold utf8.
  rewrite (proj2 (Z.ltb_ge _ 128)), (proj2 (Z.ltb_ge _ 2048)), (proj2 (Z.ltb_lt _ 65536)) by lia. simpl.
  rewrite <-(of_octet_octet a) at 4. rewrite <-(of_octet_octet b) at 4. rewrite <-(of_octet_octet c) at 4.
  repeat f_equal; div_lia.
Qed.

Lemma utf8_4 a b c d :
  in_range 240 244 a = true →
  (if octet a =? 240 then in_range 144 191 b
   else if octet a =? 244 then in_range 128 143 b else in_range 128 191 b) = true →
  in_range 128 191 c = true → in_range 128 191 d = true →
  ∃ z, scalar z ∧ utf8 z = String a (String b (String c (String d EmptyString))).
Proof.
  intros Ha%in_range_spec Hb Hc%in_range_spec Hd%in_range_spec.
  assert (128 ≤ octet b ≤ 191 ∧ (octet a = 240 → 144 ≤ octet b) ∧ (octet a = 244 → octet b ≤ 143)) as (? & ? & ?).
  { destruct (Z.eqb_spec (octet a) 240); [apply in_range_spec in Hb; lia|].
    destruct (Z.eqb_spec (octet a) 244); apply in_range_spec in Hb; lia. }
  exists ((octet a - 240) * 262144 + (octet b - 128) * 4096 + (octet c - 128) * 64 + (octet d - 128)).
  split; [unfold scalar; lia|]. unfold utf8.
  rewrite (proj2 (Z.ltb_ge _ 128)), (proj2 (Z.ltb_ge _ 2048)), (proj2 (Z.ltb_ge _ 65536)) by lia. simpl.
  rewrite <-(of_octet_octet a) at 5. rewrite <-(of_octet_octet b) at 5. rewrite <-(of_octet_octet c) at 5.
  rewrite <-(of_octet_octet d) at 5. repeat f_equal; div_lia.
Qed.

(** A text is the encoding of its code points, one by one. *)
Lemma uchars_go_step n a r t c :
  width a = String.length (String a c) → (String.length (String a (c +:+ t)) ≤ S n)%nat →
  r = String a (c +:+ t) →
  uchars_go (S n) r = String a c :: uchars_go n t.
Proof.
  intros Hw Hn ->. cbn [uchars_go]. rewrite Hw. f_equal.
  - simpl. f_equal. clear. induction c as [|d c IH]; simpl; [by destruct t|by rewrite IH].
  - f_equal. simpl. clear. induction c as [|d c IH]; [done|apply IH].
Qed.

Lemma uchars_valid s :
  utf8_valid s = true → ∃ zs, Forall scalar zs ∧ uchars s = utf8 <$> zs.
Proof.
  unfold uchars.
  assert (∀ n t, (String.length t ≤ n)%nat → utf8_valid t = true →
    ∃ zs, Forall scalar zs ∧ uchars_go n t = utf8 <$> zs) as H; [|by apply H].
  induction n as [|n IH]; intros t Ht Hv; destruct t as [|a t]; [by exists []|simpl in Ht; lia|by exists []|].
  assert (∀ c r z, t = c +:+ r → width a = String.length (String a c) → scalar z →
    utf8 z = String a c → utf8_valid r = true →
    ∃ zs, Forall scalar zs ∧ uchars_go (S n) (String a t) = utf8 <$> zs) as Hstep.
  { intros c r z -> Hw Hz Hu Hr. destruct (IH r) as (zs & Hzs & E); [|done|].
    - simpl in Ht. assert (∀ x y, (String.length y ≤ String.length (x +:+ y))%nat) as Hle.
      { intros x y. induction x as [|d x IHx]; [done|]. change (String d x +:+ y) with (String d (x +:+ y)). simpl. lia. }
      specialize (Hle c r). lia.
    - exists (z :: zs). split; [by constructor|]. rewrite fmap_cons, Hu, <-E.
      by apply uchars_go_step. }
  simpl in Hv. destruct (is_ascii_char a) eqn:Ea.
  { destruct (utf8_1 a Ea) as [Hz Hu]. eapply (Hstep EmptyString t); try done. by apply width_1. }
  destruct t as [|b t]; [done|]. destruct (in_range 194 223 a) eqn:Ha2.
  { apply andb_true_iff in Hv as [Hb Hv]. destruct (utf8_2 a b Ha2 Hb) as (z & Hz & Hu).
    eapply (Hstep (String b EmptyString) t); try done. by apply width_2. }
  destruct t as [|c t]; [done|]. destruct (in_range 224 239 a) eqn:Ha3.
  { rewrite !andb_true_iff in Hv. destruct Hv as [[Hb Hc] Hv].
    destruct (utf8_3 a b c Ha3 Hb Hc) as (z & Hz & Hu).
    eapply (Hstep (String b (String c EmptyString)) t); try done. by apply width_3. }
  destruct t as [|d t]; [done|]. rewrite !andb_true_iff in Hv. destruct Hv as [[[[Ha4 Hb] Hc] Hd] Hv].
  destruct (utf8_4 a b c d Ha4 Hb Hc Hd) as (z & Hz & Hu).
  eapply (Hstep (String b (String c (String d EmptyString))) t); try done. by apply width_4.
Qed.

Lemma code_point_octets l :
  Forall (λ z, 0 ≤ z < 256) l →
  code_point (octets l) = match l with
  | [a] => a
  | [a; b] => (a - 192) * 64 + (b - 128)
  | [a; b; c] => (a - 224) * 4096 + (b - 128) * 64 + (c - 128)
  | [a; b; c; d] => (a - 240) * 262144 + (b - 128) * 4096 + (c - 128) * 64 + (d - 128)
  | _ => 0
  end.
Proof.
  intros Hl. unfold code_point.
  assert (octet <$> String.list_ascii_of_string (octets l) = l) as ->; [|done].
  induction Hl as [|z l Hz Hl IH]; [done|]. cbn [octets foldr String.list_ascii_of_string]. rewrite fmap_cons.
  rewrite octet_of_octet by done. f_equal. exact IH.
Qed.

Lemma code_point_utf8 z : scalar z → code_point (utf8 z) = z.
Proof.
  intros [Hz _]. unfold utf8.
  destruct (Z.ltb_spec z 128); [rewrite code_point_octets; [done|repeat constructor; lia]|].
  destruct (Z.ltb_spec z 2048); [rewrite code_point_octets; [div_lia|repeat constructor; div_lia]|].
  destruct (Z.ltb_spec z 65536); (rewrite code_point_octets; [div_lia|repeat constructor; div_lia]).
Qed.

(** ** Escapes *)
Lemma hex_digit_back d : 0 ≤ d < 16 → is_hex (hex_digit d) = true ∧ Json.hex_value (hex_digit d) = d.
Proof.
  intros Hd. assert (∃ k, d = Z.of_nat k ∧ (k < 16)%nat) as (k & -> & Hk) by (exists (Z.to_nat d); lia).
  do 16 (destruct k as [|k]; [by vm_compute|]). lia.
Qed.

Lemma nibble z k : 0 ≤ k → Z.land (Z.shiftr z k) 15 = z / 2 ^ k mod 16.
Proof. intros Hk. change 15 with (Z.ones 4). by rewrite Z.land_ones, Z.shiftr_div_pow2 by lia. Qed.

Lemma hex_4 z :
  hex 4 z = String (hex_digit (z / 4096 mod 16)) (String (hex_digit (z / 256 mod 16))
              (String (hex_digit (z / 16 mod 16)) (String (hex_digit (z mod 16)) EmptyString))).
Proof.
  cbn [hex]. rewrite !nibble by lia. change (2 ^ (4 * Z.of_nat 0)) with 1. by rewrite Z.div_1_r.
Qed.

Lemma hex4_hex z r : 0 ≤ z < 65536 → hex4 (hex 4 z +:+ r) = Some (z, r).
Proof.
  intros Hz. rewrite hex_4, !str_cons_app, app_empty. unfold hex4.
  assert (∀ x, 0 ≤ x mod 16 < 16) as Hm by (intros x; apply Z.mod_pos_bound; lia).
  destruct (hex_digit_back _ (Hm (z / 4096))) as [-> ->], (hex_digit_back _ (Hm (z / 256))) as [-> ->],
    (hex_digit_back _ (Hm (z / 16))) as [-> ->], (hex_digit_back _ (Hm z)) as [-> ->].
  cbn [andb]. do 2 f_equal. div_lia.
Qed.

(** One escape is read as the code point it stands for. *)
Lemma parse_escape z n r :
  scalar z →
  parse_string (S n) (escape_code_point (utf8 z) +:+ r)
  = ('(rest, r1) ← parse_string n r; Some (utf8 z +:+ rest, r1)).
Proof.
  intros Hz. destruct (Z_lt_ge_dec z 128) as [Hlt|Hge].
  { assert (∃ k, z = Z.of_nat k ∧ (k < 128)%nat) as (k & -> & Hk) by (exists (Z.to_nat z); unfold scalar in Hz; lia).
    clear Hlt Hz. do 128 (destruct k as [|k]; [reflexivity|]). lia. }
  unfold escape_code_point. rewrite code_point_utf8 by done.
  assert (∀ k, k < 128 → (z =? k) = false) as Hk by (intros; apply Z.eqb_neq; lia).
  rewrite !Hk by lia. rewrite (proj2 (Z.leb_gt z 126)), andb_false_r by lia. cbn [orb].
  destruct Hz as [Hz Hns]. destruct (Z.ltb_spec z 65536).
  - unfold unicode_escape_of.
    change (String backslash_char (String "u" (hex 4 z)) +:+ r)
      with (String backslash_char (String "u" (hex 4 z +:+ r))).
    cbn [parse_string]. change (Ascii.eqb backslash_char quote_char) with false.
    change (Ascii.eqb backslash_char backslash_char) with true. change (Ascii.eqb "u" "u") with true. cbv iota.
    unfold unicode_escape. rewrite hex4_hex by lia. cbn [mbind option_bind].
    assert (high_surrogate z = false) as ->; [|done].
    unfold high_surrogate. destruct (Z.leb_spec 55296 z), (Z.leb_spec z 56319); try done. lia.
  - set (hi := 55296 + _). set (lo := 56320 + _).
    assert (hi = 55296 + (z - 65536) / 1024 ∧ lo = 56320 + (z - 65536) mod 1024) as [Ehi Elo].
    { unfold hi, lo. change 1023 with (Z.ones 10). rewrite !Z.land_ones, Z.shiftr_div_pow2 by lia.
      change (2 ^ 10) with 1024. rewrite (Z.mod_small ((z - 65536) / 1024)) by div_lia. done. }
    clearbody hi lo. unfold unicode_escape_of. rewrite str_app_assoc.
    change (String backslash_char (String "u" (hex 4 hi)) +:+ ?x)
      with (String backslash_char (String "u" (hex 4 hi +:+ x))).
    change (String backslash_char (String "u" (hex 4 lo)) +:+ r)
      with (String backslash_char (String "u" (hex 4 lo +:+ r))).
    cbn [parse_string]. change (Ascii.eqb backslash_char quote_char) with false.
    change (Ascii.eqb backslash_char backslash_char) with true. change (Ascii.eqb "u" "u") with true. cbv iota.
    unfold unicode_escape. rewrite hex4_hex by div_lia. cbn [mbind option_bind].
    assert (high_surrogate hi = true) as ->.
    { unfold high_surrogate. apply andb_true_iff. split; apply Z.leb_le; div_lia. }
    change (Ascii.eqb backslash_char backslash_char) with true. change (Ascii.eqb "u" "u") with true. cbn [andb].
    rewrite hex4_hex by div_lia. cbv iota.
    assert (low_surrogate lo = true) as ->.
    { unfold low_surrogate. apply andb_true_iff. split; apply Z.leb_le; div_lia. }
    assert (65536 + (hi - 55296) * 1024 + (lo - 56320) = z) as ->; [|done]. div_lia.
Qed.

Lemma escape_nonempty c : (1 ≤ String.length (escape_code_point c))%nat ∨ c = EmptyString.
Proof.
  unfold escape_code_point. destruct c as [|a c]; [by right|left].
  repeat case_match; simpl; lia.
Qed.

Lemma utf8_nonempty z : utf8 z ≠ EmptyString.
Proof. unfold utf8. by repeat case_match. Qed.

(** The text of a string, up to its closing quote. *)
Lemma parse_escapes zs n r :
  Forall scalar zs → (length zs < n)%nat →
  parse_string n (concat_text (escape_code_point <$> (utf8 <$> zs)) +:+ String quote_char r)
  = Some (concat_text (utf8 <$> zs), r).
Proof.
  intros Hzs. revert n. induction Hzs as [|z zs Hz _ IH]; intros n Hn; (destruct n as [|n]; [simpl in Hn; lia|]).
  { done. }
  rewrite !fmap_cons. change (concat_text (?a :: ?l)) with (a +:+ concat_text l). rewrite str_app_assoc.
  rewrite parse_escape by done. rewrite IH by (simpl in Hn; lia). done.
Qed.

Lemma escapes_length zs :
  (length zs ≤ String.length (concat_text (escape_code_point <$> (utf8 <$> zs))))%nat.
Proof.
  induction zs as [|z zs IH]; [done|]. rewrite !fmap_cons.
  change (concat_text (?a :: ?l)) with (a +:+ concat_text l). rewrite length_str_app.
  destruct (escape_nonempty (utf8 z)) as [?|?%utf8_nonempty]; [simpl; lia|done].
Qed.

Lemma parse_quoted s t :
  utf8_valid s = true →
  ∃ r, quoted s +:+ t = String quote_char r ∧ parse_string (String.length r) r = Some (s, t).
Proof.
  intros (zs & Hzs & E)%uchars_valid. unfold quoted. rewrite E. rewrite str_cons_app. eexists. split; [done|].
  rewrite str_app_assoc, str_cons_app, app_empty. rewrite parse_escapes.
  - by rewrite <-E, concat_uchars.
  - done.
  - rewrite length_str_app. simpl. pose proof (escapes_length zs). lia.
Qed.

(** ** Numbers *)

(** What may follow a value: nothing, a separator or a blank. *)
Definition delimited (t : string) : bool :=
  match t with
  | String c _ => negb (is_digit c || Ascii.eqb c "."%char || Ascii.eqb c "e"%char || Ascii.eqb c "E"%char)
  | EmptyString => true
  end.

(** A text [parse_value] takes for a number. *)
Definition number_head (s : string) : bool :=
  match s with
  | String c r =>
      is_digit c || (Ascii.eqb c "-"%char && match r with String d _ => is_digit d | EmptyString => false end)
  | EmptyString => false
  end.

Lemma take_digits_app d t :
  str_all is_digit d = true → match t with String c _ => is_digit c | EmptyString => false end = false →
  take_digits (d +:+ t) = (d, t).
Proof.
  intros Hd Ht. induction d as [|c d IH].
  - rewrite app_empty. destruct t as [|c t]; [done|]. simpl. by rewrite Ht.
  - simpl in Hd. apply andb_true_iff in Hd as [Hc Hd]. rewrite str_cons_app. simpl. by rewrite Hc, IH.
Qed.

Lemma digit_of_char n : is_digit (pretty_N_char (n `mod` 10)%N) = true ∧ digit_value (pretty_N_char (n `mod` 10)%N) = Z.of_N (n `mod` 10)%N.
Proof.
  assert (n `mod` 10 < 10)%N as H by (apply N.mod_lt; lia). revert H. generalize (n `mod` 10)%N as d. intros d Hd.
  assert (∃ k, d = N.of_nat k ∧ (k < 10)%nat) as (k & -> & Hk) by (exists (N.to_nat d); lia).
  do 10 (destruct k as [|k]; [by vm_compute|]). lia.
Qed.

(** The digits of a positive number, in front of others. *)
Lemma pretty_go_digits x s :
  (0 < x)%N → str_all is_digit s = true →
  parse_digits 0 false (pretty_N_go x s) = parse_digits (Z.of_N x) true s
  ∧ str_all is_digit (pretty_N_go x s) = true
  ∧ ∃ c r, pretty_N_go x s = String c r ∧ is_digit c = true ∧ Ascii.eqb c "0"%char = false.
Proof.
  revert s. induction (N.lt_wf_0 x) as [x _ IH]. intros s Hx Hs.
  destruct (digit_of_char x) as [Hd Hv]. rewrite pretty_N_go_step by lia.
  destruct (decide (x < 10)%N) as [Hlt|Hge].
  - rewrite N.div_small, pretty_N_go_0 by done. cbn [parse_digits str_all]. rewrite Hd, Hv.
    rewrite N.mod_small by done. split_and!; [by rewrite Z.add_0_l|done|].
    eexists _, s. split_and!; [done|by rewrite N.mod_small in Hd|].
    assert (∃ k, x = N.of_nat k ∧ (0 < k < 10)%nat) as (k & -> & Hk) by (exists (N.to_nat x); lia).
    do 10 (destruct k as [|k]; [by vm_compute + lia|]). lia.
  - assert (0 < x `div` 10)%N as Hq by (apply N.div_str_pos; lia).
    destruct (IH (x `div` 10)%N) with (s := String (pretty_N_char (x `mod` 10)%N) s) as (E & H1 & H2);
      [by apply N.div_lt; lia|done|by cbn [str_all]; rewrite Hd|].
    split_and!; [|done|done]. rewrite E. cbn [parse_digits]. rewrite Hd, Hv. f_equal.
    rewrite (N.div_mod x 10) at 3 by lia. lia.
Qed.

Lemma pretty_positive p :
  let d := pretty (Npos p) in
  digits_value d = Zpos p ∧ str_all is_digit d = true
  ∧ ∃ c r, d = String c r ∧ is_digit c = true ∧ Ascii.eqb c "0"%char = false.
Proof.
  destruct (pretty_go_digits (Npos p) EmptyString) as (E & H1 & H2); [lia|done|].
  assert (pretty (Npos p) = pretty_N_go (Npos p) EmptyString) as -> by done.
  split_and!; [|done|done]. unfold digits_value. by rewrite E.
Qed.

(** The digits of an integer, without its sign. *)
Definition int_digits (z : Z) : string := pretty (Z.abs_N z).

Lemma pretty_Z_sign z : pretty z = if z <? 0 then String "-"%char (int_digits z) else int_digits z.
Proof. by destruct z. Qed.

Lemma int_digits_spec z :
  digits_value (int_digits z) = Z.abs z ∧ str_all is_digit (int_digits z) = true
  ∧ ∃ c r, int_digits z = String c r ∧ is_digit c = true
       ∧ (Ascii.eqb c "0"%char = true → r = EmptyString).
Proof.
  destruct z as [|p|p]; [|change (int_digits _) with (pretty (Npos p))..].
  { split_and!; [done|done|]. by exists "0"%char, EmptyString. }
  all: destruct (pretty_positive p) as (E & H & c & r & H1 & H2 & H3); split_and!; [done|done|];
    exists c, r; split_and!; [done|done|congruence].
Qed.

Lemma delimited_not_digit t :
  delimited t = true → match t with String c _ => is_digit c | EmptyString => false end = false.
Proof. destruct t as [|c t]; [done|]. simpl. by destruct (is_digit c). Qed.

Lemma delimited_no_fraction t : delimited t = true → parse_fraction t = None ∧ parse_exponent t = None.
Proof.
  destruct t as [|c t]; [done|]. simpl. unfold parse_fraction, parse_exponent.
  destruct (is_digit c), (Ascii.eqb c "."%char), (Ascii.eqb c "e"%char), (Ascii.eqb c "E"%char); done.
Qed.

Lemma digit_not_minus c : is_digit c = true → Ascii.eqb c "-"%char = false.
Proof. intros H. by destruct (Ascii.eqb_spec c "-"%char) as [->|]. Qed.

Lemma parse_int_text z t :
  blen (int_digits z) ≤ 4300 → delimited t = true → parse_number (pretty z +:+ t) = Ok (JInt z, t).
Proof.
  intros Hlen Ht. destruct (int_digits_spec z) as (Hv & Hd & c & r & E & Hc & H0).
  destruct (delimited_no_fraction t Ht) as [Hf He].
  assert (∀ neg, signed neg (Z.abs z) = z →
    (let '(int, t0) := match int_digits z +:+ t with
                       | String c r' => if Ascii.eqb c "0" then ("0"%string, r') else take_digits (int_digits z +:+ t)
                       | EmptyString => (EmptyString, int_digits z +:+ t)
                       end in
     if String.eqb int "" then syntax
     else
       let frac := parse_fraction t0 in
       let t1 := default t0 (snd <$> frac) in
       let exp := parse_exponent t1 in
       let t2 := default t1 (snd <$> exp) in
       match frac, exp with
       | None, None =>
           if 4300 <? blen int then Err (ValueError "Exceeds the limit (4300 digits)")
           else Ok (JInt (signed neg (digits_value int)), t0)
       | _, _ =>
           let f := default EmptyString (fst <$> frac) in
           Ok (JFloat (float_of_decimal neg (digits_value (int +:+ f)) (default 0 (fst <$> exp) - blen f)), t2)
       end) = Ok (JInt z, t)) as Hgo.
  { intros neg Hneg.
    assert ((match int_digits z +:+ t with
             | String c r' => if Ascii.eqb c "0" then ("0"%string, r') else take_digits (int_digits z +:+ t)
             | EmptyString => (EmptyString, int_digits z +:+ t)
             end) = (int_digits z, t)) as ->.
    { rewrite E, str_cons_app. destruct (Ascii.eqb_spec c "0"%char) as [->|Hne].
      - by rewrite H0.
      - rewrite <-str_cons_app, <-E. apply take_digits_app; [done|]. by apply delimited_not_digit. }
    assert (String.eqb (int_digits z) "" = false) as -> by (by rewrite E).
    cbv zeta. rewrite Hf. cbn [fmap option_fmap option_map default from_option]. rewrite He.
    rewrite (proj2 (Z.ltb_ge _ _)) by done. by rewrite Hv, Hneg. }
  rewrite pretty_Z_sign. unfold parse_number. destruct (Z.ltb_spec z 0).
  - rewrite str_cons_app. change (Ascii.eqb "-" "-") with true. cbv iota. apply (Hgo true). unfold signed. lia.
  - rewrite E, str_cons_app. rewrite digit_not_minus by done. cbv iota.
    assert (signed false (Z.abs z) = z) as Hs by (unfold signed; lia). specialize (Hgo false Hs).
    rewrite E, str_cons_app in Hgo. exact Hgo.
Qed.

Lemma pretty_Z_head (z : Z) : number_head (pretty z) = true.
Proof.
  destruct (int_digits_spec z) as (_ & _ & c & r & E & Hc & _). rewrite pretty_Z_sign, E.
  destruct (z <? 0); simpl; by rewrite Hc.
Qed.

Lemma scan_word_ne a w c s : c ≠ a → scan_word (String a w) (String c s) = None.
Proof. intros H. unfold scan_word, starts_with. simpl. by destruct (ascii_dec a c) as [->|]. Qed.

Lemma scan_word_app w t : scan_word w (w +:+ t) = Some t.
Proof.
  unfold scan_word, starts_with. assert (String.prefix w (w +:+ t) = true ∧ drop_str (String.length w) (w +:+ t) = t) as [-> ->];
    [|done].
  induction w as [|c w [IH1 IH2]]; [by destruct t|]. rewrite str_cons_app. simpl. rewrite IH1, IH2.
  by destruct (ascii_dec c c).
Qed.

Section decoder.
Context (h : hooks).

Lemma parse_value_word n w v t :
  (w, v) ∈ [("null", JNull); ("true", JBool true); ("false", JBool false)]%string →
  parse_value h (S n) (w +:+ t) = Ok (v, t).
Proof.
  intros Hw. pose proof (scan_word_app w t) as E.
  repeat apply elem_of_cons in Hw as [[= -> ->]|Hw]; [..|by apply elem_of_nil in Hw];
    rewrite !str_cons_app in *; cbn [parse_value]; cbv zeta; simpl Ascii.eqb; cbv iota; by rewrite E.
Qed.

Lemma parse_value_number n s t v :
  number_head s = true → parse_number (s +:+ t) = Ok (v, t) → parse_value h (S n) (s +:+ t) = Ok (v, t).
Proof.
  intros Hs Hp. destruct s as [|c s]; [done|]. rewrite str_cons_app in *. cbn [parse_value]. cbv zeta.
  simpl in Hs. assert (∀ d, is_digit d = false → Ascii.eqb d "-"%char = false → Ascii.eqb c d = false) as Hne.
  { intros d Hd Hd'. destruct (Ascii.eqb_spec c d) as [->|]; [|done]. by rewrite Hd, Hd' in Hs. }
  rewrite !Hne by done.
  rewrite (scan_word_ne "N" "aN" c), (scan_word_ne "I" "nfinity" c) by (by intros ->).
  assert (scan_word "-Infinity" (String c (s +:+ t)) = None) as ->; [|done].
  destruct (Ascii.eqb_spec c "-"%char) as [->|Hm]; [|by apply scan_word_ne].
  destruct s as [|d s]; [done|]. rewrite str_cons_app. unfold scan_word, starts_with.
  change (String.prefix "-Infinity" (String "-" (String d (s +:+ t))))
    with (if ascii_dec "I" d then String.prefix "nfinity" (s +:+ t) else false).
  by destruct (ascii_dec "I" d) as [<-|].
Qed.
End decoder.

(** ** Documents *)
Lemma json_nested_ind (P : json → Prop) :
  P JNull → (∀ b, P (JBool b)) → (∀ z, P (JInt z)) → (∀ f, P (JFloat f)) → (∀ s, P (JStr s)) →
  (∀ l, Forall P l → P (JList l)) → (∀ d, Forall (λ p, P p.2) d → P (JObj d)) → ∀ v, P v.
Proof.
  intros Hn Hb Hi Hf Hs Hl Ho. fix go 1. intros v.
  destruct v as [|b|z|f|s|l|d]; [exact Hn|apply Hb|apply Hi|apply Hf|apply Hs|apply Hl|apply Ho].
  - induction l as [|v l IH]; constructor; [apply go|exact IH].
  - induction d as [|[k v] d IH]; constructor; [apply go|exact IH].
Qed.

Section documents.
Context (float_repr : float → string).

(** The decimal of a double, read as a number, is that double. *)
Definition reads_back (f : float) : Prop :=
  match f with
  | S754_zero _ | S754_finite _ _ _ =>
      number_head (float_repr f) = true ∧ is_ascii (float_repr f) = true
      ∧ ∀ t, delimited t = true → parse_number (float_repr f +:+ t) = Ok (JFloat f, t)
  | _ => False
  end.

(** Documents that are text through and through: no lone surrogate, no constant that is not
    JSON, no name twice, and integers within the limit on digits. *)
Fixpoint writable (v : json) : Prop :=
  match v with
  | JNull | JBool _ => True
  | JInt z => blen (int_digits z) ≤ 4300
  | JFloat f => reads_back f
  | JStr s => utf8_valid s = true
  | JList l => (fix go l := match l with [] => True | v :: l' => writable v ∧ go l' end) l
  | JObj d =>
      NoDup d.*1
      ∧ (fix go (d : list (string * json)) :=
           match d with [] => True | (k, v) :: d' => utf8_valid k = true ∧ writable v ∧ go d' end) d
  end.

Lemma writable_list l : writable (JList l) ↔ Forall writable l.
Proof.
  simpl. induction l as [|v l IH]; [by split; constructor|]. rewrite Forall_cons, <-IH. done.
Qed.

Lemma writable_obj d :
  writable (JObj d) ↔ NoDup d.*1 ∧ Forall (λ p, utf8_valid p.1 = true ∧ writable p.2) d.
Proof.
  simpl. assert (∀ A B C : Prop, (B ↔ C) → A ∧ B ↔ A ∧ C) as Hand by tauto. apply Hand.
  induction d as [|[k v] d IH]; [by split; constructor|]. rewrite Forall_cons, <-IH. simpl. tauto.
Qed.

(** *** Blanks *)
Lemma skip_blanks a s : str_all json_space a = true → skip_ws (a +:+ s) = skip_ws s.
Proof.
  unfold skip_ws. induction a as [|c a IH]; [done|]. cbn [str_all]. intros [Hc Ha]%andb_true_iff.
  rewrite str_cons_app. cbn [lstrip_when]. rewrite Hc. by apply IH.
Qed.

Lemma newline_blank level : str_all json_space (newline level) = true.
Proof.
  unfold newline. cbn [str_all]. assert (json_space (of_octet 10) = true) as -> by done. cbn [andb].
  assert (∀ n, str_all json_space (String.concat "" (repeat "  "%string n)) = true) as H; [|apply H].
  induction n as [|n IH]; [done|]. cbn [repeat]. destruct (repeat _ n) eqn:E; [done|].
  cbn [String.concat] in *. change (str_all json_space ("  " +:+ ("" +:+ String.concat "" (s :: l))) = true).
  rewrite app_empty. exact IH.
Qed.

Lemma skip_newline level s : skip_ws (newline level +:+ s) = skip_ws s.
Proof. apply skip_blanks, newline_blank. Qed.

Lemma delimited_newline level s : delimited (newline level +:+ s) = true.
Proof. unfold newline. rewrite str_cons_app. done. Qed.

(** A text that does not begin with a blank or the end of a list. *)
Definition solid (s : string) : bool :=
  match s with
  | String c _ => negb (json_space c || Ascii.eqb c "]"%char || Ascii.eqb c "}"%char)
  | EmptyString => false
  end.

Lemma skip_solid s t : solid s = true → skip_ws (s +:+ t) = s +:+ t.
Proof.
  destruct s as [|c s]; [done|]. simpl. intros Hc. rewrite str_cons_app. unfold skip_ws. cbn [lstrip_when].
  by destruct (json_space c).
Qed.

Lemma number_solid s : number_head s = true → solid s = true.
Proof.
  destruct s as [|c s]; [done|]. simpl. intros H. assert (Ascii.eqb c "]"%char = false ∧ Ascii.eqb c "}"%char = false) as [-> ->].
  { split; [by destruct (Ascii.eqb_spec c "]"%char) as [->|]|by destruct (Ascii.eqb_spec c "}"%char) as [->|]]. }
  destruct (json_space c) eqn:E; [|done]. unfold json_space in E. assert (octet c ≤ 32) as Hc by (reflect_bools; lia).
  destruct (is_digit c) eqn:Hd; [unfold is_digit in Hd; apply in_range_spec in Hd; lia|].
  destruct (Ascii.eqb_spec c "-"%char) as [->|]; [by vm_compute in E|done].
Qed.

Lemma dump_solid level v : writable v → solid (dump float_repr level v) = true.
Proof.
  destruct v as [|[]|z|f|s|[|v l]|[|[k v] d]]; simpl; try done.
  - intros _. apply number_solid, pretty_Z_head.
  - unfold reads_back. destruct f; try done; intros (H & _); by apply number_solid.
Qed.

(** *** Values within values *)
Definition reads (level : nat) (v : json) : Prop :=
  ∀ t, delimited t = true →
    ∃ n, ∀ m, (n ≤ m)%nat → parse_value strict_hooks m (dump float_repr level v +:+ t) = Ok (v, t).

Definition items_text (level : nat) (l : list json) : string :=
  join ("," +:+ newline level) ((λ x, dump float_repr level x) <$> l).
Definition members_text (level : nat) (d : list (string * json)) : string :=
  join ("," +:+ newline level) ((λ p, quoted p.1 +:+ ": " +:+ dump float_repr level p.2) <$> d).

Lemma join_two sep a b l : join sep (a :: b :: l) = a +:+ sep +:+ join sep (b :: l).
Proof. done. Qed.

Lemma join_solid sep a l t : solid a = true → skip_ws (join sep (a :: l) +:+ t) = join sep (a :: l) +:+ t.
Proof.
  intros Ha. apply skip_solid. destruct l; [done|]. rewrite join_two. by destruct a.
Qed.

Lemma items_read level l t :
  l ≠ [] → Forall (λ v, reads (S level) v ∧ solid (dump float_repr (S level) v) = true) l →
  ∃ n, ∀ m, (n ≤ m)%nat →
    parse_items strict_hooks m (items_text (S level) l +:+ newline level +:+ "]" +:+ t) = Ok (l, t).
Proof.
  intros Hl. induction l as [|v [|v' l] IH]; [done| |]; intros [[Hv _] Hrest]%Forall_cons.
  - destruct (Hv (newline level +:+ "]" +:+ t) (delimited_newline _ _)) as (n & Hn).
    exists (S n). intros [|m] Hm; [lia|]. cbn [parse_items]. unfold items_text. cbn [fmap list_fmap join].
    rewrite Hn by lia. cbn [mbind result_bind]. by rewrite skip_newline.
  - destruct (IH ltac:(done) Hrest) as (n & Hn). apply Forall_cons in Hrest as [[_ Hsolid] _].
    set (rest := items_text (S level) (v' :: l) +:+ newline level +:+ "]" +:+ t) in *.
    destruct (Hv (("," +:+ newline (S level)) +:+ rest) eq_refl) as (n' & Hn').
    exists (S (n `max` n')). intros [|m] Hm; [lia|]. cbn [parse_items].
    assert (items_text (S level) (v :: v' :: l) +:+ newline level +:+ "]" +:+ t
      = dump float_repr (S level) v +:+ ("," +:+ newline (S level)) +:+ rest) as ->.
    { unfold items_text. rewrite !fmap_cons, join_two. by rewrite !str_app_assoc. }
    rewrite Hn' by lia. cbn [mbind result_bind]. rewrite str_app_assoc, str_cons_app, app_empty.
    change (skip_ws (String "," (newline (S level) +:+ rest))) with (String "," (newline (S level) +:+ rest)).
    cbv iota. change (Ascii.eqb "," ",") with true. cbv iota. rewrite skip_newline.
    assert (skip_ws rest = rest) as -> by (by apply join_solid).
    by rewrite Hn by lia.
Qed.

(** One member, up to what follows its value. *)
Lemma member_read level k v t :
  utf8_valid k = true → reads level v → solid (dump float_repr level v) = true → delimited t = true →
  ∃ n, ∀ m, (n ≤ m)%nat →
    parse_members strict_hooks (S m) ((quoted k +:+ ": " +:+ dump float_repr level v) +:+ t)
    = match skip_ws t with
      | String e t3 =>
          if Ascii.eqb e ","%char then
            '(rest, t4) ← parse_members strict_hooks m (skip_ws t3); Ok ((k, v) :: rest, t4)
          else if Ascii.eqb e "}"%char then Ok ([(k, v)], t3)
          else syntax
      | EmptyString => syntax
      end.
Proof.
  intros Hk Hv Hsolid Ht. destruct (Hv t Ht) as (n & Hn). exists n. intros m Hm.
  rewrite !str_app_assoc. destruct (parse_quoted k (": " +:+ dump float_repr level v +:+ t) Hk) as (r & E & Hr).
  rewrite E. cbn [parse_members]. change (Ascii.eqb quote_char quote_char) with true. cbv iota.
  rewrite Hr. cbn [of_option mbind result_bind].
  change (skip_ws (": " +:+ dump float_repr level v +:+ t))
    with (String ":" (String " " (dump float_repr level v +:+ t))).
  cbv iota. change (Ascii.eqb ":" ":") with true. cbv iota.
  assert (skip_ws (String " " (dump float_repr level v +:+ t)) = dump float_repr level v +:+ t) as ->.
  { change (String " " (dump float_repr level v +:+ t)) with (" " +:+ dump float_repr level v +:+ t).
    rewrite skip_blanks by done. by apply skip_solid. }
  by rewrite Hn.
Qed.

Lemma quoted_solid s t : solid (quoted s +:+ t) = true.
Proof. done. Qed.

Lemma members_read level d t :
  d ≠ [] →
  Forall (λ p, utf8_valid p.1 = true ∧ reads (S level) p.2 ∧ solid (dump float_repr (S level) p.2) = true) d →
  ∃ n, ∀ m, (n ≤ m)%nat →
    parse_members strict_hooks m (members_text (S level) d +:+ newline level +:+ "}" +:+ t) = Ok (d, t).
Proof.
  intros Hd. induction d as [|[k v] [|[k' v'] d] IH]; [done| |]; intros [(Hk & Hv & Hsolid) Hrest]%Forall_cons.
  - destruct (member_read (S level) k v (newline level +:+ "}" +:+ t) Hk Hv Hsolid (delimited_newline _ _))
      as (n & Hn).
    exists (S n). intros [|m] Hm; [lia|]. unfold members_text. cbn [fmap list_fmap join fst snd].
    rewrite Hn by lia. by rewrite skip_newline.
  - destruct (IH ltac:(done) Hrest) as (n & Hn).
    set (rest := members_text (S level) ((k', v') :: d) +:+ newline level +:+ "}" +:+ t) in *.
    destruct (member_read (S level) k v (("," +:+ newline (S level)) +:+ rest) Hk Hv Hsolid eq_refl) as (n' & Hn').
    exists (S (n `max` n')). intros [|m] Hm; [lia|].
    assert (members_text (S level) ((k, v) :: (k', v') :: d) +:+ newline level +:+ "}" +:+ t
      = (quoted k +:+ ": " +:+ dump float_repr (S level) v) +:+ ("," +:+ newline (S level)) +:+ rest) as ->.
    { unfold members_text. rewrite !fmap_cons, join_two. cbn [fst snd]. by rewrite !str_app_assoc. }
    rewrite Hn' by lia. rewrite str_app_assoc, str_cons_app, app_empty.
    change (skip_ws (String "," (newline (S level) +:+ rest))) with (String "," (newline (S level) +:+ rest)).
    cbv iota. change (Ascii.eqb "," ",") with true. cbv iota. rewrite skip_newline.
    assert (skip_ws rest = rest) as -> by (by apply join_solid).
    by rewrite Hn by lia.
Qed.

Lemma unique_fields_ok d : NoDup d.*1 → unique_fields d = Ok (JObj d).
Proof.
  unfold unique_fields. change d with ([] ++ d) at 1 3. generalize (@nil (string * json)) as done_.
  induction d as [|[k v] d IH]; intros done_ Hd; cbn [unique_fields_go]; [by rewrite app_nil_r|].
  rewrite bool_decide_eq_false_2.
  - assert (done_ ++ (k, v) :: d = (done_ ++ [(k, v)]) ++ d) as E by (by rewrite <-app_assoc).
    rewrite E in Hd |- *. by apply IH.
  - rewrite fmap_app, fmap_cons in Hd. apply NoDup_app in Hd as (_ & Hd & _).
    intros Hk. apply (Hd k Hk). by left.
Qed.

Lemma dump_list level v l :
  dump float_repr level (JList (v :: l))
  = "[" +:+ newline (S level) +:+ items_text (S level) (v :: l) +:+ newline level +:+ "]".
Proof. done. Qed.
Lemma dump_obj level p d :
  dump float_repr level (JObj (p :: d))
  = "{" +:+ newline (S level) +:+ members_text (S level) (p :: d) +:+ newline level +:+ "}".
Proof. done. Qed.

(** The head of a list or an object that is not empty. *)
Lemma solid_head s t : solid s = true → ∃ c r, s +:+ t = String c r ∧ Ascii.eqb c "]"%char = false ∧ Ascii.eqb c "}"%char = false.
Proof.
  destruct s as [|c s]; [done|]. simpl. intros H. exists c, (s +:+ t). split; [by rewrite str_cons_app|].
  by destruct (json_space c), (Ascii.eqb c "]"%char), (Ascii.eqb c "}"%char).
Qed.

Lemma list_reads level v l :
  Forall (λ v, reads (S level) v ∧ solid (dump float_repr (S level) v) = true) (v :: l) →
  reads level (JList (v :: l)).
Proof.
  intros Hall t _. destruct (items_read level (v :: l) t ltac:(done) Hall) as (n & Hn).
  apply Forall_cons in Hall as [[_ Hs] _].
  exists (S n). intros [|m] Hm; [lia|]. rewrite dump_list, !str_app_assoc, str_cons_app, app_empty.
  cbn [parse_value]. cbv zeta. change (Ascii.eqb "[" quote_char) with false. change (Ascii.eqb "[" "{") with false.
  change (Ascii.eqb "[" "[") with true. cbv iota. rewrite skip_newline.
  set (text := newline level +:+ "]" +:+ t) in *. specialize (Hn m ltac:(lia)).
  assert (skip_ws (items_text (S level) (v :: l) +:+ text) = items_text (S level) (v :: l) +:+ text) as ->
    by (by apply join_solid).
  assert (solid (items_text (S level) (v :: l)) = true) as Hsl.
  { unfold items_text. rewrite fmap_cons. destruct l; [done|]. rewrite fmap_cons, join_two. by destruct (dump _ _ v). }
  destruct (solid_head _ text Hsl) as (c & r & E & Hc & _). rewrite E in *. rewrite Hc. by rewrite Hn.
Qed.

Lemma obj_reads level p d :
  NoDup (p :: d).*1 →
  Forall (λ p, utf8_valid p.1 = true ∧ reads (S level) p.2 ∧ solid (dump float_repr (S level) p.2) = true) (p :: d) →
  reads level (JObj (p :: d)).
Proof.
  intros Hnd Hall t _. destruct (members_read level (p :: d) t ltac:(done) Hall) as (n & Hn).
  exists (S n). intros [|m] Hm; [lia|]. rewrite dump_obj, !str_app_assoc, str_cons_app, app_empty.
  cbn [parse_value]. cbv zeta. change (Ascii.eqb "{" quote_char) with false. change (Ascii.eqb "{" "{") with true.
  cbv iota. rewrite skip_newline.
  set (text := newline level +:+ "}" +:+ t) in *. specialize (Hn m ltac:(lia)).
  assert (solid (members_text (S level) (p :: d)) = true) as Hsl.
  { unfold members_text. rewrite fmap_cons. destruct d; [done|]. by rewrite fmap_cons, join_two. }
  rewrite skip_solid by done.
  destruct (solid_head _ text Hsl) as (c & r & E & _ & Hc). rewrite E in *. rewrite Hc, Hn.
  cbn [mbind result_bind object_pairs_hook strict_hooks]. by rewrite unique_fields_ok.
Qed.

(** Every writable document is read back, whatever separates it from what follows. *)
Lemma writable_reads v : ∀ level, writable v → reads level v.
Proof.
  induction v as [|b|z|f|s|l IH|d IH] using json_nested_ind; intros level Hw.
  - intros t Ht. exists 1%nat. intros [|m] ?; [lia|].
    apply parse_value_word. by left.
  - intros t Ht. exists 1%nat. intros [|m] ?; [lia|].
    apply parse_value_word. destruct b; [by right; left|by right; right; left].
  - intros t Ht. exists 1%nat. intros [|m] ?; [lia|]. apply parse_value_number; [apply pretty_Z_head|].
    by apply parse_int_text.
  - intros t Ht. exists 1%nat. intros [|m] ?; [lia|]. cbn [dump]. simpl in Hw. unfold reads_back in Hw.
    destruct f; try done; destruct Hw as (H1 & _ & H2); apply parse_value_number; auto.
  - intros t Ht. exists 1%nat. intros [|m] ?; [lia|]. cbn [dump]. destruct (parse_quoted s t Hw) as (r & -> & Hr).
    cbn [parse_value]. cbv zeta. change (Ascii.eqb quote_char quote_char) with true. cbv iota. by rewrite Hr.
  - destruct l as [|v l]; [intros t Ht; exists 1%nat; intros [|m] ?; [lia|]; cbn [dump];
      by rewrite !str_cons_app, app_empty|].
    apply writable_list in Hw. apply list_reads.
    eapply Forall_impl; [apply Forall_and; split; [exact IH|exact Hw]|]. intros x [Hr Hx].
    split; [by apply Hr|by apply dump_solid].
  - destruct d as [|p d]; [intros t Ht; exists 1%nat; intros [|m] ?; [lia|]; cbn [dump];
      by rewrite !str_cons_app, app_empty|].
    apply writable_obj in Hw as [Hnd Hw]. apply obj_reads; [done|].
    eapply Forall_impl; [apply Forall_and; split; [exact IH|exact Hw]|]. intros x (Hr & Hk & Hx).
    split_and!; [done|by apply Hr|by apply dump_solid].
Qed.

(** *** The octets are ASCII *)
Lemma ascii_app a b : is_ascii (a +:+ b) = is_ascii a && is_ascii b.
Proof. apply str_all_app. Qed.

Lemma ascii_join sep l : is_ascii sep = true → Forall (λ s, is_ascii s = true) l → is_ascii (join sep l) = true.
Proof.
  intros Hs. induction 1 as [|a [|b l] Ha Hl IH]; [done|done|]. rewrite join_two, !ascii_app, Ha, Hs. exact IH.
Qed.

Lemma ascii_hex n z : is_ascii (hex n z) = true.
Proof.
  unfold is_ascii. induction n as [|n IH]; [done|]. cbn [hex str_all]. rewrite IH, andb_true_r.
  rewrite nibble by lia. assert (∀ x, 0 ≤ x mod 16 < 16) as Hm by (intros x; apply Z.mod_pos_bound; lia).
  destruct (hex_digit_back _ (Hm (z / 2 ^ (4 * Z.of_nat n)))) as [Hd _]. revert Hd. generalize (hex_digit (z / 2 ^ (4 * Z.of_nat n) mod 16)).
  unfold is_hex, is_ascii_char, is_digit, in_range. intros c Hc. reflect_bools; lia.
Qed.

Lemma ascii_escape z : scalar z → is_ascii (escape_code_point (utf8 z)) = true.
Proof.
  intros Hz. unfold escape_code_point. rewrite code_point_utf8 by done.
  assert (∀ x, is_ascii (unicode_escape_of x) = true) as Hu.
  { intros x. unfold unicode_escape_of, is_ascii. cbn [str_all]. exact (ascii_hex 4 x). }
  assert (z < 128 → is_ascii (utf8 z) = true) as Hlow.
  { intros Hlt. unfold utf8. rewrite (proj2 (Z.ltb_lt _ _)) by done. unfold is_ascii. cbn [octets foldr str_all].
    unfold is_ascii_char. rewrite octet_of_octet by (unfold scalar in Hz; lia).
    by rewrite (proj2 (Z.ltb_lt _ _)). }
  destruct (Z.eqb_spec z 34) as [->|]; [done|]. destruct (Z.eqb_spec z 92) as [->|]; [done|]. cbn [orb].
  destruct (z =? 10); [done|]. destruct (z =? 13); [done|]. destruct (z =? 9); [done|].
  destruct (z =? 12); [done|]. destruct (z =? 8); [done|].
  destruct ((32 <=? z) && (z <=? 126)) eqn:E; [apply Hlow; reflect_bools; lia|].
  destruct (z <? 65536); [apply Hu|]. by rewrite ascii_app, !Hu.
Qed.

Lemma ascii_quoted s : utf8_valid s = true → is_ascii (quoted s) = true.
Proof.
  intros (zs & Hzs & E)%uchars_valid. unfold quoted. rewrite E, str_cons_app.
  change (is_ascii (concat_text (escape_code_point <$> (utf8 <$> zs)) +:+ String quote_char EmptyString) = true).
  rewrite ascii_app. apply andb_true_iff. split; [|done]. clear E.
  induction Hzs as [|z zs Hz _ IH]; [done|]. rewrite !fmap_cons.
  change (concat_text (?a :: ?l)) with (a +:+ concat_text l). by rewrite ascii_app, ascii_escape, IH.
Qed.

Lemma ascii_blank s : str_all json_space s = true → is_ascii s = true.
Proof.
  apply str_all_impl. unfold json_space, is_ascii_char. intros c Hc. reflect_bools; lia.
Qed.

Lemma ascii_dump v : ∀ level, writable v → is_ascii (dump float_repr level v) = true.
Proof.
  assert (∀ level, is_ascii (newline level) = true) as Hnl by (intros; apply ascii_blank, newline_blank).
  assert (∀ level, is_ascii ("," +:+ newline level) = true) as Hsep.
  { intros level. rewrite ascii_app. by rewrite Hnl. }
  induction v as [|b|z|f|s|l IH|d IH] using json_nested_ind; intros level Hw.
  - done.
  - by destruct b.
  - cbn [dump]. destruct (int_digits_spec z) as (_ & Hd & _). rewrite pretty_Z_sign.
    assert (is_ascii (int_digits z) = true) as Ha.
    { unfold is_ascii. eapply str_all_impl; [|exact Hd]. unfold is_digit, is_ascii_char, in_range.
      intros c Hc. reflect_bools; lia. }
    by destruct (z <? 0).
  - simpl in Hw. unfold reads_back in Hw. by destruct f; try done; destruct Hw as (_ & ? & _).
  - by apply ascii_quoted.
  - destruct l as [|v l]; [done|]. apply writable_list in Hw. rewrite dump_list, !ascii_app, !Hnl.
    assert (is_ascii (items_text (S level) (v :: l)) = true) as ->; [|done].
    apply ascii_join; [done|]. apply Forall_fmap.
    eapply Forall_impl; [apply Forall_and; split; [exact IH|exact Hw]|]. intros x [Hx Hwx]. by apply Hx.
  - destruct d as [|p d]; [done|]. apply writable_obj in Hw as [_ Hw]. rewrite dump_obj, !ascii_app, !Hnl.
    assert (is_ascii (members_text (S level) (p :: d)) = true) as ->; [|done].
    apply ascii_join; [done|]. apply Forall_fmap.
    eapply Forall_impl; [apply Forall_and; split; [exact IH|exact Hw]|]. intros x (Hx & Hk & Hwx). simpl.
    rewrite !ascii_app, ascii_quoted by done. by rewrite Hx.
Qed.

(** The text of a file that [write_json] has written. *)
Lemma dumps_read_json v t :
  writable v → str_all json_space t = true → delimited t = true →
  read_json (Ok (json_dumps float_repr v +:+ t)) = Ok v.
Proof.
  intros Hw Ht Hd. unfold read_json. cbn [mbind result_bind]. unfold decode_utf8, json_dumps.
  rewrite is_ascii_utf8 by (rewrite ascii_app, ascii_dump by done; by apply ascii_blank).
  cbn [mbind result_bind]. destruct (writable_reads v 0 Hw t Hd) as (n & Hn).
  set (s := dump float_repr 0 v +:+ t) in *.
  rewrite (json_loads_fuel strict_hooks s (n `max` (2 * String.length s + 2))) by lia.
  assert (skip_ws s = s) as -> by (by apply skip_solid, dump_solid).
  rewrite Hn by lia. cbn [mbind result_bind].
  rewrite <-(str_app_nil t), skip_blanks by done. done.
Qed.
End documents.

(** [C38] What a release script writes, it reads back: after [write_json] has written a
    document under a name, [read_json] of that file — with its checks that no name is
    repeated and that the octets are UTF-8 — gives exactly that document, the other files
    being as they were; so two documents never have the same file.  A document may nest
    lists and objects to any depth and hold any text without lone surrogates, whatever its
    quotes, control characters and code points beyond the basic plane; of the decimals
    [float.__repr__] gives it is only used that they read back as the double they are of. *)
Theorem written_evidence_reads_back float_repr name v w :
  writable float_repr v →
  let w' := (write_json float_repr name v w).2 in
  read_evidence name w' = Ok v
  ∧ (∀ other, other ≠ name → evidence w' !! other = evidence w !! other)
  ∧ (∀ v', writable float_repr v' → json_dumps float_repr v' = json_dumps float_repr v → v' = v).
Proof.
  intros Hw. cbv zeta.
  assert (∀ u, writable float_repr u → read_json (Ok (json_dumps float_repr u +:+ nl)) = Ok u) as Hread.
  { intros u Hu. by apply dumps_read_json. }
  split_and!.
  - unfold read_evidence, file. simpl. rewrite lookup_insert_eq. by apply Hread.
  - intros other Hne. simpl. by apply lookup_insert_ne.
  - intros v' Hw' E. pose proof (Hread v' Hw') as H. rewrite E, Hread in H by done. by injection H.
Qed.

(** A document with every kind of value; its one double is a half. *)
Definition half : float := S754_finite false 4503599627370496 (-53).
Definition half_text (_ : float) : string := "0.5".
Definition demo_document : json :=
  JObj [("numbers", JList [JInt (-120); JInt 0; JFloat half]); ("empty", JList [JObj []; JNull; JBool true]);
        (octets [195; 169; 34; 92], JStr (octets [240; 159; 152; 128; 10; 127; 226; 130; 172]))].

Lemma half_reads_back : reads_back half_text half.
Proof.
  split_and!; [done|done|]. intros t Ht. unfold half_text. rewrite !str_cons_app, app_empty.
  assert (take_digits t = (EmptyString, t)) as Hd.
  { rewrite <-(app_empty t) at 1. apply take_digits_app; [done|by apply delimited_not_digit]. }
  assert (parse_exponent t = None) as He by (by apply delimited_no_fraction).
  unfold parse_number. simpl. rewrite Hd. simpl. rewrite He. vm_compute. done.
Qed.

Definition demo_files : world :=
  mkWorld {["other" := "text"%string]} (Err OSError) (λ _, Err OSError) [] [] [] EmptyString (λ _, 0) 0.

Lemma written_evidence_reads_back_witness :
  writable half_text demo_document
  ∧ read_evidence "gate.json" (write_json half_text "gate.json" demo_document demo_files).2 = Ok demo_document.
Proof.
  assert (writable half_text demo_document) as Hw.
  { cbn [writable demo_document]. repeat match goal with
    | |- _ ∧ _ => split
    | |- True => exact I
    | |- NoDup _ => apply (bool_decide_eq_true_1 _); vm_compute; reflexivity
    | |- reads_back _ _ => exact half_reads_back
    | |- utf8_valid _ = true => vm_compute; reflexivity
    | |- _ ≤ _ => vm_compute; discriminate
    end. }
  split; [exact Hw|].
  apply (written_evidence_reads_back half_text "gate.json" demo_document demo_files Hw).
Defined.
