(* ===== verification/FormatCode.v ===== *)
(** * The formatter of the repository

    [scripts/format_code.py]: blank lines between sibling statements on top of Black.  The
    syntax tree of [ast.parse], the comments of [tokenize] and Black itself are arguments;
    the spacing rules, the line endings, the choice of files and [main] are modelled.  The
    command line is taken as split into its options; the messages are left out. *)
From stdpp Require Import sorting.
From S2P Require Import Prelude PyText Fingerprint UnicodeText.
Open Scope Z_scope.

(** ** Errors: [main] reports some classes and lets the others through. *)
Inductive error := OSErr | SyntaxErr | ValueErr (msg : string) | TokenErr | OtherErr.
Abbreviation run A := (result error A) (only parsing).
Definition reported (e : error) : bool := match e with OtherErr => false | _ => true end.

(** ** Syntax trees *)
Inductive kind :=
| Module_ | FunctionDef | AsyncFunctionDef | ClassDef
| If_ | For_ | AsyncFor | While_ | With_ | AsyncWith | Try_ | TryStar | Match_
| Assign | AnnAssign | AugAssign | Return_ | Raise_ | Expr_
| Statement (name : string)            (* any other statement *)
| Constant (is_str : bool)             (* a constant, of [str] or not *)
| Other (name : string).               (* any other node, or what is not one *)

Definition kind_name (k : kind) : string :=
  match k with
  | Module_ => "Module" | FunctionDef => "FunctionDef" | AsyncFunctionDef => "AsyncFunctionDef"
  | ClassDef => "ClassDef" | If_ => "If" | For_ => "For" | AsyncFor => "AsyncFor" | While_ => "While"
  | With_ => "With" | AsyncWith => "AsyncWith" | Try_ => "Try" | TryStar => "TryStar" | Match_ => "Match"
  | Assign => "Assign" | AnnAssign => "AnnAssign" | AugAssign => "AugAssign" | Return_ => "Return"
  | Raise_ => "Raise" | Expr_ => "Expr" | Statement n => n | Constant _ => "Constant" | Other n => n
  end.

(** A node: its lines, when it has them, and its fields; a leaf is the [repr] of a value. *)
Inductive node := Node (k : kind) (lineno : Z) (end_lineno : option Z) (fields : list (string * field))
with field := Leaf (text : string) | One (n : node) | Many (l : list node).

Definition node_kind (n : node) : kind := let 'Node k _ _ _ := n in k.
Definition lineno (n : node) : Z := let 'Node _ l _ _ := n in l.
Definition end_lineno (n : node) : option Z := let 'Node _ _ e _ := n in e.
Definition fields (n : node) : list (string * field) := let 'Node _ _ _ f := n in f.

Definition is_stmt (n : node) : bool :=
  match node_kind n with Module_ | Constant _ | Other _ => false | _ => true end.
Definition is_assignment (n : node) : bool :=
  match node_kind n with Assign | AnnAssign | AugAssign => true | _ => false end.
Definition is_block (n : node) : bool :=
  match node_kind n with
  | If_ | For_ | AsyncFor | While_ | With_ | AsyncWith | Try_ | TryStar | Match_
  | FunctionDef | AsyncFunctionDef | ClassDef => true
  | _ => false
  end.
Definition is_separated (n : node) : bool :=
  match node_kind n with Return_ | Raise_ | Try_ | TryStar => true | _ => false end.
Definition owns_docstring (n : node) : bool :=
  match node_kind n with Module_ | FunctionDef | AsyncFunctionDef | ClassDef => true | _ => false end.

(** [ast.dump(tree, include_attributes=False)] *)
Fixpoint dump (n : node) : string :=
  let 'Node k _ _ fs := n in
  kind_name k +:+ "("
  +:+ join ", " ((fix go (fs : list (string * field)) : list string :=
                    match fs with
                    | [] => []
                    | (name, f) :: fs' =>
                        (name +:+ "=" +:+ match f with
                                         | Leaf t => t
                                         | One m => dump m
                                         | Many l => "[" +:+ join ", " (dump <$> l) +:+ "]"
                                         end) :: go fs'
                    end) fs)
  +:+ ")".

(** [ast.walk], in an order that does not matter here. *)
Fixpoint walk (n : node) : list node :=
  let 'Node _ _ _ fs := n in
  n :: (fix go (fs : list (string * field)) : list node :=
          match fs with
          | [] => []
          | (_, f) :: fs' =>
              match f with
              | Leaf _ => []
              | One m => walk m
              | Many l => mjoin (walk <$> l)
              end ++ go fs'
          end) fs.

(** ** Protected lines *)
Record comment := mkComment { c_text : string; c_start : Z; c_end : Z }.

(** The lines protected so far, and the line of the directive that is in force. *)
Definition protect (st : gset Z * option Z) (c : comment) : gset Z * option Z :=
  let directive := ustrip (lstrip_when (Ascii.eqb "#"%char) (c_text c)) in
  let '(protected, disabled) := st in
  match disabled with
  | None =>
      if String.eqb directive "fmt: off" then (protected, Some (c_start c))
      else if String.eqb directive "fmt: skip" then ({[c_start c]} ∪ protected, None)
      else st
  | Some from =>
      if String.eqb directive "fmt: on"
      then (list_to_set (seqZ from (c_end c + 1 - from)) ∪ protected, None)
      else if String.eqb directive "fmt: skip" then ({[c_start c]} ∪ protected, disabled)
      else st
  end.

(** [str.splitlines(keepends=True)] *)
Fixpoint split_keep (l : list string) (line : string) : list string :=
  match l with
  | [] => if String.eqb line "" then [] else [line]
  | c :: l' =>
      if is_ubreak c then
        match String.eqb c (octets [13]), l' with
        | true, d :: l'' =>
            if String.eqb d (octets [10]) then (line +:+ c +:+ d) :: split_keep l'' EmptyString
            else (line +:+ c) :: split_keep l' EmptyString
        | _, _ => (line +:+ c) :: split_keep l' EmptyString
        end
      else split_keep l' (line +:+ c)
  end.
Definition splitlines (s : string) : list string := split_keep (uchars s) EmptyString.

Definition line_count (s : string) : Z := Z.of_nat (length (splitlines s)).

Definition protected_lines (comments : list comment) (source : string) : gset Z :=
  let '(protected, disabled) := foldl protect (∅, None) comments in
  match disabled with
  | Some from => list_to_set (seqZ from (line_count source + 1 - from)) ∪ protected
  | None => protected
  end.

(** ** Spacing *)
Definition statement_start (n : node) : Z :=
  match node_kind n with
  | FunctionDef | AsyncFunctionDef | ClassDef =>
      foldl Z.min (lineno n)
        (match list_find (λ f, f.1 = "decorator_list"%string) (fields n) with
         | Some (_, (_, Many l)) => lineno <$> l
         | _ => []
         end)
  | _ => lineno n
  end.

Fixpoint pairwise {A} (l : list A) : list (A * A) :=
  match l with
  | a :: (b :: _) as l' => (a, b) :: pairwise l'
  | _ => []
  end.

(** The first statement of a body, when it is a docstring. *)
Definition is_docstring (n : node) : bool :=
  match node_kind n with
  | Expr_ =>
      match list_find (λ f, f.1 = "value"%string) (fields n) with
      | Some (_, (_, One (Node (Constant true) _ _ _))) => true
      | _ => false
      end
  | _ => false
  end.

Definition required (previous following : node) : bool :=
  (is_assignment previous && negb (is_assignment following)) || is_block previous || is_separated following.

(** [lines[a:b]] of indices that are not negative. *)
Definition slice (a b : Z) (l : list string) : list string := take (Z.to_nat (b - a)) (drop (Z.to_nat a) l).

Definition is_comment_line (s : string) : bool :=
  match drop_spaces (uchars s) with c :: _ => String.eqb c "#" | [] => false end.

(** Up over the comments that belong to the statement that starts after line [i]; an index
    out of range raises. *)
Fixpoint above_comments (fuel : nat) (stop i : Z) (lines : list string) : run Z :=
  match fuel with
  | O => Ok i
  | S fuel =>
      if stop <? i then
        match lines !! Z.to_nat (i - 1) with
        | Some line => if is_comment_line line then above_comments fuel stop (i - 1) lines else Ok i
        | None => Err OtherErr
        end
      else Ok i
  end.

(** [following.end_lineno or start] *)
Definition last_line (following : node) (start : Z) : Z :=
  match end_lineno following with Some l => if l =? 0 then start else l | None => start end.

Definition is_protected (protected : gset Z) (first last : Z) : bool :=
  existsb (λ l, bool_decide (l ∈ protected)) (seqZ first (last + 1 - first)).

(** The line a blank is inserted at between two siblings, if one is; [first] when the first
    of them begins a body that may have a docstring. *)
Definition insertion (lines : list string) (protected : gset Z) (first : bool) (previous following : node)
  : run (option Z) :=
  match end_lineno previous with
  | None => Ok None
  | Some stop =>
      let start := statement_start following in
      if start <=? stop then Ok None
      else if first && is_docstring previous then Ok None
      else if negb (required previous following)
              || is_protected protected (lineno previous) (last_line following start) then Ok None
      else if existsb is_blank (slice stop (start - 1) lines) then Ok None
      else Some <$> above_comments (Z.to_nat (start - 1 - stop)) stop (start - 1) lines
  end.

Definition siblings (n : node) (f : string * field) : list (bool * (node * node)) :=
  match f.2 with
  | Many l =>
      let stmts := List.filter is_stmt l in
      imap (λ i p, (String.eqb f.1 "body" && owns_docstring n && Nat.eqb i 0, p)) (pairwise stmts)
  | _ => []
  end.

Definition all_siblings (tree : node) : list (bool * (node * node)) :=
  n ← walk tree; f ← fields n; siblings n f.

Fixpoint collect {A B} (f : A → run (option B)) (l : list A) : run (list B) :=
  match l with
  | [] => Ok []
  | a :: l' =>
      r ← f a;
      rs ← collect f l';
      Ok (match r with Some b => b :: rs | None => rs end)
  end.

Definition insertions (tree : node) (lines : list string) (protected : gset Z) : run (gset Z) :=
  list_to_set <$> collect (λ s, insertion lines protected s.1 s.2.1 s.2.2) (all_siblings tree).

(** [lines.insert(i, ...)], which takes a negative index from the end and bounds it. *)
Definition insert_line (i : Z) (lines : list string) : list string :=
  let n := Z.of_nat (length lines) in
  let i := Z.to_nat (if i <? 0 then Z.max 0 (n + i) else Z.min i n) in
  take i lines ++ octets [10] :: drop i lines.

Definition descending (a b : Z) : Prop := b ≤ a.
#[export] Instance descending_dec a b : Decision (descending a b).
Proof. unfold descending. apply _. Defined.

(** ** Options of [pyproject.toml] *)
Inductive option_value := OInt (z : Z) | OBool (b : bool) | OText (s : string) | OTexts (l : list string).

Definition int_of (v : option_value) : run Z :=
  match v with
  | OInt z => Ok z
  | OBool b => Ok (if b then 1 else 0)
  | OText s => match parse_int s with Ok z => Ok z | Err _ => Err (ValueErr "invalid literal for int()") end
  | OTexts _ => Err OtherErr
  end.
Definition truth (v : option_value) : bool :=
  match v with
  | OInt z => negb (z =? 0) | OBool b => b
  | OText s => negb (String.eqb s "") | OTexts l => match l with [] => false | _ => true end
  end.
(** The items of a value that is iterated over. *)
Definition items_of (v : option_value) : run (list string) :=
  match v with
  | OTexts l => Ok l | OText s => Ok (uchars s) | OInt _ | OBool _ => Err OtherErr
  end.

Record mode := mkMode { line_length : Z; target_versions : gset string; string_normalization : bool }.

(** What the code asks of the standard library and of Black; [None]: nothing to change. *)
Class Tools := {
  parse_pyproject_toml : run (gmap string option_value);
  TargetVersion : string → bool;                           (* the names of its members *)
  parse : string → run node;
  comments_of : string → run (list comment);
  format_file_contents : mode → list (Z * Z) → string → run (option string);
  detect_encoding : string → run string;
  decode_with : string → string → run string;              (* [encoding] first *)
  encode_with : string → string → run string
}.

Section tools.
Context `{Tools}.

Definition project_mode : run mode :=
  options ← parse_pyproject_toml;
  length ← int_of (default (OInt 88) (options !! "line_length"%string));
  targets ← items_of (default (OTexts ["py312"]) (options !! "target_version"%string));
  if forallb (λ t, TargetVersion (upper t)) targets
  then Ok (mkMode length (list_to_set (upper <$> targets))
             (negb (truth (default (OBool false) (options !! "skip_string_normalization"%string)))))
  else Err OtherErr.

Definition spaced_source (source : string) : run string :=
  tree ← parse source;
  let lines := splitlines source in
  comments ← comments_of source;
  let protected := protected_lines comments source in
  at_ ← insertions tree lines protected;
  let result := concat_text (foldl (λ ls i, insert_line i ls) lines
                                   (merge_sort descending (elements at_))) in
  again ← parse result;
  if negb (String.eqb (dump tree) (dump again))
  then Err (ValueErr "Spacing changed Python syntax; refusing to format.") else Ok result.

Definition black_source (source : string) (m : mode) (ranges : list (Z * Z)) : run string :=
  default source <$> format_file_contents m ranges source.

(** [str.replace] of the line endings. *)
Fixpoint to_lf (s : string) : string :=
  match s with
  | String a ((String b s') as r) =>
      if (octet a =? 13) && (octet b =? 10) then String b (to_lf s') else String a (to_lf r)
  | _ => s
  end.
Fixpoint to_crlf (s : string) : string :=
  match s with
  | String c s' => if octet c =? 10 then String (of_octet 13) (String c (to_crlf s')) else String c (to_crlf s')
  | EmptyString => EmptyString
  end.
Definition has_crlf (s : string) : bool := contains (octets [13; 10]) s.

Definition format_source (source : string) (m : mode) : run string :=
  let crlf := has_crlf source in
  let normalized := to_lf source in
  initial ← black_source normalized m [];
  spaced ← spaced_source initial;
  result ← black_source spaced m [];
  again ← spaced_source result;
  if negb (String.eqb again result)
  then Err (ValueErr "Black and spacing rules disagree; refusing to format.")
  else Ok (if crlf then to_crlf result else result).
End tools.

(** ** Files *)
Abbreviation path := (list string) (only parsing).

(** What a path names; a directory that cannot be listed has no entries to tell. *)
Inductive entry := Link | Regular | Special | Dir (entries : option (list (string * entry))).

(** How a write ends: done, refused before anything changed, or cut short. *)
Inductive written := Done | Refused | Partial (kept : string).

Class Host := {
  at_path : path → option entry;
  resolve : path → path;
  write_outcome : path → string → written
}.

Definition IGNORED_DIRS : list string := ["__pycache__"; "node_modules"; "venv"; "env"; "build"; "dist"].
Definition DEFAULT_PATHS (ROOT : path) : list path := (λ d, ROOT ++ [d]) <$> ["app"; "tests"; "scripts"].

Definition ends_with (suffix s : string) : bool :=
  String.eqb (drop_str (String.length s - String.length suffix) s) suffix.
(** [path.suffix == '.py'] *)
Definition has_py_suffix (p : path) : bool :=
  match last p with Some name => ends_with ".py" name && (3 <? Z.of_nat (String.length name)) | None => false end.

Definition is_ignored (name : string) : bool :=
  starts_with "." name || bool_decide (name ∈ IGNORED_DIRS).

Fixpoint path_le (a b : path) : bool :=
  match a, b with
  | [], _ => true
  | _ :: _, [] => false
  | x :: a', y :: b' => if String.eqb x y then path_le a' b' else str_le x y
  end.
Definition path_order (a b : path) : Prop := path_le a b = true.
#[export] Instance path_order_dec a b : Decision (path_order a b).
Proof. unfold path_order. apply _. Defined.

Section files.
Context `{Host}.

(** [os.walk] without the links, the hidden and the ignored directories. *)
Fixpoint walk_files (directory : path) (e : entry) : list path :=
  match e with
  | Dir (Some entries) =>
      (fix go (entries : list (string * entry)) : list path :=
         match entries with
         | [] => []
         | (name, e') :: entries' =>
             match e' with
             | Link => []
             | Dir _ => if is_ignored name then [] else walk_files (directory ++ [name]) e'
             | Regular | Special => if ends_with ".py" name then [resolve (directory ++ [name])] else []
             end ++ go entries'
         end) entries
  | _ => []
  end.

Definition files_of (p : path) : run (list path) :=
  match at_path p with
  | Some Link => Err (ValueErr "Refusing symbolic-link target")
  | Some (Dir entries) => Ok (walk_files p (Dir entries))
  | Some Regular => if has_py_suffix p then Ok [resolve p]
                    else Err (ValueErr "Expected an existing Python file or directory")
  | Some Special | None => Err (ValueErr "Expected an existing Python file or directory")
  end.

Definition python_files (paths : list path) : run (list path) :=
  files ← mapM files_of paths;
  let files : gset path := list_to_set (mjoin files) in
  if bool_decide (files = ∅) then Err (ValueErr "No Python files selected.")
  else Ok (merge_sort path_order (elements files)).
End files.

(** ** The command *)
(** [value.split('-', 1)]; one part does not unpack. *)
Fixpoint split_dash (s : string) : option (string * string) :=
  match s with
  | EmptyString => None
  | String c s' => if Ascii.eqb c "-"%char then Some (EmptyString, s')
                   else (λ p, (String c p.1, p.2)) <$> split_dash s'
  end.
Definition line_range (value : string) : option (Z * Z) :=
  match split_dash value with
  | Some (a, b) =>
      match parse_int a, parse_int b with
      | Ok start, Ok stop => if (start <? 1) || (stop <? start) then None else Some (start, stop)
      | _, _ => None
      end
  | None => None
  end.

Record args := mkArgs {
  paths : list path;
  check : bool;
  version : bool;
  line_ranges : list string;
  stdin_filename : option string
}.

(** How the command ends: [main] returns a status, having written an editor buffer to its
    output; the command line is refused (status 2); or an exception goes through. *)
Inductive outcome := Returned (status : Z) (stdout : string) | UsageError | Uncaught.

Abbreviation disk := (gmap path string) (only parsing).

Section command.
Context `{Tools, Host} (ROOT : path).

(** UTF-8 text is kept as its octets. *)
Definition utf8 (s : string) : run string :=
  if utf8_valid s then Ok s else Err (ValueErr "invalid utf-8").

(** [except (SyntaxError, ValueError, TokenError): raise ValueError] *)
Definition as_value {A} (r : run A) : run A :=
  match r with
  | Err (SyntaxErr | ValueErr _ | TokenErr) => Err (ValueErr "invalid file")
  | r => r
  end.

Definition format_bytes (m : mode) (raw : string) : run string :=
  encoding ← detect_encoding raw;
  as_value (source ← decode_with encoding raw; formatted ← format_source source m; encode_with encoding formatted).

Definition changed_file (m : mode) (w : disk) (p : path) : run (option (path * string)) :=
  match w !! p with
  | None => Err OSErr
  | Some raw =>
      formatted ← format_bytes m raw;
      Ok (if String.eqb formatted raw then None else Some (p, formatted))
  end.

Definition read_changes (a : args) (m : mode) (w : disk) : run (list (path * string)) :=
  files ← python_files (match paths a with [] => DEFAULT_PATHS ROOT | ps => ps end);
  collect (changed_file m w) files.

Fixpoint write_changes (changes : list (path * string)) (w : disk) : disk * bool :=
  match changes with
  | [] => (w, true)
  | (p, formatted) :: changes' =>
      match write_outcome p formatted with
      | Done => write_changes changes' (<[p := formatted]> w)
      | Refused => (w, false)
      | Partial kept => (<[p := kept]> w, false)
      end
  end.

Definition report (e : error) : outcome := if reported e then Returned 2 EmptyString else Uncaught.

(** The editor's buffer: nothing is written to its file. *)
Definition format_buffer (a : args) (ranges : list (Z * Z)) (m : mode) (stdin : string) : run outcome :=
  source ← utf8 stdin;
  result ← (match ranges with [] => format_source source m | _ => black_source source m ranges end);
  if check a then Ok (Returned (if String.eqb source result then 0 else 1) EmptyString)
  else stdout ← utf8 result; Ok (Returned 0 stdout).

Definition format_files (a : args) (m : mode) (w : disk) : disk * outcome :=
  match read_changes a m w with
  | Err e => (w, report e)
  | Ok changes =>
      if check a then (w, Returned (match changes with [] => 0 | _ => 1 end) EmptyString)
      else let '(w', done) := write_changes changes w in
           (w', Returned (if done then 0 else 2) EmptyString)
  end.

Definition has_stdin (a : args) : bool :=
  match stdin_filename a with Some f => negb (String.eqb f "") | None => false end.

Definition main (a : args) (stdin : string) (w : disk) : disk * outcome :=
  match mapM line_range (line_ranges a) with
  | None => (w, UsageError)
  | Some ranges =>
      if version a then (w, Returned 0 EmptyString)
      else match project_mode with
      | Err e => (w, report e)
      | Ok m =>
          if has_stdin a then
            if negb (bool_decide (paths a = [["-"]])) then (w, UsageError)
            else (w, match format_buffer a ranges m stdin with Ok o => o | Err e => report e end)
          else match ranges with
               | _ :: _ => (w, UsageError)
               | [] => format_files a m w
               end
      end
  end.
End command.
