(* ===== verification/FormatSpec.v ===== *)
(** * What the documentation asks of the spacing

    The blank-line rules of [docs/setup.md] ("Logical separation"), written down as
    relations on the syntax tree, the comments and the lines of a source, without the
    functions of [scripts/format_code.py]; the lemmas say that each function of [FormatCode]
    decides the relation that it implements. *)
From S2P Require Import Prelude PyText Fingerprint UnicodeText FormatCode.
Open Scope Z_scope.

(** ** The lines of a source *)
Definition LF : ascii := of_octet 10.

(** The lines of a text, each with the line feed that ends it. *)
Fixpoint text_lines (s : string) : list string :=
  match s with
  | EmptyString => []
  | String c s' =>
      if Ascii.eqb c LF then String c EmptyString :: text_lines s'
      else match text_lines s' with
           | line :: lines => String c line :: lines
           | [] => [String c EmptyString]
           end
  end.

(** A text in which nothing but the line feed ends a line: no form feed, no separator that
    [str.splitlines] knows and the tokenizer does not, no carriage return. *)
Definition line_feeds_only (s : string) : bool :=
  forallb (λ c, implb (is_ubreak c || mem_char LF c) (String.eqb c (String LF EmptyString))) (uchars s).

(** ** Statements and their neighbours *)
Definition statement (n : node) : Prop :=
  node_kind n ≠ Module_ ∧ (∀ b, node_kind n ≠ Constant b) ∧ ∀ name, node_kind n ≠ Other name.

(** The value of a field. *)
Definition has_field (n : node) (name : string) (f : field) : Prop :=
  ∃ before after, fields n = before ++ (name, f) :: after ∧ name ∉ before.*1.

(** The nodes of a tree. *)
Inductive within : node → node → Prop :=
| within_self n : within n n
| within_one n name child m : (name, One child) ∈ fields n → within child m → within n m
| within_many n name children child m :
    (name, Many children) ∈ fields n → child ∈ children → within child m → within n m.

(** Two statements that follow each other in the list of a field, and what the list holds
    before the first. *)
Definition neighbours (tree owner : node) (name : string) (before : list node) (previous following : node) : Prop :=
  within tree owner ∧ statement previous ∧ statement following
  ∧ ∃ between after, (name, Many (before ++ previous :: between ++ following :: after)) ∈ fields owner
      ∧ ∀ n, n ∈ between → ¬ statement n.

(** A string that stands alone, first in the body of a module, a function or a class. *)
Definition docstring (owner : node) (name : string) (before : list node) (n : node) : Prop :=
  name = "body"%string ∧ node_kind owner ∈ [Module_; FunctionDef; AsyncFunctionDef; ClassDef]
  ∧ (∀ m, m ∈ before → ¬ statement m)
  ∧ node_kind n = Expr_ ∧ ∃ value, has_field n "value" (One value) ∧ node_kind value = Constant true.

(** The line a statement starts at, its decorators included. *)
Inductive anchor (n : node) : Z → Prop :=
| anchor_self : anchor n (lineno n)
| anchor_decorator decorators d :
    node_kind n ∈ [FunctionDef; AsyncFunctionDef; ClassDef] →
    has_field n "decorator_list" (Many decorators) → d ∈ decorators → anchor n (lineno d).
Definition starts_at (n : node) (l : Z) : Prop := anchor n l ∧ ∀ l', anchor n l' → l ≤ l'.

(** The last line of a statement that starts at [start]; a tree may not tell. *)
Definition ends_at (n : node) (start last : Z) : Prop :=
  if decide (end_lineno n = None ∨ end_lineno n = Some 0) then last = start else end_lineno n = Some last.

(** Which neighbours are separated: an assignment group from another operation, a completed
    block from its next sibling, and [return], [raise], [try] and [try*] from preceding work. *)
Inductive separated_kinds : kind → kind → Prop :=
| after_assignments k k' :
    k ∈ [Assign; AnnAssign; AugAssign] → k' ∉ [Assign; AnnAssign; AugAssign] → separated_kinds k k'
| after_block k k' :
    k ∈ [If_; For_; AsyncFor; While_; With_; AsyncWith; Try_; TryStar; Match_; FunctionDef; AsyncFunctionDef; ClassDef] →
    separated_kinds k k'
| before_exit k k' : k' ∈ [Return_; Raise_; Try_; TryStar] → separated_kinds k k'.

(** ** Protected lines *)
Definition directive (c : comment) : string := ustrip (lstrip_when (Ascii.eqb "#"%char) (c_text c)).
Definition says (text : string) (c : comment) : Prop := directive c = text.

(** An exclusion is open after these comments. *)
Definition opened (cs : list comment) : Prop :=
  ∃ a c b, cs = a ++ c :: b ∧ says "fmt: off" c ∧ ∀ d, d ∈ b → ¬ says "fmt: on" d.
(** It was opened on this line. *)
Definition open_since (cs : list comment) (from : Z) : Prop :=
  ∃ a c b, cs = a ++ c :: b ∧ says "fmt: off" c ∧ (∀ d, d ∈ b → ¬ says "fmt: on" d)
    ∧ ¬ opened a ∧ from = c_start c.

(** The lines of a source of [total] lines that its comments exclude. *)
Inductive excluded (cs : list comment) (total : Z) : Z → Prop :=
| excluded_skip c : c ∈ cs → says "fmt: skip" c → excluded cs total (c_start c)
| excluded_region before c after from l :
    cs = before ++ c :: after → open_since before from → says "fmt: on" c → from ≤ l ≤ c_end c → excluded cs total l
| excluded_rest from l : open_since cs from → from ≤ l ≤ total → excluded cs total l.

(** ** Where a blank line is asked for *)
Definition comment_line (line : string) : Prop :=
  ∃ before after, uchars line = before ++ "#"%string :: after ∧ ∀ c, c ∈ before → is_uspace c = true.

(** The lines from [i] up to [top] are comments; the one before [i] is not, unless [i] is [stop]. *)
Definition attached_from (lines : list string) (stop top i : Z) : Prop :=
  stop ≤ i ≤ top
  ∧ (∀ j, i ≤ j < top → ∃ line, lines !! Z.to_nat j = Some line ∧ comment_line line)
  ∧ (stop < i → ∃ line, lines !! Z.to_nat (i - 1) = Some line ∧ ¬ comment_line line).

(** A blank line is asked for before line [i] (from 0): two neighbours on lines of their own
    that the rules separate, the first no docstring, none of their lines excluded, no blank
    line between them yet; the place is above the comments attached to the second. *)
Definition asks (tree : node) (cs : list comment) (lines : list string) (i : Z) : Prop :=
  ∃ owner name before previous following stop start last,
    neighbours tree owner name before previous following
    ∧ end_lineno previous = Some stop ∧ starts_at following start ∧ ends_at following start last
    ∧ stop < start
    ∧ separated_kinds (node_kind previous) (node_kind following)
    ∧ ¬ docstring owner name before previous
    ∧ (∀ l, lineno previous ≤ l ≤ last → ¬ excluded cs (Z.of_nat (length lines)) l)
    ∧ (∀ j line, stop ≤ j < start - 1 → lines !! Z.to_nat j = Some line → is_blank line = false)
    ∧ attached_from lines stop (start - 1) i.

(** The lines of the statements are lines of the source. *)
Definition lines_exist (tree : node) (lines : list string) : Prop :=
  ∀ owner name before previous following, neighbours tree owner name before previous following →
    (∀ stop, end_lineno previous = Some stop → 0 ≤ stop)
    ∧ ∀ start, starts_at following start → start ≤ Z.of_nat (length lines).

(** ** [FormatCode] decides these relations *)
Lemma is_stmt_spec n : is_stmt n = true ↔ statement n.
Proof. unfold is_stmt, statement. destruct (node_kind n); naive_solver. Qed.

Lemma required_spec p f : required p f = true ↔ separated_kinds (node_kind p) (node_kind f).
Proof.
  assert (∀ n, is_assignment n = true ↔ node_kind n ∈ [Assign; AnnAssign; AugAssign]) as Ha.
  { intros n. unfold is_assignment. rewrite !elem_of_cons, elem_of_nil. destruct (node_kind n); naive_solver. }
  assert (∀ n, is_block n = true ↔ node_kind n ∈ [If_; For_; AsyncFor; While_; With_; AsyncWith; Try_; TryStar;
                                                  Match_; FunctionDef; AsyncFunctionDef; ClassDef]) as Hb.
  { intros n. unfold is_block. rewrite !elem_of_cons, elem_of_nil. destruct (node_kind n); naive_solver. }
  assert (∀ n, is_separated n = true ↔ node_kind n ∈ [Return_; Raise_; Try_; TryStar]) as Hs.
  { intros n. unfold is_separated. rewrite !elem_of_cons, elem_of_nil. destruct (node_kind n); naive_solver. }
  unfold required. rewrite !orb_true_iff, andb_true_iff, negb_true_iff, <-not_true_iff_false, Ha, Hb, Hs, Ha.
  split; [intros [[[? ?]|?]|?]; eauto using separated_kinds|intros []; auto].
Qed.

Lemma owns_docstring_spec n :
  owns_docstring n = true ↔ node_kind n ∈ [Module_; FunctionDef; AsyncFunctionDef; ClassDef].
Proof. unfold owns_docstring. rewrite !elem_of_cons, elem_of_nil. destruct (node_kind n); naive_solver. Qed.

Lemma has_field_spec n name f :
  has_field n name f ↔ ∃ i, list_find (λ f, f.1 = name) (fields n) = Some (i, (name, f)).
Proof.
  split.
  - intros (before & after & -> & Hn). exists (length before). apply list_find_Some. split; [by rewrite list_lookup_middle|].
    split; [done|]. intros j y Hj Hlt Hy. apply Hn. rewrite lookup_app_l in Hj by done. rewrite <-Hy.
    apply list_elem_of_lookup_2 in Hj. by apply list_elem_of_fmap_2.
  - intros [i (Hi & _ & Hj)%list_find_Some]. exists (take i (fields n)), (drop (S i) (fields n)).
    split; [symmetry; by apply take_drop_middle|]. intros ([x g] & -> & [j Hl]%list_elem_of_lookup)%list_elem_of_fmap.
    apply lookup_take_Some in Hl as [Hl Hlt]. by apply (Hj j _ Hl Hlt).
Qed.

Lemma is_docstring_spec n :
  is_docstring n = true
  ↔ node_kind n = Expr_ ∧ ∃ value, has_field n "value" (One value) ∧ node_kind value = Constant true.
Proof.
  unfold is_docstring. setoid_rewrite has_field_spec.
  destruct (node_kind n); try (split; [done|intros [Hk _]; discriminate Hk]).
  destruct (list_find _ (fields n)) as [[i [x f]]|] eqn:Hf.
  2:{ split; [done|]. intros (_ & v & [j Hj] & _). congruence. }
  assert (x = "value"%string) as -> by (by apply list_find_Some in Hf as (_ & ? & _)).
  split.
  - destruct f as [|m|]; try done. destruct m as [k a e fs] eqn:Hm. intros Hk. split; [done|]. exists m. subst m.
    split; [eauto|]. cbn. by destruct k as [| | | | | | | | | | | | | | | | | | | |[]|].
  - intros (_ & v & [j Hj] & Hv). injection Hj as _ ->. destruct v as [k a e fs]. cbn in Hv. by subst k.
Qed.

(** The least of a number and a list. *)
Lemma foldl_min ls a : foldl Z.min a ls ∈ a :: ls ∧ ∀ b, b ∈ a :: ls → foldl Z.min a ls ≤ b.
Proof.
  revert a. induction ls as [|x ls IH]; intros a; cbn [foldl].
  - split; [set_solver|]. intros b ->%list_elem_of_singleton. lia.
  - destruct (IH (a `min` x)) as [H1 H2]. split.
    + apply elem_of_cons in H1 as [H1|H1]; [|set_solver]. rewrite H1. destruct (Z.min_spec a x) as [[_ ->]|[_ ->]]; set_solver.
    + pose proof (H2 (a `min` x) ltac:(set_solver)). intros b [->|[->|Hb]%elem_of_cons]%elem_of_cons; [lia|lia|].
      apply H2. set_solver.
Qed.

Definition decorator_lines (n : node) : list Z :=
  match list_find (λ f, f.1 = "decorator_list"%string) (fields n) with
  | Some (_, (_, Many l)) => lineno <$> l
  | _ => []
  end.

Lemma decorator_lines_spec n x :
  x ∈ decorator_lines n ↔ ∃ decorators d, has_field n "decorator_list" (Many decorators) ∧ d ∈ decorators ∧ x = lineno d.
Proof.
  setoid_rewrite has_field_spec. unfold decorator_lines.
  destruct (list_find _ _) as [[i [y f]]|] eqn:Hf; [|split; [set_solver|]; by intros (? & ? & [? ?] & _)].
  assert (y = "decorator_list"%string) as -> by (by apply list_find_Some in Hf as (_ & ? & _)).
  split.
  - destruct f as [| |l0]; [set_solver..|]. intros (d & -> & ?)%list_elem_of_fmap. eauto 10.
  - intros (ds' & d & [j [= -> ->]] & Hd & ->). by apply list_elem_of_fmap_2.
Qed.

Lemma statement_start_anchor n : anchor n (statement_start n) ∧ ∀ l, anchor n l → statement_start n ≤ l.
Proof.
  assert (node_kind n ∈ [FunctionDef; AsyncFunctionDef; ClassDef] ∧ statement_start n = foldl Z.min (lineno n) (decorator_lines n)
          ∨ node_kind n ∉ [FunctionDef; AsyncFunctionDef; ClassDef] ∧ statement_start n = lineno n) as [[Hk ->]|[Hk ->]].
  { unfold statement_start, decorator_lines. rewrite !elem_of_cons, elem_of_nil. destruct (node_kind n); naive_solver. }
  - destruct (foldl_min (decorator_lines n) (lineno n)) as [H1 H2]. split.
    + apply elem_of_cons in H1 as [->|H1]; [constructor|].
      apply decorator_lines_spec in H1 as (? & ? & ? & ? & ->). by econstructor.
    + intros l [|decorators d _ Hd Hin]; apply H2; [set_solver|]. apply elem_of_cons. right.
      apply decorator_lines_spec. eauto.
  - split; [constructor|]. intros l []; [lia|done].
Qed.

Lemma starts_at_spec n l : starts_at n l ↔ l = statement_start n.
Proof.
  destruct (statement_start_anchor n) as [Ha Hl]. split; [|by intros ->].
  intros [Ha' Hl']. apply Hl in Ha'. apply Hl' in Ha. lia.
Qed.

Lemma ends_at_spec n start last : ends_at n start last ↔ last = last_line n start.
Proof.
  unfold ends_at, last_line. destruct (end_lineno n) as [l|].
  - destruct (Z.eqb_spec l 0) as [->|]; case_decide; naive_solver.
  - by rewrite decide_True by auto.
Qed.

(** ** The tree *)
Definition children (f : field) : list node := match f with Leaf _ => [] | One n => [n] | Many l => l end.

Lemma walk_eq n : walk n = n :: mjoin ((λ f, mjoin (walk <$> children f.2)) <$> fields n).
Proof.
  destruct n as [k l e fs]. cbn. f_equal. induction fs as [|[name f] fs IH]; [done|].
  cbn. rewrite IH. f_equal. destruct f; cbn; by rewrite ?app_nil_r.
Qed.

(** Induction on a tree: what holds of all the children of a node holds of the node. *)
Lemma node_tree_ind (P : node → Prop) :
  (∀ n, (∀ name f c, (name, f) ∈ fields n → c ∈ children f → P c) → P n) → ∀ n, P n.
Proof.
  intros H. fix IH 1. intros [k l e fs]. apply H. cbn.
  assert (Forall (λ f, Forall P (children f.2)) fs) as Hfs.
  { induction fs as [|[x g] fs IHfs]; constructor; [|exact IHfs]. cbn. destruct g as [t|m|ms]; cbn.
    - constructor.
    - constructor; [apply IH|constructor].
    - induction ms as [|m ms IHms]; constructor; [apply IH|exact IHms]. }
  intros name f c Hf Hc. rewrite Forall_forall in Hfs. specialize (Hfs _ Hf). cbn in Hfs.
  rewrite Forall_forall in Hfs. by apply Hfs.
Qed.

Lemma walk_within n m : m ∈ walk n ↔ within n m.
Proof.
  split.
  - revert m. induction n as [n IH] using node_tree_ind. intros m. rewrite walk_eq.
    intros [->|(ms & Hm & ([name f] & -> & Hf)%list_elem_of_fmap)%list_elem_of_join]%elem_of_cons; [constructor|].
    apply list_elem_of_join in Hm as (ws & Hm & (c & -> & Hc)%list_elem_of_fmap). cbn in Hc.
    pose proof (IH _ _ _ Hf Hc _ Hm) as Hw.
    destruct f as [|c'|l]; cbn in Hc; [by apply not_elem_of_nil in Hc| |by eapply within_many].
    apply list_elem_of_singleton in Hc as ->. by eapply within_one.
  - assert (∀ name f c n m, (name, f) ∈ fields n → c ∈ children f → m ∈ walk c → m ∈ walk n) as Hstep.
    { intros name f c n' m' Hf Hc Hm. rewrite walk_eq. apply elem_of_cons. right. apply list_elem_of_join.
      exists (mjoin (walk <$> children f)). split; [apply list_elem_of_join; exists (walk c)|].
      - split; [done|]. by apply list_elem_of_fmap_2.
      - apply list_elem_of_fmap. by exists (name, f). }
    induction 1 as [n|n name c m Hf _ IH|n name l c m Hf Hc _ IH].
    + rewrite walk_eq. set_solver.
    + eapply Hstep; [exact Hf| |exact IH]. cbn. set_solver.
    + eapply Hstep; [exact Hf|exact Hc|exact IH].
Qed.

Lemma pairwise_lookup {A} (l : list A) i a b :
  pairwise l !! i = Some (a, b) ↔ l !! i = Some a ∧ l !! S i = Some b.
Proof.
  revert i. induction l as [|x l IH]; intros i; [naive_solver|].
  destruct l as [|y l]; [cbn; destruct i; naive_solver|].
  destruct i as [|i]; [cbn; naive_solver|]. apply IH.
Qed.

Lemma filter_nil_iff {A} (p : A → bool) l : List.filter p l = [] ↔ ∀ a, a ∈ l → p a = false.
Proof.
  induction l as [|x l IH]; cbn; [set_solver|]. destruct (p x) eqn:Hx.
  - split; [done|]. intros H. rewrite H in Hx; [done|set_solver].
  - rewrite IH. set_solver.
Qed.

(** Where the elements that are kept come from. *)
Lemma filter_split {A} (p : A → bool) l pre a post :
  List.filter p l = pre ++ a :: post ↔
  ∃ before after, l = before ++ a :: after ∧ List.filter p before = pre ∧ p a = true ∧ List.filter p after = post.
Proof.
  split.
  - revert pre. induction l as [|x l IH]; intros pre; cbn [List.filter]; [by destruct pre|]. destruct (p x) eqn:Hx.
    + destruct pre as [|y pre]; cbn.
      * intros [= -> <-]. by exists [], l.
      * intros [= -> (before & after & -> & <- & ? & <-)%IH]. exists (y :: before), after. cbn. by rewrite Hx.
    + intros (before & after & -> & <- & ? & <-)%IH. exists (x :: before), after. cbn. by rewrite Hx.
  - intros (before & after & -> & <- & Ha & <-). rewrite List.filter_app. cbn. by rewrite Ha.
Qed.

Lemma statements_none l : List.filter is_stmt l = [] ↔ ∀ n, n ∈ l → ¬ statement n.
Proof.
  rewrite filter_nil_iff. split; intros H n Hn; specialize (H n Hn);
    pose proof (is_stmt_spec n); destruct (is_stmt n); naive_solver.
Qed.

(** Two statements next to each other among those of a list. *)
Lemma pairwise_statements l i p f :
  pairwise (List.filter is_stmt l) !! i = Some (p, f) ↔
  ∃ before between after, l = before ++ p :: between ++ f :: after ∧ length (List.filter is_stmt before) = i
    ∧ statement p ∧ statement f ∧ ∀ n, n ∈ between → ¬ statement n.
Proof.
  rewrite pairwise_lookup. setoid_rewrite <-statements_none. setoid_rewrite <-is_stmt_spec. split.
  - intros [Hp Hf]. apply list_elem_of_split_length in Hp as (pre & post & He & Hi).
    apply filter_split in He as (before & rest & -> & <- & Hp & <-).
    rewrite List.filter_app, lookup_app_r in Hf by lia. cbn in Hf. rewrite Hp in Hf.
    replace (S i - _)%nat with 1%nat in Hf by lia. cbn in Hf.
    destruct (List.filter is_stmt rest) as [|x post] eqn:Hr; [done|]. injection Hf as ->.
    apply (filter_split is_stmt rest []) in Hr as (between & after & -> & Hb & Hf & _). eauto 10.
  - intros (before & between & after & -> & <- & Hp & Hf & Hb).
    rewrite List.filter_app. cbn. rewrite Hp, List.filter_app, Hb. cbn. rewrite Hf. split.
    + by rewrite list_lookup_middle.
    + rewrite lookup_app_r by lia. by replace (S _ - _)%nat with 1%nat by lia.
Qed.

Definition leads (owner : node) (name : string) (before : list node) : bool :=
  String.eqb name "body" && owns_docstring owner && Nat.eqb (length (List.filter is_stmt before)) 0.

Lemma all_siblings_spec tree first p f :
  (first, (p, f)) ∈ all_siblings tree ↔
  ∃ owner name before, neighbours tree owner name before p f ∧ first = leads owner name before.
Proof.
  unfold all_siblings, neighbours, leads. rewrite list_elem_of_bind. split.
  - intros (owner & ([name g] & Hs & Hf)%list_elem_of_bind & Hw%walk_within). unfold siblings in Hs. cbn in Hs.
    destruct g as [| |l]; [by apply not_elem_of_nil in Hs..|].
    apply elem_of_lookup_imap in Hs as (i & q & [= -> <-] & Hi).
    apply pairwise_statements in Hi as (before & between & after & -> & <- & ? & ? & ?).
    exists owner, name, before. eauto 15.
  - intros (owner & name & before & (Hw & Hp & Hf & between & after & Hin & Hb) & ->). exists owner. split; [|by apply walk_within].
    apply list_elem_of_bind. eexists. split; [|exact Hin]. unfold siblings. cbn.
    apply elem_of_lookup_imap. eexists _, (p, f). split; [reflexivity|]. apply pairwise_statements. eauto 10.
Qed.

Lemma docstring_spec owner name before n :
  leads owner name before && is_docstring n = true ↔ docstring owner name before n.
Proof.
  unfold leads, docstring. rewrite !andb_true_iff, is_docstring_spec, owns_docstring_spec, String.eqb_eq, Nat.eqb_eq,
    length_zero_iff_nil, statements_none. tauto.
Qed.

(** ** Lines *)
Lemma drop_spaces_split l :
  ∃ before, l = before ++ drop_spaces l ∧ ∀ c, c ∈ before → is_uspace c = true.
Proof.
  induction l as [|c l (before & He & Hb)]; [by exists []; split; [|set_solver]|]. cbn [drop_spaces].
  destruct (is_uspace c) eqn:Hc; [|by exists []; split; [|set_solver]].
  exists (c :: before). split; [cbn; congruence|]. set_solver.
Qed.

Lemma drop_spaces_app before l :
  (∀ c, c ∈ before → is_uspace c = true) → drop_spaces (before ++ l) = drop_spaces l.
Proof. induction before as [|c before IH]; intros H; cbn; [done|]. rewrite H, IH; set_solver. Qed.

Lemma is_comment_line_spec line : is_comment_line line = true ↔ comment_line line.
Proof.
  unfold is_comment_line, comment_line. destruct (drop_spaces_split (uchars line)) as (b & He & Hb). split.
  - destruct (drop_spaces _) as [|c after] eqn:Hd; [done|]. intros ->%String.eqb_eq. exists b, after.
    by rewrite He.
  - intros (before & after & -> & Hs). rewrite drop_spaces_app by done. reflexivity.
Qed.

Lemma text_lines_app_line a s :
  mem_char LF a = false → text_lines (a +:+ String LF s) = (a +:+ String LF EmptyString) :: text_lines s.
Proof.
  induction a as [|c a IH]; [done|]. rewrite mem_char_cons. intros [Hc Ha]%orb_false_iff.
  change (String c a +:+ ?x) with (String c (a +:+ x)). cbn [text_lines]. rewrite IH by done.
  by rewrite Ascii.eqb_sym, Hc.
Qed.

Lemma text_lines_last a : mem_char LF a = false → text_lines a = if String.eqb a "" then [] else [a].
Proof.
  induction a as [|c a IH]; [done|]. rewrite mem_char_cons. intros [Hc Ha]%orb_false_iff.
  cbn [text_lines]. rewrite IH by done. rewrite Ascii.eqb_sym, Hc. by destruct a.
Qed.

(** Where only line feeds end lines, [str.splitlines] gives the lines of the text. *)
Lemma splitlines_text_lines s : line_feeds_only s = true → splitlines s = text_lines s.
Proof.
  unfold line_feeds_only, splitlines. intros Hf. rewrite <-(concat_uchars s) at 2.
  assert (∀ l line, forallb (λ c, implb (is_ubreak c || mem_char LF c) (String.eqb c (String LF EmptyString))) l = true →
    mem_char LF line = false → split_keep l line = text_lines (line +:+ concat_text l)) as H; [|by apply H].
  clear s Hf. induction l as [|c l IH]; intros line; cbn [forallb split_keep].
  { intros _ Hl. cbn. by rewrite str_app_nil, text_lines_last. }
  intros [Hc Hl]%andb_true_iff Hline. change (concat_text (c :: l)) with (c +:+ concat_text l).
  destruct (is_ubreak c) eqn:Hb.
  - apply String.eqb_eq in Hc as ->. change (String.eqb _ (octets [13])) with false.
    change (String LF EmptyString +:+ concat_text l) with (String LF (concat_text l)).
    rewrite text_lines_app_line by done. f_equal. by apply IH.
  - destruct (mem_char LF c) eqn:Hm; [apply String.eqb_eq in Hc as ->; discriminate Hb|].
    rewrite IH, str_app_assoc; [done..|]. by rewrite mem_char_app, Hline.
Qed.

(** ** Protected lines *)
Lemma app_snoc_split {A} (l a b : list A) x c :
  l ++ [x] = a ++ c :: b ↔ (b = [] ∧ l = a ∧ x = c) ∨ ∃ b', b = b' ++ [x] ∧ l = a ++ c :: b'.
Proof.
  split.
  - induction b as [|y b _] using rev_ind; intros He.
    + apply app_inj_tail in He as [-> ->]. auto.
    + right. exists b. rewrite app_comm_cons, app_assoc in He. apply app_inj_tail in He as [-> ->]. auto.
  - intros [(-> & -> & ->)|(b' & -> & ->)]; [done|]. by rewrite <-app_assoc.
Qed.

Lemma opened_snoc cs x :
  opened (cs ++ [x]) ↔ says "fmt: off" x ∨ (opened cs ∧ ¬ says "fmt: on" x).
Proof.
  unfold opened. split.
  - intros (a & c & b & [(-> & -> & ->)|(b' & -> & ->)]%app_snoc_split & Hc & Hb); [by left|right].
    split; [|set_solver]. exists a, c, b'. set_solver.
  - intros [Hx|((a & c & b & -> & Hc & Hb) & Hx)]; [exists cs, x, []; set_solver|].
    exists a, c, (b ++ [x]). rewrite <-app_assoc. split; [done|]. split; [done|]. set_solver.
Qed.

Lemma open_since_opened cs from : open_since cs from → opened cs.
Proof. intros (a & c & b & -> & ? & ? & _). by exists a, c, b. Qed.

Lemma open_since_snoc cs x from :
  open_since (cs ++ [x]) from ↔
  (says "fmt: off" x ∧ ¬ opened cs ∧ from = c_start x) ∨ (open_since cs from ∧ ¬ says "fmt: on" x).
Proof.
  unfold open_since. split.
  - intros (a & c & b & [(-> & -> & ->)|(b' & -> & ->)]%app_snoc_split & Hc & Hb & Ha & ->); [by left|right].
    split; [|set_solver]. exists a, c, b'. set_solver.
  - intros [(Hx & Hn & ->)|((a & c & b & -> & Hc & Hb & Ha & ->) & Hx)]; [exists cs, x, []; set_solver|].
    exists a, c, (b ++ [x]). rewrite <-app_assoc. split; [done|]. split; [done|]. set_solver.
Qed.

(** The lines that are skipped, and those of the regions that were closed. *)
Definition skipped (cs : list comment) (l : Z) : Prop := ∃ c, c ∈ cs ∧ says "fmt: skip" c ∧ l = c_start c.
Definition closed (cs : list comment) (l : Z) : Prop :=
  ∃ before c after from, cs = before ++ c :: after ∧ open_since before from ∧ says "fmt: on" c ∧ from ≤ l ≤ c_end c.

Lemma skipped_snoc cs x l : skipped (cs ++ [x]) l ↔ skipped cs l ∨ (says "fmt: skip" x ∧ l = c_start x).
Proof.
  unfold skipped. setoid_rewrite elem_of_app. setoid_rewrite list_elem_of_singleton. split.
  - intros (c & [?| ->] & ? & ->); [left; eauto|by right].
  - intros [(c & ? & ? & ->)|[? ->]]; eauto.
Qed.

Lemma closed_snoc cs x l :
  closed (cs ++ [x]) l ↔ closed cs l ∨ (says "fmt: on" x ∧ ∃ from, open_since cs from ∧ from ≤ l ≤ c_end x).
Proof.
  unfold closed. split.
  - intros (a & c & b & from & [(-> & -> & ->)|(b' & -> & ->)]%app_snoc_split & ? & ? & ?); [right; eauto|].
    left. by exists a, c, b', from.
  - intros [(a & c & b & from & -> & ?)|(? & from & ? & ?)].
    + exists a, c, (b ++ [x]), from. by rewrite <-app_assoc.
    + by exists cs, x, [], from.
Qed.

(** What [protect] keeps, over the comments seen so far. *)
Definition protects (cs : list comment) (st : gset Z * option Z) : Prop :=
  (∀ l, l ∈ st.1 ↔ skipped cs l ∨ closed cs l)
  ∧ (opened cs ↔ st.2 ≠ None) ∧ ∀ from, open_since cs from ↔ st.2 = Some from.

Lemma elem_of_lines (P : gset Z) l from to :
  l ∈ (list_to_set (seqZ from (to + 1 - from)) ∪ P : gset Z) ↔ l ∈ P ∨ from ≤ l ≤ to.
Proof. rewrite elem_of_union, elem_of_list_to_set, elem_of_seqZ. split; intros [?|?]; auto; [right|left]; lia. Qed.

Lemma protects_snoc cs x st : protects cs st → protects (cs ++ [x]) (protect st x).
Proof.
  destruct st as [P o]. intros (HP & Ho & Hf). cbn [fst snd] in *.
  unfold protects. setoid_rewrite skipped_snoc. setoid_rewrite closed_snoc. setoid_rewrite opened_snoc.
  setoid_rewrite open_since_snoc. setoid_rewrite Hf. rewrite Ho. unfold protect, says. fold (directive x).
  split_and!; [intros l; specialize (HP l)|clear HP|clear HP; setoid_rewrite Ho]; clear Hf Ho;
    destruct o as [since|]; cbn [fst snd];
    repeat match goal with |- context [String.eqb ?a ?b] => destruct (String.eqb_spec a b) as [->|] end;
    cbn [fst snd]; rewrite ?elem_of_lines, ?elem_of_union, ?elem_of_singleton; naive_solver.
Qed.

Lemma protects_all cs : protects cs (foldl protect (∅, None) cs).
Proof.
  induction cs as [|x cs IH] using rev_ind; [|rewrite foldl_app; by apply protects_snoc].
  unfold protects, skipped, closed, opened, open_since. cbn [foldl fst snd]. split_and!.
  - intros l. split; [set_solver|]. intros [(c & Hc & _)|(before & c & after & from & Hc & _)]; [set_solver|by destruct before].
  - split; [|done]. intros (a & c & b & Hc & _). by destruct a.
  - intros from. split; [|done]. intros (a & c & b & Hc & _). by destruct a.
Qed.

Lemma protected_lines_spec cs source l :
  l ∈ protected_lines cs source ↔ excluded cs (line_count source) l.
Proof.
  destruct (protects_all cs) as (HP & _ & Hf). unfold protected_lines.
  assert (excluded cs (line_count source) l
          ↔ (skipped cs l ∨ closed cs l) ∨ ∃ from, open_since cs from ∧ from ≤ l ≤ line_count source) as ->.
  { split.
    - intros [c ? ?|before c after from l' -> ? ? ?|from l' ? ?]; [left; left; by exists c| |right; eauto].
      left; right. by exists before, c, after, from.
    - intros [[(c & ? & ? & ->)|(before & c & after & from & -> & ? & ? & ?)]|(from & ? & ?)].
      + by constructor.
      + by eapply excluded_region.
      + by eapply excluded_rest. }
  setoid_rewrite Hf. destruct (foldl protect (∅, None) cs) as [P o]. cbn [fst snd] in *.
  destruct o as [since|]; rewrite ?elem_of_lines, HP; naive_solver.
Qed.
