(* ===== verification/FormatFacts.v ===== *)
(** * What the formatter guarantees

    Facts about [scripts/format_code.py] ([FormatCode]): the line endings round trip; the
    spacing inserts blank lines and nothing else, exactly those that the documented rules
    ([FormatSpec]) ask for; a formatted file is formatted; and the command writes after it validated. *)
From stdpp Require Import sorting.
From S2P Require Import Prelude PyText Fingerprint UnicodeText FormatCode FormatSpec.
Open Scope Z_scope.

Definition CR : ascii := of_octet 13.
Definition no_cr (s : string) : bool := negb (mem_char CR s).

(** ** Line endings *)
Lemma no_cr_app a b : no_cr (a +:+ b) = no_cr a && no_cr b.
Proof. unfold no_cr. by rewrite mem_char_app, negb_orb. Qed.

Lemma no_cr_cons c s : no_cr (String c s) = negb (octet c =? 13) && no_cr s.
Proof.
  unfold no_cr. rewrite mem_char_cons, negb_orb. f_equal. f_equal.
  destruct (Ascii.eqb_spec CR c) as [<-|Hc]; [done|].
  symmetry. apply Z.eqb_neq. intros He. apply Hc, octet_inj. by rewrite He.
Qed.

Lemma to_lf_no_cr s : no_cr s = true → to_lf s = s.
Proof.
  induction s as [|c s IH]; [done|]. rewrite no_cr_cons. intros [Hc Hs]%andb_true_iff.
  apply negb_true_iff in Hc. cbn [to_lf]. destruct s as [|d s]; [done|].
  rewrite Hc. cbn [andb]. by rewrite IH.
Qed.

(** The line endings that were taken out are put back. *)
Lemma to_lf_to_crlf s : to_lf (to_crlf s) = s.
Proof.
  induction s as [|c s IH]; [done|]. cbn [to_crlf]. destruct (octet c =? 10) eqn:Hc.
  - cbn [to_lf]. rewrite Hc. change (octet (of_octet 13) =? 13) with true. cbn [andb]. by rewrite IH.
  - destruct s as [|d s]; [done|]. cbn [to_crlf] in *. destruct (octet d =? 10) eqn:Hd.
    + cbn [to_lf] in *. change (octet (of_octet 13) =? 10) with false. rewrite andb_false_r. by rewrite IH.
    + cbn [to_lf] in *. rewrite Hd, andb_false_r. by rewrite IH.
Qed.

Lemma has_crlf_no_cr s : no_cr s = true → has_crlf s = false.
Proof.
  unfold has_crlf. induction s as [|c s IH]; [done|]. rewrite no_cr_cons. intros [Hc Hs]%andb_true_iff.
  cbn [contains]. rewrite IH by done. rewrite orb_false_r. unfold starts_with, octets. cbn [foldr String.prefix].
  destruct (Ascii.ascii_dec _ _) as [<-|]; [|done]. discriminate Hc.
Qed.

Lemma has_crlf_to_crlf s : has_crlf (to_crlf s) = true ∨ to_crlf s = s.
Proof.
  unfold has_crlf. induction s as [|c s [IH|IH]]; [by right| |]; cbn [to_crlf]; destruct (octet c =? 10) eqn:Hc.
  - left. cbn [contains]. rewrite IH. by rewrite !orb_true_r.
  - left. cbn [contains]. rewrite IH. by rewrite orb_true_r.
  - left. apply Z.eqb_eq in Hc. assert (c = of_octet 10) as -> by (apply octet_inj; by rewrite Hc).
    destruct (to_crlf s); reflexivity.
  - right. by rewrite IH.
Qed.

(** ** Lines *)
Lemma concat_text_app a b : concat_text (a ++ b) = concat_text a +:+ concat_text b.
Proof.
  induction a as [|x a IH]; [done|]. change (x +:+ concat_text (a ++ b) = (x +:+ concat_text a) +:+ concat_text b).
  by rewrite IH, str_app_assoc.
Qed.


Lemma concat_split_keep n l line : (length l ≤ n)%nat → concat_text (split_keep l line) = line +:+ concat_text l.
Proof.
  revert l line. induction n as [|n IH]; intros l line Hl; destruct l as [|c l]; simpl in Hl; try lia.
  - cbn [split_keep]. by destruct (String.eqb_spec line "") as [->|].
  - cbn [split_keep]. by destruct (String.eqb_spec line "") as [->|].
  - assert (∀ x, concat_text ((line +:+ x) :: split_keep l EmptyString) = line +:+ x +:+ concat_text l) as Hcons.
    { intros x. change (concat_text (?a :: ?b)) with (a +:+ concat_text b).
      rewrite IH, str_app_assoc by lia. done. }
    cbn [split_keep]. destruct (is_ubreak c).
    + destruct (String.eqb c (octets [13])); [|apply Hcons].
      destruct l as [|d l]; [apply Hcons|]. destruct (String.eqb d (octets [10])); [|apply Hcons].
      change (concat_text (?a :: ?b)) with (a +:+ concat_text b).
      rewrite IH by (simpl in Hl; lia). change (concat_text (c :: d :: l)) with (c +:+ d +:+ concat_text l).
      by rewrite !str_app_assoc.
    + rewrite IH by lia. by rewrite str_app_assoc.
Qed.

(** The lines of a source are the source. *)
Lemma concat_splitlines s : concat_text (splitlines s) = s.
Proof. unfold splitlines. rewrite (concat_split_keep (length (uchars s))) by done. apply concat_uchars. Qed.

(** ** The blank lines, in one pass *)
Fixpoint weave (spots : gset Z) (i : Z) (lines : list string) : list string :=
  (if bool_decide (i ∈ spots) then [octets [10]] else [])
  ++ match lines with [] => [] | line :: lines' => line :: weave spots (i + 1) lines' end.

Lemma weave_ext a b i lines : (∀ j, i ≤ j → j ∈ a ↔ j ∈ b) → weave a i lines = weave b i lines.
Proof.
  revert i. induction lines as [|l lines IH]; intros i Hj; cbn [weave];
    rewrite (bool_decide_ext (i ∈ a) (i ∈ b)) by (apply Hj; lia); [done|].
  f_equal. f_equal. apply IH. intros j ?. apply Hj. lia.
Qed.

Lemma weave_empty i lines : weave ∅ i lines = lines.
Proof.
  revert i. induction lines as [|l lines IH]; intros i; cbn [weave];
    rewrite bool_decide_eq_false_2 by set_solver; [done|]. cbn [app]. by rewrite IH.
Qed.

Lemma weave_split spots k i lines :
  (i ≤ length lines)%nat → (∀ j, j ∈ spots → k + Z.of_nat i ≤ j) →
  weave spots k lines = take i lines ++ weave spots (k + Z.of_nat i) (drop i lines).
Proof.
  revert k lines. induction i as [|i IH]; intros k lines Hi Hj.
  { rewrite take_0, drop_0. by rewrite Z.add_0_r. }
  destruct lines as [|l lines]; simpl in Hi; [lia|]. cbn [weave].
  rewrite bool_decide_eq_false_2 by (intros Hk; apply Hj in Hk; lia). cbn [take drop app]. f_equal.
  rewrite IH by (try lia; intros j Hk; apply Hj in Hk; lia). do 2 f_equal. lia.
Qed.

Lemma insert_weave spots i lines :
  0 ≤ i ≤ Z.of_nat (length lines) → (∀ j, j ∈ spots → i < j) →
  insert_line i (weave spots 0 lines) = weave ({[i]} ∪ spots) 0 lines.
Proof.
  intros Hi Hj.
  rewrite (weave_split spots 0 (Z.to_nat i)), (weave_split ({[i]} ∪ spots) 0 (Z.to_nat i))
    by (try lia; set_unfold; intros j Hk; try (apply Hj in Hk); naive_solver lia).
  rewrite Z.add_0_l, Z2Nat.id by lia.
  assert (length (take (Z.to_nat i) lines) = Z.to_nat i) as Hl by (rewrite length_take; lia).
  unfold insert_line. rewrite length_app, Hl.
  rewrite (proj2 (Z.ltb_ge i 0)), Z.min_l by lia.
  rewrite take_app_le, take_ge by lia. rewrite drop_app_ge, Hl, Nat.sub_diag, drop_0 by lia.
  f_equal. assert (∀ X, weave X i (drop (Z.to_nat i) lines) =
    (if bool_decide (i ∈ X) then [octets [10]] else []) ++
    match drop (Z.to_nat i) lines with [] => [] | line :: l => line :: weave X (i + 1) l end) as Hw
    by (intros X; by destruct (drop (Z.to_nat i) lines)).
  rewrite !Hw. rewrite bool_decide_eq_false_2 by (intros Hk; apply Hj in Hk; lia).
  rewrite bool_decide_eq_true_2 by set_solver. cbn [app]. f_equal. destruct (drop (Z.to_nat i) lines); [done|].
  f_equal. apply weave_ext. set_unfold. naive_solver lia.
Qed.

(** Inserting from the last place to the first is inserting in one pass. *)
Lemma insertions_weave (spots : gset Z) lines :
  (∀ i, i ∈ spots → 0 ≤ i ≤ Z.of_nat (length lines)) →
  foldl (λ ls i, insert_line i ls) lines (merge_sort descending (elements spots)) = weave spots 0 lines.
Proof.
  intros Hb.
  assert (Total descending) by (intros a b; unfold descending; lia).
  assert (Transitive descending) by (intros a b c; unfold descending; lia).
  pose proof (StronglySorted_merge_sort descending (elements spots)) as Hs.
  pose proof (merge_sort_Permutation descending (elements spots)) as Hp.
  assert (NoDup (merge_sort descending (elements spots))) as Hn by (rewrite Hp; apply NoDup_elements).
  assert (spots = list_to_set (merge_sort descending (elements spots))) as He.
  { apply set_eq. intros x. rewrite elem_of_list_to_set, Hp, elem_of_elements. done. }
  rewrite He at 2. assert (∀ i, i ∈ merge_sort descending (elements spots) → 0 ≤ i ≤ Z.of_nat (length lines)) as Hb'
    by (intros i; rewrite Hp, elem_of_elements; apply Hb).
  clear Hb He Hp. revert Hs Hn Hb'. induction (merge_sort descending (elements spots)) as [|i l IH] using rev_ind.
  { intros. cbn. by rewrite weave_empty. }
  intros Hs Hn Hb'. rewrite foldl_app. cbn [foldl].
  assert (∀ j, j ∈ l → i < j) as Hj.
  { intros j Hl. apply NoDup_app in Hn as (_ & Hd & _).
    assert (j ≠ i) by (intros ->; apply (Hd i Hl); set_solver).
    assert (descending j i); [|unfold descending in *; lia].
    apply (StronglySorted_app_1_elem_of descending l [i]); set_solver. }
  rewrite IH.
  - rewrite insert_weave; [|apply Hb'; set_solver|set_solver]. f_equal. set_solver.
  - by apply StronglySorted_app_1_l in Hs.
  - apply NoDup_app in Hn as (? & _). done.
  - set_solver.
Qed.

(** ** Where a blank line goes *)
Lemma above_comments_spec lines stop top i :
  stop ≤ top → above_comments (Z.to_nat (top - stop)) stop top lines = Ok i ↔ attached_from lines stop top i.
Proof.
  unfold attached_from. setoid_rewrite <-is_comment_line_spec. setoid_rewrite not_true_iff_false.
  intros Ht. remember (Z.to_nat (top - stop)) as fuel eqn:Hf. revert top Ht Hf.
  induction fuel as [|fuel IH]; intros top Ht Hf; cbn [above_comments].
  - assert (top = stop) as -> by lia. split; [intros [= <-]; repeat split; intros; lia|intros ((? & ?) & _)]. f_equal. lia.
  - rewrite (proj2 (Z.ltb_lt stop top)) by lia. destruct (lines !! Z.to_nat (top - 1)) as [line|] eqn:Hl.
    + destruct (is_comment_line line) eqn:Hc.
      * rewrite IH by lia. split; intros (Hi & Hj & Hs).
        -- split; [lia|]. split; [|done]. intros j Hr. destruct (decide (j = top - 1)) as [->|]; [eauto|apply Hj; lia].
        -- assert (i ≠ top) by (intros ->; destruct Hs as (? & ? & ?); [lia|congruence]).
           split; [lia|]. split; [|done]. intros j Hr. apply Hj. lia.
      * split; [intros [= <-]; repeat split; intros; try lia; eauto|intros (Hi & Hj & _)]. f_equal.
        destruct (decide (i = top)) as [|]; [done|]. destruct (Hj (top - 1)) as (? & ? & ?); [lia|congruence].
    + split; [done|intros (Hi & Hj & Hs)].
      destruct (decide (i = top)) as [->|]; [destruct Hs as (? & ? & ?); [lia|congruence]|].
      destruct (Hj (top - 1)) as (? & ? & ?); [lia|congruence].
Qed.

Lemma slice_blank_free lines a b :
  0 ≤ a →
  existsb is_blank (slice a b lines) = false ↔
  ∀ j line, a ≤ j < b → lines !! Z.to_nat j = Some line → is_blank line = false.
Proof.
  intros Ha. rewrite <-not_true_iff_false, existsb_exists. unfold slice. split.
  - intros Hn j line Hj Hl. apply not_true_iff_false. intros Hb. apply Hn. exists line. split; [|done].
    apply list_elem_of_In, list_elem_of_lookup. exists (Z.to_nat j - Z.to_nat a)%nat.
    rewrite lookup_take_lt, lookup_drop by lia. rewrite <-Hl. f_equal. lia.
  - intros Hall (line & [k Hk]%list_elem_of_In%list_elem_of_lookup & Hb).
    apply lookup_take_Some in Hk as [Hk Hlt]. rewrite lookup_drop in Hk.
    rewrite (Hall (a + Z.of_nat k) line) in Hb; [done|lia|]. rewrite <-Hk. f_equal. lia.
Qed.

Lemma is_protected_spec protected a b :
  is_protected protected a b = false ↔ ∀ l, a ≤ l ≤ b → l ∉ protected.
Proof.
  unfold is_protected. rewrite <-not_true_iff_false, existsb_exists. split.
  - intros Hn l Hl Hp. apply Hn. exists l. rewrite bool_decide_eq_true, <-list_elem_of_In, elem_of_seqZ. split; [lia|done].
  - intros Hall (l & Hl & Hp). rewrite bool_decide_eq_true in Hp. apply list_elem_of_In, elem_of_seqZ in Hl.
    apply (Hall l); [lia|done].
Qed.

(** A blank line is put between two siblings, before line [i]: the conditions of the code. *)
Definition places (lines : list string) (protected : gset Z) (s : bool * (node * node)) (i : Z) : Prop :=
  let '(first, (previous, following)) := s in
  ∃ stop, end_lineno previous = Some stop ∧ stop < statement_start following
    ∧ required previous following = true ∧ first && is_docstring previous = false
    ∧ (∀ l, lineno previous ≤ l ≤ last_line following (statement_start following) → l ∉ protected)
    ∧ (∀ j line, stop ≤ j < statement_start following - 1 → lines !! Z.to_nat j = Some line → is_blank line = false)
    ∧ attached_from lines stop (statement_start following - 1) i.

(** The lines of the statements are lines of the source. *)
Definition fits (lines : list string) (s : bool * (node * node)) : Prop :=
  (∀ stop, end_lineno s.2.1 = Some stop → 0 ≤ stop)
  ∧ statement_start s.2.2 ≤ Z.of_nat (length lines).

Lemma insertion_places lines protected s i :
  fits lines s → insertion lines protected s.1 s.2.1 s.2.2 = Ok (Some i) ↔ places lines protected s i.
Proof.
  destruct s as (first & previous & following). intros [Hpos _]. cbn [fst snd] in *. unfold insertion, places.
  destruct (end_lineno previous) as [stop|]; [|naive_solver]. specialize (Hpos stop eq_refl).
  destruct (Z.leb_spec (statement_start following) stop) as [Hs|Hs].
  { split; [done|]. intros (? & [= <-] & ? & _). lia. }
  destruct (first && is_docstring previous) eqn:Hd.
  { split; [done|]. intros (? & [= <-] & _ & _ & ? & _). done. }
  destruct (required previous following) eqn:Hr; cbn [negb orb].
  2:{ split; [done|]. intros (? & [= <-] & _ & ? & _). done. }
  destruct (is_protected _ _ _) eqn:Hp.
  { split; [done|]. intros (? & [= <-] & _ & _ & _ & Hn & _). apply is_protected_spec in Hn. congruence. }
  destruct (existsb is_blank _) eqn:Hb.
  { split; [done|]. intros (? & [= <-] & _ & _ & _ & _ & Hn & _). apply slice_blank_free in Hn; [congruence|done]. }
  rewrite is_protected_spec in Hp. rewrite slice_blank_free in Hb by done.
  pose proof (above_comments_spec lines stop (statement_start following - 1) i ltac:(lia)) as Ha.
  destruct (above_comments _ _ _ _) as [k|e].
  - cbn. split; [intros [= ->]; exists stop; naive_solver|intros (? & [= <-] & ? & ? & ? & ? & ? & Hc)].
    apply Ha in Hc as [= ->]. done.
  - cbn. split; [done|]. intros (? & [= <-] & ? & ? & ? & ? & ? & Hc). apply Ha in Hc. done.
Qed.

Lemma collect_Ok {A B} (f : A → result error (option B)) l r :
  collect f l = Ok r → ∀ b, b ∈ r ↔ ∃ a, a ∈ l ∧ f a = Ok (Some b).
Proof.
  revert r. induction l as [|a l IH]; intros r; cbn [collect].
  { intros [= <-] b. set_solver. }
  intros (o & Ho & (rs & Hrs & [= <-])%bind_Ok)%bind_Ok b. specialize (IH rs Hrs b).
  destruct o as [b'|]; set_unfold; rewrite IH; split.
  - intros [->|(x & ? & ?)]; eauto.
  - intros (x & [->|?] & Hx); [left; congruence|eauto].
  - intros (x & ? & ?). eauto.
  - intros (x & [->|?] & Hx); [congruence|eauto].
Qed.

Lemma insertions_spec tree lines protected spots :
  (∀ s, s ∈ all_siblings tree → fits lines s) → insertions tree lines protected = Ok spots →
  ∀ i, i ∈ spots ↔ ∃ s, s ∈ all_siblings tree ∧ places lines protected s i.
Proof.
  intros Hf H i. unfold insertions in H. destruct (collect _ _) as [r|] eqn:Hc; [|done]. injection H as <-.
  rewrite elem_of_list_to_set, (collect_Ok _ _ _ Hc). split; intros (s & Hs & H); exists s; (split; [done|]).
  - by apply insertion_places; [apply Hf|].
  - by apply insertion_places; [apply Hf|].
Qed.

Lemma places_bounds lines protected s i : fits lines s → places lines protected s i → 0 ≤ i ≤ Z.of_nat (length lines).
Proof.
  destruct s as (first & previous & following). intros [Hp Hl] (stop & Hs & _ & _ & _ & _ & _ & Hi & _).
  specialize (Hp stop Hs). cbn in *. lia.
Qed.

(** The code places blank lines where the documentation asks for them. *)
Lemma asks_places tree cs source i :
  asks tree cs (splitlines source) i
  ↔ ∃ s, s ∈ all_siblings tree ∧ places (splitlines source) (protected_lines cs source) s i.
Proof.
  assert (∀ first p f, places (splitlines source) (protected_lines cs source) (first, (p, f)) i
    ↔ ∃ stop, end_lineno p = Some stop ∧ stop < statement_start f
      ∧ required p f = true ∧ first && is_docstring p = false
      ∧ (∀ l, lineno p ≤ l ≤ last_line f (statement_start f) → ¬ excluded cs (line_count source) l)
      ∧ (∀ j line, stop ≤ j < statement_start f - 1 → splitlines source !! Z.to_nat j = Some line → is_blank line = false)
      ∧ attached_from (splitlines source) stop (statement_start f - 1) i) as Hp.
  { intros first p f. unfold places. by setoid_rewrite protected_lines_spec. }
  unfold asks. setoid_rewrite starts_at_spec. setoid_rewrite ends_at_spec.
  setoid_rewrite <-docstring_spec. setoid_rewrite <-required_spec. setoid_rewrite not_true_iff_false. split.
  - intros (owner & name & before & p & f & stop & start & last & Hn & Hstop & -> & -> & Hrest).
    exists (leads owner name before, (p, f)). split; [apply all_siblings_spec; eauto|]. apply Hp. exists stop. tauto.
  - intros ([first [p f]] & (owner & name & before & Hn & ->)%all_siblings_spec & (stop & Hrest)%Hp).
    exists owner, name, before, p, f, stop, (statement_start f), (last_line f (statement_start f)). tauto.
Qed.

Lemma lines_exist_fits tree lines :
  lines_exist tree lines → ∀ s, s ∈ all_siblings tree → fits lines s.
Proof.
  intros Hl [first [p f]] (owner & name & before & Hn & _)%all_siblings_spec.
  destruct (Hl _ _ _ _ _ Hn) as [Hs Hf]. split; [exact Hs|]. by apply Hf, starts_at_spec.
Qed.

Section laws.
Context `{Tools}.

Lemma spaced_source_Ok source result :
  spaced_source source = Ok result →
  ∃ tree comments spots again, parse source = Ok tree ∧ comments_of source = Ok comments
    ∧ insertions tree (splitlines source) (protected_lines comments source) = Ok spots
    ∧ result = concat_text (foldl (λ ls i, insert_line i ls) (splitlines source) (merge_sort descending (elements spots)))
    ∧ parse result = Ok again ∧ dump again = dump tree.
Proof.
  intros (tree & Ht & (comments & Hc & (spots & Hs & (again & Ha & He)%bind_Ok)%bind_Ok)%bind_Ok)%bind_Ok.
  destruct (String.eqb_spec (dump tree) (dump again)) as [Hd|]; [|done]. injection He as <-.
  exists tree, comments, spots, again. done.
Qed.

Lemma concat_no_cr l : no_cr (concat_text l) = forallb no_cr l.
Proof.
  induction l as [|x l IH]; [done|]. change (concat_text (x :: l)) with (x +:+ concat_text l).
  by rewrite no_cr_app, IH.
Qed.

Lemma insert_line_no_cr i l : forallb no_cr l = true → forallb no_cr (insert_line i l) = true.
Proof.
  rewrite <-(take_drop (Z.to_nat (if i <? 0 then Z.max 0 (Z.of_nat (length l) + i) else Z.min i (Z.of_nat (length l)))) l) at 1.
  unfold insert_line. rewrite !forallb_app. cbn [forallb]. intros [-> ->]%andb_true_iff. done.
Qed.

Lemma insertions_no_cr spots l :
  forallb no_cr l = true → forallb no_cr (foldl (λ ls i, insert_line i ls) l spots) = true.
Proof. revert l. induction spots as [|i spots IH]; intros l Hl; cbn [foldl]; [done|]. by apply IH, insert_line_no_cr. Qed.

Lemma spaced_no_cr source result :
  spaced_source source = Ok result → no_cr source = true → no_cr result = true.
Proof.
  intros (tree & comments & spots & again & _ & _ & _ & -> & _)%spaced_source_Ok Hs.
  rewrite concat_no_cr. apply insertions_no_cr. by rewrite <-concat_no_cr, concat_splitlines.
Qed.

(** ** Formatting twice *)
Context (m : mode).
Hypothesis black_stable : ∀ s r, black_source s m [] = Ok r → black_source r m [] = Ok r.
Hypothesis black_line_feeds : ∀ s r, black_source s m [] = Ok r → no_cr s = true → no_cr r = true.

Lemma format_source_Ok source r :
  format_source source m = Ok r →
  ∃ initial spaced result, black_source (to_lf source) m [] = Ok initial ∧ spaced_source initial = Ok spaced
    ∧ black_source spaced m [] = Ok result ∧ spaced_source result = Ok result
    ∧ r = if has_crlf source then to_crlf result else result.
Proof.
  intros (initial & Hi & (spaced & Hs & (result & Hr & (again & Ha & He)%bind_Ok)%bind_Ok)%bind_Ok)%bind_Ok.
  destruct (String.eqb_spec again result) as [->|]; [|done]. injection He as <-. eauto 10.
Qed.

Lemma format_source_fixed result r :
  black_source result m [] = Ok result → spaced_source result = Ok result → to_lf r = result →
  r = (if has_crlf r then to_crlf result else result) → format_source r m = Ok r.
Proof.
  intros Hb Hs Hl He. unfold format_source. rewrite Hl, Hb. cbn [mbind result_bind].
  rewrite Hs. cbn [mbind result_bind]. rewrite Hb. cbn [mbind result_bind]. rewrite Hs. cbn [mbind result_bind].
  rewrite String.eqb_refl. cbn [negb]. by rewrite <-He.
Qed.

Lemma format_source_stable source r :
  no_cr (to_lf source) = true → format_source source m = Ok r → format_source r m = Ok r.
Proof.
  intros Hcr (initial & spaced & result & Hi & Hs & Hr & Ha & ->)%format_source_Ok.
  assert (no_cr result = true) as Hn by (eapply black_line_feeds, spaced_no_cr, black_line_feeds; eauto).
  apply (format_source_fixed result); eauto; destruct (has_crlf source).
  - apply to_lf_to_crlf.
  - by apply to_lf_no_cr.
  - destruct (has_crlf_to_crlf result) as [->| ->]; [done|]. by destruct (has_crlf result).
  - by rewrite has_crlf_no_cr.
Qed.

Hypothesis codec_round_trip : ∀ e s b, encode_with e s = Ok b → decode_with e b = Ok s.

(** A file without a carriage return that stands alone. *)
Definition plain (raw : string) : Prop :=
  ∀ e s, detect_encoding raw = Ok e → decode_with e raw = Ok s → no_cr (to_lf s) = true.

Lemma as_value_Ok {A} (r : result error A) a : as_value r = Ok a ↔ r = Ok a.
Proof. destruct r as [|[]]; cbn; naive_solver. Qed.

(** A file whose formatted contents are detected to have the encoding it had: formatting
    leaves the lines that declare it where they were. *)
Definition keeps_encoding (raw : string) : Prop :=
  ∀ b, format_bytes m raw = Ok b → detect_encoding b = detect_encoding raw.

Lemma format_bytes_stable raw b : plain raw → keeps_encoding raw → format_bytes m raw = Ok b → format_bytes m b = Ok b.
Proof.
  intros Hp Hke Hb0. pose proof (Hke _ Hb0) as Hk.
  apply bind_Ok in Hb0 as (e & He & Ha). apply as_value_Ok, bind_Ok in Ha as (s & Hs & (f & Hf & Hb)%bind_Ok).
  unfold format_bytes. rewrite Hk, He. cbn [mbind result_bind].
  apply as_value_Ok. rewrite (codec_round_trip _ _ _ Hb). cbn [mbind result_bind].
  rewrite (format_source_stable s f); [exact Hb|eauto|done].
Qed.
End laws.

(** ** The files of a run *)
Lemma collect_total {A B} (f : A → result error (option B)) l r :
  collect f l = Ok r → ∀ a, a ∈ l → ∃ o, f a = Ok o.
Proof.
  revert r. induction l as [|x l IH]; intros r; cbn [collect]; [set_solver|].
  intros (o & Ho & (rs & Hrs & _)%bind_Ok)%bind_Ok a [->|Ha]%elem_of_cons; eauto.
Qed.

Lemma collect_none {A B} (f : A → result error (option B)) l :
  (∀ a, a ∈ l → f a = Ok None) → collect f l = Ok [].
Proof.
  induction l as [|x l IH]; intros H; cbn [collect]; [done|].
  rewrite H by set_solver. cbn [mbind result_bind]. rewrite IH by set_solver. done.
Qed.

Lemma collect_keys {A B} (f : A → result error (option (A * B))) l r :
  (∀ a b, f a = Ok (Some b) → b.1 = a) → NoDup l → collect f l = Ok r → NoDup r.*1.
Proof.
  intros Hk. revert r. induction l as [|x l IH]; intros r Hn; cbn [collect].
  { intros [= <-]. constructor. }
  apply NoDup_cons in Hn as [Hx Hn]. intros (o & Ho & (rs & Hrs & [= <-])%bind_Ok)%bind_Ok.
  destruct o as [b|]; [|eauto]. cbn. constructor; [|eauto].
  rewrite (Hk _ _ Ho). intros ([k v] & -> & Hin)%list_elem_of_fmap.
  apply (collect_Ok _ _ _ Hrs) in Hin as (a & Ha & Hf). apply Hk in Hf. cbn in Hf. by subst.
Qed.

Section command.
Context `{Tools, Host}.

Lemma changed_file_Ok m w p o :
  changed_file m w p = Ok o →
  ∃ raw f, w !! p = Some raw ∧ format_bytes m raw = Ok f ∧ o = if String.eqb f raw then None else Some (p, f).
Proof.
  unfold changed_file. destruct (w !! p) as [raw|] eqn:Hw; [|done].
  intros (f & Hf & [= <-])%bind_Ok. eauto.
Qed.

Lemma changed_file_key m w p b : changed_file m w p = Ok (Some b) → b.1 = p.
Proof. intros (raw & f & _ & _ & Ho)%changed_file_Ok. destruct (String.eqb f raw); by simplify_eq/=. Qed.

(** What a file holds after the writes, all of them done or not. *)
Lemma write_changes_spec changes w w' ok :
  NoDup changes.*1 → write_changes changes w = (w', ok) →
  (∀ p, p ∉ changes.*1 → w' !! p = w !! p)
  ∧ ∀ p f, (p, f) ∈ changes →
      w' !! p = Some f
      ∨ ok = false ∧ (w' !! p = w !! p ∨ ∃ kept, write_outcome p f = Partial kept ∧ w' !! p = Some kept).
Proof.
  revert w. induction changes as [|[q g] changes IH]; intros w Hn; cbn [write_changes].
  { intros [= <- <-]. set_solver. }
  cbn in Hn. apply NoDup_cons in Hn as [Hq Hn].
  assert (∀ f, (q, f) ∉ changes) as Hq'.
  { intros f Hin. apply Hq. change q with (q, f).1. by apply list_elem_of_fmap_2. }
  destruct (write_outcome q g) as [| |kept] eqn:Ho.
  - intros [Hout Hin]%(IH _ Hn). split.
    + intros p Hp. rewrite fmap_cons, not_elem_of_cons in Hp. destruct Hp as [Hp Hp']. rewrite Hout by done. by rewrite lookup_insert_ne.
    + intros p f [[= -> ->]|Hp]%elem_of_cons; [left; by rewrite Hout, lookup_insert_eq|].
      destruct (decide (p = q)) as [->|]; [by apply Hq' in Hp|].
      destruct (Hin p f Hp) as [?|(? & [Hw|?])]; [by left| |by right; split; [|right]].
      right. split; [done|]. left. by rewrite Hw, lookup_insert_ne.
  - intros [= <- <-]. split; [done|]. intros p f _. right. eauto.
  - intros [= <- <-]. split.
    + intros p Hp. rewrite fmap_cons, not_elem_of_cons in Hp. destruct Hp as [Hp Hp']. by rewrite lookup_insert_ne.
    + intros p f [[= -> ->]|Hp]%elem_of_cons; right; (split; [done|]).
      * right. exists kept. by rewrite lookup_insert_eq.
      * left. rewrite lookup_insert_ne; [done|]. intros <-. by apply Hq' in Hp.
Qed.

Lemma python_files_NoDup ps files : python_files ps = Ok files → NoDup files.
Proof.
  intros (l & _ & Hf)%bind_Ok. cbv zeta in Hf. destruct (bool_decide _); [done|]. injection Hf as <-.
  rewrite merge_sort_Permutation. apply NoDup_elements.
Qed.

(** The files a run selects. *)
Definition selected (ROOT : list string) (a : args) : result error (list (list string)) :=
  python_files (match paths a with [] => DEFAULT_PATHS ROOT | ps => ps end).

Lemma read_changes_Ok ROOT a m w changes :
  read_changes ROOT a m w = Ok changes →
  ∃ files, selected ROOT a = Ok files ∧ NoDup changes.*1
    ∧ (∀ p, p ∈ files → ∃ raw f, w !! p = Some raw ∧ format_bytes m raw = Ok f
                          ∧ if String.eqb f raw then p ∉ changes.*1 else (p, f) ∈ changes)
    ∧ ∀ p, p ∈ changes.*1 → p ∈ files.
Proof.
  intros (files & Hf & Hc)%bind_Ok. exists files. split; [done|].
  pose proof (collect_Ok _ _ _ Hc) as Hin. split; [|split].
  - eapply collect_keys; [|by eapply python_files_NoDup|exact Hc]. apply changed_file_key.
  - intros p Hp. destruct (collect_total _ _ _ Hc p Hp) as [o Ho].
    destruct (changed_file_Ok _ _ _ _ Ho) as (raw & f & Hw & Hb & ->). exists raw, f. repeat split; [done..|].
    destruct (String.eqb f raw); [|by apply Hin; eauto].
    intros ([q g] & -> & (p' & _ & Hq)%Hin)%list_elem_of_fmap.
    pose proof (changed_file_key _ _ _ _ Hq) as Hk. cbn in *. subst. congruence.
  - intros p ([q g] & -> & (p' & Hp & Hq)%Hin)%list_elem_of_fmap. apply changed_file_key in Hq. cbn in *. by subst.
Qed.

(** A file validated before the writes holds what it held, its formatted contents, or what
    a write that was cut short left. *)
Definition untorn (m : mode) (w w' : gmap (list string) string) (p : list string) : Prop :=
  ∃ raw f, w !! p = Some raw ∧ format_bytes m raw = Ok f
    ∧ (w' !! p = Some raw ∨ w' !! p = Some f ∨ ∃ kept, write_outcome p f = Partial kept ∧ w' !! p = Some kept).

Definition is_formatted (m : mode) (w w' : gmap (list string) string) (p : list string) : Prop :=
  ∃ raw f, w !! p = Some raw ∧ format_bytes m raw = Ok f ∧ w' !! p = Some f.

Lemma format_files_Ok ROOT a m w w' o :
  format_files ROOT a m w = (w', o) →
  (w' = w ∨ check a = false ∧ ∃ files, selected ROOT a = Ok files ∧ (∀ p, p ∈ files → untorn m w w' p)
                              ∧ ∀ p, p ∉ files → w' !! p = w !! p)
  ∧ (∀ s, o = Returned 0 s → ∃ files, selected ROOT a = Ok files ∧ (∀ p, p ∈ files → is_formatted m w w' p))
  ∧ (∀ s, o = Returned 1 s → check a = true ∧ w' = w).
Proof.
  unfold format_files. destruct (read_changes ROOT a m w) as [changes|e] eqn:Hr.
  2:{ intros [= <- <-]. unfold report. destruct (reported e); naive_solver. }
  destruct (read_changes_Ok _ _ _ _ _ Hr) as (files & Hf & Hn & Hin & Hk). destruct (check a).
  - intros [= <- <-]. split; [by left|]. split; [|done]. intros s Ho. exists files. split; [done|].
    intros p Hp. destruct changes; [|done]. destruct (Hin p Hp) as (raw & f & Hw & Hb & He).
    destruct (String.eqb_spec f raw) as [->|]; [by exists raw, raw|set_solver].
  - destruct (write_changes changes w) as [w1 ok] eqn:Hw. intros [= <- <-].
    destruct (write_changes_spec _ _ _ _ Hn Hw) as [Hout Hwr]. split; [right; split; [done|]|split].
    + exists files. split; [done|]. split; [|intros p Hp; apply Hout; naive_solver].
      intros p Hp. destruct (Hin p Hp) as (raw & f & Hraw & Hb & He). exists raw, f. repeat split; [done..|].
      destruct (String.eqb_spec f raw) as [->|]; [left; by rewrite Hout|].
      destruct (Hwr p f He) as [?|(_ & [->|?])]; auto.
    + intros s Ho. exists files. split; [done|]. intros p Hp.
      destruct (Hin p Hp) as (raw & f & Hraw & Hb & He). exists raw, f. repeat split; [done..|].
      destruct (String.eqb_spec f raw) as [->|]; [by rewrite Hout|].
      destruct (Hwr p f He) as [?|(-> & _)]; [done|discriminate Ho].
    + intros s. by destruct ok.
Qed.

Lemma main_files ROOT a stdin w :
  version a = false → has_stdin a = false →
  main ROOT a stdin w = (w, UsageError) ∨ (∃ e, main ROOT a stdin w = (w, report e))
  ∨ ∃ m, project_mode = Ok m ∧ line_ranges a = [] ∧ main ROOT a stdin w = format_files ROOT a m w.
Proof.
  intros Hv Hs. unfold main. rewrite Hv, Hs.
  destruct (mapM line_range (line_ranges a)) as [[|? l]|] eqn:Hl; [|destruct project_mode; eauto|by left].
  destruct project_mode as [m|e]; [|eauto]. right. right. exists m. repeat split.
  destruct (line_ranges a) as [|v l]; [done|]. apply mapM_Some_1 in Hl. by apply Forall2_cons_nil_inv in Hl.
Qed.

(** The command validates before it writes: a run that changes the disk was asked to write
    files, and had read, decoded and formatted every file it selected before the first write;
    each selected file then holds what it held, its formatted contents, or what a write cut
    short left, and no other file changed.  Status 0 means that every selected file holds its
    formatted contents; status 1 is only given by a check, and a check writes nothing. *)
Theorem main_validates_before_writing ROOT a stdin w w' o :
  main ROOT a stdin w = (w', o) →
  (w' = w ∨
     version a = false ∧ check a = false ∧ has_stdin a = false
     ∧ ∃ m files, project_mode = Ok m ∧ selected ROOT a = Ok files
         ∧ (∀ p, p ∈ files → untorn m w w' p) ∧ ∀ p, p ∉ files → w' !! p = w !! p)
  ∧ (∀ s, o = Returned 0 s → version a = false → has_stdin a = false →
       ∃ m files, project_mode = Ok m ∧ selected ROOT a = Ok files ∧ ∀ p, p ∈ files → is_formatted m w w' p)
  ∧ (∀ s, o = Returned 1 s → check a = true ∧ w' = w).
Proof.
  intros Hm. destruct (version a) eqn:Hv; [|destruct (has_stdin a) eqn:Hs].
  - unfold main in Hm. rewrite Hv in Hm. destruct (mapM _ _); simplify_eq/=; naive_solver.
  - unfold main in Hm. rewrite Hv, Hs in Hm. destruct (mapM _ _) as [rs|]; [|naive_solver].
    destruct project_mode as [m|e]; [|unfold report in Hm; destruct (reported e); naive_solver].
    destruct (negb _); [naive_solver|]. injection Hm as <- <-. split; [by left|]. split; [done|].
    intros s Ho. split; [|done]. destruct (format_buffer a rs m stdin) as [o|e] eqn:Hb.
    + apply bind_Ok in Hb as (x & _ & (y & _ & Hb)%bind_Ok). destruct (check a); [done|].
      apply bind_Ok in Hb as (z & _ & [= <-]). discriminate Ho.
    + unfold report in Ho. by destruct (reported e).
  - destruct (main_files ROOT a stdin w Hv Hs) as [He|[[e He]|(m & Hp & _ & He)]]; rewrite He in Hm.
    + naive_solver.
    + unfold report in Hm. destruct (reported e); naive_solver.
    + apply format_files_Ok in Hm as (Hw & Hz & Ho1). split; [|split; [|done]].
      * destruct Hw as [?|(? & files & ?)]; [by left|]. right. eauto 10.
      * intros s Ho _ _. destruct (Hz s Ho) as (files & ?). eauto.
Qed.

(** ** Fix, then check *)
Lemma format_files_checked ROOT a m w files :
  selected ROOT a = Ok files →
  (∀ p, p ∈ files → ∃ raw, w !! p = Some raw ∧ format_bytes m raw = Ok raw) →
  format_files ROOT a m w = (w, Returned 0 EmptyString).
Proof.
  intros Hf Hp. unfold format_files, read_changes. unfold selected in Hf. rewrite Hf. cbn [mbind result_bind].
  rewrite (collect_none _ files); [by destruct (check a)|]. intros p Hin. destruct (Hp p Hin) as (raw & Hw & Hb).
  unfold changed_file. rewrite Hw, Hb. cbn. by rewrite String.eqb_refl.
Qed.

(** What the command relies on, of other code: Black's output is stable under Black, and
    brings in no carriage return; an encoding reads what it wrote. *)
Record tool_laws (m : mode) : Prop := {
  black_stable : ∀ s r, black_source s m [] = Ok r → black_source r m [] = Ok r;
  black_line_feeds : ∀ s r, black_source s m [] = Ok r → no_cr s = true → no_cr r = true;
  codec_round_trip : ∀ e s b, encode_with e s = Ok b → decode_with e b = Ok s
}.

Definition with_check (b : bool) (a : args) : args :=
  mkArgs (paths a) b (version a) (line_ranges a) (stdin_filename a).

End command.

(** [C36] The spacing separates what the documentation says and changes nothing else: for a
    source in which only line feeds end lines, the result is its lines with one blank line
    more before exactly those that two neighbouring statements ask for by the documented
    rules ([FormatSpec.asks]), and it parses to the same tree. *)
Theorem spacing_separates_statements `{Tools} source result tree comments :
  parse source = Ok tree → comments_of source = Ok comments →
  line_feeds_only source = true → lines_exist tree (text_lines source) →
  spaced_source source = Ok result →
  ∃ (spots : gset Z) again,
    (∀ i, i ∈ spots ↔ asks tree comments (text_lines source) i)
    ∧ concat_text (text_lines source) = source
    ∧ concat_text (weave spots 0 (text_lines source)) = result
    ∧ parse result = Ok again ∧ dump again = dump tree.
Proof.
  intros Ht Hc Hlf Hfit (t & c & spots & again & Ht' & Hc' & Hs & -> & Ha & Hd)%spaced_source_Ok.
  rewrite Ht in Ht'. injection Ht' as <-. rewrite Hc in Hc'. injection Hc' as <-.
  rewrite <-(splitlines_text_lines source Hlf) in *. pose proof (lines_exist_fits _ _ Hfit) as Hl.
  pose proof (insertions_spec _ _ _ _ Hl Hs) as Hspots. exists spots, again.
  split; [intros i; by rewrite Hspots, asks_places|].
  split; [apply concat_splitlines|]. split; [|done]. rewrite insertions_weave; [done|].
  intros i (x & Hx & Hi)%Hspots. by eapply places_bounds; [apply Hl|].
Qed.

(** ** Examples *)
Definition text (lines : list string) : string := concat_text ((λ l, l +:+ octets [10]) <$> lines).
Definition body (statements : list node) : node := Node Module_ 0 None [("body", Many statements)].
Definition at_line (k : kind) (l : Z) (text : string) : node := Node k l (Some l) [("value", Leaf text)].

(** An assignment, a comment and a call, before and after. *)
Definition unspaced : string := text ["x = 1"; "# why"; "foo()"].
Definition separated : string := text ["x = 1"; ""; "# why"; "foo()"].

(** Form feeds: a line of the tokenizer, two of [str.splitlines]. *)
Definition page : string := text ["x = 1"; octets [12]; "y = 2"; "z = 3"; "foo()"].
Definition torn_page : string := text ["x = 1"; octets [12]; "y = 2"; ""; "z = 3"; "foo()"].
Definition torn_again : string := text ["x = 1"; octets [12]; "y = 2"; ""; ""; "z = 3"; "foo()"].

Definition example_parse (s : string) : result error node :=
  if String.eqb s unspaced then Ok (body [at_line Assign 1 "1"; at_line Expr_ 3 "foo()"])
  else if String.eqb s separated then Ok (body [at_line Assign 1 "1"; at_line Expr_ 4 "foo()"])
  else if String.eqb s page
  then Ok (body [at_line Assign 1 "1"; at_line Assign 3 "2"; at_line Assign 4 "3"; at_line Expr_ 5 "foo()"])
  else if String.eqb s torn_page
  then Ok (body [at_line Assign 1 "1"; at_line Assign 3 "2"; at_line Assign 5 "3"; at_line Expr_ 6 "foo()"])
  else if String.eqb s torn_again
  then Ok (body [at_line Assign 1 "1"; at_line Assign 3 "2"; at_line Assign 6 "3"; at_line Expr_ 7 "foo()"])
  else Err SyntaxErr.

#[local] Instance example_tools : Tools := {
  parse_pyproject_toml := Ok {[ "line_length"%string := OInt 88; "skip_string_normalization"%string := OBool true ]};
  TargetVersion := String.eqb "PY312";
  parse := example_parse;
  comments_of s := Ok (if String.eqb s unspaced then [mkComment "# why" 2 2] else []);
  format_file_contents _ _ _ := Ok None;
  detect_encoding _ := Ok "utf-8"%string;
  decode_with _ s := Ok s;
  encode_with _ s := Ok s
}.
#[local] Instance example_host : Host := {
  at_path p := if bool_decide (p = ["src"]) then Some (Dir (Some [("a.py", Regular); ("b.txt", Regular)])) else None;
  resolve p := "" :: p;
  write_outcome _ _ := Done
}.
Definition example_mode : mode := mkMode 88 {["PY312"]} false.
Definition example_args : args := mkArgs [["src"]] false false [] None.
Definition example_disk (s : string) : gmap (list string) string := {[ ["" ; "src"; "a.py"] := s ]}.

Example spacing_example : spaced_source unspaced = Ok separated.
Proof. vm_compute. reflexivity. Qed.

(** The spacing takes line numbers of the tree for indices of [str.splitlines], which also
    breaks lines at form feeds: here it separates two assignments instead of the call, and
    formatting such a source fails. *)
Example form_feed_misplaces_the_blank_line :
  spaced_source page = Ok torn_page
  ∧ format_source page example_mode = Err (ValueErr "Black and spacing rules disagree; refusing to format.").
Proof. split; vm_compute; reflexivity. Qed.

Lemma example_laws : tool_laws example_mode.
Proof.
  split.
  - intros s r _. reflexivity.
  - intros s r [= <-]. exact (λ H, H).
  - intros e s b [= <-]. reflexivity.
Qed.

Definition unspaced_tree : node := body [at_line Assign 1 "1"; at_line Expr_ 3 "foo()"].

Lemma unspaced_lines_exist : lines_exist unspaced_tree (text_lines unspaced).
Proof.
  intros owner name before p f Hn.
  assert ((leads owner name before, (p, f)) ∈ all_siblings unspaced_tree) as Hs by (apply all_siblings_spec; eauto).
  vm_compute in Hs. apply list_elem_of_singleton in Hs as [= _ -> ->]. split.
  - intros stop Hstop. vm_compute in Hstop. injection Hstop as <-. lia.
  - intros start ->%starts_at_spec. vm_compute. discriminate.
Qed.

Lemma spacing_separates_statements_witness :
  spaced_source unspaced = Ok separated
  ∧ ∃ (spots : gset Z) again,
    (∀ i, i ∈ spots ↔ asks unspaced_tree [mkComment "# why" 2 2] (text_lines unspaced) i)
    ∧ concat_text (text_lines unspaced) = unspaced
    ∧ concat_text (weave spots 0 (text_lines unspaced)) = separated
    ∧ parse separated = Ok again ∧ dump again = dump unspaced_tree.
Proof.
  split; [exact spacing_example|].
  apply (spacing_separates_statements unspaced separated);
    [vm_compute; reflexivity..|exact unspaced_lines_exist|exact spacing_example].
Defined.

(** Formatting the example file rewrites it; a check then finds nothing. *)
Example example_run :
  main ["" ] (with_check false example_args) "" (example_disk unspaced)
  = (example_disk separated, Returned 0 EmptyString).
Proof. vm_compute. reflexivity. Qed.

Lemma main_validates_before_writing_witness :
  ∃ m files, project_mode = Ok m ∧ selected [""] (with_check false example_args) = Ok files
    ∧ ∀ p, p ∈ files → is_formatted m (example_disk unspaced) (example_disk separated) p.
Proof.
  apply (main_validates_before_writing _ _ _ _ _ _ example_run) with (s := EmptyString); reflexivity.
Defined.

