(* ===== verification/ApiContract.v ===== *)
(** * The published contract

    [app/common/docs/openapi.py] (the error contracts added to FastAPI's document), the part
    of [ApplicationRoute] that declares the key header and the responses of a keyed mutation
    ([app/common/handlers/application_route.py]) and the check of raw query parameters
    ([app/common/handlers/query_validation.py]).  FastAPI's generator is an argument. *)
From S2P Require Import Prelude PyText UnicodeText Json Idempotency.
Open Scope Z_scope.

(** ** Operations of [dict] on a document *)
Definition item (k : string) (v : json) : py json :=
  match v with
  | JObj d => match assoc_get k d with Some x => Ok x | None => Err (KeyError k) end
  | _ => Err (TypeError "indices")
  end.
Definition set_item (k : string) (x v : json) : py json :=
  match v with JObj d => Ok (JObj (assoc_set k x d)) | _ => Err (TypeError "item assignment") end.

(** [v[k1]…[kn][k] = x] *)
Fixpoint set_in (ks : list string) (k : string) (x v : json) : py json :=
  match ks with
  | [] => set_item k x v
  | k' :: ks' => inner ← item k' v; inner' ← set_in ks' k x inner; set_item k' inner' v
  end.

Definition set_default (k : string) (x : json) (d : object) : object :=
  match assoc_get k d with Some _ => d | None => d ++ [(k, x)] end.

(** [v.get(k, default)], [k in v] and [list(v)] of any value *)
Definition dict_get (k : string) (dflt v : json) : py json :=
  match v with JObj d => Ok (get_or k dflt d) | _ => Err AttributeError end.
Definition is_in (k : string) (v : json) : py bool :=
  match v with
  | JObj d => Ok (bool_decide (k ∈ d.*1))
  | JList l => Ok (existsb (is_text k) l)
  | JStr s => Ok (contains k s)
  | _ => Err (TypeError "not iterable")
  end.
Definition list_of (v : json) : py (list json) :=
  match v with
  | JList l => Ok l
  | JObj d => Ok (JStr <$> d.*1)
  | JStr s => Ok (JStr <$> uchars s)
  | _ => Err (TypeError "not iterable")
  end.

Fixpoint map_values (f : json → py json) (d : object) : py object :=
  match d with
  | [] => Ok []
  | (k, v) :: d' => v' ← f v; rest ← map_values f d'; Ok ((k, v') :: rest)
  end.

(** ** [openapi.py] *)
Module OpenApi.
Definition error_ref : json := JObj [("$ref", JStr "#/components/schemas/ErrorResponse")].
Definition error_response (description : string) : json :=
  JObj [("description", JStr description);
        ("content", JObj [("application/json", JObj [("schema", error_ref)])])].

(** The responses of one operation. *)
Definition document_responses (method_data responses : object) : py json :=
  content ← dict_get "content" (JObj []) (get_or "requestBody" (JObj []) method_data);
  has_json ← is_in "application/json" content;
  let responses := if has_json : bool
                   then set_default "400" (error_response "Malformed JSON request body.") responses
                   else responses in
  responses ← (match assoc_get "422" responses with
               | Some _ => set_in ["422"; "content"; "application/json"] "schema" error_ref (JObj responses)
               | None => Ok (JObj responses)
               end);
  match responses with
  | JObj responses => Ok (JObj (set_default "500" (error_response "Unexpected server error.") responses))
  | v => Ok v
  end.

(** A default that was not in the document is changed without effect on it. *)
Definition document_operation (method_data_raw : json) : py json :=
  match method_data_raw with
  | JObj method_data =>
      match get_or "responses" (JObj []) method_data with
      | JObj responses =>
          documented ← document_responses method_data responses;
          Ok (match assoc_get "responses" method_data with
              | Some _ => JObj (assoc_set "responses" documented method_data)
              | None => method_data_raw
              end)
      | _ => Ok method_data_raw
      end
  | _ => Ok method_data_raw
  end.

Definition document_path (path_item_raw : json) : py json :=
  match path_item_raw with
  | JObj path_item => JObj <$> map_values document_operation path_item
  | _ => Ok path_item_raw
  end.

Definition document_schema (schema : json) : py json :=
  schema ← set_in ["components"; "schemas"] "ValidationError" error_ref schema;
  schema ← set_in ["components"; "schemas"] "HTTPValidationError" error_ref schema;
  match schema with
  | JObj d =>
      match assoc_get "paths" d with
      | None => Ok schema
      | Some (JObj paths) =>
          documented ← map_values document_path paths;
          Ok (JObj (assoc_set "paths" (JObj documented) d))
      | Some _ => Err AttributeError
      end
  | _ => Err AttributeError
  end.

(** [app.openapi()]: the answer and [app.openapi_schema]. *)
Definition custom_openapi (get_openapi : py json) (openapi_schema : json) : py json * json :=
  if truthy openapi_schema then (Ok openapi_schema, openapi_schema)
  else match (schema ← get_openapi; document_schema schema) with
       | Ok schema => (Ok schema, schema)
       | Err e => (Err e, openapi_schema)
       end.
End OpenApi.

(** ** The declarations of a keyed route *)
Module KeyedRoute.
(** A key of [responses]: a status as a number or as a text. *)
Inductive status := Code (z : Z) | Named (s : string).
#[global] Instance status_eq_dec : EqDecision status.
Proof. solve_decision. Defined.

(** A declared response, as far as the route builds one. *)
Record response := mkResponse { description : string; model : string }.

Definition keyed_responses : list (status * response) :=
  [(Code 400, mkResponse "Invalid or duplicate Idempotency-Key header." "ErrorResponse");
   (Code 409, mkResponse "Idempotency-Key input conflict or matching request already processing." "ErrorResponse")].
(** [{400: …, 409: …, **own}] *)
Definition declared_responses (own : list (status * response)) : list (status * response) :=
  foldl (λ d p, assoc_set p.1 p.2 d) keyed_responses own.

Definition key_schema : object :=
  [("type", JStr "string"); ("minLength", JInt 1); ("maxLength", JInt 128);
   ("pattern", JStr "^[\x21-\x2b\x2d-\x7e]+$")].
Definition key_parameter : json :=
  JObj [("in", JStr "header"); ("name", JStr "Idempotency-Key"); ("required", JBool false);
        ("description", JStr "Optional durable mutation retry key. Reuse the original key and validated input, including expected_version.");
        ("schema", JObj key_schema)].

Definition names_key (parameter : json) : py bool :=
  name ← dict_get "name" (JStr "") parameter;
  match name with
  | JStr s => Ok (String.eqb (ulower s) "idempotency-key")
  | _ => Err AttributeError
  end.
Fixpoint any_py {A} (f : A → py bool) (l : list A) : py bool :=
  match l with
  | [] => Ok false
  | a :: l' => b ← f a; if b : bool then Ok true else any_py f l'
  end.

Definition openapi_extra (own : object) : py object :=
  parameters ← list_of (get_or "parameters" (JList []) own);
  known ← any_py names_key parameters;
  let parameters := if known : bool then parameters else parameters ++ [key_parameter] in
  Ok (assoc_set "parameters" (JList parameters) own).

(** *** What a published string schema accepts: its type, lengths and a pattern that is one
    repeated class of characters. *)
Definition class_char (s : string) : option (Z * string) :=
  match s with
  | String "\"%char (String "x"%char (String a (String b r))) => Some (16 * hex_value a + hex_value b, r)
  | String c r => Some (octet c, r)
  | EmptyString => None
  end.
Fixpoint class_items (fuel : nat) (s : string) : option (list (Z * Z) * string) :=
  match fuel, s with
  | S fuel, String "]"%char r => Some ([], r)
  | S fuel, _ =>
      p ← class_char s;
      let '(a, r) := p in
      match r with
      | String "-"%char r' =>
          q ← class_char r';
          let '(b, r'') := q in
          (λ t, ((a, b) :: t.1, t.2)) <$> class_items fuel r''
      | _ => (λ t, ((a, a) :: t.1, t.2)) <$> class_items fuel r
      end
  | O, _ => None
  end.
Definition pattern_accepts (pattern s : string) : bool :=
  match pattern with
  | String "^"%char (String "["%char r) =>
      match class_items (String.length r) r with
      | Some (ranges, "+$"%string) =>
          negb (String.eqb s "") && str_all (λ c, existsb (λ p, in_range p.1 p.2 c) ranges) s
      | _ => false
      end
  | _ => false
  end.
Definition schema_accepts (schema : object) (s : string) : bool :=
  is_text "string" (get "type" schema)
  && match get "minLength" schema with JInt n => n <=? ulen s | JNull => true | _ => false end
  && match get "maxLength" schema with JInt n => ulen s <=? n | JNull => true | _ => false end
  && match get "pattern" schema with JStr p => pattern_accepts p s | JNull => true | _ => false end.
End KeyedRoute.

(** ** [query_validation.py] *)
Module QueryValidation.
(** The names of the parameters, each at its first occurrence, and all values of one. *)
Fixpoint first_names (seen : list string) (params : list (string * string)) : list string :=
  match params with
  | [] => []
  | (name, _) :: params' =>
      if bool_decide (name ∈ seen) then first_names seen params'
      else name :: first_names (name :: seen) params'
  end.
Definition getlist (name : string) (params : list (string * string)) : list string :=
  (List.filter (λ p, String.eqb p.1 name) params).*2.

Definition repeated (params : list (string * string)) : list string :=
  List.filter (λ name, (1 <? Z.of_nat (length (getlist name params)))) (first_names [] params).

(** The values of a repeated parameter are in the error too; no response shows them. *)
Definition reject_repeated_query_parameters (params : list (string * string)) : py unit :=
  match repeated params with
  | [] => Ok tt
  | names =>
      Err (RequestValidationError
             ((λ name, mkValidationError "value_error" ["query"; name] "Query parameter must appear only once") <$> names))
  end.
End QueryValidation.

(** ** What the document shows of errors *)
(** [v[k1]…[kn]], when there is such a value. *)
Fixpoint at_path (ks : list string) (v : json) : option json :=
  match ks, v with
  | [], _ => Some v
  | k :: ks', JObj d => x ← assoc_get k d; at_path ks' x
  | _ :: _, _ => None
  end.

Definition is_object (v : json) : bool := match v with JObj _ => true | _ => false end.
Definition object_at (ks : list string) (v : json) : bool :=
  match at_path ks v with Some x => is_object x | None => false end.

(** The shape of the documents the generator makes. *)
Definition operation_ok (v : json) : bool :=
  match v with
  | JObj method_data =>
      match get_or "responses" (JObj []) method_data with
      | JObj responses =>
          match get_or "requestBody" (JObj []) method_data with
          | JObj body => is_object (get_or "content" (JObj []) body)
          | _ => false
          end
          && match assoc_get "422" responses with
             | Some r => object_at ["content"; "application/json"] r
             | None => true
             end
      | _ => true
      end
  | _ => true
  end.
Definition path_ok (v : json) : bool :=
  match v with JObj d => forallb (λ p, operation_ok p.2) d | _ => true end.
Definition well_shaped (schema : json) : bool :=
  object_at ["components"; "schemas"] schema
  && match at_path ["paths"] schema with
     | Some (JObj paths) => forallb (λ p, path_ok p.2) paths
     | Some _ => false
     | None => true
     end.

(** The operation reads a JSON body. *)
Definition takes_json (method_data : object) : bool :=
  match get_or "requestBody" (JObj []) method_data with
  | JObj body =>
      match get_or "content" (JObj []) body with JObj c => bool_decide ("application/json" ∈ c.*1) | _ => false end
  | _ => false
  end.

Lemma assoc_get_default k k' x d :
  assoc_get k (set_default k' x d) = if decide (k = k') then Some (default x (assoc_get k d)) else assoc_get k d.
Proof.
  unfold set_default. destruct (assoc_get k' d) as [y|] eqn:Hd.
  - case_decide as Hk; [subst; by rewrite Hd|done].
  - induction d as [|[q v] d IH]; cbn in *; [by repeat case_decide|].
    destruct (decide (k = q)) as [->|]; [case_decide; [subst; rewrite decide_True in Hd by done; done|done]|].
    apply IH. by destruct (decide (k' = q)).
Qed.

Lemma forallb_assoc (P : json → bool) (d : object) k v :
  forallb (λ p, P p.2) d = true → assoc_get k d = Some v → P v = true.
Proof.
  induction d as [|[q x] d IH]; [done|]. cbn. intros [Hx Hd]%andb_true_iff. case_decide; [by intros [= <-]|by apply IH].
Qed.

Lemma map_values_total f d :
  (∀ k v, (k, v) ∈ d → ∃ v', f v = Ok v') →
  ∃ d', map_values f d = Ok d' ∧ ∀ k v, assoc_get k d = Some v → ∃ v', f v = Ok v' ∧ assoc_get k d' = Some v'.
Proof.
  induction d as [|[k v] d IH]; intros H; [by exists []|]. destruct (H k v) as [v' Hv]; [set_solver|].
  destruct IH as (d' & Hd & Hk); [intros; apply (H k0); set_solver|]. exists ((k, v') :: d'). cbn. rewrite Hv. cbn.
  rewrite Hd. split; [done|]. intros q x. destruct (decide (q = k)) as [->|]; [intros [= <-]; eauto|apply Hk].
Qed.

Lemma set_in_object ks k x v :
  object_at ks v = true →
  ∃ d, set_in ks k x v = Ok (JObj d) ∧ at_path (ks ++ [k]) (JObj d) = Some x
    ∧ match ks, v with
      | [], JObj c => d = assoc_set k x c
      | k' :: _, JObj c => ∃ y, d = assoc_set k' y c
      | _, _ => False
      end.
Proof.
  revert v. induction ks as [|k' ks IH]; intros v Hv.
  - destruct v as [| | | | | |c]; try discriminate Hv. exists (assoc_set k x c). cbn.
    by rewrite assoc_get_set_eq.
  - destruct v as [| | | | | |c]; try discriminate Hv. cbn [set_in item]. unfold object_at in Hv. cbn [at_path] in Hv.
    destruct (assoc_get k' c) as [y|] eqn:Hc; [|discriminate Hv]. cbn [mbind option_bind result_bind] in *.
    destruct (IH y Hv) as (d & Hd & Hat & _). rewrite Hd. cbn. exists (assoc_set k' (JObj d) c).
    rewrite assoc_get_set_eq. cbn. eauto.
Qed.

(** What [document_responses] makes of the responses of an operation. *)
Definition responses_documented (method_data responses responses' : object) : Prop :=
  assoc_get "500" responses' = Some (default (OpenApi.error_response "Unexpected server error.") (assoc_get "500" responses))
  ∧ assoc_get "400" responses'
    = (if takes_json method_data
       then Some (default (OpenApi.error_response "Malformed JSON request body.") (assoc_get "400" responses))
       else assoc_get "400" responses)
  ∧ (assoc_get "422" responses ≠ None →
     at_path ["422"; "content"; "application/json"; "schema"] (JObj responses') = Some OpenApi.error_ref)
  ∧ ∀ code, code ∉ ["400"; "422"; "500"] → assoc_get code responses' = assoc_get code responses.

Lemma document_responses_spec method_data responses :
  operation_ok (JObj method_data) = true → get_or "responses" (JObj []) method_data = JObj responses →
  ∃ responses', OpenApi.document_responses method_data responses = Ok (JObj responses')
    ∧ responses_documented method_data responses responses'.
Proof.
  unfold operation_ok. intros Hok Hr. rewrite Hr in Hok. unfold OpenApi.document_responses, responses_documented, takes_json.
  destruct (get_or "requestBody" (JObj []) method_data) as [| | | | | |body]; try discriminate Hok.
  cbn [dict_get mbind result_bind]. apply andb_true_iff in Hok as [Hc H422].
  destruct (get_or "content" (JObj []) body) as [| | | | | |c]; try discriminate Hc.
  cbn [is_in mbind result_bind]. generalize (bool_decide ("application/json" ∈ c.*1)). intros has.
  set (rs := if has then _ else responses).
  assert (∀ code, assoc_get code rs = if decide (code = "400") then
     (if has then Some (default (OpenApi.error_response "Malformed JSON request body.") (assoc_get "400" responses))
      else assoc_get "400" responses) else assoc_get code responses) as Hrs.
  { intros code. unfold rs. destruct has; [rewrite assoc_get_default|]; by case_decide; subst. }
  rewrite (Hrs "422"). rewrite decide_False by done.
  assert (∃ rs', match assoc_get "422" responses with
                 | Some _ => set_in ["422"; "content"; "application/json"] "schema" OpenApi.error_ref (JObj rs)
                 | None => Ok (JObj rs) end = Ok (JObj rs')
    ∧ (∀ code, code ≠ "422" → assoc_get code rs' = assoc_get code rs)
    ∧ (assoc_get "422" responses ≠ None →
       at_path ["422"; "content"; "application/json"; "schema"] (JObj rs') = Some OpenApi.error_ref)) as (rs' & -> & Hne & Hat).
  { pose proof (Hrs "422") as H4. rewrite decide_False in H4 by done.
    destruct (assoc_get "422" responses) as [r|] eqn:Hg; [|by exists rs].
    destruct (set_in_object ["422"; "content"; "application/json"] "schema" OpenApi.error_ref (JObj rs))
      as (d & Hd & Hat & y & ->).
    - unfold object_at in *. cbn [at_path]. rewrite H4. exact H422.
    - exists (assoc_set "422" y rs). split; [exact Hd|]. split; [|intros _; exact Hat].
      intros code Hcode. by apply assoc_get_set_ne. }
  cbn [mbind result_bind]. eexists. split; [reflexivity|]. rewrite !assoc_get_default.
  repeat split.
  - rewrite decide_True by done. rewrite Hne by done. rewrite Hrs. by rewrite decide_False.
  - rewrite decide_False by done. rewrite Hne by done. rewrite Hrs. by rewrite decide_True.
  - intros Hn. specialize (Hat Hn). cbn [at_path] in *. rewrite assoc_get_default, decide_False by done. exact Hat.
  - intros code Hcode. rewrite assoc_get_default, decide_False by set_solver.
    rewrite Hne by set_solver. rewrite Hrs. rewrite decide_False by set_solver. done.
Qed.

Lemma document_operation_spec op :
  operation_ok op = true →
  ∃ op', OpenApi.document_operation op = Ok op'
    ∧ ∀ method_data responses, op = JObj method_data → assoc_get "responses" method_data = Some (JObj responses) →
      ∃ responses', op' = JObj (assoc_set "responses" (JObj responses') method_data)
        ∧ responses_documented method_data responses responses'.
Proof.
  intros Hok. destruct op as [| | | | | |md]; try (eexists; split; [reflexivity|]; done).
  cbn [OpenApi.document_operation].
  destruct (get_or "responses" (JObj []) md) as [| | | | | |rs] eqn:Hr;
    try (eexists; split; [reflexivity|]; intros md' rs' [= <-] Hg; unfold get_or in Hr; by rewrite Hg in Hr).
  destruct (document_responses_spec md rs Hok Hr) as (rs' & -> & Hrs). cbn [mbind result_bind].
  unfold get_or in Hr. destruct (assoc_get "responses" md) as [v|] eqn:Hg.
  - cbn in Hr. subst v. eexists. split; [reflexivity|]. intros md' rs0 [= <-] [= <-]%(eq_trans (eq_sym Hg)). eauto.
  - eexists. split; [reflexivity|]. intros md' rs0 [= <-] Hn. congruence.
Qed.

Lemma document_path_spec p :
  path_ok p = true →
  ∃ p', OpenApi.document_path p = Ok p'
    ∧ ∀ method op, at_path [method] p = Some op → ∃ op', OpenApi.document_operation op = Ok op' ∧ at_path [method] p' = Some op'.
Proof.
  destruct p as [| | | | | |d]; try (intros _; eexists; split; [reflexivity|]; done).
  cbn [path_ok OpenApi.document_path]. intros Hok.
  destruct (map_values_total OpenApi.document_operation d) as (d' & -> & Hd).
  { intros k v Hin. rewrite forallb_forall in Hok. apply list_elem_of_In in Hin.
    destruct (document_operation_spec v (Hok _ Hin)) as (v' & ? & _). eauto. }
  eexists. split; [reflexivity|]. intros method op. cbn [at_path].
  destruct (assoc_get method d) as [v|] eqn:Hv; [|done]. intros [= <-].
  destruct (Hd _ _ Hv) as (v' & Ho & ->). eauto.
Qed.

Lemma document_paths paths :
  forallb (λ p, path_ok p.2) paths = true →
  ∃ paths', map_values OpenApi.document_path paths = Ok paths'
    ∧ ∀ path method op, at_path [path; method] (JObj paths) = Some op →
        ∃ op', OpenApi.document_operation op = Ok op' ∧ at_path [path; method] (JObj paths') = Some op'.
Proof.
  intros Hok. destruct (map_values_total OpenApi.document_path paths) as (d' & Hm & Hd).
  { intros k v Hin. rewrite forallb_forall in Hok. apply list_elem_of_In in Hin.
    destruct (document_path_spec v (Hok _ Hin)) as (v' & ? & _). eauto. }
  exists d'. split; [done|]. intros path method op Hat. cbn [at_path] in Hat.
  destruct (assoc_get path paths) as [p|] eqn:Hp; [|done]. destruct (Hd _ _ Hp) as (p' & Ho & Hp').
  assert (path_ok p = true) as Hok'.
  { exact (forallb_assoc _ _ _ _ Hok Hp). }
  destruct (document_path_spec p Hok') as (p'' & Ho' & Hm'). rewrite Ho in Ho'. injection Ho' as <-.
  destruct (Hm' method op Hat) as (op' & ? & Hat'). exists op'. split; [done|]. cbn [at_path]. by rewrite Hp'.
Qed.

Lemma at_path_cons k ks d : at_path (k :: ks) (JObj d) = assoc_get k d ≫= at_path ks.
Proof. done. Qed.

Lemma object_at_parent ks k x d : at_path (ks ++ [k]) (JObj d) = Some x → object_at ks (JObj d) = true.
Proof.
  unfold object_at. generalize (JObj d). induction ks as [|q ks IH]; intros v Hv.
  - by destruct v.
  - destruct v as [| | | | | |c]; try discriminate Hv. cbn [app] in Hv. rewrite at_path_cons in *.
    destruct (assoc_get q c) as [y|]; [|discriminate Hv]. by apply IH.
Qed.

Lemma operation_of_shape d path method op :
  match at_path ["paths"] (JObj d) with
  | Some (JObj paths) => forallb (λ p, path_ok p.2) paths
  | Some _ => false
  | None => true
  end = true →
  at_path ["paths"; path; method] (JObj d) = Some op → operation_ok op = true.
Proof.
  intros Hp Hat. rewrite at_path_cons in Hat. cbn [at_path mbind option_bind] in Hp.
  destruct (assoc_get "paths" d) as [ps|]; [|done]. cbn [mbind option_bind] in *.
  destruct ps as [| | | | | |paths]; try discriminate. cbn [at_path] in Hat.
  destruct (assoc_get path paths) as [p|] eqn:Hpp; [|done]. cbn [mbind option_bind] in Hat.
  destruct p as [| | | | | |pd]; try discriminate. destruct (assoc_get method pd) as [o|] eqn:Hm; [|done].
  injection Hat as ->. apply (forallb_assoc _ _ _ _ Hp) in Hpp. exact (forallb_assoc _ _ _ _ Hpp Hm).
Qed.

Lemma document_schema_spec schema :
  well_shaped schema = true →
  ∃ s, OpenApi.document_schema schema = Ok (JObj s) ∧ truthy (JObj s) = true
    ∧ at_path ["components"; "schemas"; "HTTPValidationError"] (JObj s) = Some OpenApi.error_ref
    ∧ ∀ path method op, at_path ["paths"; path; method] schema = Some op →
        operation_ok op = true
        ∧ ∃ op', OpenApi.document_operation op = Ok op' ∧ at_path ["paths"; path; method] (JObj s) = Some op'.
Proof.
  unfold well_shaped. intros [Hc Hp]%andb_true_iff.
  destruct (set_in_object ["components"; "schemas"] "ValidationError" OpenApi.error_ref schema Hc) as (d1 & H1 & Ha1 & Hs1).
  destruct schema as [| | | | | |d]; try contradiction. destruct Hs1 as [y1 Hd1].
  destruct (set_in_object ["components"; "schemas"] "HTTPValidationError" OpenApi.error_ref (JObj d1)
              (object_at_parent _ _ _ _ Ha1)) as (d2 & H2 & Ha2 & y2 & Hd2).
  assert (assoc_get "paths" d2 = assoc_get "paths" d) as Hpaths by (subst; by rewrite !assoc_get_set_ne).
  pose proof (operation_of_shape d) as Hshape. specialize (λ path method op, Hshape path method op Hp).
  unfold OpenApi.document_schema. rewrite H1. cbn [mbind result_bind]. rewrite H2. cbn [mbind result_bind]. rewrite Hpaths.
  cbn [at_path mbind option_bind] in Hp. destruct (assoc_get "paths" d) as [ps|] eqn:Hps.
  - destruct ps as [| | | | | |paths]; try discriminate Hp. destruct (document_paths paths Hp) as (paths' & -> & Hm).
    cbn [mbind result_bind]. eexists. split; [reflexivity|]. split; [|split].
    + destruct d2 as [|[k v] d2]; [done|]. cbn. by case_decide.
    + cbn [app] in Ha2. rewrite at_path_cons in *. by rewrite assoc_get_set_ne.
    + intros path method op Hat. split; [eauto|]. revert Hat.
      rewrite !(at_path_cons "paths"), Hps, assoc_get_set_eq. cbn [mbind option_bind]. apply Hm.
  - exists d2. split; [done|]. split; [by destruct d2|]. split; [done|].
    intros path method op. by rewrite at_path_cons, Hps.
Qed.

(** Every operation of the served document tells of its errors: an unexpected one, malformed
    JSON where it reads JSON, and the application's own body for a refused input; whatever else
    the generator wrote of it stays, and the document is made once. *)
Theorem errors_are_documented get_openapi schema :
  get_openapi = Ok schema → well_shaped schema = true →
  ∃ s, OpenApi.custom_openapi get_openapi JNull = (Ok s, s)
    ∧ (∀ again, OpenApi.custom_openapi again s = (Ok s, s))
    ∧ at_path ["components"; "schemas"; "HTTPValidationError"] s = Some OpenApi.error_ref
    ∧ ∀ path method op responses,
        at_path ["paths"; path; method] schema = Some (JObj op) → assoc_get "responses" op = Some (JObj responses) →
        ∃ responses', at_path ["paths"; path; method] s = Some (JObj (assoc_set "responses" (JObj responses') op))
          ∧ responses_documented op responses responses'.
Proof.
  intros -> Hok. destruct (document_schema_spec schema Hok) as (s & Hdoc & Htrue & Href & Hops).
  exists (JObj s). unfold OpenApi.custom_openapi at 1. cbn [truthy mbind result_bind]. rewrite Hdoc.
  split; [done|]. split; [intros again; unfold OpenApi.custom_openapi; by rewrite Htrue|]. split; [done|].
  intros path method op responses Hat Hr. destruct (Hops _ _ _ Hat) as (Hop & op' & Ho & Hat').
  destruct (document_operation_spec (JObj op) Hop) as (x & Hx & Hspec). rewrite Ho in Hx. injection Hx as <-.
  destruct (Hspec op responses eq_refl Hr) as (rs' & -> & ?). eauto.
Qed.

(** ** The published key *)
Lemma key_pattern_accepts s :
  KeyedRoute.pattern_accepts "^[\x21-\x2b\x2d-\x7e]+$" s = negb (String.eqb s "") && str_all key_char s.
Proof.
  assert (KeyedRoute.class_items 21 "\x21-\x2b\x2d-\x7e]+$" = Some ([(33, 43); (45, 126)], "+$")) as Hc by (vm_compute; reflexivity).
  unfold KeyedRoute.pattern_accepts. cbn -[KeyedRoute.class_items]. rewrite Hc. f_equal.
  apply str_all_ext. intros c. cbn. by rewrite orb_false_r.
Qed.

Lemma key_schema_valid_key s : valid_key s = KeyedRoute.schema_accepts KeyedRoute.key_schema s.
Proof.
  change (valid_key s = true && (1 <=? ulen s) && (ulen s <=? 128)
                        && KeyedRoute.pattern_accepts "^[\x21-\x2b\x2d-\x7e]+$" s).
  rewrite key_pattern_accepts. unfold valid_key.
  destruct (str_all key_char s) eqn:Hs; [|by rewrite !andb_false_r].
  rewrite ulen_ascii.
  2:{ unfold is_ascii. revert Hs. apply str_all_impl. intros c. unfold key_char, is_ascii_char.
      rewrite orb_true_iff, !in_range_spec, Z.ltb_lt. lia. }
  rewrite !andb_true_l, andb_true_r. destruct s as [|c s]; [done|]. by rewrite andb_true_r.
Qed.

(** A route that does not declare the header itself publishes one parameter for it, and the
    schema of that parameter accepts exactly the values the route accepts. *)
Theorem published_key_is_the_accepted_key own extra parameters :
  list_of (get_or "parameters" (JList []) own) = Ok parameters → KeyedRoute.any_py KeyedRoute.names_key parameters = Ok false →
  KeyedRoute.openapi_extra own = Ok extra →
  ∃ parameter schema,
    assoc_get "parameters" extra = Some (JList (parameters ++ [parameter]))
    ∧ KeyedRoute.names_key parameter = Ok true ∧ at_path ["schema"] parameter = Some (JObj schema)
    ∧ ∀ request value, (filter (λ h, h.1 = "idempotency-key") (rq_headers request)).*2 = [value] →
        read_key request = (if KeyedRoute.schema_accepts schema value then Ok (Some value)
                            else Err (HTTPException PlainHTTPException 400 KEY_ERROR [])).
Proof.
  unfold KeyedRoute.openapi_extra. intros -> Hn. cbn [mbind result_bind]. rewrite Hn. cbn [mbind result_bind]. intros [= <-].
  exists KeyedRoute.key_parameter, KeyedRoute.key_schema. split; [by apply assoc_get_set_eq|].
  split; [vm_compute; reflexivity|]. split; [reflexivity|].
  intros request value Hv. unfold read_key. rewrite Hv.
  replace (KeyedRoute.schema_accepts KeyedRoute.key_schema value) with (valid_key value); [done|].
  apply key_schema_valid_key.
Qed.

(** The responses a route declares itself win over those of the key. *)
Theorem own_responses_win own k :
  NoDup own.*1 →
  assoc_get k (KeyedRoute.declared_responses own)
  = match assoc_get k own with Some r => Some r | None => assoc_get k KeyedRoute.keyed_responses end.
Proof.
  unfold KeyedRoute.declared_responses. generalize KeyedRoute.keyed_responses.
  induction own as [|[q r] own IH]; intros base Hn; [done|]. cbn in Hn. apply NoDup_cons in Hn as [Hq Hn].
  cbn [foldl assoc_get]. rewrite (IH _ Hn). case_decide as Hk; [subst|by rewrite assoc_get_set_ne].
  rewrite assoc_get_set_eq. destruct (assoc_get q own) as [x|] eqn:Hx; [|done].
  destruct Hq. clear -Hx. induction own as [|[k v] own IH]; [done|]. cbn in *. case_decide; set_solver.
Qed.

(** ** Repeated query parameters *)
Lemma first_names_spec seen params :
  NoDup (QueryValidation.first_names seen params)
  ∧ ∀ name, name ∈ QueryValidation.first_names seen params ↔ name ∈ params.*1 ∧ name ∉ seen.
Proof.
  revert seen. induction params as [|[n v] params IH]; intros seen; cbn [QueryValidation.first_names].
  { split; [constructor|set_solver]. }
  case_bool_decide as Hn.
  - destruct (IH seen) as [Hd Hi]. split; [done|]. intros name. rewrite Hi. cbn. set_solver.
  - destruct (IH (n :: seen)) as [Hd Hi]. split.
    + constructor; [|done]. rewrite Hi. set_solver.
    + intros name. rewrite elem_of_cons, Hi. cbn. destruct (decide (name = n)); set_solver.
Qed.

Lemma parameters_cons name p params :
  QueryValidation.getlist name (p :: params)
  = (if String.eqb p.1 name then [p.2] else []) ++ QueryValidation.getlist name params.
Proof. unfold QueryValidation.getlist. cbn [List.filter]. by destruct (String.eqb p.1 name). Qed.

Lemma getlist_length name params :
  name ∈ params.*1 ↔ (0 < length (QueryValidation.getlist name params))%nat.
Proof.
  induction params as [|p params IH]; [cbn; split; [set_solver|lia]|]. rewrite parameters_cons, length_app.
  cbn. rewrite elem_of_cons, IH. destruct (String.eqb_spec p.1 name) as [->|]; cbn; [naive_solver lia|].
  split; [intros [->|]; [done|lia]|right; lia].
Qed.

Lemma NoDup_getlist params :
  NoDup params.*1 ↔ ∀ name, (length (QueryValidation.getlist name params) ≤ 1)%nat.
Proof.
  induction params as [|p params IH]; [cbn; split; [intros; lia|constructor]|]. cbn [fmap list_fmap].
  rewrite NoDup_cons, IH. split.
  - intros [Hp Hall] name. rewrite parameters_cons, length_app. specialize (Hall name).
    destruct (String.eqb_spec p.1 name) as [<-|]; cbn; [|lia]. rewrite getlist_length in Hp. lia.
  - intros Hall. split.
    + rewrite getlist_length. specialize (Hall p.1). rewrite parameters_cons, String.eqb_refl in Hall. cbn in Hall. lia.
    + intros name. specialize (Hall name). rewrite parameters_cons, length_app in Hall. lia.
Qed.

(** The listing goes on exactly when no parameter is repeated; otherwise each repeated name is
    reported once. *)
Theorem repeated_parameters_are_refused params :
  (QueryValidation.reject_repeated_query_parameters params = Ok tt ↔ NoDup params.*1)
  ∧ NoDup (QueryValidation.repeated params)
  ∧ ∀ name, name ∈ QueryValidation.repeated params ↔ (1 < length (QueryValidation.getlist name params))%nat.
Proof.
  destruct (first_names_spec [] params) as [Hd Hi].
  assert (∀ name, name ∈ QueryValidation.repeated params ↔ (1 < length (QueryValidation.getlist name params))%nat) as Hr.
  { intros name. unfold QueryValidation.repeated. rewrite list_elem_of_In, filter_In, <-list_elem_of_In, Hi, Z.ltb_lt.
    rewrite getlist_length. split; [lia|]. intros. repeat split; [lia|set_solver|lia]. }
  split; [|split; [|exact Hr]].
  - rewrite NoDup_getlist. unfold QueryValidation.reject_repeated_query_parameters.
    destruct (QueryValidation.repeated params) as [|n names] eqn:He.
    + split; [|done]. intros _ name. destruct (decide (1 < length (QueryValidation.getlist name params))%nat) as [Hl|]; [|lia].
      apply Hr in Hl. set_solver.
    + split; [done|]. intros Hall. specialize (Hall n). assert (n ∈ n :: names) as Hn%Hr by set_solver. lia.
  - unfold QueryValidation.repeated. apply NoDup_ListNoDup, List.NoDup_filter, NoDup_ListNoDup, Hd.
Qed.

(** ** Example: a keyed operation as the generator describes it *)
Definition example_schema : json :=
  JObj [("components", JObj [("schemas", JObj [])]);
        ("paths", JObj [("/items", JObj [
           ("parameters", JList []);
           ("post", JObj [("requestBody", JObj [("content", JObj [("application/json", JObj [])])]);
                          ("responses", JObj [("201", JNull); ("422", JObj [("content", JObj [("application/json", JObj [])])])])])])])].

Lemma errors_are_documented_example :
  ∃ s, OpenApi.custom_openapi (Ok example_schema) JNull = (Ok s, s)
    ∧ at_path ["paths"; "/items"; "post"; "responses"; "500"] s
      = Some (OpenApi.error_response "Unexpected server error.")
    ∧ at_path ["paths"; "/items"; "post"; "responses"; "422"; "content"; "application/json"; "schema"] s
      = Some OpenApi.error_ref.
Proof. eexists. split; [vm_compute; reflexivity|]. split; vm_compute; reflexivity. Qed.
