(* ===== verification/EntryPoints.v ===== *)
(** * Entry points

    [app/main.py], which hands a configuration to uvicorn, and the Alembic environment
    [app/database/migrations/env.py], which runs the migrations of [Schema] on a connection
    it was given, on one of its own engine, or on none (SQL text).  uvicorn and Alembic are
    arguments: what their calls answer. *)
From S2P Require Import Prelude PyText.
Open Scope Z_scope.

(** ** [main.py] *)
Module Main.
Record uvicorn_config := mkConfig {
  app : string;
  host : string;
  port : Z;
  reload : bool;
  reload_dirs : option (list string);
  ws : string;
  loop : string;
  log_config : option string;
  proxy_headers : bool
}.

Definition config (ENV HOST : string) (PORT : Z) (app_dir : string) : uvicorn_config :=
  mkConfig "app.config.application:app" HOST PORT (String.eqb ENV "development")
    (if String.eqb ENV "development" then Some [app_dir] else None)
    "none" "app.config.event_loop:server_loop_factory" None false.

(** What uvicorn's calls answer; [should_reload] is its own reading of the configuration. *)
Record uvicorn := mkUvicorn {
  should_reload : uvicorn_config → bool;
  new_server : py unit;
  bind_socket : py unit;
  supervise : py unit;            (* [ChangeReload(...).run()] *)
  serve : py unit                 (* [server.run()] *)
}.

Inductive served := InProcess | Supervised.

Definition main (c : uvicorn_config) (u : uvicorn) : py served :=
  _ ← new_server u;
  if should_reload u c
  then _ ← bind_socket u; _ ← supervise u; Ok Supervised
  else _ ← serve u; Ok InProcess.

(** [run]: an [Exception] is logged and ends the process with status 1; what is not one
    goes through. *)
Definition run (c : uvicorn_config) (u : uvicorn) : py (option Z) :=
  match main c u with
  | Ok _ => Ok None
  | Err e => if is_Exception e then Ok (Some 1) else Err e
  end.

(** A server whose [run] raises ends the process with status 1; outside development no
    supervisor is started, and uvicorn never trusts a forwarding header. *)
Lemma production_entry ENV HOST PORT app_dir u c :
  c = config ENV HOST PORT app_dir → (∀ c, reload c = false → should_reload u c = false) → ENV ≠ "development" →
  proxy_headers c = false ∧ reload_dirs c = None
  ∧ run c u = match new_server u, serve u with
              | Ok _, Ok _ => Ok None
              | Err e, _ | Ok _, Err e => if is_Exception e then Ok (Some 1) else Err e
              end.
Proof.
  intros -> Hr He. apply String.eqb_neq in He. unfold config, run, main. rewrite He. cbn [proxy_headers reload_dirs].
  rewrite Hr by done. destruct (new_server u) as [[]|e]; [|done]. by destruct (serve u) as [[]|e].
Qed.
End Main.

(** ** The Alembic environment *)
Module AlembicEnv.
Inductive action :=
| Configured (online : bool)
| Began
| Migrated
| Committed
| RolledBack
| Opened
| Shut
| Disposed.
Abbreviation traced A := (py A * list action)%type (only parsing).

(** [with context.begin_transaction(): context.run_migrations()]: the exit may raise too. *)
Definition transaction (begin_ migrations commit : py unit) : traced unit :=
  match begin_ with
  | Err e => (Err e, [])
  | Ok _ =>
      match migrations with
      | Ok _ => (commit, [Began; Migrated; Committed])
      | Err e => (Err e, [Began; RolledBack])
      end
  end.

Definition run_migrations (configure begin_ migrations commit : py unit) : traced unit :=
  match configure with
  | Err e => (Err e, [])
  | Ok _ => let '(r, t) := transaction begin_ migrations commit in (r, Configured true :: t)
  end.

(** [finally] and the exit of a context manager: their own error replaces the one under way. *)
Definition finally {A} (r : py A) (cleanup : py unit) : py A :=
  match cleanup with Ok _ => r | Err e => Err e end.

Definition run_async_migrations (engine connect close dispose : py unit) (body : traced unit) : traced unit :=
  match engine with
  | Err e => (Err e, [])
  | Ok _ =>
      let '(r, t) :=
        match connect with
        | Err e => (Err e, [])
        | Ok _ => let '(r, t) := body in (finally r close, Opened :: t ++ [Shut])
        end in
      (finally r dispose, t ++ [Disposed])
  end.

Record host := mkHost {
  is_offline_mode : bool;
  given_connection : bool;        (* [config.attributes["connection"]] *)
  configure : py unit;
  begin_ : py unit;
  migrations : py unit;
  commit : py unit;
  engine : py unit;
  connect : py unit;
  close : py unit;
  dispose : py unit
}.

Definition env (h : host) : traced unit :=
  if is_offline_mode h then
    match configure h with
    | Err e => (Err e, [])
    | Ok _ => let '(r, t) := transaction (begin_ h) (migrations h) (commit h) in (r, Configured false :: t)
    end
  else if given_connection h then run_migrations (configure h) (begin_ h) (migrations h) (commit h)
  else run_async_migrations (engine h) (connect h) (close h) (dispose h)
         (run_migrations (configure h) (begin_ h) (migrations h) (commit h)).

Definition touches_engine (a : action) : bool := match a with Opened | Shut | Disposed => true | _ => false end.

Lemma transaction_no_engine b m c : forallb (λ a, negb (touches_engine a)) (transaction b m c).2 = true.
Proof. by destruct b, m. Qed.

Lemma run_migrations_no_engine cf b m c :
  forallb (λ a, negb (touches_engine a)) (run_migrations cf b m c).2 = true.
Proof. destruct cf; [|done]. cbn. pose proof (transaction_no_engine b m c). by destruct (transaction b m c). Qed.

(** The environment closes what it opened and nothing else: SQL text and a given connection
    touch no engine; its own engine is disposed once, as the last action, after its connection
    was closed once; and a run that ends well committed migrations that ran. *)
Theorem environment_closes_what_it_opened h r t :
  env h = (r, t) →
  (is_offline_mode h || given_connection h = true → forallb (λ a, negb (touches_engine a)) t = true)
  ∧ (is_offline_mode h || given_connection h = false → is_ok (engine h) = true →
       ∃ before, t = before ++ [Disposed] ∧ (before = [] ∨
         ∃ work, before = Opened :: work ++ [Shut] ∧ forallb (λ a, negb (touches_engine a)) work = true))
  ∧ (r = Ok tt → Committed ∈ t ∧ Migrated ∈ t).
Proof.
  unfold env. destruct (is_offline_mode h); [|destruct (given_connection h)]; cbn [orb].
  - pose proof (transaction_no_engine (begin_ h) (migrations h) (commit h)) as Hn.
    destruct (configure h); [|by intros [= <- <-]].
    unfold transaction in *. destruct (begin_ h), (migrations h); intros [= <- <-]; cbn in *;
      (split; [done|]; split; [done|]); intros; try done; set_solver.
  - intros He. pose proof (run_migrations_no_engine (configure h) (begin_ h) (migrations h) (commit h)) as Hn.
    rewrite He in Hn. split; [done|]. split; [done|]. intros ->. revert He. unfold run_migrations, transaction.
    destruct (configure h), (begin_ h), (migrations h); intros [= ? <-]; set_solver.
  - pose proof (run_migrations_no_engine (configure h) (begin_ h) (migrations h) (commit h)) as Hn.
    unfold run_async_migrations. destruct (engine h); [|by intros [= <- <-]].
    destruct (connect h).
    + destruct (run_migrations _ _ _ _) as [r' t'] eqn:Hr. intros [= <- <-]. split; [done|]. split.
      * intros _ _. exists (Opened :: t' ++ [Shut]). split; [done|]. right. eauto.
      * intros Hok. destruct (dispose h), (close h); try discriminate Hok. cbn in Hok. subst r'.
        revert Hr. unfold run_migrations, transaction.
        destruct (configure h), (begin_ h), (migrations h); intros [= ? <-]; set_solver.
    + intros [= <- <-]. split; [done|]. split; [|by destruct (dispose h)].
      intros _ _. exists []. auto.
Qed.
End AlembicEnv.
