(* ===== verification/Effects.v ===== *)
(** * Scripts and their traces

    The scripts that drive containers and databases ([scripts/test_database_support.py],
    [test_db.py], [test_database_tls.py], [test_image.py], [test_rollback.py]) are programs
    that act on an outside that may answer anything: [E] threads the local variables of a
    script and records every action with its answer.  What the outside answers may depend
    on everything that happened before ([respond]). *)
From S2P Require Import Prelude.
Open Scope Z_scope.

Abbreviation trace Act Ans := (list (Act * py Ans)) (only parsing).

Definition E (S Act Ans A : Type) : Type := S → trace Act Ans → py A * S * trace Act Ans.

#[export] Instance E_ret {S Act Ans} : MRet (E S Act Ans) := λ A a s h, (Ok a, s, []).
#[export] Instance E_bind {S Act Ans} : MBind (E S Act Ans) := λ A B f p s h,
  match p s h with
  | (Ok a, s1, t1) => let '(r, s2, t2) := f a s1 (h ++ t1) in (r, s2, t1 ++ t2)
  | (Err e, s1, t1) => (Err e, s1, t1)
  end.

Section effects.
Context {S Act Ans : Type}.
Abbreviation prog A := (E S Act Ans A) (only parsing).

Definition lift {A} (r : py A) : prog A := λ s h, (r, s, []).
Definition get {A} (f : S → A) : prog A := λ s h, (Ok (f s), s, []).
Definition modify (f : S → S) : prog unit := λ s h, (Ok tt, f s, []).

Definition act (respond : trace Act Ans → Act → py Ans) (a : Act) : prog Ans := λ s h,
  let r := respond h a in (r, s, [(a, r)]).

(** [try: p finally: q]; an error of [q] replaces what [p] ended with. *)
Definition finally {A} (p : prog A) (q : prog unit) : prog A := λ s h,
  let '(r, s1, t1) := p s h in
  match q s1 (h ++ t1) with
  | (Ok _, s2, t2) => (r, s2, t1 ++ t2)
  | (Err e, s2, t2) => (Err e, s2, t1 ++ t2)
  end.

(** [try: p except Exception as error: handler; raise] *)
Definition reraise {A} (p : prog A) (handler : exn → prog unit) : prog A := λ s h,
  match p s h with
  | (Err e, s1, t1) =>
      if is_Exception e then
        match handler e s1 (h ++ t1) with
        | (Ok _, s2, t2) => (Err e, s2, t1 ++ t2)
        | (Err e', s2, t2) => (Err e', s2, t1 ++ t2)
        end
      else (Err e, s1, t1)
  | done => done
  end.

(** [try: p except …: raise f(error) from None] *)
Definition relabel {A} (f : exn → exn) (p : prog A) : prog A := λ s h,
  let '(r, s', t) := p s h in (match r with Err e => Err (f e) | Ok _ => r end, s', t).

(** ** What a program guarantees of its result, its variables and the actions it adds *)
Definition post {A} (p : prog A) (Q : py A → S → trace Act Ans → Prop) (s : S) (h : trace Act Ans) : Prop :=
  let '(r, s', t) := p s h in Q r s' t.

Lemma post_ret {A} (a : A) Q s h : Q (Ok a) s [] → post (mret a) Q s h.
Proof. done. Qed.

Lemma post_lift {A} (r : py A) Q s h : Q r s [] → post (lift r) Q s h.
Proof. done. Qed.

Lemma post_modify f Q s h : Q (Ok tt) (f s) [] → post (modify f) Q s h.
Proof. done. Qed.

Lemma post_get {A} (f : S → A) Q s h : Q (Ok (f s)) s [] → post (get f) Q s h.
Proof. done. Qed.

Lemma post_act respond a Q s h : Q (respond h a) s [(a, respond h a)] → post (act respond a) Q s h.
Proof. done. Qed.

Lemma post_bind {A B} (p : prog A) (f : A → prog B) Q s h :
  post p (λ r s1 t1,
    match r with
    | Ok a => post (f a) (λ r' s2 t2, Q r' s2 (t1 ++ t2)) s1 (h ++ t1)
    | Err e => Q (Err e) s1 t1
    end) s h →
  post (p ≫= f) Q s h.
Proof.
  unfold post, mbind, E_bind. destruct (p s h) as [[[a|e] s1] t1]; [|done]. by destruct (f a s1 (h ++ t1)) as [[r s2] t2].
Qed.

Lemma post_finally {A} (p : prog A) (q : prog unit) Q s h :
  post p (λ r s1 t1,
    post q (λ r' s2 t2, Q (match r' with Ok _ => r | Err e => Err e end) s2 (t1 ++ t2)) s1 (h ++ t1)) s h →
  post (finally p q) Q s h.
Proof.
  unfold post, finally. destruct (p s h) as [[r s1] t1]. by destruct (q s1 (h ++ t1)) as [[[u|e] s2] t2].
Qed.

Lemma post_reraise {A} (p : prog A) handler Q s h :
  post p (λ r s1 t1,
    match r with
    | Ok _ => Q r s1 t1
    | Err e => if is_Exception e
               then post (handler e) (λ r' s2 t2, Q (match r' with Ok _ => Err e | Err e' => Err e' end) s2 (t1 ++ t2)) s1 (h ++ t1)
               else Q r s1 t1
    end) s h →
  post (reraise p handler) Q s h.
Proof.
  unfold post, reraise. destruct (p s h) as [[[a|e] s1] t1]; [done|]. destruct (is_Exception e); [|done].
  by destruct (handler e s1 (h ++ t1)) as [[[u|e'] s2] t2].
Qed.

Lemma post_mono {A} (p : prog A) (Q Q' : py A → S → trace Act Ans → Prop) s h :
  post p Q s h → (∀ r s' t, Q r s' t → Q' r s' t) → post p Q' s h.
Proof. unfold post. destruct (p s h) as [[r s'] t]. auto. Qed.

Lemma post_True {A} (p : prog A) s h : post p (λ _ _ _, True) s h.
Proof. unfold post. by destruct (p s h) as [[r s'] t]. Qed.

Lemma post_run {A} (p : prog A) Q s h r s' t : post p Q s h → p s h = (r, s', t) → Q r s' t.
Proof. unfold post. intros H Hp. by rewrite Hp in H. Qed.

Lemma post_conj {A} (p : prog A) (Q Q' : py A → S → trace Act Ans → Prop) s h :
  post p Q s h → post p Q' s h → post p (λ r s' t, Q r s' t ∧ Q' r s' t) s h.
Proof. unfold post. destruct (p s h) as [[r s'] t]. auto. Qed.

(** *** Every action a program may take satisfies [P]. *)
Definition only {A} (P : Act → Prop) (p : prog A) : Prop := ∀ s h, post p (λ _ _ t, Forall (λ x, P x.1) t) s h.

Lemma only_ret {A} P (a : A) : only P (mret a).
Proof. intros s h. constructor. Qed.
Lemma only_lift {A} P (r : py A) : only P (lift r).
Proof. intros s h. constructor. Qed.
Lemma only_get {A} P (f : S → A) : only P (get f).
Proof. intros s h. constructor. Qed.
Lemma only_modify P f : only P (modify f).
Proof. intros s h. constructor. Qed.
Lemma only_act P respond a : P a → only P (act respond a).
Proof. intros Ha s h. apply post_act. by constructor. Qed.
Lemma only_bind {A B} P (p : prog A) (f : A → prog B) : only P p → (∀ a, only P (f a)) → only P (p ≫= f).
Proof.
  intros Hp Hf s h. apply post_bind. eapply post_mono; [apply Hp|]. intros [a|e] s1 t1 H1; [|done].
  eapply post_mono; [apply Hf|]. intros r s2 t2 H2. by apply Forall_app.
Qed.
Lemma only_finally {A} P (p : prog A) q : only P p → only P q → only P (finally p q).
Proof.
  intros Hp Hq s h. apply post_finally. eapply post_mono; [apply Hp|]. intros r s1 t1 H1.
  eapply post_mono; [apply Hq|]. intros r' s2 t2 H2. by apply Forall_app.
Qed.
Lemma only_reraise {A} P (p : prog A) handler : only P p → (∀ e, only P (handler e)) → only P (reraise p handler).
Proof.
  intros Hp Hq s h. apply post_reraise. eapply post_mono; [apply Hp|]. intros [a|e] s1 t1 H1; [done|].
  destruct (is_Exception e); [|done]. eapply post_mono; [apply Hq|]. intros r' s2 t2 H2. by apply Forall_app.
Qed.
Lemma only_relabel {A} P f (p : prog A) : only P p → only P (relabel f p).
Proof. intros Hp s h. specialize (Hp s h). unfold post, relabel in *. by destruct (p s h) as [[r s'] t]. Qed.
Lemma only_if {A} P (b : bool) (p q : prog A) : only P p → only P q → only P (if b then p else q).
Proof. by destruct b. Qed.
Lemma only_weaken {A} (P P' : Act → Prop) (p : prog A) : (∀ a, P a → P' a) → only P p → only P' p.
Proof.
  intros HP Hp s h. eapply post_mono; [apply Hp|]. intros r s' t Ht.
  eapply Forall_impl; [exact Ht|]. intros x. apply HP.
Qed.

(** *** A program keeps an invariant of its variables, under which its actions satisfy [P]. *)
Definition maintains {A} (I : S → Prop) (P : Act → Prop) (p : prog A) : Prop :=
  ∀ s h, I s → post p (λ _ s' t, I s' ∧ Forall (λ x, P x.1) t) s h.

Lemma maintains_ret {A} I P (a : A) : maintains I P (mret a).
Proof. intros s h Hs. split; [done|constructor]. Qed.
Lemma maintains_lift {A} I P (r : py A) : maintains I P (lift r).
Proof. intros s h Hs. split; [done|constructor]. Qed.
Lemma maintains_get {A} I P (f : S → A) : maintains I P (get f).
Proof. intros s h Hs. split; [done|constructor]. Qed.
Lemma maintains_modify I P f : (∀ s, I s → I (f s)) → maintains I P (modify f).
Proof. intros Hf s h Hs. split; [by apply Hf|constructor]. Qed.
Lemma maintains_act I P respond a : P a → maintains I P (act respond a).
Proof. intros Ha s h Hs. split; [done|by constructor]. Qed.
Lemma maintains_bind {A B} I P (p : prog A) (f : A → prog B) :
  maintains I P p → (∀ a, maintains I P (f a)) → maintains I P (p ≫= f).
Proof.
  intros Hp Hf s h Hs. apply post_bind. eapply post_mono; [by apply Hp|]. intros [a|e] s1 t1 [Hs1 H1]; [|done].
  eapply post_mono; [by apply Hf|]. intros r s2 t2 [Hs2 H2]. split; [done|]. by apply Forall_app.
Qed.
Lemma maintains_finally {A} I P (p : prog A) q : maintains I P p → maintains I P q → maintains I P (finally p q).
Proof.
  intros Hp Hq s h Hs. apply post_finally. eapply post_mono; [by apply Hp|]. intros r s1 t1 [Hs1 H1].
  eapply post_mono; [by apply Hq|]. intros r' s2 t2 [Hs2 H2]. split; [done|]. by apply Forall_app.
Qed.
Lemma maintains_reraise {A} I P (p : prog A) handler :
  maintains I P p → (∀ e, maintains I P (handler e)) → maintains I P (reraise p handler).
Proof.
  intros Hp Hq s h Hs. apply post_reraise. eapply post_mono; [by apply Hp|]. intros [a|e] s1 t1 [Hs1 H1]; [done|].
  destruct (is_Exception e); [|done]. eapply post_mono; [by apply Hq|]. intros r s2 t2 [Hs2 H2].
  split; [done|]. by apply Forall_app.
Qed.
Lemma maintains_if {A} I P (b : bool) (p q : prog A) :
  maintains I P p → maintains I P q → maintains I P (if b then p else q).
Proof. by destruct b. Qed.

(** *** A program that succeeded took an action of [P]. *)
Definition includes {A} (P : Act * py Ans → Prop) (p : prog A) : Prop :=
  ∀ s h, post p (λ r _ t, is_ok r = true → Exists P t) s h.

Lemma includes_act (P : Act * py Ans → Prop) respond a : (∀ x, P (a, Ok x)) → includes P (act respond a).
Proof. intros HP s h. apply post_act. destruct (respond h a); [|done]. intros _. by constructor. Qed.
Lemma includes_first {A B} P (p : prog A) (f : A → prog B) : includes P p → includes P (p ≫= f).
Proof.
  intros Hp s h. apply post_bind. eapply post_mono; [apply Hp|]. intros [a|e] s1 t1 H1; [|done].
  eapply post_mono; [apply post_True|]. intros r s2 t2 _ _. apply Exists_app. left. by apply H1.
Qed.
Lemma includes_then {A B} P (p : prog A) (f : A → prog B) : (∀ a, includes P (f a)) → includes P (p ≫= f).
Proof.
  intros Hf s h. apply post_bind. eapply post_mono; [apply post_True|]. intros [a|e] s1 t1 _; [|done].
  eapply post_mono; [apply Hf|]. intros r s2 t2 H2 Hr. apply Exists_app. right. by apply H2.
Qed.
Lemma includes_finally {A} P (p : prog A) q : includes P p → includes P (finally p q).
Proof.
  intros Hp s h. apply post_finally. eapply post_mono; [apply Hp|]. intros r s1 t1 H1.
  eapply post_mono; [apply post_True|]. intros [u|e] s2 t2 _ Hr; [|done]. apply Exists_app. left. by apply H1.
Qed.
End effects.

#[export] Hint Resolve maintains_ret maintains_lift maintains_get maintains_modify maintains_act maintains_bind
  maintains_finally maintains_reraise maintains_if : quickapi.
#[export] Hint Resolve only_ret only_lift only_get only_modify only_act only_bind only_finally only_reraise only_if : quickapi.
