(* ===== verification/TestDatabase.v ===== *)
(** * The disposable test database

    [scripts/test_database_support.py] (the configuration and identity checks every
    destructive command passes), [scripts/test_db.py] (the commands) and [run_tls] of
    [scripts/test_database_tls.py].  The database server, Docker, pytest, Alembic and the
    file lock are the outside of [Effects]; the parser of connection URLs and the reader of
    [.env.test] are arguments. *)
From S2P Require Import Prelude PyText UnicodeText Effects.
Open Scope Z_scope.

(** ** Configuration *)
Record URL := mkURL {
  drivername : string;
  url_username : option string;
  url_password : option string;
  url_host : option string;
  url_port : option Z;
  url_database : option string;
  url_query : list (string * string)
}.
#[export] Instance URL_eq_dec : EqDecision URL.
Proof. solve_decision. Defined.
Definition set_host_port (host : string) (port : Z) (u : URL) : URL :=
  mkURL (drivername u) (url_username u) (url_password u) (Some host) (Some port) (url_database u) (url_query u).

Record TestDatabaseConfig := mkConfig {
  url : URL;
  database : string;
  user : string;
  values : gmap string string
}.

Definition refuse {A} (msg : string) : py A := Err (ValueError msg).

(** [quickapi_fastapi_disposable_test(?:_[a-z0-9]+)?] *)
Definition disposable : string := "quickapi_fastapi_disposable_test".
Definition is_disposable_name (s : string) : bool :=
  String.eqb s disposable
  || (starts_with (disposable +:+ "_") s
      && let suffix := drop_str (String.length disposable + 1) s in
         negb (String.eqb suffix "") && str_all (λ c, is_digit c || is_lower_alpha c) suffix).
Definition TEST_USER : string := "quickapi_fastapi_test".

Section config.
(** [make_url] ([None]: [ArgumentError]) and [str.lower]. *)
Context (make_url : string → option URL) (str_lower : string → string).

(** The values of the file, and the overrides of the environment. *)
Definition is_override (key : string) : bool :=
  starts_with "TEST_" key || starts_with "DB_" key || String.eqb key "ENV".
Definition file_values (file : list (string * option string)) : gmap string string :=
  foldl (λ m p, match p.2 with Some v => <[p.1 := v]> m | None => delete p.1 m end) ∅ file.
Definition merged_values (source : gmap string string) (file : list (string * option string)) : gmap string string :=
  filter (λ p, is_override p.1 = true) source ∪ file_values file.

Definition value (key : string) (m : gmap string string) : string := default EmptyString (m !! key).

(** The port, when it is a number. *)
Definition port_of (raw : string) : option Z :=
  if negb (String.eqb raw "") && str_all is_digit raw
  then match parse_int raw with Ok z => Some z | Err _ => None end
  else None.

Definition matches_target (u : URL) (database user password : string) (port : Z) : bool :=
  String.eqb (drivername u) "mysql+asyncmy"
  && bool_decide (url_database u = Some database)
  && bool_decide (url_username u = Some user)
  && negb (String.eqb password "")
  && bool_decide (url_password u = Some password)
  && bool_decide (url_port u = Some port)
  && ((1 <=? port) && (port <=? 65535))
  && bool_decide (url_query u = []).

Definition allowed_hosts (values : gmap string string) : list string :=
  ["127.0.0.1"; "localhost"; "::1"; "mysql-test"; "mysql-tls-test"]
  ++ ((λ x, str_lower (ustrip x)) <$> List.filter (λ x, negb (is_blank x)) (split_on "," (value "TEST_DB_ALLOWED_HOSTS" values))).

Definition load_test_config (source : gmap string string) (file : list (string * option string)) : py TestDatabaseConfig :=
  if negb (String.eqb (value "PYTEST_XDIST_WORKER" source) "")
  then refuse "MySQL test fixtures require serial execution, without xdist workers."
  else
    let values := merged_values source file in
    if negb (bool_decide (values !! "ENV" = Some "test") && bool_decide (values !! "TEST_DB_ENABLED" = Some "true"))
    then refuse "Disposable database commands require ENV=test and TEST_DB_ENABLED=true."
    else
      let database := value "TEST_DB_DATABASE" values in
      if negb (is_disposable_name database) then refuse "The database must use the FastAPI disposable-test name."
      else
        let user := value "TEST_DB_USER" values in
        if negb (String.eqb user TEST_USER) then refuse "A dedicated non-root FastAPI test database user is required."
        else
          match values !! "TEST_DATABASE_URL" ≫= make_url, values !! "TEST_MYSQL_PORT" ≫= port_of with
          | Some u, Some port =>
              let valid := matches_target u database user (value "TEST_DB_PASSWORD" values) port in
              let host := str_lower (default EmptyString (url_host u)) in
              if negb valid || negb (bool_decide (host ∈ allowed_hosts values))
              then refuse "Disposable MySQL URL does not match the permitted test target."
              else Ok (mkConfig u database user values)
          | _, _ => refuse "Invalid disposable MySQL connection configuration."
          end.
End config.

(** ** The certificates of the TLS server *)
(** A certificate as the builder describes it; keys are numbered in the order they are made,
    times are seconds. *)
Record certificate := mkCertificate {
  subject : string;
  issuer : string;
  public_key : nat;
  signed_by : nat;
  not_before : Z;
  not_after : Z;
  ca_path_length : option Z;                 (* of a certificate authority *)
  alt_names : list string;
  server_auth : bool
}.
Definition CA_NAME : string := "Disposable MySQL Test CA".
Definition authority (key : nat) (now : Z) : certificate :=
  mkCertificate CA_NAME CA_NAME key key (now - 60) (now + 2 * 86400) (Some 0) [] false.
Definition server_certificate (now : Z) : certificate :=
  mkCertificate "localhost" CA_NAME 1 0 (now - 60) (now + 86400) None
    ["localhost"; "mysql-tls-test"; "127.0.0.1"] true.

(** The files, certificates and the key of one, readable to every user. *)
Inductive credential := Certificate (c : certificate) | PrivateKey (key : nat).
Definition certificates (now : Z) : list (string * credential * Z) :=
  [("ca.pem", Certificate (authority 0 now), 420); ("server-cert.pem", Certificate (server_certificate now), 420);
   ("server-key.pem", PrivateKey 1, 420); ("untrusted-ca.pem", Certificate (authority 2 now), 420)].

(** What a client checks of a server it trusts through an authority. *)
Definition trusts (root c : certificate) (host : string) (at_ : Z) : bool :=
  match ca_path_length root with
  | Some length =>
      (0 <=? length) && String.eqb (issuer c) (subject root) && (signed_by c =? public_key root)%nat
      && server_auth c && bool_decide (host ∈ alt_names c)
      && (not_before c <=? at_) && (at_ <=? not_after c) && (not_before root <=? at_) && (at_ <=? not_after root)
  | None => false
  end.

(** The server is trusted through its authority for a day, under every name it is reached by, and
    never through the authority of the same name that did not sign it. *)
Lemma certificates_distinguish_authorities now at_ host :
  now ≤ at_ ≤ now + 86400 → host ∈ ["localhost"; "mysql-tls-test"; "127.0.0.1"] →
  trusts (authority 0 now) (server_certificate now) host at_ = true
  ∧ trusts (authority 2 now) (server_certificate now) host at_ = false
  ∧ subject (authority 2 now) = subject (authority 0 now).
Proof.
  intros Ht Hh. unfold trusts. cbn [ca_path_length authority server_certificate issuer subject signed_by public_key
    server_auth alt_names not_before not_after]. rewrite bool_decide_eq_true_2 by done. split; [|done].
  rewrite String.eqb_refl. cbn [andb Nat.eqb Z.leb Z.compare]. rewrite !andb_true_iff, !Z.leb_le. lia.
Qed.

(** ** The outside *)
Inductive migration_action := Migrate | Downgrade | Current | CheckRevision | History | Heads | Revision.

Inductive action :=
(* the database, through one engine and one connection *)
| BuildEngine | Connect | SelectIdentity | GetLock | CommitTx | RollbackTx | ReleaseLock
| DeleteRows (table : string)
| Alembic (a : migration_action) (revision message : string)
| Disconnect | Dispose
(* files and processes *)
| OpenLock | LockFile | UnlockFile
| Compose (project : string) (arguments : list string) (env : gmap string string)
| Collect (command : list string) (env : gmap string string)
| RunTests (command : list string) (env : gmap string string)
| Certificates (path : string)
| WriteArtifact (name : string).

Inductive answer := Done | Status (z : Z) | Identity (database user : option string) | Lock (z : option Z).

(** [os.environ] and the variable [result] of a command. *)
Record state := mkState { environ : gmap string string; result : Z }.
Definition set_result (z : Z) (s : state) : state := mkState (environ s) z.
Definition set_environ (m : gmap string string) (s : state) : state := mkState m (result s).

Abbreviation script A := (E state action answer A) (only parsing).

(** The user MySQL authenticated, without its host. *)
Fixpoint before_at (s : string) : string :=
  match s with
  | EmptyString => EmptyString
  | String c s' => if Ascii.eqb c "@"%char then EmptyString else String c (before_at s')
  end.
Definition user_name (user : option string) : string := before_at (default "None"%string user).
Definition is_target (config : TestDatabaseConfig) (d u : option string) : bool :=
  bool_decide (d = Some (database config)) && String.eqb (user_name u) (user config).

(** [with command_lock()]: the file is opened, locked at once or not at all, and unlocked. *)
Definition lock_error (e : exn) : exn :=
  if is_OSError e
  then ValueError "Another disposable test command is active; infrastructure was not changed."
  else e.
Definition command_lock {S Act Ans A} (open_lock lock_file unlock_file : E S Act Ans unit) (body : E S Act Ans A)
  : E S Act Ans A :=
  _ ← open_lock; _ ← relabel lock_error lock_file; finally body unlock_file.

Section scripts.
Context (respond : trace action answer → action → py answer).
Context (make_url : string → option URL) (str_lower : string → string)
  (render : URL → string)                              (* [render_as_string(hide_password=False)] *)
  (env_test : list (string * option string))           (* [dotenv_values(".env.test")] *)
  (executable : string).                               (* [sys.executable] *)

Definition perform (a : action) : script answer := act respond a.
Definition perform_ (a : action) : script unit := _ ← perform a; mret tt.
Definition status (a : action) : script Z :=
  r ← perform a; match r with Status z => mret z | _ => lift (Err (TypeError "status")) end.
Definition identity : script (option string * option string) :=
  r ← perform SelectIdentity;
  match r with Identity d u => mret (d, u) | _ => lift (Err (TypeError "row")) end.
Definition lock_answer : script (option Z) :=
  r ← perform GetLock; match r with Lock z => mret z | _ => lift (Err (TypeError "row")) end.

(** *** [test_database_support.py] *)
Definition locked {A} (body : script A) : script A :=
  command_lock (perform_ OpenLock) (perform_ LockFile) (perform_ UnlockFile) body.

Definition assert_test_engine (engine_url : URL) (config : TestDatabaseConfig) : script unit :=
  if bool_decide (engine_url = url config) then mret tt
  else lift (refuse "Active engine does not match the validated disposable test connection.").

Definition assert_identity (config : TestDatabaseConfig) (msg : string) : script unit :=
  '(d, u) ← identity;
  if is_target config d u then mret tt else lift (refuse msg).

Definition guarded_connection {A} (engine_url : URL) (config : TestDatabaseConfig) (body : script A) : script A :=
  _ ← assert_test_engine engine_url config;
  _ ← perform Connect;
  finally
    (_ ← assert_identity config "Connected database/user differs from the disposable test identity.";
     locked ← lock_answer;
     _ ← perform CommitTx;
     if bool_decide (locked = Some 1)
     then finally body (_ ← perform RollbackTx; _ ← perform ReleaseLock; perform_ CommitTx)
     else lift (Err (RuntimeError "Disposable test database is already in use by another command/test.")))
    (perform_ Disconnect).

Definition clear_application_rows (engine_url : URL) (config : TestDatabaseConfig) : script unit :=
  _ ← assert_test_engine engine_url config;
  _ ← assert_identity config "Refusing reset: connected database/user is not the test identity.";
  _ ← perform (DeleteRows "request_idempotency");
  _ ← perform (DeleteRows "items");
  perform_ CommitTx.

(** *** [test_db.py] *)
Definition compose (config : TestDatabaseConfig) (arguments : list string) : script Z :=
  os_environ ← get environ;
  status (Compose "quickapi-fastapi-test" arguments (values config ∪ os_environ)).

Definition command_environment (config : TestDatabaseConfig) (os_environ : gmap string string) : gmap string string :=
  <["APP_NAME" := "QuickAPI Tests"]> (<["APP_VERSION" := "1.3.0"]> (<["PORT" := "8000"]> (<["LOG_LEVEL" := "ERROR"]>
    (<["DATABASE_URL" := render (url config)]> (<["QUICKAPI_TEST_RUN" := "true"]> (values config ∪ os_environ)))))).

Definition update_environ (config : TestDatabaseConfig) : script unit :=
  modify (λ s, set_environ (command_environment config (environ s) ∪ environ s) s).

(** The engine is built from the validated URL. *)
Definition migration (config : TestDatabaseConfig) (a : migration_action) (revision message : string) : script unit :=
  _ ← update_environ config;
  _ ← perform BuildEngine;
  finally
    (guarded_connection (url config) config (_ ← perform (Alembic a revision message); perform_ CommitTx))
    (perform_ Dispose).

Definition run_migration (config : TestDatabaseConfig) (a : migration_action) (revision message : string) : script unit :=
  _ ← update_environ config; migration config a revision message.

Inductive layer := Integration | E2e | All.
Inductive command := Up | Down | Logs | Migration (a : migration_action) | Test_ | Tls.
Record args := mkArgs {
  arg_action : command;
  arg_layer : layer;
  arg_message : option string;
  arg_revision : string;
  keep_db : bool
}.

Definition selection (l : layer) : string :=
  match l with All => "unit or integration or e2e" | Integration => "integration" | E2e => "e2e" end.
Definition pytest_command (l : layer) : list string :=
  [executable; "-m"; "pytest"; "-m"; selection l] ++ match l with All => [] | _ => ["--no-cov"] end.

(** The [finally] of the test command. *)
Definition test_cleanup (config : TestDatabaseConfig) (keep : bool) : script unit :=
  r ← get result;
  _ ← (if r =? 0 then mret 0 else compose config ["logs"; "--no-color"; "--tail"; "100"; "mysql-test"]);
  if keep then mret tt
  else cleanup ← compose config ["down"; "--volumes"];
       if negb (cleanup =? 0) && (r =? 0) then lift (Err (RuntimeError "Disposable MySQL cleanup failed."))
       else mret tt.

Definition test_body (config : TestDatabaseConfig) (l : layer) : script Z :=
  up ← compose config ["up"; "-d"; "--wait"; "mysql-test"];
  _ ← modify (set_result up);
  if negb (up =? 0) then mret up
  else
    _ ← modify (set_result 1);
    _ ← run_migration config Migrate "head" "";
    os_environ ← get environ;
    let env := command_environment config os_environ in
    collected ← status (Collect (pytest_command l ++ ["--collect-only"; "--no-cov"; "-q"]) env);
    _ ← modify (set_result collected);
    if collected =? 0
    then tested ← status (RunTests (pytest_command l ++ ["-q"]) env); _ ← modify (set_result tested); mret tested
    else mret collected.

(** *** [run_tls] *)
Definition tls_compose (env : gmap string string) (arguments : list string) : script Z :=
  status (Compose "quickapi-fastapi-tls-test" arguments env).

Definition tls_test : list string :=
  [executable; "-m"; "pytest"; "-q"; "--no-cov"; "tests/integration/database/test_database_tls.py"].

Definition tls_cleanup (env : gmap string string) : script unit :=
  _ ← tls_compose env ["logs"; "--no-color"; "--tail"; "100"];
  _ ← perform (WriteArtifact "mysql-tls.log");
  r ← get result;
  cleanup ← tls_compose env ["down"; "--volumes"];
  if negb (cleanup =? 0) && (r =? 0) then lift (Err (RuntimeError "TLS test cleanup failed.")) else mret tt.

Definition tls_body (config : TestDatabaseConfig) (raw : string) (port : Z) (path : string) (env : gmap string string) : script Z :=
  up ← tls_compose env ["up"; "-d"; "--wait"];
  _ ← modify (set_result up);
  if negb (up =? 0) then mret up
  else
    _ ← modify (set_result 1);
    let u := set_host_port "127.0.0.1" port (url config) in
    _ ← lift (load_test_config make_url str_lower
                (<["TEST_DATABASE_URL" := render u]> (<["TEST_MYSQL_PORT" := raw]> (values config))) env_test);
    let child :=
      <["QUICKAPI_TEST_RUN" := "true"]> (<["QUICKAPI_TEST_TLS" := "true"]> (<["TEST_MYSQL_PORT" := raw]>
        (<["TEST_DATABASE_URL" := render u]> (<["TEST_TLS_CA_FILE" := path +:+ "/ca.pem"]>
          (<["TEST_TLS_UNTRUSTED_CA_FILE" := path +:+ "/untrusted-ca.pem"]> env))))) in
    tested ← status (RunTests tls_test child); _ ← modify (set_result tested); mret tested.

(** [path] is the fresh temporary directory. *)
Definition run_tls (config : TestDatabaseConfig) (path : string) : script Z :=
  let raw := default "3312"%string (values config !! "TEST_TLS_PORT") in
  match (if negb (String.eqb raw "") && str_all is_digit raw then parse_int raw else refuse "port") with
  | Ok port =>
      if (1 <=? port) && (port <=? 65535) then
        _ ← perform (Certificates path);
        os_environ ← get environ;
        let env := <["TEST_TLS_PORT" := raw]> (<["TEST_TLS_DIR" := path]> (values config ∪ os_environ)) in
        _ ← modify (set_result 1);
        finally (tls_body config raw port path env) (tls_cleanup env)
      else lift (refuse "TEST_TLS_PORT must be a whole port number from 1 through 65535.")
  | Err _ => lift (refuse "TEST_TLS_PORT must be a whole port number from 1 through 65535.")
  end.

Definition dispatch (config : TestDatabaseConfig) (path : string) (a : args) : script Z :=
  match arg_action a with
  | Tls => run_tls config path
  | Up => compose config ["up"; "-d"; "--wait"; "mysql-test"]
  | Down => compose config ["down"; "--volumes"]
  | Logs => compose config ["logs"; "--no-color"; "--tail"; "100"; "mysql-test"]
  | Migration m =>
      _ ← run_migration config m (arg_revision a) (default EmptyString (arg_message a)); mret 0
  | Test_ =>
      _ ← modify (set_result 1);
      finally (test_body config (arg_layer a)) (test_cleanup config (keep_db a))
  end.

(** [main], which the command line may refuse; logs are read without the lock. *)
Definition main (path : string) (a : args) : script Z :=
  if match arg_action a with Migration Revision => String.eqb (default EmptyString (arg_message a)) "" | _ => false end
  then mret 2
  else
    os_environ ← get environ;
    config ← lift (load_test_config make_url str_lower os_environ env_test);
    match arg_action a with
    | Logs => dispatch config path a
    | _ => locked (dispatch config path a)
    end.

(** The exit status: what [main] returned, or 1 for an [Exception]. *)
Definition exit_status (r : py Z) : option Z :=
  match r with
  | Ok z => Some z
  | Err e => if is_Exception e then Some 1 else None
  end.
End scripts.

(** ** What an accepted configuration is *)
Definition is_disposable (make_url : string → option URL) (str_lower : string → string) (c : TestDatabaseConfig) : Prop :=
  is_disposable_name (database c) = true ∧ user c = TEST_USER
  ∧ (values c !! "TEST_DATABASE_URL" ≫= make_url) = Some (url c)
  ∧ url_database (url c) = Some (database c) ∧ url_username (url c) = Some TEST_USER
  ∧ drivername (url c) = "mysql+asyncmy" ∧ url_query (url c) = []
  ∧ str_lower (default EmptyString (url_host (url c))) ∈ allowed_hosts str_lower (values c)
  ∧ values c !! "ENV" = Some "test" ∧ values c !! "TEST_DB_ENABLED" = Some "true".

Lemma load_test_config_Ok make_url str_lower source file c :
  load_test_config make_url str_lower source file = Ok c → is_disposable make_url str_lower c.
Proof.
  unfold load_test_config. destruct (negb (String.eqb _ _)); [done|].
  set (m := merged_values source file).
  destruct (bool_decide (m !! "ENV" = _)) eqn:He; [|done].
  destruct (bool_decide (m !! "TEST_DB_ENABLED" = _)) eqn:Hn; [|done]. cbn [andb negb].
  destruct (is_disposable_name _) eqn:Hd; [|done]. cbn [negb].
  destruct (String.eqb_spec (value "TEST_DB_USER" m) TEST_USER) as [Hu|]; [|done]. cbn [negb].
  destruct (m !! "TEST_DATABASE_URL" ≫= make_url) as [u|] eqn:Hurl; [|done].
  destruct (m !! "TEST_MYSQL_PORT" ≫= port_of) as [port|]; [|done].
  destruct (negb _ || negb _) eqn:Hv; [done|]. intros [= <-].
  apply orb_false_iff in Hv as [Hm Hh]. apply negb_false_iff in Hm, Hh. apply bool_decide_eq_true in Hh, He, Hn.
  unfold matches_target in Hm. rewrite !andb_true_iff, !bool_decide_eq_true, String.eqb_eq in Hm.
  destruct Hm as (((((((Hdr & Hdb) & Hus) & _) & _) & _) & _) & Hq).
  unfold is_disposable. cbn. rewrite <-Hu at 2. repeat split; done.
Qed.

(** ** Destructive statements are guarded *)
Definition destructive (a : action) : bool :=
  match a with DeleteRows _ | Alembic _ _ _ => true | _ => false end.

(** Every destructive statement comes after the server named the test database and user; with
    [locked], also after it granted the lock. *)
Definition guarded (locked : bool) (config : TestDatabaseConfig) (t : trace action answer) : Prop :=
  ∀ t1 a r t2, t = t1 ++ (a, r) :: t2 → destructive a = true →
    (∃ d u, (SelectIdentity, Ok (Identity d u)) ∈ t1 ∧ is_target config d u = true)
    ∧ (locked = true → (GetLock, Ok (Lock (Some 1))) ∈ t1).

Lemma guarded_app locked config t1 t2 : guarded locked config t1 → guarded locked config t2 → guarded locked config (t1 ++ t2).
Proof.
  intros H1 H2 u1 a r u2 He Ha. apply app_eq_inv in He as [(k & -> & He)|(k & -> & ->)].
  - destruct k as [|x k]; cbn in He.
    + destruct (H2 [] a r u2 (eq_sym He) Ha) as [(d & u & Hin & _) _]. set_solver.
    + injection He as <- He. by apply (H1 u1 a r k).
  - destruct (H2 k a r u2 eq_refl Ha) as [(d & u & Hin & ?) Hl]. split; [exists d, u; set_solver|set_solver].
Qed.

Lemma guarded_harmless locked config t : Forall (λ x, destructive x.1 = false) t → guarded locked config t.
Proof.
  intros Hf t1 a r t2 -> Ha. apply Forall_app in Hf as [_ Hf]. apply Forall_cons in Hf as [Hf _]. cbn in Hf. congruence.
Qed.

Lemma guarded_after locked config pre t :
  guarded locked config pre →
  (∃ d u, (SelectIdentity, Ok (Identity d u)) ∈ pre ∧ is_target config d u = true) →
  (locked = true → (GetLock, Ok (Lock (Some 1))) ∈ pre) → guarded locked config (pre ++ t).
Proof.
  intros Hpre (d & u & Hin & Ht) Hl t1 a r t2 He Ha. apply app_eq_inv in He as [(k & -> & He)|(k & -> & ->)].
  - destruct k as [|x k]; cbn in He; [rewrite app_nil_r in *; eauto 10|]. injection He as <- He.
    by apply (Hpre t1 a r k).
  - split; [exists d, u; set_solver|set_solver].
Qed.

Section guarded.
Context (respond : trace action answer → action → py answer) (config : TestDatabaseConfig) (locked : bool).

Definition harmless (a : action) : Prop := destructive a = false.
Definition guards {A} (p : E state action answer A) : Prop :=
  ∀ s h, post p (λ _ _ t, guarded locked config t) s h.

Lemma guards_only {A} (p : E state action answer A) : only harmless p → guards p.
Proof. intros Hp s h. eapply post_mono; [apply Hp|]. intros r s' t Ht. by apply guarded_harmless. Qed.

Lemma guards_bind {A B} (p : E state action answer A) (f : A → E state action answer B) :
  guards p → (∀ a, guards (f a)) → guards (p ≫= f).
Proof.
  intros Hp Hf s h. apply post_bind. eapply post_mono; [apply Hp|]. intros [a|e] s1 t1 H1; [|done].
  eapply post_mono; [apply Hf|]. intros r s2 t2 H2. by apply guarded_app.
Qed.

Lemma guards_finally {A} (p : E state action answer A) q : guards p → guards q → guards (finally p q).
Proof.
  intros Hp Hq s h. apply post_finally. eapply post_mono; [apply Hp|]. intros r s1 t1 H1.
  eapply post_mono; [apply Hq|]. intros r' s2 t2 H2. by apply guarded_app.
Qed.

Lemma guards_if {A} (b : bool) (p q : E state action answer A) : guards p → guards q → guards (if b then p else q).
Proof. by destruct b. Qed.

Lemma only_perform a : harmless a → only harmless (perform respond a).
Proof. apply only_act. Qed.
Lemma only_perform_ a : harmless a → only harmless (perform_ respond a).
Proof. intros Ha. apply only_bind; [by apply only_perform|intros; apply only_ret]. Qed.
Lemma only_status a : harmless a → only harmless (status respond a).
Proof. intros Ha. apply only_bind; [by apply only_perform|intros []; auto with quickapi]. Qed.

Lemma assert_identity_post msg s h :
  post (assert_identity respond config msg)
    (λ r _ t, Forall (λ x, harmless x.1) t
              ∧ (r = Ok tt → ∃ d u, (SelectIdentity, Ok (Identity d u)) ∈ t ∧ is_target config d u = true)) s h.
Proof.
  unfold post, assert_identity, identity, perform, act, mbind, E_bind.
  destruct (respond h SelectIdentity) as [[| |d u|]|e]; cbn; try (split; [by constructor|done]).
  destruct (is_target config d u) eqn:Ht; cbn; (split; [by constructor|]); [|done].
  intros _. exists d, u. split; [by left|done].
Qed.

Lemma lock_answer_post s h :
  post (lock_answer respond)
    (λ r _ t, Forall (λ x, harmless x.1) t ∧ (∀ z, r = Ok z → (GetLock, Ok (Lock z)) ∈ t)) s h.
Proof.
  unfold post, lock_answer, perform, act, mbind, E_bind.
  destruct (respond h GetLock) as [[| | |z]|e]; cbn; try (split; [by constructor|done]).
  split; [by constructor|]. intros z' [= <-]. by left.
Qed.
End guarded.

#[export] Hint Resolve guards_bind guards_finally guards_if only_perform only_perform_ only_status : quickapi.
#[export] Hint Extern 1 (harmless _) => reflexivity : quickapi.
#[export] Hint Extern 3 (guards _ _ _) => apply guards_only : quickapi.

(** Whatever runs under the guarded connection is guarded. *)
Lemma guarded_connection_guards respond config engine_url {A} (body : E state action answer A) :
  guards config true (guarded_connection respond engine_url config body).
Proof.
  unfold guarded_connection. apply guards_bind.
  { apply guards_only. unfold assert_test_engine. auto with quickapi. }
  intros _. apply guards_bind; [auto with quickapi|]. intros _. apply guards_finally; [|auto with quickapi].
  intros s h. apply post_bind. eapply post_mono; [apply assert_identity_post|].
  intros [[]|e] s1 t1 [H1 Hid]; [|by apply guarded_harmless].
  apply post_bind. eapply post_mono; [apply lock_answer_post|].
  intros [z|e] s2 t2 [H2 Hlock]; [|apply guarded_harmless; by apply Forall_app].
  apply post_bind. eapply post_mono; [apply (only_perform respond CommitTx eq_refl)|].
  intros [w|e] s3 t3 H3; [|apply guarded_harmless; rewrite !Forall_app; auto].
  case_bool_decide as Hz.
  - eapply post_mono; [apply post_True|]. intros r s4 t4 _. rewrite !app_assoc. apply guarded_after.
    + apply guarded_harmless. rewrite !Forall_app. auto.
    + destruct (Hid eq_refl) as (d & u & Hin & Ht). exists d, u. split; [|done]. set_solver.
    + intros _. specialize (Hlock _ eq_refl). subst z. set_solver.
  - apply post_lift. rewrite app_nil_r. apply guarded_harmless. rewrite !Forall_app. auto.
Qed.

Lemma migration_guards respond render config a revision message :
  guards config true (migration respond render config a revision message).
Proof.
  unfold migration, update_environ. apply guards_bind; [auto with quickapi|]. intros _.
  apply guards_bind; [auto with quickapi|]. intros _.
  apply guards_finally; [apply guarded_connection_guards|auto with quickapi].
Qed.

Lemma run_migration_guards respond render config a revision message :
  guards config true (run_migration respond render config a revision message).
Proof.
  unfold run_migration, update_environ. apply guards_bind; [auto with quickapi|]. intros _. apply migration_guards.
Qed.

Lemma compose_guards respond config arguments : guards config true (compose respond config arguments).
Proof. unfold compose. auto with quickapi. Qed.

Lemma dispatch_guards respond make_url str_lower render env_test executable config path a :
  guards config true (dispatch respond make_url str_lower render env_test executable config path a).
Proof.
  unfold dispatch. destruct (arg_action a) as [| | |m| |]; try apply compose_guards.
  - apply guards_bind; [apply run_migration_guards|auto with quickapi].
  - apply guards_bind; [auto with quickapi|]. intros _. apply guards_finally.
    + unfold test_body. apply guards_bind; [apply compose_guards|]. intros up. apply guards_bind; [auto with quickapi|].
      intros _. apply guards_if; [auto with quickapi|]. apply guards_bind; [auto with quickapi|]. intros _.
      apply guards_bind; [apply run_migration_guards|]. intros _. auto 12 with quickapi.
    + unfold test_cleanup, compose. apply guards_only. auto 12 with quickapi.
  - unfold run_tls. apply guards_only. case_match; [|auto with quickapi].
    unfold tls_body, tls_cleanup, tls_compose. auto 20 with quickapi.
Qed.

Lemma locked_guards respond config {A} (body : E state action answer A) :
  guards config true body → guards config true (locked respond body).
Proof.
  intros Hb. unfold locked, command_lock. apply guards_bind; [auto with quickapi|]. intros _.
  apply guards_bind; [|intros _; apply guards_finally; [done|auto with quickapi]].
  apply guards_only, only_relabel. auto with quickapi.
Qed.

Lemma clear_application_rows_post respond config engine_url s h :
  post (clear_application_rows respond engine_url config)
    (λ _ _ t, guarded false config t ∧ (t ≠ [] → engine_url = url config)) s h.
Proof.
  unfold clear_application_rows, assert_test_engine. apply post_bind. case_bool_decide as Hu;
    [|apply post_lift; split; [apply guarded_harmless; constructor|done]].
  apply post_ret. apply post_bind. eapply post_mono; [apply assert_identity_post|].
  intros [[]|e] s1 t1 [H1 Hid]; [|split; [by apply guarded_harmless|done]].
  eapply post_mono; [apply post_True|]. intros r s2 t2 _. split; [|done]. cbn. apply guarded_after.
  - by apply guarded_harmless.
  - by apply Hid.
  - done.
Qed.

(** Only the disposable database is changed: whatever the server, Docker and the tests
    answer, a command of [test_db] does nothing at all or runs with a configuration that names the
    disposable database and its dedicated user, and every migration it runs comes after the server
    itself named that database and user and granted the lock; the fixtures delete rows only
    through the engine of that configuration, after the server named that database and user. *)
Theorem only_the_disposable_database_is_changed respond make_url str_lower render env_test executable :
  (∀ path a s h,
     post (main respond make_url str_lower render env_test executable path a)
       (λ _ _ t, t = [] ∨ ∃ config, load_test_config make_url str_lower (environ s) env_test = Ok config
                            ∧ is_disposable make_url str_lower config ∧ guarded true config t) s h)
  ∧ (∀ source file config engine_url s h,
       load_test_config make_url str_lower source file = Ok config →
       post (clear_application_rows respond engine_url config)
         (λ _ _ t, is_disposable make_url str_lower config ∧ guarded false config t
                   ∧ (t ≠ [] → engine_url = url config)) s h).
Proof.
  split.
  - intros path a s h. unfold main. destruct (match arg_action a with Migration Revision => _ | _ => _ end).
    { by left. }
    apply post_bind, post_get, post_bind, post_lift.
    destruct (load_test_config _ _ _ _) as [config|e] eqn:Hc; [|by left].
    assert (guards config true (match arg_action a with
      | Logs => dispatch respond make_url str_lower render env_test executable config path a
      | _ => locked respond (dispatch respond make_url str_lower render env_test executable config path a)
      end)) as Hg.
    { pose proof (dispatch_guards respond make_url str_lower render env_test executable config path a) as Hd.
      assert (guards config true (locked respond (dispatch respond make_url str_lower render env_test executable config path a)))
        by (by apply locked_guards). by destruct (arg_action a). }
    eapply post_mono; [apply Hg|]. intros r s' t Ht. right. exists config. split; [done|].
    split; [by eapply load_test_config_Ok|done].
  - intros source file config engine_url s h Hc. eapply post_mono; [apply clear_application_rows_post|].
    intros r s' t [Hg He]. split; [by eapply load_test_config_Ok|done].
Qed.

(** ** When the test command succeeds *)
Lemma status_post respond a s h :
  post (status respond a) (λ r s' t, s' = s ∧ ∀ z, r = Ok z → (a, Ok (Status z)) ∈ t) s h.
Proof.
  unfold post, status, perform, act, mbind, E_bind. destruct (respond h a) as [[|z| |]|e]; cbn; try done.
  split; [done|]. intros z' [= <-]. by left.
Qed.

Lemma compose_post respond config arguments s h :
  post (compose respond config arguments)
    (λ r s' t, s' = s ∧ ∀ z, r = Ok z → ∃ env, (Compose "quickapi-fastapi-test" arguments env, Ok (Status z)) ∈ t) s h.
Proof.
  unfold compose. apply post_bind, post_get. eapply post_mono; [apply status_post|]. intros r s' t [-> Hz].
  split; [done|]. intros z Hr. eexists. apply Hz, Hr.
Qed.

Lemma run_migration_includes respond render config a revision message :
  includes (λ x, x.1 = Alembic a revision message ∧ is_ok x.2 = true) (run_migration respond render config a revision message).
Proof.
  unfold run_migration, migration. do 3 (apply includes_then; intros _). apply includes_finally.
  unfold guarded_connection. do 2 (apply includes_then; intros _). apply includes_finally.
  do 3 (apply includes_then; intros ?). case_bool_decide; [|by intros s h].
  apply includes_finally, includes_first. by apply includes_act.
Qed.

(** The tests were collected and passed against the configured database, migrated to the head. *)
Definition tests_passed (config : TestDatabaseConfig) (render : URL → string) (executable : string) (l : layer)
    (t : trace action answer) : Prop :=
  (∃ env, (Compose "quickapi-fastapi-test" ["up"; "-d"; "--wait"; "mysql-test"] env, Ok (Status 0)) ∈ t)
  ∧ (∃ x, (Alembic Migrate "head" "", Ok x) ∈ t)
  ∧ ∃ env, env !! "DATABASE_URL" = Some (render (url config))
      ∧ (Collect (pytest_command executable l ++ ["--collect-only"; "--no-cov"; "-q"]) env, Ok (Status 0)) ∈ t
      ∧ (RunTests (pytest_command executable l ++ ["-q"]) env, Ok (Status 0)) ∈ t.

Lemma command_environment_url render config m :
  command_environment render config m !! "DATABASE_URL" = Some (render (url config)).
Proof. unfold command_environment. do 4 (rewrite lookup_insert_ne; [|done]). by rewrite lookup_insert_eq. Qed.

Lemma test_body_post respond render executable config l s h :
  post (test_body respond render executable config l)
    (λ r s' t, ∀ z, r = Ok z → result s' = z ∧ (z = 0 → tests_passed config render executable l t)) s h.
Proof.
  unfold test_body. apply post_bind. eapply post_mono; [apply compose_post|].
  intros [up|e] s1 t1 [-> H1]; [|done]. apply post_bind, post_modify.
  destruct (Z.eqb_spec up 0) as [->|Hup]; cbn [negb].
  2:{ apply post_ret. intros z [= <-]. done. }
  apply post_bind, post_modify, post_bind. eapply post_mono; [apply run_migration_includes|].
  intros [[]|e] s2 t2 H2; [|done]. apply post_bind, post_get.
  set (env := command_environment _ _ _). apply post_bind. eapply post_mono; [apply status_post|].
  intros [collected|e] s3 t3 [-> H3]; [|done]. apply post_bind, post_modify.
  destruct (Z.eqb_spec collected 0) as [->|Hc]; [|apply post_ret; intros z [= <-]; done].
  apply post_bind. eapply post_mono; [apply status_post|]. intros [tested|e] s4 t4 [-> H4]; [|done].
  apply post_bind, post_modify, post_ret. intros z [= <-]. split; [done|]. intros ->. cbn. split; [|split].
  - destruct (H1 0 eq_refl) as [env' ?]. exists env'. set_solver.
  - apply Exists_exists in H2 as ([a [x|e]] & Hin & Ha & Hx); [|done..]. cbn in Ha. subst. exists x. set_solver.
  - exists env. split; [apply command_environment_url|]. specialize (H3 0 eq_refl). specialize (H4 0 eq_refl). set_solver.
Qed.

Lemma test_cleanup_post respond config keep s h :
  post (test_cleanup respond config keep)
    (λ r _ t, r = Ok tt → result s = 0 → keep = false →
       ∃ env, (Compose "quickapi-fastapi-test" ["down"; "--volumes"] env, Ok (Status 0)) ∈ t) s h.
Proof.
  unfold test_cleanup. apply post_bind, post_get, post_bind.
  destruct (Z.eqb_spec (result s) 0) as [Hr|Hr]; [|eapply post_mono; [apply post_True|]; intros [z|e] s1 t1 _; [|done];
    eapply post_mono; [apply post_True|]; done].
  apply post_ret. destruct keep; [by apply post_ret|]. apply post_bind. eapply post_mono; [apply compose_post|].
  intros [cleanup|e] s1 t1 [-> H1]; [|done]. destruct (Z.eqb_spec cleanup 0) as [->|]; cbn [negb andb]; [|by rewrite Hr].
  apply post_ret. intros _ _ _. destruct (H1 0 eq_refl) as [env ?]. exists env. set_solver.
Qed.

(** The test command succeeds only when everything it ran did: the database came up, the
    migrations ran, the tests were collected and passed against the configured database, and,
    unless it is kept, the database was removed. *)
Theorem test_command_succeeds_only_then respond make_url str_lower render env_test executable config path a s h :
  arg_action a = Test_ →
  post (dispatch respond make_url str_lower render env_test executable config path a)
    (λ r _ t, r = Ok 0 → tests_passed config render executable (arg_layer a) t
       ∧ (keep_db a = false → ∃ env, (Compose "quickapi-fastapi-test" ["down"; "--volumes"] env, Ok (Status 0)) ∈ t)) s h.
Proof.
  intros Ha. unfold dispatch. rewrite Ha. apply post_bind, post_modify, post_finally.
  eapply post_mono; [apply test_body_post|]. intros r s1 t1 H1. eapply post_mono; [apply test_cleanup_post|].
  intros [[]|e] s2 t2 H2 Hr; [|done]. subst r. destruct (H1 0 eq_refl) as [Hz Hp]. specialize (Hp eq_refl).
  unfold tests_passed in *. split; [|intros Hk; destruct (H2 eq_refl Hz Hk) as [env ?]; exists env; set_solver].
  destruct Hp as ((e1 & ?) & (x & ?) & e2 & ? & ? & ?). split; [exists e1; set_solver|].
  split; [exists x; set_solver|]. exists e2. set_solver.
Qed.

(** ** Examples *)
Definition demo_url : URL :=
  mkURL "mysql+asyncmy" (Some TEST_USER) (Some "secret") (Some "localhost") (Some 3311) (Some disposable) [].
Definition demo_environ : gmap string string :=
  {[ "ENV" := "test"; "TEST_DB_ENABLED" := "true"; "TEST_DB_DATABASE" := disposable; "TEST_DB_USER" := TEST_USER;
     "TEST_DB_PASSWORD" := "secret"; "TEST_DATABASE_URL" := "url"; "TEST_MYSQL_PORT" := "3311" ]}.


(** The disposable target is accepted; the same on a database of another name, as root, without
    its switch, at another host or under xdist is not. *)
Example configurations :
  let load env u := load_test_config (λ _, Some u) lower env [] in
  is_ok (load demo_environ demo_url) = true
  ∧ forallb (λ env, negb (is_ok (load env demo_url)))
      [<["TEST_DB_DATABASE" := "quickapi_fastapi"]> demo_environ; <["TEST_DB_USER" := "root"]> demo_environ;
       <["TEST_DB_ENABLED" := "1"]> demo_environ; <["ENV" := "production"]> demo_environ;
       <["PYTEST_XDIST_WORKER" := "gw0"]> demo_environ; <["TEST_DB_PASSWORD" := ""]> demo_environ] = true
  ∧ is_ok (load demo_environ (set_host_port "db.example.com" 3311 demo_url)) = false
  ∧ is_ok (load (<["TEST_DB_ALLOWED_HOSTS" := "a, DB.example.com"]> demo_environ)
             (set_host_port "db.example.com" 3311 demo_url)) = true
  ∧ is_disposable_name "quickapi_fastapi_disposable_test_2" = true
  ∧ is_disposable_name "quickapi_fastapi_disposable_test_" = false.
Proof. vm_compute. repeat split. Qed.
