(* ===== verification/ContainerTests.v ===== *)
(** * Scripts that qualify images in containers

    What [scripts/test_image.py] and [scripts/test_rollback.py] share: Docker as the outside of
    [Effects], which answers a command by a status and its outputs, or by an exception; the
    artifacts they write; their variables.  The programs run inside the containers are
    texts, [programs]; the messages printed are left out. *)
From S2P Require Import Prelude PyText UnicodeText Json SecurityPolicy ReleaseSource ReleaseOci Effects TestDatabase.
Open Scope Z_scope.

Abbreviation environment := (gmap string string) (only parsing).

Inductive action :=
| Command (arguments : list string) (env : option environment)
| AppendLog (text : string)
| WriteLog (name text : string)
| WriteResult (record : object)
| OpenLock | LockFile | UnlockFile.
Inductive answer := Ran (returncode : Z) (stdout stderr : string) | Written.

Record programs := mkPrograms {
  RUNTIME_CHECKS : string;
  HTTP_CHECKS : string;
  RESTART_SEED : string;
  RESTART_CHECKS : string;
  RETAINED_IDENTITY : string;
  HEADS : string;
  CHECK_SCHEMA : string;
  ROLLBACK_WRITES : string;
  RECOVERY_WRITES : string
}.

(** The variables of [qualify]; a transition is an image and its container. *)
Record locals := mkLocals {
  record : object;
  env : environment;
  retained_logs : list string;
  transitions : list (string * string)
}.
Definition set_record (f : object → object) (s : locals) : locals :=
  mkLocals (f (record s)) (env s) (retained_logs s) (transitions s).
Definition set_env (m : environment) (s : locals) : locals :=
  mkLocals (record s) m (retained_logs s) (transitions s).
Definition add_log (l : string) (s : locals) : locals :=
  mkLocals (record s) (env s) (retained_logs s ++ [l]) (transitions s).
Definition add_transition (p : string * string) (s : locals) : locals :=
  mkLocals (record s) (env s) (retained_logs s) (transitions s ++ [p]).

Abbreviation script A := (E locals action answer A) (only parsing).

Section outside.
Context (respond : trace action answer → action → py answer).

Definition perform (a : action) : script answer := act respond a.
Definition perform_ (a : action) : script unit := _ ← perform a; mret tt.

Definition run (arguments : list string) (env : option environment) : script (Z * string * string) :=
  r ← perform (Command arguments env);
  match r with Ran z out err => mret (z, out, err) | Written => lift (Err (TypeError "process")) end.

Definition shut_down_cleanly (exit_code logs : string) : bool :=
  String.eqb exit_code "0" && contains "Application exited (code 0)" logs.

Definition locked {A} (body : script A) : script A :=
  command_lock (perform_ OpenLock) (perform_ LockFile) (perform_ UnlockFile) body.
End outside.
