(* ===== verification/RollbackTest.v ===== *)
(** * Rollback between retained images

    [scripts/test_rollback.py]: two immutable releases of one repository, with the same
    migration head and distinct sources, serve the same disposable database in turn. *)
From S2P Require Import Prelude PyText UnicodeText Json SecurityPolicy ReleaseSource ReleaseOci Effects TestDatabase ContainerTests.
Open Scope Z_scope.

Section rollback.
Context (respond : trace action answer → action → py answer).
Context (P : programs) (ROOT : string).
Context (os_environ : environment) (env_test : list (string * option string))
  (make_url : string → option URL) (str_lower : string → string) (render : URL → string).
(** [repr] of a tuple of texts, [str] of an exception and of a value, and the decimal digits
    beyond ASCII. *)
Context (repr : list string → string) (error_text : exn → string) (str_of : json → string)
  (other_digit : string → option Z).

Definition is_source (source : string) : bool :=
  starts_with "https://github.com/" source && is_repository (drop_str 19 source).

Definition repository (source : string) : string :=
  default "ghcr.io"%string (os_environ !! "REGISTRY") +:+ "/"
  +:+ str_lower (default (if starts_with "https://github.com/" source then drop_str 19 source else source)
                         (os_environ !! "IMAGE_REPOSITORY")).

Definition is_retained (source reference : string) : bool :=
  let pre := repository source +:+ "@" in
  starts_with pre reference && DIGEST (drop_str (String.length pre) reference).

Definition validate_references (current rollback source : string) : py unit :=
  if negb (is_source source) then Err (ValueError "Expected the release source repository URL.")
  else if negb (is_retained source current && is_retained source rollback)
  then Err (ValueError "Select immutable digests from this application release repository.")
  else if String.eqb current rollback
  then Err (ValueError "Rollback qualification requires two distinct retained images.")
  else Ok tt.

(** [docker]: every command is logged. *)
Definition docker_with (check : bool) (arguments : list string) (env : option environment) : script string :=
  '(returncode, out, err) ← run respond ("docker" :: arguments) env;
  _ ← perform respond (AppendLog (repr arguments +:+ nl +:+ err +:+ nl +:+ (if returncode =? 0 then EmptyString else out)));
  if check && negb (returncode =? 0)
  then lift (Err (RuntimeError ("Rollback command failed with exit " +:+ pretty returncode +:+ ".")))
  else mret (ustrip out).
Definition docker : list string → option environment → script string := docker_with true.

(** What [docker image inspect] tells of a retained image: its version and revision. *)
Definition read_image (out reference source : string) : py (string * string) :=
  v ← json_loads plain_hooks out; l ← sequence v;
  first ← match l with x :: _ => Ok x | [] => Err IndexError end;
  data ← mapping first;
  image_config ← mapping (Json.get "Config" data);
  labels ← mapping (Json.get "Labels" image_config);
  let version := str str_of (get_or "org.opencontainers.image.version" (JStr EmptyString) labels) in
  let revision := str str_of (get_or "org.opencontainers.image.revision" (JStr EmptyString) labels) in
  digests ← sequence (Json.get "RepoDigests" data);
  if negb (existsb (is_text reference) digests)
     || negb (is_text source (Json.get "org.opencontainers.image.source" labels))
     || negb (SHA revision) || negb (VERSION other_digit version)
     || negb (is_text "10001:10001" (Json.get "User" image_config))
  then Err (ValueError "Retained image identity, source, version or runtime user differs.")
  else Ok (version, revision).

Definition read_heads (out : string) : py string :=
  v ← json_loads plain_hooks out; heads ← sequence v;
  match heads with
  | [JStr head] => if String.eqb head "" then Err (ValueError "Each retained image must have one migration head.")
                   else Ok head
  | _ => Err (ValueError "Each retained image must have one migration head.")
  end.

Definition heads_command (reference : string) : list string :=
  ["run"; "--rm"; "--network"; "none"; "--read-only"; "--entrypoint"; "python"; reference; "-c"; HEADS P].

Record image := mkImage { version : string; revision : string; head : string }.

Definition inspect_image (source reference : string) : script image :=
  _ ← docker ["pull"; reference] None;
  out ← docker ["image"; "inspect"; reference] None;
  '(version, revision) ← lift (read_image out reference source);
  out ← docker (heads_command reference) None;
  head ← lift (read_heads out);
  mret (mkImage version revision head).

Definition image_json (i : image) : json :=
  JObj [("version", JStr (version i)); ("revision", JStr (revision i)); ("head", JStr (head i))].

Definition put (k : string) (v : json) : script unit := modify (set_record (assoc_set k v)).
Definition write_result : script unit := r ← get record; perform_ respond (WriteResult r).

(** Nothing touches a database before this returns. *)
Definition preflight (current rollback source : string) : script (image * image) :=
  _ ← lift (validate_references current rollback source);
  i ← inspect_image source current;
  j ← inspect_image source rollback;
  _ ← put "images" (JObj [(current, image_json i); (rollback, image_json j)]);
  if negb (String.eqb (head i) (head j))
  then lift (Err (ValueError "Image rollback requires exact schema-head equality; no database downgrade was attempted."))
  else if String.eqb (revision i) (revision j)
  then lift (Err (ValueError "Select releases from distinct source commits, not a same-source rebuild."))
  else mret (i, j).

Definition compose_command : list string :=
  ["compose"; "--env-file"; ROOT +:+ "/.env.test"; "-p"; "quickapi-fastapi-rollback";
   "-f"; ROOT +:+ "/docker-compose.rollback.yml"].

Definition compose (arguments : list string) : script string :=
  e ← get env; docker (compose_command ++ arguments) (Some e).

Definition stop : script string :=
  _ ← compose ["stop"; "--timeout"; "35"; "api"];
  identifier ← compose ["ps"; "-a"; "-q"; "api"];
  logs ← compose ["logs"; "--no-color"; "--tail"; "100"; "api"];
  _ ← modify (add_log logs);
  exit_code ← docker ["inspect"; "--format"; "{{.State.ExitCode}}"; identifier] None;
  if shut_down_cleanly exit_code logs then mret identifier
  else lift (Err (ValueError "API failed graceful shutdown during rollback exercise.")).

Definition start (current reference version mysql_id : string) : script string :=
  _ ← modify (λ s, set_env (<["ROLLBACK_APP_VERSION" := version]> (<["ROLLBACK_ACTIVE_IMAGE" := reference]> (env s))) s);
  _ ← compose ["run"; "--rm"; "--no-deps"; "--entrypoint"; "python"; "api"; "-c"; CHECK_SCHEMA P];
  _ ← compose ["up"; "-d"; "--wait"; "--no-deps"; "--force-recreate"; "api"];
  identifier ← compose ["ps"; "-q"; "api"];
  before ← get transitions;
  if String.eqb identifier "" || bool_decide (identifier ∈ before.*2)
  then lift (Err (ValueError "Image transition did not replace the API container."))
  else
    mysql ← compose ["ps"; "-q"; "mysql-rollback"];
    wrong ← (if negb (String.eqb mysql mysql_id) then mret true
             else image ← docker ["inspect"; "--format"; "{{.Config.Image}}"; identifier] None;
                  mret (negb (String.eqb image reference)));
    if wrong : bool then lift (Err (ValueError "Image transition changed MySQL or selected the wrong image."))
    else
      _ ← modify (add_transition (reference, identifier));
      _ ← compose ["exec"; "-T"; "api"; "python"; "-c";
                   if String.eqb reference current then RUNTIME_CHECKS P else RETAINED_IDENTITY P];
      mret identifier.

Definition transition_json (p : string * string) : json := JObj [("image", JStr p.1); ("container", JStr p.2)].

Definition exercise (current rollback : string) (i j : image) : script unit :=
  _ ← compose ["up"; "-d"; "--wait"; "mysql-rollback"];
  _ ← compose ["run"; "--rm"; "migrate"];
  mysql_id ← compose ["ps"; "-q"; "mysql-rollback"];
  if String.eqb mysql_id "" then lift (Err (ValueError "Missing disposable MySQL identity."))
  else
    _ ← start current current (version i) mysql_id;
    state ← compose ["exec"; "-T"; "api"; "python"; "-c"; RESTART_SEED P];
    _ ← stop;
    _ ← start current rollback (version j) mysql_id;
    state ← compose ["exec"; "-T"; "api"; "python"; "-c"; ROLLBACK_WRITES P; state];
    _ ← stop;
    _ ← start current current (version i) mysql_id;
    _ ← compose ["exec"; "-T"; "api"; "python"; "-c"; RECOVERY_WRITES P; state];
    _ ← stop;
    _ ← put "mysqlContainer" (JStr mysql_id);
    done ← get transitions;
    put "transitions" (JList (transition_json <$> done)).

Definition cleanup : script unit :=
  finally
    (e ← get env;
     logs ← docker_with false (compose_command ++ ["logs"; "--no-color"; "--tail"; "100"]) (Some e);
     _ ← modify (add_log logs);
     all ← get retained_logs;
     perform_ respond (WriteLog "mysql-api.log" (String.concat nl all)))
    (finally
       (reraise (_ ← compose ["down"; "--volumes"; "--remove-orphans"]; mret tt)
                (λ e, put "cleanupError" (JStr (error_text e))))
       write_result).

Definition exercise_environment (config : TestDatabaseConfig) (current : string) (i : image) : environment :=
  <["ROLLBACK_CURRENT_IMAGE" := current]> (<["ROLLBACK_ACTIVE_IMAGE" := current]>
    (<["ROLLBACK_APP_VERSION" := version i]>
      (<["ROLLBACK_DATABASE_URL" := render (set_host_port "mysql-rollback" 3306 (url config))]>
        (values config ∪ os_environ)))).

Definition qualify (current rollback source : string) : script unit :=
  _ ← modify (set_record (λ _, [("passed", JBool false); ("current", JStr current); ("rollback", JStr rollback);
                                ("source", JStr source)]));
  _ ← write_result;
  '(i, j) ← reraise (preflight current rollback source)
                    (λ e, _ ← put "error" (JStr (error_text e)); write_result);
  config ← lift (load_test_config make_url str_lower os_environ env_test);
  _ ← modify (set_env (exercise_environment config current i));
  _ ← finally (reraise (exercise current rollback i j) (λ e, put "error" (JStr (error_text e)))) cleanup;
  _ ← put "passed" (JBool true);
  write_result.

Definition main (current rollback source : string) : script Z :=
  _ ← locked respond (qualify current rollback source); mret 0.

(** ** What a qualification guarantees *)
Abbreviation events := (trace action answer) (only parsing).

(** The command ended with status 0 and this output. *)
Definition answered (arguments : list string) (out : string) (t : events) : Prop :=
  ∃ env raw err, (Command ("docker" :: arguments) env, Ok (Ran 0 raw err)) ∈ t ∧ out = ustrip raw.

Lemma answered_app arguments out t t1 t2 : answered arguments out t → answered arguments out (t1 ++ t ++ t2).
Proof. intros (e & raw & err & Hin & ->). exists e, raw, err. split; [set_solver|done]. Qed.

Definition touches_database (a : action) : bool :=
  match a with Command ("docker"%string :: "compose"%string :: _) _ => true | _ => false end.

Lemma docker_post check arguments env s h :
  post (docker_with check arguments env)
    (λ r s' t, s' = s ∧ (check = true → ∀ out, r = Ok out → answered arguments out t)
               ∧ Forall (λ x, x.1 = Command ("docker" :: arguments) env ∨ ∃ l, x.1 = AppendLog l) t
               ∧ ∃ x t', t = (Command ("docker" :: arguments) env, x) :: t') s h.
Proof.
  unfold post, docker_with, run, ContainerTests.perform, perform, act, mbind, E_bind.
  assert (∀ (e x : py answer) (l : list string), Forall (λ x, x.1 = Command ("docker" :: arguments) env ∨ ∃ l, x.1 = AppendLog l)
                          ((Command ("docker" :: arguments) env, e) :: ((λ l, (AppendLog l, x)) <$> l))) as Hf.
  { intros e x l. constructor; [by left|]. apply Forall_fmap, Forall_true. intros l'. right. by eexists. }
  destruct (respond h (Command _ env)) as [[z raw err|]|e]; cbn.
  2,3: split; [done|]; split; [done|]; split; [apply (Hf _ (Ok Written) [])|eauto].
  set (l := AppendLog _). destruct (respond _ l) as [x|e]; cbn.
  2:{ split; [done|]; split; [done|]; split; [apply (Hf _ _ [_])|eauto]. }
  destruct (check && negb (z =? 0)) eqn:Hz; cbn.
  { split; [done|]; split; [done|]; split; [apply (Hf _ _ [_])|eauto]. }
  split; [done|]; split; [|split; [apply (Hf _ _ [_])|eauto]].
  intros -> out [= <-]. destruct (Z.eqb_spec z 0) as [->|]; [|done]. exists env, raw, err. split; [by left|done].
Qed.

(** The image was inspected: identity, version, revision and its one migration head. *)
Definition inspected (source reference : string) (i : image) (t : events) : Prop :=
  ∃ out heads, answered ["image"; "inspect"; reference] out t
    ∧ read_image out reference source = Ok (version i, revision i)
    ∧ answered (heads_command reference) heads t ∧ read_heads heads = Ok (head i).

Lemma inspected_app source reference i t t1 t2 :
  inspected source reference i t → inspected source reference i (t1 ++ t ++ t2).
Proof. intros (out & heads & Ho & ? & Hh & ?). exists out, heads. auto using answered_app. Qed.

Lemma docker_ok arguments env (Q : py string → locals → events → Prop) s h :
  (∀ out t, answered arguments out t → Q (Ok out) s t) → (∀ e t, Q (Err e) s t) →
  post (docker arguments env) Q s h.
Proof.
  intros Hok Herr. eapply post_mono; [apply docker_post|]. intros [out|e] s' t (-> & Ha & _); [|apply Herr].
  apply Hok. by apply Ha.
Qed.

Lemma rollback_compose_ok arguments (Q : py string → locals → events → Prop) s h :
  (∀ out t, answered (compose_command ++ arguments) out t → Q (Ok out) s t) → (∀ e t, Q (Err e) s t) →
  post (compose arguments) Q s h.
Proof. intros Hok Herr. unfold compose. apply post_bind, post_get. by apply docker_ok. Qed.

Lemma inspect_image_post source reference s h :
  post (inspect_image source reference)
    (λ r s' t, s' = s ∧ ∀ i, r = Ok i → inspected source reference i t) s h.
Proof.
  unfold inspect_image. apply post_bind, docker_ok; [|done]. intros _ t1 _.
  apply post_bind, docker_ok; [|done]. intros out t2 Hout.
  apply post_bind, post_lift. destruct (read_image out reference source) as [[v r]|e] eqn:Hr; [|done].
  apply post_bind, docker_ok; [|done]. intros heads t3 Hheads.
  apply post_bind, post_lift. destruct (read_heads heads) as [hd|e] eqn:Hh; [|done].
  apply post_ret. split; [done|]. intros i [= <-]. exists out, heads. cbn. split; [|split; [done|split; [|done]]].
  - by apply (answered_app _ _ t2 t1).
  - rewrite app_assoc. by apply (answered_app _ _ t3).
Qed.

(** What must hold before any database is touched. *)
Definition ready (current rollback source : string) (t : events) : Prop :=
  validate_references current rollback source = Ok tt
  ∧ ∃ i j, inspected source current i t ∧ inspected source rollback j t
           ∧ head i = head j ∧ revision i ≠ revision j.

Lemma ready_app current rollback source t t1 t2 : ready current rollback source t → ready current rollback source (t1 ++ t ++ t2).
Proof. intros (? & i & j & ? & ? & ? & ?). split; [done|]. exists i, j. auto using inspected_app. Qed.

Lemma preflight_post current rollback source s h :
  post (preflight current rollback source)
    (λ r _ t, ∀ x, r = Ok x → ready current rollback source t) s h.
Proof.
  unfold preflight. apply post_bind, post_lift. destruct (validate_references _ _ _) as [[]|e] eqn:Hv; [|done].
  apply post_bind. eapply post_mono; [apply inspect_image_post|]. intros [i|e] s1 t1 [-> Hi]; [|done].
  apply post_bind. eapply post_mono; [apply inspect_image_post|]. intros [j|e] s2 t2 [-> Hj]; [|done].
  apply post_bind, post_modify. destruct (String.eqb_spec (head i) (head j)) as [Hh|]; cbn [negb]; [|by apply post_lift].
  destruct (String.eqb_spec (revision i) (revision j)) as [|Hr]; [by apply post_lift|].
  apply post_ret. intros x _. split; [done|]. exists i, j. cbn. split; [|split; [|done]].
  - by apply (inspected_app _ _ _ t1 []), Hi.
  - apply (inspected_app _ _ _ t2 t1), Hj. done.
Qed.

(** Before the exercise no command is one of [docker compose]. *)
Definition quiet (a : action) : Prop := touches_database a = false.

Lemma docker_quiet check arguments env :
  touches_database (Command ("docker" :: arguments) env) = false → only quiet (docker_with check arguments env).
Proof.
  intros Hq s h. eapply post_mono; [apply docker_post|]. intros r s' t (_ & _ & Hf & _).
  eapply Forall_impl; [exact Hf|]. intros x [->|[l ->]]; done.
Qed.

Lemma preflight_quiet current rollback source : only quiet (preflight current rollback source).
Proof.
  assert (∀ r, only quiet (inspect_image source r)) as Hi.
  { intros r. unfold inspect_image. apply only_bind; [by apply docker_quiet|intros _].
    apply only_bind; [by apply docker_quiet|intros out]. apply only_bind; [apply only_lift|intros [v w]].
    apply only_bind; [by apply docker_quiet|intros heads]. auto with quickapi. }
  unfold preflight, put. auto 12 with quickapi.
Qed.

(** ** The exercise *)
(** The container runs the image. *)
Definition serves (reference identifier : string) (t : events) : Prop :=
  answered ["inspect"; "--format"; "{{.Config.Image}}"; identifier] reference t.

Lemma start_post current reference version mysql_id s h :
  post (start current reference version mysql_id)
    (λ r s' t, ∀ c, r = Ok c →
       transitions s' = transitions s ++ [(reference, c)] ∧ c ∉ (transitions s).*2 ∧ serves reference c t) s h.
Proof.
  unfold start. apply post_bind, post_modify.
  apply post_bind, rollback_compose_ok; [|done]. intros _ t1 _. apply post_bind, rollback_compose_ok; [|done]. intros _ t2 _.
  apply post_bind, rollback_compose_ok; [|done]. intros identifier t3 _. apply post_bind, post_get. cbn [transitions set_env].
  destruct (String.eqb identifier "" || bool_decide _) eqn:Hi; [by apply post_lift|].
  apply orb_false_iff in Hi as [_ Hi]. apply bool_decide_eq_false in Hi.
  apply post_bind, rollback_compose_ok; [|done]. intros mysql t4 _. apply post_bind.
  destruct (negb (String.eqb mysql mysql_id)); [by apply post_ret, post_lift|].
  apply post_bind, docker_ok; [|done]. intros img t5 Himg. apply post_ret. rewrite app_nil_r.
  destruct (String.eqb_spec img reference) as [->|]; cbn [negb]; [|by apply post_lift].
  apply post_bind, post_modify. apply post_bind, rollback_compose_ok; [|done]. intros _ t6 _. apply post_ret.
  intros c [= <-]. split; [done|]. split; [done|]. unfold serves.
  assert (answered ["inspect"; "--format"; "{{.Config.Image}}"; identifier] reference ((t1 ++ t2 ++ t3 ++ t4) ++ t5 ++ t6 ++ [])) as Ha
    by (by apply answered_app). by rewrite <-!app_assoc in *.
Qed.

Lemma stop_post s h : post stop (λ _ s' _, transitions s' = transitions s) s h.
Proof.
  unfold stop. do 3 (apply post_bind, rollback_compose_ok; [intros ? ? _|done]). apply post_bind, post_modify.
  apply post_bind, docker_ok; [intros code ? _|done]. by destruct (shut_down_cleanly _ _).
Qed.

(** The two images served in turn, each from a container of its own, the first one again last. *)
Definition exercised (current rollback : string) (t : events) : Prop :=
  ∃ c1 c2 c3, NoDup [c1; c2; c3] ∧ serves current c1 t ∧ serves rollback c2 t ∧ serves current c3 t.

Lemma exercised_app current rollback t t1 t2 : exercised current rollback t → exercised current rollback (t1 ++ t ++ t2).
Proof. intros (c1 & c2 & c3 & ? & ? & ? & ?). exists c1, c2, c3. unfold serves in *. auto 6 using answered_app. Qed.

Lemma serves_in reference c t t' : t ⊆ t' → serves reference c t → serves reference c t'.
Proof. intros Hs (e & raw & err & Hin & ->). exists e, raw, err. split; [by apply Hs|done]. Qed.

Lemma rollback_exercise_post current rollback i j s h :
  transitions s = [] →
  post (exercise current rollback i j) (λ r _ t, r = Ok tt → exercised current rollback t) s h.
Proof.
  intros H0. unfold exercise. do 2 (apply post_bind, rollback_compose_ok; [intros ? ? _|done]).
  apply post_bind, rollback_compose_ok; [intros mysql_id tm _|done]. destruct (String.eqb mysql_id ""); [by apply post_lift|].
  apply post_bind. eapply post_mono; [apply start_post|]. intros [c1|e] s1 t1 H1; [|done].
  destruct (H1 c1 eq_refl) as (Ht1 & _ & Hc1). rewrite H0 in Ht1.
  apply post_bind, rollback_compose_ok; [intros state t2 _|done].
  apply post_bind. eapply post_mono; [apply stop_post|]. intros [x|e] s2 t3 Ht2; [|done]. rewrite Ht1 in Ht2.
  apply post_bind. eapply post_mono; [apply start_post|]. intros [c2|e] s3 t4 H2; [|done].
  destruct (H2 c2 eq_refl) as (Ht3 & Hn2 & Hc2). rewrite Ht2 in Ht3, Hn2.
  apply post_bind, rollback_compose_ok; [intros state' t5 _|done].
  apply post_bind. eapply post_mono; [apply stop_post|]. intros [y|e] s4 t6 Ht4; [|done]. rewrite Ht3 in Ht4.
  apply post_bind. eapply post_mono; [apply start_post|]. intros [c3|e] s5 t7 H3; [|done].
  destruct (H3 c3 eq_refl) as (Ht5 & Hn3 & Hc3). rewrite Ht4 in Hn3.
  eapply post_mono; [apply post_True|]. intros r s6 t8 _ _. exists c1, c2, c3. split; [|split; [|split]].
  - cbn in Hn2, Hn3. repeat constructor; set_solver.
  - eapply serves_in; [|exact Hc1]. set_solver.
  - eapply serves_in; [|exact Hc2]. set_solver.
  - eapply serves_in; [|exact Hc3]. set_solver.
Qed.

Definition down_command : list string := "docker" :: compose_command ++ ["down"; "--volumes"; "--remove-orphans"].

(** The cleanup always asks for the containers and volumes to be removed. *)
Lemma rollback_cleanup_removes s h : post cleanup (λ _ _ t, ∃ env x, (Command down_command env, x) ∈ t) s h.
Proof.
  unfold cleanup. apply post_finally. eapply post_mono; [apply post_True|]. intros r s1 t1 _.
  apply post_finally, post_reraise, post_bind.
  unfold compose. apply post_bind, post_get. eapply post_mono; [apply docker_post|].
  intros [out|e] s2 t2 (_ & _ & _ & x & t' & ->).
  - apply post_ret. eapply post_mono; [apply post_True|]. intros r' s3 t3 _. exists (Some (env s1)), x. unfold down_command. set_solver.
  - destruct (is_Exception e).
    + apply post_modify. eapply post_mono; [apply post_True|]. intros r' s3 t3 _. exists (Some (env s1)), x. unfold down_command. set_solver.
    + eapply post_mono; [apply post_True|]. intros r' s3 t3 _. exists (Some (env s1)), x. unfold down_command. set_solver.
Qed.

(** ** The result stays unpassed until the end *)
Definition unpassed (s : locals) : Prop := assoc_get "passed" (record s) = Some (JBool false).
Definition records_unpassed (a : action) : Prop :=
  match a with WriteResult r => assoc_get "passed" r = Some (JBool false) | _ => True end.
Abbreviation keeps_unpassed p := (maintains unpassed records_unpassed p) (only parsing).

Lemma docker_unpassed I check arguments env : maintains I records_unpassed (docker_with check arguments env).
Proof.
  intros s h Hs. eapply post_mono; [apply docker_post|]. intros r s' t (-> & _ & Hf & _). split; [done|].
  eapply Forall_impl; [exact Hf|]. intros x [->|[l ->]]; done.
Qed.
Lemma compose_unpassed I arguments : maintains I records_unpassed (compose arguments).
Proof. unfold compose. apply maintains_bind; [apply maintains_get|intros; apply docker_unpassed]. Qed.
Lemma put_unpassed k v : k ≠ "passed" → keeps_unpassed (put k v).
Proof. intros Hk. apply maintains_modify. intros s Hs. unfold unpassed. cbn. by rewrite assoc_get_set_ne. Qed.
Lemma write_result_unpassed : keeps_unpassed write_result.
Proof.
  intros s h Hs. apply post_bind, post_get. cbn [app]. rewrite app_nil_r.
  apply (maintains_bind unpassed records_unpassed (ContainerTests.perform respond _)); [by apply maintains_act|auto with quickapi|done].
Qed.

#[local] Hint Resolve docker_unpassed compose_unpassed write_result_unpassed : quickapi.
#[local] Hint Extern 1 (maintains _ _ (docker _ _)) => apply docker_unpassed : quickapi.
#[local] Hint Extern 1 (maintains _ _ (modify _)) => (apply maintains_modify; intros ? Hs; exact Hs) : quickapi.
#[local] Hint Extern 1 (maintains _ _ (put _ _)) => (apply put_unpassed; discriminate) : quickapi.

(** Before the exercise there is no transition either. *)
Definition fresh (s : locals) : Prop := unpassed s ∧ transitions s = [].
Lemma put_fresh k v : k ≠ "passed" → maintains fresh records_unpassed (put k v).
Proof. intros Hk. apply maintains_modify. intros s [Hs Ht]. split; [|done]. unfold unpassed. cbn. by rewrite assoc_get_set_ne. Qed.
#[local] Hint Extern 1 (maintains fresh _ (put _ _)) => (apply put_fresh; discriminate) : quickapi.

Lemma preflight_fresh current rollback source : maintains fresh records_unpassed (preflight current rollback source).
Proof.
  assert (∀ r, maintains fresh records_unpassed (inspect_image source r)) as Hi.
  { intros r. unfold inspect_image. do 2 (apply maintains_bind; [apply docker_unpassed|intros ?]).
    apply maintains_bind; [apply maintains_lift|intros [v w]]. apply maintains_bind; [apply docker_unpassed|intros ?].
    auto with quickapi. }
  unfold preflight. auto 12 with quickapi.
Qed.

Lemma stop_unpassed : keeps_unpassed stop.
Proof. unfold stop. auto 20 with quickapi. Qed.

Lemma start_unpassed current reference version mysql_id : keeps_unpassed (start current reference version mysql_id).
Proof. unfold start. auto 30 with quickapi. Qed.

Lemma exercise_unpassed current rollback i j : keeps_unpassed (exercise current rollback i j).
Proof.
  unfold exercise. do 3 (apply maintains_bind; [apply compose_unpassed|intros ?]). apply maintains_if; [auto with quickapi|].
  pose proof stop_unpassed. pose proof start_unpassed. auto 40 with quickapi.
Qed.

Lemma cleanup_unpassed : keeps_unpassed cleanup.
Proof.
  assert (∀ n text, keeps_unpassed (perform_ respond (WriteLog n text))) as Hw.
  { intros n text. apply maintains_bind; [by apply maintains_act|auto with quickapi]. }
  unfold cleanup. auto 20 with quickapi.
Qed.

Lemma write_result_post s h :
  post write_result (λ r s' t, s' = s ∧ ∃ x, t = [(WriteResult (record s), x)] ∧ (r = Ok tt → is_ok x = true)) s h.
Proof.
  unfold post, write_result, perform_, ContainerTests.perform, act, get, mbind, E_bind. cbn.
  destruct (respond _ _) as [x|e]; cbn; (split; [done|]); eexists; (split; [done|]); done.
Qed.

(** The record of a passed qualification, and what must then have happened. *)
Definition says_passed (a : action) : Prop :=
  match a with WriteResult r => assoc_get "passed" r = Some (JBool true) | _ => False end.

Lemma unpassed_says (t : events) a x : Forall (λ x, records_unpassed x.1) t → (a, x) ∈ t → says_passed a → False.
Proof.
  intros Hf Hin Hp. rewrite Forall_forall in Hf. specialize (Hf _ Hin). destruct a; try done. cbn in *. congruence.
Qed.

(** The preflight, with the failure it records. *)
Lemma preflight_reported current rollback source s h :
  fresh s →
  post (reraise (preflight current rollback source) (λ e, _ ← put "error" (JStr (error_text e)); write_result))
    (λ r s' t, fresh s' ∧ Forall (λ x, records_unpassed x.1) t ∧ Forall (λ x, quiet x.1) t
               ∧ ∀ x, r = Ok x → ready current rollback source t) s h.
Proof.
  intros Hs.
  assert (maintains fresh records_unpassed write_result) as Hw.
  { intros s1 h1 [Hu Ht]. eapply post_mono; [apply post_conj; [apply write_result_post|by apply write_result_unpassed]|].
    intros r s' t [[-> _] [_ ?]]. done. }
  assert (only quiet write_result) as Hq.
  { intros s1 h1. eapply post_mono; [apply write_result_post|]. intros r s' t (_ & x & -> & _). by repeat constructor. }
  assert (post (reraise (preflight current rollback source) (λ e, _ ← put "error" (JStr (error_text e)); write_result))
            (λ r _ t, ∀ x, r = Ok x → ready current rollback source t) s h) as Hr.
  { apply post_reraise. eapply post_mono; [apply preflight_post|]. intros [x|e] s1 t1 H1; [done|].
    destruct (is_Exception e); [|done]. eapply post_mono; [apply post_True|]. by intros [u|e'] s2 t2 _. }
  assert (∀ e, maintains fresh records_unpassed (_ ← put "error" (JStr (error_text e)); write_result)) as Hh
    by (intros e; apply maintains_bind; [by apply put_fresh|intros _; exact Hw]).
  assert (∀ e, only quiet (_ ← put "error" (JStr (error_text e)); write_result)) as Hhq
    by (intros e; apply only_bind; [apply only_modify|intros _; exact Hq]).
  pose proof (maintains_reraise _ _ _ _ (preflight_fresh current rollback source) Hh s h Hs) as Hm.
  pose proof (only_reraise _ _ _ (preflight_quiet current rollback source) Hhq s h) as Ho.
  pose proof (post_conj _ _ _ _ _ Hm (post_conj _ _ _ _ _ Ho Hr)) as Hall.
  eapply post_mono; [exact Hall|]. naive_solver.
Qed.

(** The exercise and its cleanup, after the preflight. *)
Lemma exercised_and_cleaned current rollback i j s h :
  fresh s →
  post (finally (reraise (exercise current rollback i j) (λ e, put "error" (JStr (error_text e)))) cleanup)
    (λ r _ t, Forall (λ x, records_unpassed x.1) t
               ∧ (r = Ok tt → exercised current rollback t) ∧ ∃ env x, (Command down_command env, x) ∈ t) s h.
Proof.
  intros [Hu Ht].
  set (p := reraise _ _).
  assert (maintains unpassed records_unpassed (finally p cleanup)) as Hm.
  { apply maintains_finally; [|apply cleanup_unpassed]. apply maintains_reraise; [apply exercise_unpassed|auto with quickapi]. }
  assert (post p (λ r _ t, r = Ok tt → exercised current rollback t) s h) as He.
  { apply post_reraise. eapply post_mono; [by apply rollback_exercise_post|]. intros [[]|e] s1 t1 H1; [done|].
    destruct (is_Exception e); [|done]. by apply post_modify. }
  assert (post (finally p cleanup) (λ r _ t, (r = Ok tt → exercised current rollback t)
            ∧ ∃ env x, (Command down_command env, x) ∈ t) s h) as Hc.
  { apply post_finally. eapply post_mono; [exact He|]. intros r s1 t1 H1. eapply post_mono; [apply rollback_cleanup_removes|].
    intros r' s2 t2 (e & x & Hin). split; [|exists e, x; set_solver]. intros Hr. destruct r'; [|done].
    by apply (exercised_app _ _ t1 []), H1. }
  pose proof (post_conj _ _ _ _ _ (Hm s h Hu) Hc) as Hall.
  eapply post_mono; [exact Hall|]. intros r s' t [[_ ?] [? ?]]. auto.
Qed.

(** What a run shows, result and trace. *)
Definition sound (current rollback source : string) (r : py unit) (t : events) : Prop :=
  (∀ t1 a x t2, t = t1 ++ (a, x) :: t2 → touches_database a = true → ready current rollback source t1)
  ∧ (Exists (λ x, touches_database x.1 = true) t → ∃ env x, (Command down_command env, x) ∈ t)
  ∧ (∀ a x, (a, x) ∈ t → says_passed a → ready current rollback source t ∧ exercised current rollback t)
  ∧ (r = Ok tt → ∃ t' a x, t = t' ++ [(a, x)] ∧ says_passed a ∧ is_ok x = true).

Lemma sound_refused current rollback source e t :
  Forall (λ x, records_unpassed x.1) t → Forall (λ x, quiet x.1) t → sound current rollback source (Err e) t.
Proof.
  intros Hu Hq. split; [|split; [|split; [|done]]].
  - intros t1 a x t2 -> Ha. apply Forall_app in Hq as [_ Hq]. apply Forall_cons in Hq as [Hq _]. unfold quiet in Hq. cbn in Hq. congruence.
  - intros (x & Hin & Hx)%Exists_exists. rewrite Forall_forall in Hq. specialize (Hq _ Hin). unfold quiet in Hq. congruence.
  - intros a x Hin Hp. destruct (unpassed_says t a x Hu Hin Hp).
Qed.

Lemma sound_run current rollback source r pre mid fin :
  Forall (λ x, quiet x.1) pre → ready current rollback source pre → Forall (λ x, records_unpassed x.1) (pre ++ mid) →
  (∃ env x, (Command down_command env, x) ∈ mid) →
  (r ≠ Ok tt ∧ fin = []
   ∨ exercised current rollback mid ∧ ∃ a x, fin = [(a, x)] ∧ quiet a ∧ says_passed a ∧ (r = Ok tt → is_ok x = true)) →
  sound current rollback source r (pre ++ mid ++ fin).
Proof.
  intros Hq Hready Hu (de & dx & Hd) Hfin. split; [|split; [|split]].
  - intros t1 a x t2 He Ha. apply app_eq_inv in He as [(k & -> & He)|(k & -> & _)].
    + destruct k as [|y k]; cbn in He; [by rewrite app_nil_r in Hready|]. injection He as <- _.
      apply Forall_app in Hq as [_ Hq]. apply Forall_cons in Hq as [Hq _]. unfold quiet in Hq. cbn in Hq. congruence.
    + by apply (ready_app _ _ _ pre []).
  - intros _. exists de, dx. set_solver.
  - intros a x Hin Hp. destruct Hfin as [[_ ->]|(Hex & _)].
    + rewrite app_nil_r in Hin. destruct (unpassed_says _ a x Hu Hin Hp).
    + split; [by apply (ready_app _ _ _ pre [])|by apply exercised_app].
  - intros Hr. destruct Hfin as [[? _]|(_ & a & x & -> & _ & ? & Hx)]; [done|]. exists (pre ++ mid), a, x.
    rewrite app_assoc. auto.
Qed.

(** A qualification touches no database before both images are known to be retained releases of
    the repository with the same migration head and different sources; once it does, it asks for
    the containers and volumes to be removed, however it ends; and it records success only after
    the images served in turn from three different containers, and then ends with that record. *)
Definition initial : locals := mkLocals [] ∅ [] [].
Theorem rollback_is_qualified current rollback source h :
  post (qualify current rollback source) (λ r _ t, sound current rollback source r t) initial h.
Proof.
  unfold qualify. apply post_bind, post_modify. set (s0 := set_record _ initial).
  assert (fresh s0) as Hs0 by done.
  apply post_bind. eapply post_mono; [apply post_conj; [apply write_result_post|by apply write_result_unpassed; apply Hs0]|].
  intros r s1 t1 [(-> & x1 & Ht1 & _) [_ Hf1]].
  assert (Forall (λ x, quiet x.1) t1) as Hq1 by (subst; by repeat constructor).
  destruct r as [[]|e]; [|by apply sound_refused].
  apply post_bind. eapply post_mono; [by apply preflight_reported|].
  intros r s2 t2 (Hs2 & Hf2 & Hq2 & Hready). destruct r as [[i j]|e];
    [|apply sound_refused; rewrite ?Forall_app; auto].
  specialize (Hready _ eq_refl). apply post_bind, post_lift.
  destruct (load_test_config _ _ _ _) as [config|e];
    [|rewrite app_nil_r; apply sound_refused; rewrite ?Forall_app; auto].
  apply post_bind, post_modify, post_bind. eapply post_mono; [by apply exercised_and_cleaned|].
  intros r s3 t3 (Hf3 & Hex & Hdown).
  assert (ready current rollback source (t1 ++ t2)) as Hready' by (pose proof (ready_app _ _ _ t2 t1 [] Hready) as Hr; by rewrite app_nil_r in Hr).
  destruct r as [[]|e].
  - apply post_bind, post_modify. eapply post_mono; [apply write_result_post|]. intros r s4 t4 (_ & x & -> & Hx).
    cbn [app]. rewrite app_assoc. apply sound_run; rewrite ?Forall_app; auto. right. split; [by apply Hex|].
    eexists _, x. split; [done|]. split; [done|]. split; [|done]. cbn. by rewrite assoc_get_set_eq.
  - cbn [app]. rewrite app_assoc. rewrite <-(app_nil_r t3). apply sound_run; rewrite ?Forall_app; auto.
Qed.
End rollback.

(** ** Example: a rollback that passes *)
Definition demo_digest (c : ascii) : string := "sha256:" +:+ String.string_of_list_ascii (repeat c 64).
Definition demo_source : string := "https://github.com/acme/quickapi".
Definition demo_current : string := "ghcr.io/acme/quickapi@" +:+ demo_digest "a"%char.
Definition demo_rollback : string := "ghcr.io/acme/quickapi@" +:+ demo_digest "b"%char.
Definition demo_programs : programs := mkPrograms "runtime" "http" "seed" "restart" "retained" "heads" "schema" "rollback" "recovery".

Definition q (s : string) : string := String.concat (String (of_octet 34) EmptyString) (split_on "'" s).
Definition demo_image (reference : string) (revision : ascii) : string :=
  q ("[{'RepoDigests': ['" +:+ reference +:+ "'], 'Config': {'User': '10001:10001', 'Labels': {"
     +:+ "'org.opencontainers.image.source': '" +:+ demo_source +:+ "', 'org.opencontainers.image.version': '1.2.3', "
     +:+ "'org.opencontainers.image.revision': '" +:+ String.string_of_list_ascii (repeat revision 40) +:+ "'}}}]").

(** The image of the last start, and how many there were. *)
Definition is_start (x : action * py answer) : option string :=
  match x.1 with
  | Command l (Some e) => if bool_decide ("--force-recreate"%string ∈ l) then e !! "ROLLBACK_ACTIVE_IMAGE" else None
  | _ => None
  end.
Definition demo_respond (h : trace action answer) (a : action) : py answer :=
  let starts := omap is_start h in
  match a with
  | Command l _ =>
      Ok (Ran 0 (if bool_decide ("{{.State.ExitCode}}"%string ∈ l) then "0"
                 else if bool_decide ("{{.Config.Image}}"%string ∈ l) then default EmptyString (last starts)
                 else if bool_decide ("heads"%string ∈ l) then q "['0003']"
                 else if bool_decide ("inspect"%string ∈ l)
                 then (if bool_decide (demo_current ∈ l) then demo_image demo_current "a"%char
                       else demo_image demo_rollback "b"%char)
                 else if bool_decide ("logs"%string ∈ l) then "Application exited (code 0)"
                 else if bool_decide ("mysql-rollback"%string ∈ l) then "mysql"
                 else if bool_decide ("ps"%string ∈ l) then "api-" +:+ pretty (length starts)
                 else EmptyString) EmptyString)
  | _ => Ok Written
  end.
Example rollback_that_passes :
  let '(r, s, t) := qualify demo_respond demo_programs "/repo" demo_environ [] (λ _, Some demo_url) lower (λ _, EmptyString)
                      (λ _, EmptyString) (λ _, EmptyString) (λ _, EmptyString) (λ _, None)
                      demo_current demo_rollback demo_source initial [] in
  r = Ok tt
  ∧ transitions s = [(demo_current, "api-1"); (demo_rollback, "api-2"); (demo_current, "api-3")]
  ∧ assoc_get "passed" (record s) = Some (JBool true).
Proof. vm_compute. repeat split. Qed.
