(* ===== verification/ImageTest.v ===== *)
(** * Qualification of a built image

    [scripts/test_image.py]: a built image serves a disposable MySQL, its container is stopped
    and replaced, and what it stored is still there. *)
From S2P Require Import Prelude PyText UnicodeText Json SecurityPolicy ReleaseSource ReleaseOci Effects TestDatabase ContainerTests.
Open Scope Z_scope.

Section image.
Context (respond : trace action answer → action → py answer).
Context (P : programs) (ROOT : string).
Context (os_environ : environment) (env_test : list (string * option string))
  (make_url : string → option URL) (str_lower : string → string) (render : URL → string).
(** [repr] of a tuple of texts, [str] of an exception and of a value, and the decimal digits
    beyond ASCII. *)
Context (repr : list string → string) (error_text : exn → string) (str_of : json → string)
  (other_digit : string → option Z).

Definition compose_command : list string :=
  ["docker"; "compose"; "--env-file"; ROOT +:+ "/.env.test"; "-p"; "quickapi-fastapi-smoke";
   "-f"; ROOT +:+ "/docker-compose.smoke.yml"].

(** [subprocess.run(check=True)]: a failure is a [CalledProcessError]. *)
Definition checked (arguments : list string) (env : option environment) : script string :=
  '(returncode, out, err) ← run respond arguments env;
  if returncode =? 0 then mret out else lift (Err (RuntimeError (out +:+ err))).
Definition compose (arguments : list string) : script string :=
  e ← get env; checked (compose_command ++ arguments) (Some e).

Definition inspect (format identifier : string) : script string :=
  out ← checked ["docker"; "inspect"; "--format"; format; identifier] None; mret (ustrip out).

Definition stop_api : script string :=
  _ ← compose ["stop"; "--timeout"; "35"; "api"];
  identifier ← compose ["ps"; "-a"; "-q"; "api"];
  exit_code ← inspect "{{.State.ExitCode}}" (ustrip identifier);
  logs ← compose ["logs"; "--no-color"; "api"];
  _ ← modify (add_log logs);
  if shut_down_cleanly exit_code logs then mret (ustrip identifier)
  else lift (Err (RuntimeError "Built-image graceful shutdown failed.")).

Definition image_id (identifier : string) : script string := inspect "{{.Image}}" identifier.

Definition in_container (program : list string) : script string :=
  compose (["exec"; "-T"; "api"; "python"] ++ program).

(** The replacement of the container and what it must keep. *)
Definition replace_container (mysql_identifier original original_image : string) : script unit :=
  _ ← compose ["up"; "-d"; "--wait"; "--no-deps"; "--force-recreate"; "api"];
  replacement ← compose ["ps"; "-q"; "api"];
  let replacement := ustrip replacement in
  if String.eqb original "" || String.eqb replacement "" || String.eqb replacement original
  then lift (Err (RuntimeError "API qualification requires a new container identity."))
  else
    new_image ← image_id replacement;
    if negb (String.eqb new_image original_image)
    then lift (Err (RuntimeError "API replacement must use the same built image."))
    else
      changed ← (if String.eqb mysql_identifier "" then mret true
                 else now ← compose ["ps"; "-q"; "mysql-smoke"]; mret (negb (String.eqb (ustrip now) mysql_identifier)));
      if changed : bool then lift (Err (RuntimeError "API replacement must preserve the running MySQL container."))
      else mret tt.

Definition exercise (image : string) : script unit :=
  identity ← checked ["docker"; "image"; "inspect"; "--format"; "{{.Config.User}}"; image] None;
  if negb (String.eqb (ustrip identity) "10001:10001")
  then lift (Err (RuntimeError "Built image must declare USER 10001:10001."))
  else
    _ ← compose ["up"; "-d"; "--wait"; "mysql-smoke"];
    _ ← compose ["run"; "--rm"; "migrate"];
    _ ← compose ["up"; "-d"; "--wait"; "api"];
    _ ← in_container ["-c"; RUNTIME_CHECKS P];
    _ ← in_container ["-c"; HTTP_CHECKS P];
    _ ← in_container ["-m"; "pip"; "check"];
    state ← in_container ["-c"; RESTART_SEED P];
    mysql ← compose ["ps"; "-q"; "mysql-smoke"];
    original ← stop_api;
    original_image ← image_id original;
    _ ← replace_container (ustrip mysql) original original_image;
    _ ← in_container ["-c"; RUNTIME_CHECKS P];
    _ ← in_container ["-c"; RESTART_CHECKS P; ustrip state];
    _ ← stop_api;
    mret tt.

(** The failure is a local the handlers set; here it is the member [error] of the record. *)
Definition note_failure (e : exn) : script unit := modify (set_record (assoc_set "error" (JStr (error_text e)))).

Definition cleanup : script unit :=
  finally
    (e ← get env;
     '(_, out, err) ← run respond (compose_command ++ ["logs"; "--no-color"; "--tail"; "100"]) (Some e);
     r ← get record;
     all ← get retained_logs;
     perform_ respond (WriteLog "production-mysql.log"
       (str str_of (get_or "error" (JStr EmptyString) r) +:+ nl +:+ String.concat nl all +:+ nl +:+ out +:+ err)))
    (_ ← compose ["down"; "--volumes"; "--remove-orphans"]; mret tt).

Definition qualify (image : string) (cleanup_only : bool) : script unit :=
  config ← lift (load_test_config make_url str_lower os_environ env_test);
  _ ← modify (set_env (<["SMOKE_IMAGE" := image]>
                (<["SMOKE_DATABASE_URL" := render (set_host_port "mysql-smoke" 3306 (url config))]>
                   (values config ∪ os_environ))));
  if cleanup_only then _ ← compose ["down"; "--volumes"; "--remove-orphans"]; mret tt
  else finally (reraise (exercise image) note_failure) cleanup.

(** An [Exception] is reported and ends the process with status 1. *)
Definition main (image : string) (cleanup : bool) : script Z := λ s h,
  match locked respond (qualify image cleanup) s h with
  | (Ok _, s', t) => (Ok 0, s', t)
  | (Err e, s', t) => (if is_Exception e then Ok 1 else Err e, s', t)
  end.

(** ** What a qualification guarantees *)
Abbreviation events := (trace action answer) (only parsing).

(** The command ended with status 0 and this output. *)
Definition answered (arguments : list string) (out : string) (t : events) : Prop :=
  ∃ env err, (Command arguments env, Ok (Ran 0 out err)) ∈ t.

Lemma answered_in arguments out t t' : t ⊆ t' → answered arguments out t → answered arguments out t'.
Proof. intros Hs (e & err & Hin). exists e, err. by apply Hs. Qed.

Lemma checked_ok arguments env (Q : py string → locals → events → Prop) s h :
  (∀ out t, answered arguments out t → Q (Ok out) s t) → (∀ e t, (∃ x t', t = (Command arguments env, x) :: t') → Q (Err e) s t) →
  post (checked arguments env) Q s h.
Proof.
  intros Hok Herr. unfold post, checked, run, perform, act, mbind, E_bind.
  destruct (respond h (Command arguments env)) as [[z out err|]|e]; cbn; [|apply Herr; eauto..].
  destruct (Z.eqb_spec z 0) as [->|]; cbn; [|apply Herr; eauto]. apply Hok. exists env, err. by left.
Qed.

Lemma compose_ok arguments (Q : py string → locals → events → Prop) s h :
  (∀ out t, answered (compose_command ++ arguments) out t → Q (Ok out) s t) → (∀ e t, Q (Err e) s t) →
  post (compose arguments) Q s h.
Proof. intros Hok Herr. unfold compose. apply post_bind, post_get. apply checked_ok; [done|]. intros e t _. apply Herr. Qed.

(** What [docker inspect] tells of a container. *)
Definition told (format identifier value : string) (t : events) : Prop :=
  ∃ out, answered ["docker"; "inspect"; "--format"; format; identifier] out t ∧ value = ustrip out.

Lemma inspect_ok format identifier (Q : py string → locals → events → Prop) s h :
  (∀ v t, told format identifier v t → Q (Ok v) s t) → (∀ e t, Q (Err e) s t) →
  post (inspect format identifier) Q s h.
Proof.
  intros Hok Herr. unfold inspect. apply post_bind, checked_ok; [|intros e t _; apply Herr].
  intros out t Ho. apply post_ret. rewrite app_nil_r. apply Hok. by exists out.
Qed.

Lemma told_in format identifier v t t' : t ⊆ t' → told format identifier v t → told format identifier v t'.
Proof. intros Hs (out & Ho & ->). exists out. split; [by apply (answered_in _ _ t)|done]. Qed.

(** A container was stopped within its time, and its process exited with status 0. *)
Lemma stop_api_post s h :
  post stop_api (λ r _ t, ∀ c, r = Ok c → told "{{.State.ExitCode}}" c "0" t) s h.
Proof.
  unfold stop_api. do 2 (apply post_bind, compose_ok; [intros ? ? _|done]).
  apply post_bind, inspect_ok; [intros code tc Hcode|done]. apply post_bind, compose_ok; [intros logs tl _|done].
  apply post_bind, post_modify. unfold shut_down_cleanly.
  destruct (String.eqb_spec code "0") as [->|]; cbn [andb]; [|by apply post_lift].
  destruct (contains _ logs); [|by apply post_lift]. apply post_ret. intros c [= <-].
  eapply told_in; [|exact Hcode]. set_solver.
Qed.

(** The replacement is another container of the same image, and MySQL was not replaced. *)
Lemma replace_container_post mysql original original_image s h :
  post (replace_container mysql original original_image)
    (λ r _ t, r = Ok tt → ∃ c out, c ≠ original ∧ told "{{.Image}}" c original_image t
        ∧ answered (compose_command ++ ["ps"; "-q"; "mysql-smoke"]) out t ∧ ustrip out = mysql) s h.
Proof.
  unfold replace_container, image_id. apply post_bind, compose_ok; [intros ? tu _|done].
  apply post_bind, compose_ok; [intros replacement tr _|done]. destruct (_ || _) eqn:Hid; [by apply post_lift|].
  apply orb_false_iff in Hid as [_ Hid]. apply String.eqb_neq in Hid.
  apply post_bind, inspect_ok; [intros new ti Hnew|done].
  destruct (String.eqb_spec new original_image) as [->|]; cbn [negb]; [|by apply post_lift].
  apply post_bind. destruct (String.eqb mysql ""); [by apply post_ret, post_lift|].
  apply post_bind, compose_ok; [intros now tn Hnow|done]. apply post_ret.
  destruct (String.eqb_spec (ustrip now) mysql) as [Hm|]; cbn [negb]; [|by apply post_lift].
  apply post_ret. intros _. exists (ustrip replacement), now. split; [done|]. split; [|split; [|done]].
  - eapply told_in; [|exact Hnew]. set_solver.
  - eapply answered_in; [|exact Hnow]. set_solver.
Qed.

(** The image survived the replacement of its container: two containers of one image id, the
    first of which exited with status 0; the same MySQL container before and after; and the
    checks of the runtime and of what was stored passed in the second. *)
Definition survived (image : string) (t : events) : Prop :=
  ∃ c1 c2 id, c1 ≠ c2 ∧ told "{{.Image}}" c1 id t ∧ told "{{.Image}}" c2 id t
    ∧ told "{{.State.ExitCode}}" c1 "0" t
    ∧ (∃ before after, answered (compose_command ++ ["ps"; "-q"; "mysql-smoke"]) before t
         ∧ answered (compose_command ++ ["ps"; "-q"; "mysql-smoke"]) after t ∧ ustrip before = ustrip after)
    ∧ (∃ user, answered ["docker"; "image"; "inspect"; "--format"; "{{.Config.User}}"; image] user t
         ∧ ustrip user = "10001:10001")
    ∧ ∃ state out, answered (compose_command ++ ["exec"; "-T"; "api"; "python"; "-c"; RESTART_CHECKS P; ustrip state]) out t
         ∧ answered (compose_command ++ ["exec"; "-T"; "api"; "python"; "-c"; RESTART_SEED P]) state t.

Lemma exercise_post image s h : post (exercise image) (λ r _ t, r = Ok tt → survived image t) s h.
Proof.
  unfold exercise, in_container, image_id. cbn [app].
  apply post_bind, checked_ok; [intros identity t1 Hidentity|done].
  destruct (String.eqb_spec (ustrip identity) "10001:10001") as [Huser|]; cbn [negb]; [|by apply post_lift].
  do 6 (apply post_bind, compose_ok; [intros ? ? _|done]).
  apply post_bind, compose_ok; [intros state ts Hstate|done].
  apply post_bind, compose_ok; [intros mysql tm Hmysql|done].
  apply post_bind. eapply post_mono; [apply stop_api_post|]. intros [c1|e] s1 tp Hc1; [|done]. specialize (Hc1 _ eq_refl).
  apply post_bind, inspect_ok; [intros id ti Hid|done].
  apply post_bind. eapply post_mono; [apply replace_container_post|]. intros [[]|e] s2 tr Hr; [|done].
  destruct (Hr eq_refl) as (c2 & now & Hne & Hc2 & Hnow & Hsame).
  apply post_bind, compose_ok; [intros ? tq _|done]. apply post_bind, compose_ok; [intros verified tc Hchecks|done].
  eapply post_mono; [apply post_True|]. intros r s3 tf _ _. exists c1, c2, id. split; [done|].
  repeat split.
  - eapply told_in; [|exact Hid]. set_solver.
  - eapply told_in; [|exact Hc2]. set_solver.
  - eapply told_in; [|exact Hc1]. set_solver.
  - exists mysql, now. split; [|split; [|done]]; (eapply answered_in; [|eassumption]); set_solver.
  - exists identity. split; [|done]. eapply answered_in; [|exact Hidentity]. set_solver.
  - exists state, verified. split; (eapply answered_in; [|eassumption]); set_solver.
Qed.

Definition down_command : list string := compose_command ++ ["down"; "--volumes"; "--remove-orphans"].

Lemma cleanup_removes s h :
  post cleanup (λ r _ t, (∃ env x, (Command down_command env, x) ∈ t)
                         ∧ (r = Ok tt → ∃ out, answered down_command out t)) s h.
Proof.
  unfold cleanup. apply post_finally. eapply post_mono; [apply post_True|]. intros r s1 t1 _.
  unfold compose. apply post_bind, post_bind, post_get, checked_ok.
  - intros out t Ho. apply post_ret. split.
    + destruct Ho as (e & err & Hin). exists e, (Ok (Ran 0 out err)). unfold down_command. set_solver.
    + intros _. exists out. eapply answered_in; [|exact Ho]. set_solver.
  - intros e t (x & t' & ->). split; [|done]. exists (Some (env s1)), x. unfold down_command. set_solver.
Qed.

(** A qualification that returns saw the image survive and the containers removed; once it has run
    a command, it has asked for the containers and volumes to be removed, however it ends. *)
Theorem image_is_qualified image s h :
  post (qualify image false)
    (λ r _ t, (r = Ok tt → survived image t ∧ ∃ out, answered down_command out t)
              ∧ (t ≠ [] → ∃ env x, (Command down_command env, x) ∈ t)) s h.
Proof.
  unfold qualify. apply post_bind, post_lift. destruct (load_test_config _ _ _ _) as [config|e]; [|done].
  apply post_bind, post_modify, post_finally. cbn [app].
  set (s0 := set_env _ s). clearbody s0. rewrite !app_nil_r.
  assert (post (reraise (exercise image) note_failure) (λ r _ t, r = Ok tt → survived image t) s0 h) as He.
  { apply post_reraise. eapply post_mono; [apply exercise_post|]. intros [[]|e] s1 t1 H1; [done|].
    destruct (is_Exception e); [|done]. by apply post_modify. }
  eapply post_mono; [exact He|]. intros r s1 t1 H1. eapply post_mono; [apply cleanup_removes|].
  intros r' s2 t2 ((de & x & Hin) & Hdown). split.
  - intros Hr. destruct r' as [[]|]; [|done]. destruct (Hdown eq_refl) as (out & Ho). split.
    + destruct (H1 Hr) as (c1 & c2 & id & ? & Ha & Hb & Hc & (b & a & Hd & Hf & ?) & (u & Hu & ?) & st & o & Hs & Hq).
      assert (t1 ⊆ t1 ++ t2) as Hsub by set_solver. exists c1, c2, id. split; [done|].
      repeat split; try (by eapply told_in). { exists b, a. split; [|split; [|done]]; by eapply answered_in. }
      { exists u. split; [by eapply answered_in|done]. } exists st, o. split; by eapply answered_in.
    + exists out. eapply answered_in; [|exact Ho]. set_solver.
  - intros _. exists de, x. set_solver.
Qed.
End image.
